(* ===== verification/_CoqProject ===== *)
-Q . S2P
Prelude.v
Text.v
Util.v
F64.v
Db.v
TrieNode.v
TrieSpec.v
TrieInsert.v
TrieQuery.v
TrieDelete.v
MerkleTrie.v
Proto.v
FnameFetcher.v
OnchainEvents.v
Block.v
Engine.v
Timers.v
Types.v
Identity.v
Proposer.v
Validator.v
Consensus.v
Gossip.v
Node.v
Cfg.v
Setup.v
Disk.v
Server.v
App.v
Tools.v
AccountMessage.v
Events.v
Store.v
StoreSpec.v
StoreIndex.v
ReactionStore.v
CastStore.v
NameRegistry.v
UserDataStore.v
VerificationStore.v
UsernameProofStore.v
LinkStore.v
Js.v
Bindings.v
Convergence.v
Retention.v
Pages.v
Samples.v
AccountTheorems.v
NameTheorems.v
OwnedIndex.v
Verifications.v
Migration.v
Usernames.v
Links.v
ContentTheorems.v
JsTheorems.v
