(* ===== verification/Prelude.v ===== *)
(** * Snapchain: verification of a node, from its storage to its start

    Snapchain nodes order messages of users into shard chunks, and shard
    chunks into blocks. A chunk carries the root of a Merkle trie over the
    hashes of all messages merged so far; consensus (the library Malachite)
    decides chunks and blocks, and a node stores what was decided. This
    development models the Rust code of [src/] from the key-value store up to
    the consensus actor, the stores that keep the messages of accounts, and the
    node around them: gossip, the actors of its shards, the server, the
    connectors, the configuration and the main loop. It proves what each layer
    promises the next.

    ** The parts and their files

    - [Prelude.v] (this file): the outcomes of Rust code ([result], with
      panics as values), a state monad whose state survives errors ([ST]),
      machine integers, byte strings with their order, big-endian encodings,
      the interface of generated encodings ([Codec]), shared tactics and
      lemmas.
    - [Text.v]: the strings of the standard library that the program uses:
      splitting, joining and decimal numbers, with their round trips.
    - [F64.v]: floating point numbers and their conversions from and to
      integers, which are exact below 2^53.
    - [Util.v]: [storage/util.rs], [storage/hub_error.rs] and the byte helpers
      of [storage/store/account/utils.rs].
    - [Db.v]: [storage/db/rocksdb.rs]. RocksDB is the interface
      [TransactionDB] with its laws; a map of byte strings is an instance.
    - [TrieNode.v]: [storage/trie/trie_node.rs], all operations on nodes.
      [TrieSpec.v] defines the set of keys a node stands for ([repr]) and the
      reference hash of a set ([spec_hash]); [TrieInsert.v], [TrieDelete.v]
      and [TrieQuery.v] prove the operations against it.
    - [MerkleTrie.v]: [storage/trie/merkle_trie.rs], the trie with its pending
      batch over the store; [trie_holds] is its abstraction.
    - [Proto.v]: the message types of the [.proto] files.
    - [Block.v]: [storage/store/block.rs] and [storage/store/shard.rs].
    - [Engine.v]: [storage/store/engine.rs], the shard and the block engine.
    - [Timers.v]: [consensus/timers.rs], composed with the mailbox of the
      actor as a step relation.
    - [Types.v] and [Identity.v]: [core/types.rs]; the second has printed
      forms and the traits of the consensus library.
    - [Proposer.v]: [consensus/proposer.rs].
    - [Validator.v]: [consensus/validator.rs].
    - [Consensus.v]: [consensus/consensus.rs], the handlers of messages and
      effects around the consensus state machine.
    - [Gossip.v]: [network/gossip.rs]. The libp2p swarm is the interface
      [SwarmOps]; a turn of the loop either publishes an event of the node or
      hands on data that arrived.
    - [Node.v]: [node/snapchain_node.rs] and the configuration and spawning of
      actors in [consensus.rs]. An actor is its state with its mailbox.
    - [Server.v]: [network/server.rs] and [utils/cli.rs], the service and a
      client that follows the blocks.
    - [App.v]: [main.rs]. The state of the process is the node and its gossip
      task; [app_step] takes one turn of any of the concurrent tasks, and the
      channels between them are queues.
    - [FnameFetcher.v]: [connectors/fname/mod.rs]. [OnchainEvents.v]:
      [connectors/onchain_events/mod.rs], with the chain's client and decoders
      as the interface [Alloy].
    - [Cfg.v]: [cfg.rs] and the checks at the start of [main.rs]; the library
      of layers is the interface [FigmentOps] with its laws. [Setup.v]:
      [bin/setup.rs], on a model of the file system. [Disk.v]: what
      [rocksdb.rs] does with files.
    - [Tools.v]: the tools of [bin/] that print blocks, send messages and
      measure, on the events of their channels and timers.
    - The account stores, of [storage/store/account/]: [AccountMessage.v]
      ([message.rs]), keys, encodings and pages of messages; [Events.v]
      ([store_event_handler.rs]), the event log; [Store.v] ([store.rs]), the
      trait [StoreDef] as a class and the store of add, remove and compact
      state messages over it.
    - [StoreSpec.v]: what a store definition has to satisfy ([StoreDefLaws]),
      the abstract store, a map from conflict keys to messages ([lww_merge]),
      and the relation between its rows and that map ([store_repr]);
      [StoreIndex.v]: the pieces that the definitions share, with their laws.
    - The definitions: [ReactionStore.v], [CastStore.v], [UserDataStore.v],
      [VerificationStore.v], [UsernameProofStore.v] and [LinkStore.v], with
      instances of the laws (the last three in [Verifications.v],
      [Usernames.v] and [Links.v]); [NameRegistry.v]:
      [name_registry_events.rs].
    - [Convergence.v] (runs of merges and lookups), [Retention.v] (revoking
      and pruning) and [Pages.v] (pages of messages) prove the generic store
      against the abstract map. [OwnedIndex.v] is for stores with conflicts
      across users: an interface [OwnedIndex] for an index from things to their
      owners, with [Verifications.v] (addresses) and [Usernames.v] (names) as
      instances; [Migration.v] builds the first index for stores that lack it.
      [Links.v] adds the compact states to the abstract store.
      [AccountTheorems.v], [NameTheorems.v] and [ContentTheorems.v] state
      further properties; [Samples.v] has the inputs of the witnesses.
    - [Js.v] and [Bindings.v]: the functions of the account stores that Node.js
      calls. Neon is the interface [Neon] of JavaScript values with
      [NeonLaws]; a promise is the rest of a computation, which runs in the
      thread pool. [JsTheorems.v] is about what a client gets.

    A definition has the name of the function it translates, with the type in
    front where two functions share a name ([RocksDB_commit],
    [shard_decide], [block_decide]). Fields of records are those of the
    structs. A method on [&mut self] is a state transformer; the objects that
    threads share behind locks are passed the same way, since every lock is
    held for the whole of one operation.

    ** What the theorems show

    - The store: committing a batch does not depend on the order in which its
      hash map yields entries; merging batches is committing in sequence; an
      iteration visits its range once and in order; clearing ends.
    - The trie: insertion is union, deletion is difference, [exists] is
      membership; the root hash is a function of the set alone, whatever the
      history of insertions, deletions, lookups, commits and rollbacks; commit
      and reload keep the set; a reload without a commit rolls back.
    - Blocks: the store refines a map from heights to blocks; the height of a
      store is the greatest stored one; reading a range ends.
    - Engines: two replicas with the same keys agree on the root of a chunk
      and both accept it, and end in the same state; proposing leaves the
      committed state alone; a chunk with a wrong root is never stored; a
      restart keeps the state.
    - Consensus: a stale timeout is discarded and a current one accepted in
      every execution; the validator set does not depend on the order of
      registration; proposers rotate fairly; votes and proposals survive the
      wire and are bound by what is signed; a height of a shard works from the
      proposal to the follower's store; a decided block is stored once;
      collecting chunks ends and yields chunks of the height; consensus is
      scheduled once; a decision starts the next height.
    - The node: it boots from any stored state of its shards with one live
      actor for each and one for the blocks; what a node broadcasts reaches the
      actor of the other node that it is for, in order, and nothing that
      arrives over the network has another effect than the outcomes listed; every
      fifth tick registers a node, and a registration joins it to the validator
      sets of its peers; a submitted message is in the next proposal of its
      shard; a follower receives every block once and in order.
    - Connectors and configuration: fetching names ends, whatever the server
      answers, and is complete for a server that answers honestly; the events of
      the chain are kept by block, exactly, and an integer that does not fit
      ends the run instead of being cut off; a setting comes
      from the first layer that has it; the configurations that [setup] writes
      start four nodes that know each other.
    - Account stores: merging refines the last writer wins; stores that merge
      the same messages in any order end with the same rows; lookups give the
      winner; a removed cast stays removed; an address has one owner across
      all users; pruning keeps the newest messages; failures change nothing;
      events are logged in order, each with an id of its time and its number;
      the latest username proof wins; messages survive storage and are stored
      by time; a page has the oldest messages of a user, and its token tells
      which.
    - Links: merging refines an abstract store of links and compact states, and
      no link survives that the compact state of its type excludes. Names: the
      proofs of all users refine a map from names to their latest proof, which
      is what a lookup by name gives. The migration of verifications builds
      exactly the index of the stored claims.
    - JavaScript: event ids arrive without loss; merging a batch is merging its
      messages one after the other, each with its own outcome; a client that
      asks for a page gets the oldest messages, or all of them and no token.
    - Tools and files: the reports of the measuring tool add up to what arrived
      between its ticks; destroying a store leaves nothing of its directory.
    - Some theorems record where the code falls short of this: links and
      compact states of one second or merged in another order, compact states
      and other link types, link types of eight bytes, rows that the migration
      leaves, urls that extend each other, the former user of a
      name; a malformed gossip message, clearing a database that is not there;
      repeated keys in a batch, a second commit without reload, the row
      that deletion removes, page tokens, the height of a shard store, the
      sentinel key.

    ** Assumptions, bounds and fuel

    - Messages of an account store are assumed complete, signed with the
      supported scheme and free of collisions of timestamp and hash ([valid],
      [collision_free]); the event log can give out ids for the run
      ([clock_ready]: fewer than 4096 events per run and times of 41 bits).
      Link types have one to seven bytes; rows that only earlier versions
      wrote ([stale]) are assumed absent; compact states are part of the link
      store alone ([NoCompaction] for the others).
    - The iteration over a prefix with three arguments, which the account
      stores call and [rocksdb.rs] does not have, is the parameter
      [PrefixIteration]. Its law is what the comments of [rocksdb.rs] say: it
      visits the keys with the prefix, in order. Nothing is assumed of an
      iteration with a page token, so what a client gets that passes on a token
      is not stated; the iterations of [rocksdb.rs] visit nothing then
      ([page_token_visits_nothing]).
    - [blake3], the encodings ([Codec]), RocksDB ([TransactionDB]), rounds
      ([RoundOps]), signatures ([SigningOps]) and the consensus state machine
      ([process] of [Consensus.v]) are parameters with their documented laws
      where a theorem needs them. Nothing is assumed of [blake3] but the
      length of its digests. The swarm and public keys ([SwarmOps],
      [PublicKeyOps]), the layers of configuration ([FigmentOps]), secret keys
      ([SecretKeyOps]), the client of the chain ([Alloy]) and the answers of
      HTTP and RPC servers (functions) are parameters in the same way; every
      interface with laws has an instance in the samples of its file.
    - The runtime of the actors delivers a message once and in order and ends an
      actor whose handler fails; tasks take turns in any order. The channels
      have no bound in the model, so a deadlock of full channels is outside it.
    - The reader of TOML ([TomlLaws]) reads a document of tables and pairs of a
      bare key with a plain string or a number as it is written; that the files
      of [setup] are such documents is proved.
    - Rust integers are [Z]; additions that can overflow panic ([add_u]),
      casts wrap ([wrap]).
    - The recursions of the trie take a bound [depth] on the depth of nodes.
      Keys have at most [L] bytes, one node per byte, so [depth] greater than
      [L] is enough: the theorems have [L + 1 <= depth] and give an outcome,
      never [OutOfFuel]. Loops over pages and clearing have a fuel of rounds
      and a proof that two rounds are enough. Fetching names has one round for
      each id up to the last and two more.
    - Time is a schedule of events ([poll_event]) or a clock reading passed as
      an argument. A schedule without its deadline ends in [OutOfFuel]; the
      theorem on collecting has the deadline in the schedule.

    ** What is not modelled

    The transport of messages (libp2p, tonic, HTTP), the parsing of command
    lines, logs and metrics are input and output; generated code and the tests
    are left out. The capacity of channels, the locks and the thread pool have
    no state in the model: every lock is held for the whole of an operation,
    and what runs in the pool is a separate computation on the state. Stores
    that share a database are not composed with each other: each store is
    proved against the rows it reads and writes. The pages that a token asks for,
    and pages in reverse order, have no law, since nothing in the sources says
    what they are. *)

From Stdlib Require Export ZArith Lia.
From stdpp Require Export base tactics numbers option strings sorting gmap list.

Lemma filter_all {A} (P : A -> Prop) `{!forall x, Decision (P x)} l : Forall P l -> filter P l = l.
Proof. induction 1 as [|x l Hx _ IH]; [done|]. by rewrite filter_cons_True, IH. Qed.

Lemma filter_none {A} (P : A -> Prop) `{!forall x, Decision (P x)} l : Forall (fun x => ~ P x) l -> filter P l = [].
Proof. induction 1 as [|x l Hx _ IH]; [done|]. by rewrite filter_cons_False. Qed.

(** ** Outcomes of Rust code

    A function that returns [Result<A, E>] yields [Ok] or [Err]; an
    [unwrap] of a missing value, an index out of range, an explicit
    [panic!] or a failed [assert!] yields [Panic]. [OutOfFuel] is not an
    outcome of the program: it marks a recursion whose fuel was too small,
    and the theorems on fuelled functions show it is never reached. *)
Inductive result (E A : Type) : Type :=
| Ok (a : A)
| Err (e : E)
| Panic
| OutOfFuel.

Arguments Ok {E A} a.
Arguments Err {E A} e.
Arguments Panic {E A}.
Arguments OutOfFuel {E A}.

#[export] Instance result_ret {E} : MRet (result E) := fun A a => Ok a.

#[export] Instance result_bind {E} : MBind (result E) := fun A B f r =>
  match r with
  | Ok a => f a
  | Err e => Err e
  | Panic => Panic
  | OutOfFuel => OutOfFuel
  end.

#[export] Instance result_fmap {E} : FMap (result E) := fun A B f r =>
  match r with
  | Ok a => Ok (f a)
  | Err e => Err e
  | Panic => Panic
  | OutOfFuel => OutOfFuel
  end.

(** [map_err]: the conversion the [?] operator applies to an error. *)
Definition map_err {E F A} (f : E -> F) (r : result E A) : result F A :=
  match r with
  | Ok a => Ok a
  | Err e => Err (f e)
  | Panic => Panic
  | OutOfFuel => OutOfFuel
  end.

(** [Option::ok_or] and [Option::unwrap]. *)
Definition ok_or {E A} (o : option A) (e : E) : result E A :=
  match o with Some a => Ok a | None => Err e end.

Definition unwrap {E A} (o : option A) : result E A :=
  match o with Some a => Ok a | None => Panic end.

(** [Result::unwrap]: an error is a panic. *)
Definition unwrap_result {E F A} (r : result E A) : result F A :=
  match r with Ok a => Ok a | Err _ => Panic | Panic => Panic | OutOfFuel => OutOfFuel end.

Definition is_ok {E A} (r : result E A) : bool :=
  match r with Ok _ => true | _ => false end.

Lemma is_ok_true {E A} (r : result E A) : is_ok r = true <-> exists a, r = Ok a.
Proof. destruct r; simpl; split; first [by intros [? ?] | by intros; eauto | done]. Qed.

Lemma bind_Ok_inv {E A B} (r : result E A) (f : A -> result E B) b :
  r ≫= f = Ok b -> exists a, r = Ok a /\ f a = Ok b.
Proof. destruct r; simpl; intros H; try discriminate; eauto. Qed.

Lemma bind_Ok_l {E A B} (a : A) (f : A -> result E B) : Ok a ≫= f = f a.
Proof. reflexivity. Qed.

(** ** A state that survives errors

    A Rust method on [&mut self] that fails half way leaves the changes it
    made before the failing statement in place. [ST S E A] is that: the
    state after the call is returned with every outcome. *)
Definition ST (S E A : Type) : Type := S -> result E A * S.

Definition st_ret {S E A} (a : A) : ST S E A := fun s => (Ok a, s).

Definition st_bind {S E A B} (m : ST S E A) (f : A -> ST S E B) : ST S E B := fun s =>
  match m s with
  | (Ok a, s') => f a s'
  | (Err e, s') => (Err e, s')
  | (Panic, s') => (Panic, s')
  | (OutOfFuel, s') => (OutOfFuel, s')
  end.

Definition st_get {S E} : ST S E S := fun s => (Ok s, s).
Definition st_put {S E} (s : S) : ST S E unit := fun _ => (Ok tt, s).
Definition st_modify {S E} (f : S -> S) : ST S E unit := fun s => (Ok tt, f s).
Definition st_lift {S E A} (r : result E A) : ST S E A := fun s => (r, s).
Definition st_map_err {S E F A} (f : E -> F) (m : ST S E A) : ST S F A := fun s =>
  let (r, s') := m s in (map_err f r, s').


(** An error as a value: the code goes on after it. *)
Definition st_attempt {S E F A} (m : ST S E A) : ST S F (E + A) := fun s =>
  match m s with
  | (Ok a, s') => (Ok (inr a), s')
  | (Err e, s') => (Ok (inl e), s')
  | (Panic, s') => (Panic, s')
  | (OutOfFuel, s') => (OutOfFuel, s')
  end.

Declare Scope st_scope.
Delimit Scope st_scope with st.
Notation "'let!' x ':=' m 'in' k" := (st_bind m (fun x => k))
  (at level 10, x pattern, m at level 100, k at level 200) : st_scope.
Notation "m ';;;' k" := (st_bind m (fun _ => k))
  (at level 100, k at level 200, right associativity) : st_scope.

Lemma st_bind_Ok {S E A B} (m : ST S E A) (f : A -> ST S E B) s a s' :
  m s = (Ok a, s') -> st_bind m f s = f a s'.
Proof. unfold st_bind. by intros ->. Qed.

Lemma st_bind_Ok_inv {S E A B} (m : ST S E A) (f : A -> ST S E B) s b s'' :
  st_bind m f s = (Ok b, s'') ->
  exists a s', m s = (Ok a, s') /\ f a s' = (Ok b, s'').
Proof. unfold st_bind. destruct (m s) as [[] s']; naive_solver. Qed.

(** ** Byte strings

    A byte is an integer between 0 and 255 and a [Vec<u8>] a list of them. *)
Abbreviation bytes := (list Z).

Definition is_byte (b : Z) : Prop := (0 <= b < 256)%Z.
Definition is_bytes (l : bytes) : Prop := Forall is_byte l.

#[export] Instance is_byte_dec b : Decision (is_byte b).
Proof. unfold is_byte. apply _. Defined.
#[export] Instance is_bytes_dec l : Decision (is_bytes l).
Proof. unfold is_bytes. apply _. Defined.

(** [wrap w z]: the value of an unsigned [w]-bit integer after wrap-around,
    and the result of a cast [z as uW]. *)
Definition wrap (w : Z) (z : Z) : Z := (z mod 2 ^ w)%Z.

(** [checked_sub]/[-] on unsigned integers when the result must not be
    negative: overflow checks make the subtraction panic. *)
Definition sub_u {E} (a b : Z) : result E Z := if (a <? b)%Z then Panic else Ok (a - b)%Z.

(** Addition on [w]-bit unsigned integers, with overflow checks. *)
Definition add_u {E} (w a b : Z) : result E Z :=
  if (a + b <? 2 ^ w)%Z then Ok (a + b)%Z else Panic.

(** [iter().sum::<u64>()] *)
Definition sum_u64 {E} (l : list Z) : result E Z := foldl (fun acc x => acc ← acc; add_u 64 acc x) (Ok 0%Z) l.

(** [v[..n]] and [v[i]] on a slice: out of range they panic. *)
Definition slice_to {E A} (v : list A) (n : nat) : result E (list A) :=
  if n <=? length v then Ok (take n v) else Panic.
Definition index {E A} (v : list A) (i : nat) : result E A := unwrap (v !! i).

(** [v[i] = x]. *)
Definition vec_set {E A} (v : list A) (i : nat) (x : A) : result E (list A) :=
  if i <? length v then Ok (<[i := x]> v) else Panic.

(** ** Third-party serialization

    [Codec A] is the protobuf encoding of a message type, produced by code
    generated at build time; [CodecLaw] is its documented behaviour, that
    decoding an encoding gives the message back. *)
Class Codec (A : Type) := {
  encode_to_vec : A -> list Z;
  decode : list Z -> result string A;
}.

Class CodecLaw (A : Type) `{Codec A} : Prop :=
  decode_encode (a : A) : decode (encode_to_vec a) = Ok a.

(** Decoding ends in a message or an error, whatever the bytes. *)
Class CodecTotal (A : Type) `{Codec A} : Prop :=
  decode_total (b : list Z) : (exists a, decode b = Ok a) \/ (exists e, decode b = Err e).

(** A codec of any countable type, to instantiate the interface. *)
Definition countable_codec (A : Type) `{Countable A} : Codec A := {|
  encode_to_vec a := [Zpos (countable.encode a)];
  decode b := match b with
              | [Zpos p] => match countable.decode p with Some a => Ok a | None => Err "malformed" end
              | _ => Err "malformed"
              end;
|}.

Lemma countable_codec_law (A : Type) `{Countable A} : @CodecLaw A (countable_codec A).
Proof. intros a. simpl. by rewrite countable.decode_encode. Qed.

Lemma countable_codec_total (A : Type) `{Countable A} : @CodecTotal A (countable_codec A).
Proof.
  intros b. destruct b as [|[|p|p] [|c b]]; try (right; by eexists). simpl.
  destruct (countable.decode p); eauto.
Qed.

(** [n.to_be_bytes()] of an integer that takes [len] bytes. *)
Fixpoint be_bytes (len : nat) (z : Z) : bytes :=
  match len with
  | O => []
  | S len' => be_bytes len' (z / 256)%Z ++ [(z mod 256)%Z]
  end.

(** The number a big-endian byte string denotes. *)
Definition be_value (l : bytes) : Z := foldl (fun acc b => acc * 256 + b)%Z 0%Z l.

Create HintDb snap.
Create Rewrite HintDb snap_len.
Create Rewrite HintDb snap_rw.

Lemma length_be_bytes len z : length (be_bytes len z) = len.
Proof. revert z. induction len as [|len IH]; intros z; simpl; [done|]. rewrite length_app, IH. simpl. lia. Qed.

Lemma is_bytes_app l k : is_bytes (l ++ k) <-> is_bytes l /\ is_bytes k.
Proof. apply Forall_app. Qed.

Lemma is_bytes_cons b l : is_bytes (b :: l) <-> is_byte b /\ is_bytes l.
Proof. apply Forall_cons_iff. Qed.

Lemma be_bytes_is_bytes len z : is_bytes (be_bytes len z).
Proof.
  revert z. induction len as [|len IH]; intros z; simpl; [constructor|].
  apply is_bytes_app. split; [apply IH|]. repeat constructor.
  all: pose proof (Z.mod_pos_bound z 256); lia.
Qed.

Lemma be_value_app l k : be_value (l ++ k) = (be_value l * 256 ^ Z.of_nat (length k) + be_value k)%Z.
Proof.
  unfold be_value. rewrite foldl_app. generalize (foldl (fun acc b => acc * 256 + b)%Z 0%Z l).
  induction k as [|b k IH] using rev_ind; intros z; simpl.
  - rewrite Z.mul_1_r. lia.
  - rewrite !foldl_app, IH, length_app, Nat2Z.inj_add. simpl foldl. simpl length.
    rewrite Z.pow_add_r by lia. change (256 ^ Z.of_nat 1)%Z with 256%Z. lia.
Qed.

Lemma be_value_cons b l : be_value (b :: l) = (b * 256 ^ Z.of_nat (length l) + be_value l)%Z.
Proof. change (b :: l) with ([b] ++ l). by rewrite be_value_app. Qed.

Lemma be_value_bounds l : is_bytes l -> (0 <= be_value l < 256 ^ Z.of_nat (length l))%Z.
Proof.
  induction l as [|b l IH]; intros Hl.
  - unfold be_value. simpl. lia.
  - apply is_bytes_cons in Hl as [Hb Hl]. rewrite be_value_cons. specialize (IH Hl).
    unfold is_byte in Hb. simpl length. rewrite Nat2Z.inj_succ, Z.pow_succ_r by lia. nia.
Qed.

Lemma be_value_be_bytes len z :
  (0 <= z < 256 ^ Z.of_nat len)%Z -> be_value (be_bytes len z) = z.
Proof.
  revert z. induction len as [|len IH]; intros z Hz.
  - simpl in *. unfold be_value. simpl. lia.
  - rewrite Nat2Z.inj_succ, Z.pow_succ_r in Hz by lia. simpl be_bytes.
    rewrite be_value_app, IH by (pose proof (Z.div_lt_upper_bound z 256 (256 ^ Z.of_nat len));
      pose proof (Z.div_pos z 256); lia).
    unfold be_value. simpl. pose proof (Z.div_mod z 256). lia.
Qed.

Lemma be_bytes_be_value l : is_bytes l -> be_bytes (length l) (be_value l) = l.
Proof.
  induction l as [|b l IH] using rev_ind; intros Hl; [done|].
  apply is_bytes_app in Hl as [Hl Hb]. apply is_bytes_cons in Hb as [Hb _].
  unfold is_byte in Hb. rewrite length_app, Nat.add_comm. simpl be_bytes.
  rewrite be_value_app. change (be_value [b]) with (0 * 256 + b)%Z.
  change (256 ^ Z.of_nat (length [b]))%Z with 256%Z.
  rewrite Z.div_add_l by lia. rewrite Z.div_small by lia. rewrite Z.add_0_r, IH by done.
  f_equal. f_equal. rewrite Z.add_comm, Z.mod_add by lia. apply Z.mod_small. lia.
Qed.

Lemma be_bytes_inj len x y :
  (0 <= x < 256 ^ Z.of_nat len)%Z -> (0 <= y < 256 ^ Z.of_nat len)%Z ->
  be_bytes len x = be_bytes len y -> x = y.
Proof. intros Hx Hy H. rewrite <- (be_value_be_bytes len x), <- (be_value_be_bytes len y) by done. by rewrite H. Qed.

#[export] Hint Resolve be_bytes_is_bytes : snap.
#[export] Hint Rewrite length_be_bytes @length_app @length_cons @length_nil : snap_len.

(** Length goals on keys built from fixed-width pieces. *)
Ltac solve_len := autorewrite with snap_len in *; simpl in *; lia.

(** A decidable fact about closed terms, by evaluation. *)
Ltac decide_now := refine (bool_decide_unpack _ _); vm_compute; exact I.

(** Case analysis on the guards of a definition. *)
Ltac case_guards :=
  repeat (case_match || case_decide || case_bool_decide); simplify_eq/=.

(** ** Text *)

(** [as_bytes] of a [String] *)
Definition string_bytes (s : string) : bytes := map (fun a => Z.of_N (Ascii.N_of_ascii a)) (String.list_ascii_of_string s).

Lemma string_bytes_inj s1 s2 : string_bytes s1 = string_bytes s2 -> s1 = s2.
Proof.
  intros E. rewrite <- (String.string_of_list_ascii_of_string s1), <- (String.string_of_list_ascii_of_string s2). f_equal.
  unfold string_bytes in E. revert E. generalize (String.list_ascii_of_string s1), (String.list_ascii_of_string s2).
  induction l as [|a l IH]; intros [|b l2] E; simplify_eq/=; [done|]. f_equal; [|by apply IH].
  rewrite <- (Ascii.ascii_N_embedding a), <- (Ascii.ascii_N_embedding b). congruence.
Qed.

(** ** Lexicographic order of byte strings *)
Fixpoint lex_compare (a b : bytes) : comparison :=
  match a, b with
  | [], [] => Eq
  | [], _ :: _ => Lt
  | _ :: _, [] => Gt
  | x :: a', y :: b' =>
      match Z.compare x y with
      | Eq => lex_compare a' b'
      | c => c
      end
  end.

Definition bytes_lt (a b : bytes) : Prop := lex_compare a b = Lt.
Definition bytes_le (a b : bytes) : Prop := lex_compare a b <> Gt.

#[export] Instance bytes_lt_dec a b : Decision (bytes_lt a b).
Proof. unfold bytes_lt. apply _. Defined.
#[export] Instance bytes_le_dec a b : Decision (bytes_le a b).
Proof. unfold bytes_le. apply _. Defined.

Lemma lex_compare_refl a : lex_compare a a = Eq.
Proof. induction a as [|x a IH]; simpl; [done|]. by rewrite Z.compare_refl. Qed.

Lemma lex_compare_eq a b : lex_compare a b = Eq <-> a = b.
Proof.
  split; [|intros ->; apply lex_compare_refl].
  revert b. induction a as [|x a IH]; intros [|y b]; simpl; try done.
  destruct (Z.compare_spec x y) as [->| |]; try done. intros H. f_equal. by apply IH.
Qed.

Lemma lex_compare_antisym a b : lex_compare b a = CompOpp (lex_compare a b).
Proof.
  revert b. induction a as [|x a IH]; intros [|y b]; simpl; try done.
  rewrite (Z.compare_antisym x y). destruct (x ?= y)%Z; simpl; auto.
Qed.

Lemma bytes_lt_trans a b c : bytes_lt a b -> bytes_lt b c -> bytes_lt a c.
Proof.
  unfold bytes_lt. revert b c. induction a as [|x a IH]; intros [|y b] [|z c]; simpl; try done.
  destruct (Z.compare_spec x y), (Z.compare_spec y z), (Z.compare_spec x z);
    intros; subst; try done; try lia; eauto.
Qed.

Lemma bytes_le_lteq a b : bytes_le a b <-> bytes_lt a b \/ a = b.
Proof.
  unfold bytes_le, bytes_lt. rewrite <- lex_compare_eq.
  destruct (lex_compare a b); naive_solver.
Qed.

Lemma bytes_lt_irrefl a : ~ bytes_lt a a.
Proof. unfold bytes_lt. by rewrite lex_compare_refl. Qed.

Lemma bytes_lt_not_le a b : bytes_lt a b <-> ~ bytes_le b a.
Proof.
  unfold bytes_lt, bytes_le. rewrite (lex_compare_antisym a b).
  destruct (lex_compare a b); naive_solver.
Qed.

#[export] Instance bytes_le_refl : Reflexive bytes_le.
Proof. intros a. apply bytes_le_lteq. by right. Qed.
#[export] Instance bytes_le_trans : Transitive bytes_le.
Proof.
  intros a b c H1%bytes_le_lteq H2%bytes_le_lteq. apply bytes_le_lteq.
  destruct H1 as [H1| ->], H2 as [H2| ->]; eauto using bytes_lt_trans.
Qed.
#[export] Instance bytes_le_antisym : AntiSymm eq bytes_le.
Proof.
  intros a b H1%bytes_le_lteq H2%bytes_le_lteq.
  destruct H1 as [H1| ->], H2 as [H2| ?]; try done.
  destruct (bytes_lt_irrefl a). eauto using bytes_lt_trans.
Qed.
#[export] Instance bytes_le_total : Total bytes_le.
Proof.
  intros a b. unfold bytes_le. rewrite (lex_compare_antisym a b).
  destruct (lex_compare a b); naive_solver.
Qed.

Lemma bytes_lt_le a b : bytes_lt a b -> bytes_le a b.
Proof. rewrite bytes_le_lteq. auto. Qed.
Lemma bytes_lt_le_trans a b c : bytes_lt a b -> bytes_le b c -> bytes_lt a c.
Proof. intros H [H2| ->]%bytes_le_lteq; eauto using bytes_lt_trans. Qed.
Lemma bytes_le_lt_trans a b c : bytes_le a b -> bytes_lt b c -> bytes_lt a c.
Proof. intros [H| ->]%bytes_le_lteq H2; eauto using bytes_lt_trans. Qed.

Lemma lex_compare_app_l p a b : lex_compare (p ++ a) (p ++ b) = lex_compare a b.
Proof. induction p as [|x p IH]; simpl; [done|]. by rewrite Z.compare_refl. Qed.

Lemma lex_compare_app a b c d :
  length a = length b ->
  lex_compare (a ++ c) (b ++ d) = match lex_compare a b with Eq => lex_compare c d | o => o end.
Proof.
  revert b. induction a as [|x a IH]; intros [|y b] Hl; simplify_eq/=; [done|].
  destruct (x ?= y)%Z; [by apply IH|done|done].
Qed.

(** On strings of one length the order is that of the numbers they denote. *)
Lemma lex_compare_be_value a b :
  is_bytes a -> is_bytes b -> length a = length b ->
  lex_compare a b = Z.compare (be_value a) (be_value b).
Proof.
  revert b. induction a as [|x a IH]; intros [|y b] Ha Hb Hlen; simplify_eq/=; [done|].
  apply is_bytes_cons in Ha as [Hx Ha], Hb as [Hy Hb].
  pose proof (be_value_bounds a Ha). pose proof (be_value_bounds b Hb).
  rewrite !be_value_cons, IH, <- Hlen by done. rewrite <- Hlen in *.
  destruct (Z.compare_spec x y) as [->|Hlt|Hgt].
  - destruct (Z.compare_spec (be_value a) (be_value b)); symmetry;
      [apply Z.compare_eq_iff|apply Z.compare_lt_iff|apply Z.compare_gt_iff]; lia.
  - symmetry. apply Z.compare_lt_iff. nia.
  - symmetry. apply Z.compare_gt_iff. nia.
Qed.

#[export] Hint Resolve bytes_lt_le bytes_lt_trans bytes_lt_le_trans bytes_le_lt_trans : snap.
