(* ===== verification/Text.v ===== *)
(** * Text

    What the program uses of Rust strings: splitting at a character, joining,
    and the decimal notation of unsigned integers ([to_string], [parse]). *)

From S2P Require Import Prelude.
From Stdlib Require Import Ascii String.
#[local] Open Scope string_scope.

(** [s.split(c)]: the pieces between the separators; a string without one is
    its own only piece. *)
Fixpoint split_char (sep : ascii) (s : string) : list string :=
  match s with
  | EmptyString => [""]
  | String c s' =>
      if Ascii.eqb c sep then "" :: split_char sep s'
      else match split_char sep s' with
           | piece :: pieces => String c piece :: pieces
           | [] => [String c ""]
           end
  end.

Definition comma : ascii := ",".

(** ** Decimal notation *)

Definition digit_value (c : ascii) : option Z :=
  let n := Z.of_N (N_of_ascii c) in
  if ((48 <=? n) && (n <=? 57))%Z then Some (n - 48)%Z else None.

(** The digits of [parse], from the left; [None] is an error: a character that
    is no digit or a number that does not fit into [w] bits. *)
Fixpoint parse_digits (w acc : Z) (s : string) : option Z :=
  match s with
  | EmptyString => Some acc
  | String c s' =>
      match digit_value c with
      | Some d => if (acc * 10 + d <? 2 ^ w)%Z then parse_digits w (acc * 10 + d) s' else None
      | None => None
      end
  end.

(** [s.parse::<uW>()]: an optional plus sign and at least one digit. *)
Definition parse_uint (w : Z) (s : string) : option Z :=
  match s with
  | EmptyString => None
  | String c EmptyString => parse_digits w 0 s
  | String c s' => if Ascii.eqb c "+" then parse_digits w 0 s' else parse_digits w 0 s
  end.

(** [n.to_string()]; [len] bounds the number of digits. *)
Definition digit_char (d : Z) : ascii := ascii_of_N (Z.to_N (d + 48)).

Fixpoint print_digits (len : nat) (n : Z) : string :=
  match len with
  | O => ""
  | S len' =>
      if (n <? 10)%Z then String (digit_char n) ""
      else print_digits len' (n / 10) ++ String (digit_char (n mod 10)) ""
  end.

(** Twenty digits are enough for 64 bits. *)
Definition print_uint (n : Z) : string := print_digits 20 n.

(** ** Round trips *)

Lemma digit_value_char d : (0 <= d < 10)%Z -> digit_value (digit_char d) = Some d.
Proof.
  intros Hd. unfold digit_value, digit_char. rewrite N_ascii_embedding by lia. rewrite Z2N.id by lia.
  rewrite (proj2 (andb_true_iff _ _)) by (rewrite !Z.leb_le; lia). f_equal. lia.
Qed.

Lemma parse_digits_app w acc s t :
  parse_digits w acc (s ++ t) = match parse_digits w acc s with Some acc' => parse_digits w acc' t | None => None end.
Proof. revert acc. induction s as [|c s IH]; intros acc; simpl; [done|]. destruct (digit_value c); [|done]. by destruct (_ <? _)%Z. Qed.

Lemma digits_bound (len : nat) n : (10 <= n < 10 ^ Z.of_nat (S len))%Z -> (0 <= n / 10 < 10 ^ Z.of_nat len)%Z.
Proof.
  intros Hn. rewrite Nat2Z.inj_succ, Z.pow_succ_r in Hn by lia.
  pose proof (Z.div_lt_upper_bound n 10 (10 ^ Z.of_nat len)). pose proof (Z.div_pos n 10). lia.
Qed.

Lemma parse_print_digits w len n :
  (0 <= n < 10 ^ Z.of_nat len)%Z -> (n < 2 ^ w)%Z -> parse_digits w 0 (print_digits len n) = Some n.
Proof.
  revert n. induction len as [|len IH]; intros n Hn Hw; [simpl in *; f_equal; lia|]. simpl print_digits.
  destruct (Z.ltb_spec n 10) as [Hs|Hb].
  - cbn [parse_digits]. rewrite digit_value_char by lia. change (0 * 10 + n)%Z with n. by rewrite (proj2 (Z.ltb_lt _ _) Hw).
  - pose proof (digits_bound len n ltac:(lia)) as Hq. pose proof (Z.div_mod n 10) as Hdm. pose proof (Z.mod_pos_bound n 10).
    rewrite parse_digits_app, IH by lia. simpl. rewrite digit_value_char by lia.
    replace (n / 10 * 10 + n mod 10)%Z with n by lia. by rewrite (proj2 (Z.ltb_lt _ _) Hw).
Qed.

(** A number is printed with at least one character, none of them a sign or a
    comma. *)
Definition is_digit (c : ascii) : Prop := digit_value c <> None.

Lemma print_digits_all len n : (0 <= n)%Z -> Forall is_digit (list_ascii_of_string (print_digits len n)).
Proof.
  revert n. induction len as [|len IH]; intros n Hn; simpl; [constructor|]. unfold is_digit.
  destruct (Z.ltb_spec n 10); simpl.
  - repeat constructor. rewrite digit_value_char by lia. discriminate.
  - pose proof (Z.mod_pos_bound n 10). assert (Ha : forall a b, list_ascii_of_string (a ++ b) = (list_ascii_of_string a ++ list_ascii_of_string b)%list).
    { induction a as [|c a IHa]; intros b; simpl; [done|]. by rewrite IHa. }
    rewrite Ha. apply Forall_app. split; [apply IH; apply Z.div_pos; lia|]. repeat constructor. rewrite digit_value_char by lia. discriminate.
Qed.

Lemma parse_uint_digits w s : s <> "" -> Forall is_digit (list_ascii_of_string s) -> parse_uint w s = parse_digits w 0 s.
Proof.
  destruct s as [|c [|c' s]]; [done|done|]. intros _ Hd. simpl in Hd. apply Forall_cons in Hd as [Hc _].
  unfold parse_uint. destruct (Ascii.eqb_spec c "+") as [->|]; [|done]. exfalso. by apply Hc.
Qed.

Lemma print_digits_nonempty len n : print_digits (S len) n <> "".
Proof. simpl. destruct (n <? 10)%Z; [done|]. destruct (print_digits len (n / 10)); simpl; discriminate. Qed.

Lemma parse_print_uint w n : (0 <= n < 2 ^ w)%Z -> (w <= 64)%Z -> parse_uint w (print_uint n) = Some n.
Proof.
  intros Hn Hw. assert (Hp : (n < 2 ^ 64)%Z).
  { apply Z.lt_le_trans with (2 ^ w)%Z; [apply Hn|]. by apply Z.pow_le_mono_r. }
  unfold print_uint. rewrite parse_uint_digits; [|apply print_digits_nonempty|apply print_digits_all; lia].
  apply parse_print_digits; [|apply Hn]. split; [apply Hn|]. apply Z.lt_trans with (2 ^ 64)%Z; [done|]. vm_compute. done.
Qed.

Lemma digit_value_bounds c d : digit_value c = Some d -> (0 <= d < 10)%Z.
Proof.
  unfold digit_value. destruct (Z.leb_spec 48 (Z.of_N (N_of_ascii c))); [|done]. destruct (Z.leb_spec (Z.of_N (N_of_ascii c)) 57); [|done].
  simpl. intros [= <-]. lia.
Qed.

Lemma parse_digits_bounds w acc s n : (0 <= acc < 2 ^ w)%Z -> parse_digits w acc s = Some n -> (0 <= n < 2 ^ w)%Z.
Proof.
  revert acc. induction s as [|c s IH]; intros acc Ha; simpl; [by intros [= <-]|].
  destruct (digit_value c) as [d|] eqn:Ed; [|done]. apply digit_value_bounds in Ed.
  destruct (Z.ltb_spec (acc * 10 + d) (2 ^ w)); [|done]. apply IH. lia.
Qed.

Lemma parse_uint_bounds w s n : (0 <= w)%Z -> parse_uint w s = Some n -> (0 <= n < 2 ^ w)%Z.
Proof.
  intros Hw. assert (Ha : (0 <= 0 < 2 ^ w)%Z) by (split; [done|by apply Z.pow_pos_nonneg]).
  unfold parse_uint. destruct s as [|c [|c' s]]; [done| |].
  - by apply parse_digits_bounds.
  - destruct (Ascii.eqb c "+"); by apply parse_digits_bounds.
Qed.

(** Splitting undoes joining, for pieces without the separator. *)
Definition free_of (sep : ascii) (s : string) : Prop := Forall (fun c => c <> sep) (list_ascii_of_string s).

Lemma split_free sep s : free_of sep s -> split_char sep s = [s].
Proof.
  unfold free_of. induction s as [|c s IH]; simpl; [done|]. intros [Hc Hs]%Forall_cons.
  destruct (Ascii.eqb_spec c sep); [done|]. by rewrite IH.
Qed.

Lemma split_app sep s t : free_of sep s -> split_char sep (s ++ String sep t) = s :: split_char sep t.
Proof.
  unfold free_of. induction s as [|c s IH]; simpl; intros Hf.
  - by rewrite Ascii.eqb_refl.
  - apply Forall_cons in Hf as [Hc Hs]. destruct (Ascii.eqb_spec c sep); [done|]. by rewrite IH.
Qed.

Lemma split_concat sep l :
  l <> [] -> Forall (free_of sep) l -> split_char sep (String.concat (String sep "") l) = l.
Proof.
  induction l as [|s [|t l] IH]; intros Hne Hf; [done| |].
  - apply Forall_cons in Hf as [Hs _]. by apply split_free.
  - apply Forall_cons in Hf as [Hs Hf]. etransitivity; [exact (split_app sep s (String.concat (String sep "") (t :: l)) Hs)|].
    by rewrite IH.
Qed.

Lemma print_uint_free n : (0 <= n)%Z -> free_of comma (print_uint n).
Proof.
  intros Hn. unfold free_of. pose proof (print_digits_all 20 n Hn) as Hd. unfold print_uint.
  induction Hd as [|c l Hc Hd IH]; constructor; [|done]. intros ->. by destruct Hc.
Qed.

Lemma substring_prefix_app s n t : String.length s <= n -> String.substring 0 n s = s /\ String.substring (String.length t) n (t +:+ s) = s.
Proof.
  intros Hn. assert (H0 : String.substring 0 n s = s).
  { revert n Hn. induction s as [|c s IH]; intros [|n] Hn; simpl in *; [done|done|exfalso; lia|]. f_equal. apply IH. lia. }
  split; [done|]. by induction t as [|c t IH].
Qed.

Lemma substring_suffix t s : String.substring (String.length t) (String.length (t +:+ s)) (t +:+ s) = s.
Proof. apply substring_prefix_app. induction t as [|c t IH]; [done|]. rewrite IH. exact (le_S _ _ (le_n _)). Qed.
