(* ===== verification/Util.v ===== *)
(** * Byte utilities

    [src/storage/util.rs], [src/storage/hub_error.rs],
    [src/storage/store/utils.rs] and the byte helpers of
    [src/storage/store/account/utils.rs]: comparison of byte strings, the
    truncated hash of the sync trie, big-endian increment and decrement, the
    root prefixes of the key space and the error type of the hub. *)

From S2P Require Import Prelude.

(** ** Errors *)

(** [HubError]. The message of a [format!] call is kept as its template. *)
Record HubError := mkHubError { code : string; message : string }.

Definition validation_failure (error_message : string) : HubError :=
  mkHubError "bad_request.validation_failure" error_message.
Definition invalid_parameter (error_message : string) : HubError :=
  mkHubError "bad_request.invalid_param" error_message.
Definition internal_db_error (error_message : string) : HubError :=
  mkHubError "db.internal_error" error_message.
Definition not_found (error_message : string) : HubError :=
  mkHubError "not_found" error_message.

(** [Display for HubError]. *)
Definition hub_error_display (e : HubError) : string :=
  (code e +:+ "/" +:+ message e)%string.

(** ** Comparison *)

(** The loop of [bytes_compare]: [Some c] is an early return of [c]. *)
Fixpoint compare_loop (a b : bytes) (range : list nat) : option Z :=
  match range with
  | [] => None
  | i :: range' =>
      if (nth i a 0 <? nth i b 0)%Z then Some (-1)%Z
      else if (nth i b 0 <? nth i a 0)%Z then Some 1%Z
      else compare_loop a b range'
  end.

Definition bytes_compare (a b : bytes) : Z :=
  let len := length a `min` length b in
  match compare_loop a b (seq 0 len) with
  | Some c => c
  | None =>
      if length a <? length b then (-1)%Z
      else if length b <? length a then 1%Z
      else 0%Z
  end.

(** ** Hashing *)
Definition BLAKE3_HASH_LEN : nat := 20.

(** [blake3_20] over the third-party hash function. *)
Definition blake3_20 (blake3 : bytes -> bytes) (input : bytes) : bytes :=
  take BLAKE3_HASH_LEN (blake3 input).

(** ** Root prefixes of the key space *)
Inductive RootPrefix :=
| User | CastsByParent | CastsByMention | LinksByTarget | ReactionsByTarget
| HubState | JobRevokeMessageBySigner | SyncMerkleTrieNode | HubCleanShutdown
| HubEvents | Network | FNameUserNameProof | UserNameProofByName | OnChainEvent
| DBSchemaVersion | VerificationByAddress | ConnectedPeers | FNameUserNameProofByFid.

(** [RootPrefix::X as u8]. *)
Definition root_prefix_u8 (p : RootPrefix) : Z :=
  match p with
  | User => 1 | CastsByParent => 2 | CastsByMention => 3 | LinksByTarget => 4
  | ReactionsByTarget => 5 | HubState => 9 | JobRevokeMessageBySigner => 10
  | SyncMerkleTrieNode => 11 | HubCleanShutdown => 14 | HubEvents => 15
  | Network => 16 | FNameUserNameProof => 17 | UserNameProofByName => 19
  | OnChainEvent => 23 | DBSchemaVersion => 24 | VerificationByAddress => 25
  | ConnectedPeers => 26 | FNameUserNameProofByFid => 27
  end%Z.

(** ** Increment and decrement *)

(** The loop of [increment_vec_u8], over the bytes from the last to the
    first; the boolean is the carry left at the end. *)
Fixpoint inc_loop (rev_bytes : bytes) : bytes * bool :=
  match rev_bytes with
  | [] => ([], true)
  | b :: rest =>
      if (b =? 255)%Z then let (rest', carry) := inc_loop rest in (0%Z :: rest', carry)
      else ((b + 1)%Z :: rest, false)
  end.

Definition increment_vec_u8 (vec : bytes) : bytes :=
  let (result, carry) := inc_loop (reverse vec) in
  if carry then 1%Z :: reverse result else reverse result.

(** The loop of [decrement_vec_u8]; the boolean is the borrow. *)
Fixpoint dec_loop (rev_bytes : bytes) : bytes * bool :=
  match rev_bytes with
  | [] => ([], true)
  | b :: rest =>
      if (b =? 0)%Z then let (rest', borrow) := dec_loop rest in (255%Z :: rest', borrow)
      else ((b - 1)%Z :: rest, false)
  end.

(** [result.pop()] drops the last byte. *)
Definition decrement_vec_u8 (vec : bytes) : bytes :=
  let (result, borrow) := dec_loop (reverse vec) in
  if borrow then removelast (reverse result) else reverse result.

(** [vec_to_u8_24]. *)
Definition vec_to_u8_24 (vec : option bytes) : result HubError bytes :=
  match vec with
  | Some v =>
      if length v =? 24 then Ok v
      else Err (mkHubError "bad_request.internal_error" "message_ts_hash is not 24 bytes: {:x?}")
  | None => Err (mkHubError "bad_request.internal_error" "message_ts_hash is not 24 bytes: None")
  end.

(** ** Lemmas *)

Definition comparison_i8 (c : comparison) : Z :=
  match c with Lt => (-1)%Z | Eq => 0%Z | Gt => 1%Z end.

Lemma compare_loop_shift x y a b n m :
  compare_loop (x :: a) (y :: b) (seq (S n) m) = compare_loop a b (seq n m).
Proof. revert n. induction m as [|m IH]; intros n; simpl; [done|]. by rewrite IH. Qed.

Lemma bytes_compare_cons x y a b :
  bytes_compare (x :: a) (y :: b) =
  match (x ?= y)%Z with Eq => bytes_compare a b | c => comparison_i8 c end.
Proof.
  unfold bytes_compare. simpl length. rewrite <- Nat.succ_min_distr.
  rewrite <- cons_seq. simpl compare_loop. rewrite compare_loop_shift.
  destruct (Z.compare_spec x y) as [->|H|H].
  - by rewrite Z.ltb_irrefl.
  - by rewrite (proj2 (Z.ltb_lt _ _) H).
  - rewrite (proj2 (Z.ltb_ge x y)) by lia. by rewrite (proj2 (Z.ltb_lt _ _) H).
Qed.

Lemma bytes_compare_lex a b : bytes_compare a b = comparison_i8 (lex_compare a b).
Proof.
  revert b. induction a as [|x a IH]; intros [|y b]; try done.
  rewrite bytes_compare_cons, IH. simpl. by destruct (x ?= y)%Z.
Qed.

Lemma bytes_compare_0 a b : bytes_compare a b = 0%Z <-> a = b.
Proof. rewrite bytes_compare_lex, <- lex_compare_eq. by destruct (lex_compare a b). Qed.

Lemma bytes_compare_eqb a b : (bytes_compare a b =? 0)%Z = bool_decide (a = b).
Proof.
  apply eq_bool_prop_intro. rewrite !Is_true_true, Z.eqb_eq, bytes_compare_0.
  by rewrite bool_decide_eq_true.
Qed.

Lemma be_value_reverse_cons b l :
  be_value (reverse (b :: l)) = (be_value (reverse l) * 256 + b)%Z.
Proof. rewrite reverse_cons, be_value_app. done. Qed.

Lemma inc_loop_spec r r' carry :
  is_bytes r -> inc_loop r = (r', carry) ->
  is_bytes r' /\ length r' = length r /\
  (be_value (reverse r') + (if carry then 256 ^ Z.of_nat (length r) else 0)
   = be_value (reverse r) + 1)%Z /\
  (carry = true -> be_value (reverse r') = 0%Z).
Proof.
  revert r' carry. induction r as [|b r IH]; intros r' carry Hr Hinc; simplify_eq/=.
  { split_and!; [constructor|done|unfold be_value; simpl; lia|done]. }
  apply is_bytes_cons in Hr as [Hb Hr]. unfold is_byte in Hb.
  destruct (Z.eqb_spec b 255) as [->|Hne].
  - destruct (inc_loop r) as [r1 c1] eqn:E. simplify_eq/=.
    destruct (IH r1 carry Hr eq_refl) as (H1 & H2 & H3 & H4).
    rewrite !be_value_reverse_cons. split_and!.
    + apply is_bytes_cons. split; [unfold is_byte; lia|done].
    + simpl. by rewrite H2.
    + rewrite Nat2Z.inj_succ, Z.pow_succ_r by lia. destruct carry; lia.
    + intros ->. rewrite H4 by done. lia.
  - simplify_eq/=. rewrite !be_value_reverse_cons. split_and!; try done; [|lia].
    apply is_bytes_cons. split; [unfold is_byte; lia|done].
Qed.

Lemma is_bytes_reverse l : is_bytes (reverse l) <-> is_bytes l.
Proof. unfold is_bytes. by rewrite Forall_reverse. Qed.

(** What [increment_vec_u8] computes: the successor, in the same number of
    bytes unless every byte is 255. *)
Lemma increment_value vec :
  is_bytes vec ->
  is_bytes (increment_vec_u8 vec) /\
  be_value (increment_vec_u8 vec) = (be_value vec + 1)%Z /\
  (length (increment_vec_u8 vec) = length vec \/
   be_value vec = 256 ^ Z.of_nat (length vec) - 1 /\
   length (increment_vec_u8 vec) = S (length vec))%Z.
Proof.
  intros Hv. unfold increment_vec_u8.
  destruct (inc_loop (reverse vec)) as [r c] eqn:E.
  apply inc_loop_spec in E as (H1 & H2 & H3 & H4); [|by apply is_bytes_reverse].
  rewrite length_reverse in *. rewrite reverse_involutive in H3. destruct c.
  - rewrite be_value_cons, length_reverse, H2. rewrite H4 in * by done. split_and!.
    + apply is_bytes_cons. split; [unfold is_byte; lia|]. by apply is_bytes_reverse.
    + lia.
    + right. simpl. rewrite length_reverse. lia.
  - split_and!; [by apply is_bytes_reverse|lia|left; rewrite length_reverse; lia].
Qed.

(** Unless all bytes are 255, the increment is the immediate successor among
    strings of the same length. *)
Lemma increment_successor vec k :
  is_bytes vec -> is_bytes k -> length k = length vec ->
  (be_value vec < 256 ^ Z.of_nat (length vec) - 1)%Z ->
  (bytes_lt vec k <-> bytes_le (increment_vec_u8 vec) k).
Proof.
  intros Hv Hk Hlen Hmax. destruct (increment_value vec Hv) as (H1 & H2 & [H3|[H3 _]]); [|lia].
  unfold bytes_lt, bytes_le. rewrite !lex_compare_be_value by (done || lia). rewrite H2.
  destruct (Z.compare_spec (be_value vec) (be_value k)),
    (Z.compare_spec (be_value vec + 1) (be_value k)); try done; try lia; naive_solver.
Qed.

Lemma increment_lt vec :
  is_bytes vec -> (be_value vec < 256 ^ Z.of_nat (length vec) - 1)%Z ->
  bytes_lt vec (increment_vec_u8 vec).
Proof.
  intros Hv Hmax. destruct (increment_value vec Hv) as (H1 & H2 & [H3|[H3 _]]); [|lia].
  apply increment_successor; try done.
Qed.

(** On a string of 255s only the increment is longer and, compared as a key,
    smaller than the string. *)
Lemma dec_inc_loop r r' :
  is_bytes r -> inc_loop r = (r', false) -> dec_loop r' = (r, false).
Proof.
  revert r'. induction r as [|b r IH]; intros r' Hr Hinc; simplify_eq/=.
  apply is_bytes_cons in Hr as [Hb Hr]. unfold is_byte in Hb.
  destruct (Z.eqb_spec b 255) as [->|Hne].
  - destruct (inc_loop r) as [r1 c1] eqn:E. simplify_eq/=.
    by rewrite (IH r1 Hr eq_refl).
  - simplify_eq/=. rewrite (proj2 (Z.eqb_neq (b + 1) 0)) by lia. repeat f_equal. lia.
Qed.

#[export] Hint Rewrite bytes_compare_eqb : snap_rw.

(** [bytes_compare] is a total order on byte strings: it returns only
    -1, 0 and 1, is 0 exactly on equal strings, changes sign when its
    arguments are swapped, and is transitive; it agrees with the
    lexicographic order the key-value store iterates in. *)
Theorem bytes_compare_total_order (a b c : bytes) :
  (bytes_compare a b = 0%Z <-> a = b) /\
  bytes_compare b a = (- bytes_compare a b)%Z /\
  (bytes_compare a b = (-1)%Z <-> bytes_lt a b) /\
  (bytes_compare a b = (-1)%Z -> bytes_compare b c = (-1)%Z -> bytes_compare a c = (-1)%Z).
Proof.
  rewrite bytes_compare_0, !bytes_compare_lex, (lex_compare_antisym a b).
  split_and!; [done|by destruct (lex_compare a b)|unfold bytes_lt; by destruct (lex_compare a b)|].
  intros H1 H2. assert (H : bytes_lt a c); [|unfold bytes_lt in H; by rewrite H].
  apply bytes_lt_trans with b; unfold bytes_lt.
  - by destruct (lex_compare a b).
  - by destruct (lex_compare b c).
Qed.

(** [increment_vec_u8] adds one to the big-endian number the bytes
    denote and keeps the length, except on a string of 255s, which grows by a
    byte; and on every other string the result is the least key of the same
    length above the input, so an iteration that starts there resumes right
    after a page token. *)
Theorem increment_is_page_successor (vec k : bytes)
  (Hv : is_bytes vec) (Hk : is_bytes k) (Hlen : length k = length vec) :
  be_value (increment_vec_u8 vec) = (be_value vec + 1)%Z /\
  ((be_value vec < 256 ^ Z.of_nat (length vec) - 1)%Z ->
   length (increment_vec_u8 vec) = length vec /\
   (bytes_lt vec k <-> bytes_le (increment_vec_u8 vec) k)).
Proof.
  destruct (increment_value vec Hv) as (_ & H2 & H3).
  split; [done|]. intros Hmax. split; [lia|]. by apply increment_successor.
Qed.

Lemma increment_is_page_successor_witness :
  increment_vec_u8 [1; 0; 255]%Z = [1; 1; 0]%Z /\
  bytes_le (increment_vec_u8 [1; 0; 255]%Z) [1; 1; 0]%Z.
Proof.
  split; [reflexivity|].
  destruct (increment_is_page_successor [1; 0; 255]%Z [1; 1; 0]%Z) as [_ H];
    [decide_now|decide_now|reflexivity|].
  apply H; reflexivity.
Defined.

(** [decrement_vec_u8] undoes [increment_vec_u8] on every string that is
    not made of 255s. *)
Theorem decrement_increment (vec : bytes)
  (Hv : is_bytes vec) (Hmax : (be_value vec < 256 ^ Z.of_nat (length vec) - 1)%Z) :
  decrement_vec_u8 (increment_vec_u8 vec) = vec.
Proof.
  unfold increment_vec_u8. destruct (inc_loop (reverse vec)) as [r c] eqn:E.
  pose proof E as E'. apply inc_loop_spec in E' as (_ & _ & H3 & H4); [|by apply is_bytes_reverse].
  rewrite length_reverse, reverse_involutive in H3. destruct c; [rewrite H4 in H3 by done; lia|].
  unfold decrement_vec_u8. rewrite reverse_involutive.
  rewrite (dec_inc_loop (reverse vec) r) by (by try apply is_bytes_reverse).
  apply reverse_involutive.
Qed.

Lemma decrement_increment_witness : decrement_vec_u8 (increment_vec_u8 [7; 255; 255]%Z) = [7; 255; 255]%Z.
Proof. apply decrement_increment; [decide_now|reflexivity]. Defined.
