(* ===== verification/F64.v ===== *)
(** * Floating point numbers

    What the program uses of [f64]: quotients of integers in the tools, and the
    numbers of JavaScript at the bindings. They are the numbers of
    [SpecFloat], with a mantissa of 53 bits; [as] truncates and saturates. *)

From S2P Require Import Prelude.
From Stdlib Require Export SpecFloat.
#[local] Open Scope Z_scope.

Definition f64 : Type := spec_float.

(** [n as f64], for an integer. *)
Definition f64_of_Z (n : Z) : f64 := binary_normalize 53 1024 n 0 false.

Definition f64_div : f64 -> f64 -> f64 := SFdiv 53 1024.

(** The magnitude without the fraction. *)
Definition truncated (m : positive) (e : Z) : Z := Z.shiftl (Zpos m) e.

(** [x as u<w>] *)
Definition as_u (w : Z) (x : f64) : Z :=
  match x with
  | S754_zero _ | S754_nan => 0
  | S754_infinity negative => if negative then 0 else 2 ^ w - 1
  | S754_finite negative m e => if negative then 0 else Z.min (truncated m e) (2 ^ w - 1)
  end.

(** [x as i<w>] *)
Definition as_i (w : Z) (x : f64) : Z :=
  match x with
  | S754_zero _ | S754_nan => 0
  | S754_infinity negative => if negative then - 2 ^ (w - 1) else 2 ^ (w - 1) - 1
  | S754_finite negative m e =>
      if negative then Z.max (- truncated m e) (- 2 ^ (w - 1)) else Z.min (truncated m e) (2 ^ (w - 1) - 1)
  end.

Lemma as_u_range w x : 0 <= w -> 0 <= as_u w x < 2 ^ w.
Proof.
  intros Hw. pose proof (Z.pow_pos_nonneg 2 w). destruct x as [s|s| |s m e]; simpl; try (destruct s); try lia.
  unfold truncated. pose proof (proj2 (Z.shiftl_nonneg (Zpos m) e) ltac:(lia)). lia.
Qed.

(** ** Integers of at most 53 bits are exact *)

Lemma digits2_bounds p : 2 ^ (Zpos (digits2_pos p) - 1) <= Zpos p < 2 ^ Zpos (digits2_pos p).
Proof.
  induction p as [p IH|p IH|]; [..|done]; cbn [digits2_pos]; rewrite Pos2Z.inj_succ;
    replace (Z.succ (Zpos (digits2_pos p)) - 1) with (Z.succ (Zpos (digits2_pos p) - 1)) by lia;
    rewrite !Z.pow_succ_r by lia; lia.
Qed.

Lemma digits2_le p n : 0 <= n -> Zpos p < 2 ^ n -> Zpos (digits2_pos p) <= n.
Proof.
  intros Hn Hp. pose proof (digits2_bounds p) as [Hlo _].
  assert (Zpos (digits2_pos p) - 1 < n); [|lia].
  apply (Z.pow_lt_mono_r_iff 2); lia.
Qed.

Lemma iter_xO p k : Zpos (Pos.iter xO p k) = Zpos p * 2 ^ Zpos k /\
  Zpos (digits2_pos (Pos.iter xO p k)) = Zpos (digits2_pos p) + Zpos k.
Proof.
  induction k as [|k [IHv IHd]] using Pos.peano_ind; [simpl; lia|].
  rewrite Pos.iter_succ. cbn [digits2_pos]. rewrite !Pos2Z.inj_succ, IHd, Z.pow_succ_r, Pos2Z.inj_xO, IHv by lia. lia.
Qed.

Lemma fexp_53 d e : -1074 <= e -> d = 53 -> fexp 53 1024 (d + e) = e.
Proof. intros He ->. unfold fexp, emin. lia. Qed.

(** The mantissa fills the 53 bits, and nothing is rounded. *)
Lemma binary_round_exact mz ez :
  Zpos (digits2_pos mz) = 53 -> -1074 <= ez <= 971 ->
  binary_round_aux 53 1024 false (Zpos mz) ez loc_Exact = S754_finite false mz ez.
Proof.
  intros Hd He. unfold binary_round_aux, shr_fexp. cbn [Zdigits2]. rewrite (fexp_53 _ ez) by lia.
  rewrite Z.sub_diag. cbn [shr shr_m shr_record_of_loc loc_of_shr_record round_nearest_even Zdigits2].
  rewrite (fexp_53 _ ez) by lia. rewrite Z.sub_diag. cbn [shr shr_m].
  by rewrite (proj2 (Z.leb_le _ _)) by lia.
Qed.

Lemma f64_of_pos p : Zpos p < 2 ^ 53 ->
  exists mz k, f64_of_Z (Zpos p) = S754_finite false mz (- k) /\ 0 <= k /\ Zpos mz = Zpos p * 2 ^ k.
Proof.
  intros Hp. pose proof (digits2_le p 53 ltac:(lia) Hp) as Hd.
  unfold f64_of_Z, binary_normalize, binary_round. rewrite Z.add_0_r.
  assert (E : fexp 53 1024 (Zpos (digits2_pos p)) = Zpos (digits2_pos p) - 53) by (unfold fexp, emin; lia).
  rewrite E. unfold shl_align. rewrite Z.sub_0_r. destruct (Zpos (digits2_pos p) - 53) as [|k|k] eqn:Ek; [| lia |].
  - exists p, 0. rewrite binary_round_exact by lia. split_and!; [done|lia|]. by rewrite Z.mul_1_r.
  - destruct (iter_xO p k) as [Hv Hdk]. exists (Pos.iter xO p k), (Zpos k).
    rewrite binary_round_exact by lia. split_and!; [done|lia|done].
Qed.

Lemma as_u_of_Z w n : 0 <= n < 2 ^ 53 -> n < 2 ^ w -> as_u w (f64_of_Z n) = n.
Proof.
  intros Hn Hw. destruct n as [|p|p]; [done| |lia].
  destruct (f64_of_pos p ltac:(lia)) as (mz & k & -> & Hk & Hm). simpl. unfold truncated.
  rewrite Z.shiftl_div_pow2, Z.opp_involutive, Hm, Z.div_mul by lia. lia.
Qed.

Lemma f64_of_Z_inj n n' : 0 <= n < 2 ^ 53 -> 0 <= n' < 2 ^ 53 -> f64_of_Z n = f64_of_Z n' -> n = n'.
Proof. intros Hn Hn' E. rewrite <- (as_u_of_Z 53 n), <- (as_u_of_Z 53 n'), E by lia. done. Qed.

(** Above 53 bits the numbers are rounded. *)
Example f64_rounds : as_u 64 (f64_of_Z (2 ^ 53 + 1)) = 2 ^ 53.
Proof. vm_compute. reflexivity. Qed.

Example as_u_saturates : as_u 32 (f64_of_Z (2 ^ 40)) = 2 ^ 32 - 1 /\ as_u 8 (f64_of_Z (-1)) = 0 /\ as_i 32 (f64_of_Z (-7)) = -7.
Proof. vm_compute. done. Qed.
