(* ===== verification/Db.v ===== *)
(** * The key-value store

    [src/storage/db/rocksdb.rs]: the wrapper around a RocksDB transaction
    database, the write batch [RocksDbTransactionBatch], the paged iteration
    over a key range and [clear].

    RocksDB is third-party code. [TransactionDB] is the interface the wrapper
    uses and [TransactionDBLaws] its documented behaviour (a transaction
    applies its writes in order and atomically, a raw iterator with bounds
    visits the keys of the half-open range in byte order); the instance on
    [gmap] shows the laws hold of a concrete store. *)

From S2P Require Import Prelude Util.

(** ** The third-party interface *)

(** [RocksdbError]; the payloads are the texts of the wrapped errors. *)
Inductive RocksdbError :=
| InternalError (e : string)
| DecodeError (e : string)
| DbNotOpen.

(** [From<RocksdbError> for HubError]; [#[error(transparent)]] shows the
    wrapped error. *)
Definition rocksdb_to_hub_error (e : RocksdbError) : HubError :=
  mkHubError "db.internal_error"
    match e with
    | InternalError e => e
    | DecodeError e => e
    | DbNotOpen => "DB is not open"
    end.

(** A write of a transaction: [None] deletes the key. *)
Definition write_op : Type := bytes * option bytes.

Class TransactionDB (T : Type) := {
  tdb_open : string -> result string T;
  tdb_get : T -> bytes -> result string (option bytes);
  tdb_put : T -> bytes -> bytes -> result string T;
  tdb_delete : T -> bytes -> result string T;
  (** [transaction()], the puts and deletes in the given order, [commit()] *)
  tdb_commit : T -> list write_op -> result string T;
  (** the items a raw iterator with these bounds visits, ascending *)
  tdb_range : T -> bytes -> bytes -> list (bytes * bytes);
  (** [iterator(IteratorMode::Start)] *)
  tdb_iter : T -> list (bytes * bytes);
}.

(** The writes of a transaction on a finite map. *)
Definition apply_op (m : gmap bytes bytes) (op : write_op) : gmap bytes bytes :=
  match op.2 with Some v => <[op.1 := v]> m | None => delete op.1 m end.

Definition apply_ops (m : gmap bytes bytes) (ops : list write_op) : gmap bytes bytes :=
  foldl apply_op m ops.

(** The order of keys in the store. *)
Definition kv_le (x y : bytes * bytes) : Prop := bytes_le x.1 y.1.

#[export] Instance kv_le_dec x y : Decision (kv_le x y).
Proof. unfold kv_le. apply _. Defined.

Definition in_range (lower upper : bytes) (kv : bytes * bytes) : Prop :=
  bytes_le lower kv.1 /\ bytes_lt kv.1 upper.

#[export] Instance in_range_dec lower upper kv : Decision (in_range lower upper kv).
Proof. unfold in_range. apply _. Defined.

(** The items of a map with keys in [lower, upper), ascending. *)
Definition range_of (m : gmap bytes bytes) (lower upper : bytes) : list (bytes * bytes) :=
  merge_sort kv_le (filter (in_range lower upper) (map_to_list m)).

Class TransactionDBLaws (T : Type) `{TransactionDB T} := {
  tdb_map : T -> gmap bytes bytes;
  tdb_get_spec t k : tdb_get t k = Ok (tdb_map t !! k);
  tdb_put_spec t k v : exists t', tdb_put t k v = Ok t' /\ tdb_map t' = <[k := v]> (tdb_map t);
  tdb_delete_spec t k : exists t', tdb_delete t k = Ok t' /\ tdb_map t' = delete k (tdb_map t);
  tdb_commit_spec t ops :
    exists t', tdb_commit t ops = Ok t' /\ tdb_map t' = apply_ops (tdb_map t) ops;
  tdb_range_spec t lower upper : tdb_range t lower upper = range_of (tdb_map t) lower upper;
  tdb_iter_spec t : tdb_iter t = merge_sort kv_le (map_to_list (tdb_map t));
}.

(** A store that satisfies the laws. *)
#[export] Instance gmap_TransactionDB : TransactionDB (gmap bytes bytes) := {|
  tdb_open _ := Ok ∅;
  tdb_get m k := Ok (m !! k);
  tdb_put m k v := Ok (<[k := v]> m);
  tdb_delete m k := Ok (delete k m);
  tdb_commit m ops := Ok (apply_ops m ops);
  tdb_range m lower upper := range_of m lower upper;
  tdb_iter m := merge_sort kv_le (map_to_list m);
|}.

#[export, refine] Instance gmap_TransactionDBLaws : TransactionDBLaws (gmap bytes bytes) := {|
  tdb_map m := m;
|}.
Proof. all: naive_solver. Defined.

(** ** Write batches *)

(** [RocksDbTransactionBatch]: a key maps to the value to put, or to [None]
    to delete it. *)
Record RocksDbTransactionBatch := mkBatch { batch : gmap bytes (option bytes) }.

Module Batch.
Definition new : RocksDbTransactionBatch := mkBatch ∅.
Definition put (b : RocksDbTransactionBatch) (key value : bytes) : RocksDbTransactionBatch :=
  mkBatch (<[key := Some value]> (batch b)).
Definition delete (b : RocksDbTransactionBatch) (key : bytes) : RocksDbTransactionBatch :=
  mkBatch (<[key := None]> (batch b)).
(** [for (key, value) in other.batch { self.batch.insert(key, value) }] *)
Definition merge (b other : RocksDbTransactionBatch) : RocksDbTransactionBatch :=
  mkBatch (foldl (fun acc kv => <[kv.1 := kv.2]> acc) (batch b) (map_to_list (batch other))).
Definition len (b : RocksDbTransactionBatch) : nat := size (batch b).
End Batch.

(** ** The database handle *)
Record PageOptions := mkPageOptions {
  page_size : option nat;
  page_token : option bytes;
  reverse_ : bool;
}.

Definition default_page_options : PageOptions := mkPageOptions None None false.

Record IteratorOptions := mkIteratorOptions {
  iterate_lower_bound : bytes;
  iterate_upper_bound : bytes;
  iter_reverse : bool;
}.

Section RocksDB.
Context {T : Type} `{TransactionDB T}.

(** [RocksDB]: [db] is [None] while the database is closed. *)
Record RocksDB := mkRocksDB { db : option T; path : string }.

Definition RocksDB_new (path : string) : RocksDB := mkRocksDB None path.

Definition RocksDB_open (d : RocksDB) : result RocksdbError RocksDB :=
  t ← map_err InternalError (tdb_open (path d));
  Ok (mkRocksDB (Some t) (path d)).

Definition RocksDB_close (d : RocksDB) : RocksDB := mkRocksDB None (path d).

(** [self.db().as_ref().unwrap()] *)
Definition db_unwrap (d : RocksDB) : result RocksdbError T := unwrap (db d).

Definition RocksDB_get (d : RocksDB) (key : bytes) : result RocksdbError (option bytes) :=
  t ← db_unwrap d; map_err InternalError (tdb_get t key).

(** [multi_get] answers every key on its own; an error counts as absent. *)
Definition keys_exist (d : RocksDB) (keys : list bytes) : result RocksdbError (list bool) :=
  t ← db_unwrap d;
  Ok (map (fun k => match tdb_get t k with
                    | Ok (Some _) => true
                    | Ok None => false
                    | _ => false
                    end) keys).

(** The first error of the results is the error of the call; a missing key
    reads as the empty value. *)
Fixpoint get_many_results (t : T) (keys : list bytes) : result RocksdbError (list bytes) :=
  match keys with
  | [] => Ok []
  | k :: keys' =>
      v ← map_err InternalError (tdb_get t k);
      vs ← get_many_results t keys';
      Ok (default [] v :: vs)
  end.

Definition get_many (d : RocksDB) (keys : list bytes) : result RocksdbError (list bytes) :=
  t ← db_unwrap d; get_many_results t keys.

Definition RocksDB_put (d : RocksDB) (key value : bytes) : result RocksdbError RocksDB :=
  t ← db_unwrap d;
  t' ← map_err InternalError (tdb_put t key value);
  Ok (mkRocksDB (Some t') (path d)).

Definition RocksDB_del (d : RocksDB) (key : bytes) : result RocksdbError RocksDB :=
  t ← db_unwrap d;
  t' ← map_err InternalError (tdb_delete t key);
  Ok (mkRocksDB (Some t') (path d)).

Definition txn (d : RocksDB) : RocksDbTransactionBatch := Batch.new.

(** [commit]: the writes in the iteration order of the batch's hash map. *)
Definition RocksDB_commit (d : RocksDB) (b : RocksDbTransactionBatch) : result RocksdbError RocksDB :=
  match db d with
  | None => Err DbNotOpen
  | Some t =>
      t' ← map_err InternalError (tdb_commit t (map_to_list (batch b)));
      Ok (mkRocksDB (Some t') (path d))
  end.

Definition get_iterator_options (start_prefix stop_prefix : option bytes)
    (page_options : PageOptions) : IteratorOptions :=
  let start_iterator_prefix := match start_prefix with None => [] | Some prefix => prefix end in
  let stop_iterator_prefix :=
    match stop_prefix with None => replicate 32 255%Z | Some prefix => prefix end in
  let upper_bound :=
    match page_token page_options with None => stop_iterator_prefix | Some token => token end in
  let lower_bound :=
    match page_token page_options with
    | None => start_iterator_prefix
    | Some token => increment_vec_u8 token
    end in
  mkIteratorOptions lower_bound upper_bound (reverse_ page_options).

(** The loop of [for_each_iterator_by_prefix_paged] over the remaining items
    of the iterator. [A] is the state the callback captures; the callback
    answers [true] to stop. *)
Fixpoint iter_loop {A} (f : bytes -> bytes -> ST A RocksdbError bool) (page_size : option nat)
    (count : nat) (items : list (bytes * bytes)) : ST A RocksdbError bool :=
  fun a =>
  match items with
  | [] => (Ok true, a)
  | (key, value) :: items' =>
      match f key value a with
      | (Ok true, a') => (Ok false, a')
      | (Ok false, a') =>
          match page_size with
          | Some n =>
              if n <=? count + 1 then (Ok true, a')
              else iter_loop f page_size (count + 1) items' a'
          | None => iter_loop f page_size count items' a'
          end
      | (r, a') => (r, a')
      end
  end.

Definition for_each_iterator_by_prefix_paged {A} (d : RocksDB)
    (start_prefix stop_prefix : option bytes) (page_options : PageOptions)
    (f : bytes -> bytes -> ST A RocksdbError bool) : ST A RocksdbError bool :=
  let iter_opts := get_iterator_options start_prefix stop_prefix page_options in
  fun a =>
  match db d with
  | None => (Panic, a)
  | Some t =>
      let items := tdb_range t (iterate_lower_bound iter_opts) (iterate_upper_bound iter_opts) in
      let items := if iter_reverse iter_opts then reverse items else items in
      iter_loop f (page_size page_options) 0 items a
  end.

Definition for_each_iterator_by_prefix {A} (d : RocksDB)
    (start_prefix stop_prefix : option bytes) (page_options : PageOptions)
    (f : bytes -> bytes -> ST A RocksdbError bool) : ST A RocksdbError bool :=
  let unbounded_page_options :=
    mkPageOptions None (page_token page_options) (reverse_ page_options) in
  for_each_iterator_by_prefix_paged d start_prefix stop_prefix unbounded_page_options f.

(** [clear]: delete every key, until an iteration finds none. Every round
    after the first finds an empty store; [clear_fuel] rounds are allowed. *)
Fixpoint clear_loop (fuel : nat) (d : RocksDB) : result RocksdbError (Z * RocksDB) :=
  match fuel with
  | O => OutOfFuel
  | S fuel' =>
      t ← db_unwrap d;
      let items := tdb_iter t in
      let b := foldl (fun b kv => Batch.delete b kv.1) (txn d) items in
      d' ← RocksDB_commit d b;
      if length items =? 0 then Ok (0%Z, d') else clear_loop fuel' d'
  end.

Definition clear_fuel : nat := 2.
Definition RocksDB_clear (d : RocksDB) : result RocksdbError (Z * RocksDB) :=
  clear_loop clear_fuel d.

End RocksDB.

Arguments RocksDB T : clear implicits.

(** ** Key ranges *)

Definition kv_lt (x y : bytes * bytes) : Prop := bytes_lt x.1 y.1.

#[export] Instance kv_le_total : Total kv_le.
Proof. intros x y. apply (total bytes_le). Qed.
#[export] Instance kv_le_trans : Transitive kv_le.
Proof. intros x y z. apply (transitivity (R := bytes_le)). Qed.
#[export] Instance kv_lt_trans : Transitive kv_lt.
Proof. intros x y z. apply bytes_lt_trans. Qed.

Lemma elem_of_range_of m lower upper kv :
  kv ∈ range_of m lower upper <-> m !! kv.1 = Some kv.2 /\ in_range lower upper kv.
Proof.
  unfold range_of. rewrite (merge_sort_Permutation kv_le), list_elem_of_filter.
  destruct kv as [k v]. rewrite elem_of_map_to_list. naive_solver.
Qed.

Lemma range_of_NoDup m lower upper : NoDup (range_of m lower upper).*1.
Proof.
  unfold range_of. rewrite (merge_sort_Permutation kv_le).
  eapply sublist_NoDup; [apply (NoDup_fst_map_to_list m)|].
  apply fmap_sublist, sublist_filter.
Qed.

Lemma range_of_le_sorted m lower upper : StronglySorted kv_le (range_of m lower upper).
Proof. apply StronglySorted_merge_sort; apply _. Qed.

Lemma kv_le_sorted_strict l : StronglySorted kv_le l -> NoDup l.*1 -> StronglySorted kv_lt l.
Proof.
  induction 1 as [|x l Hl IH Hx]; intros Hnd; [constructor|].
  apply NoDup_cons in Hnd as [Hnin Hnd]. constructor; [by apply IH|].
  rewrite Forall_forall in *. intros y Hy. specialize (Hx y Hy).
  apply bytes_le_lteq in Hx as [Hx|Hx]; [done|].
  destruct Hnin. rewrite Hx. apply list_elem_of_fmap. eauto.
Qed.

(** The range is strictly ascending by key. *)
Lemma range_of_sorted m lower upper : StronglySorted kv_lt (range_of m lower upper).
Proof. apply kv_le_sorted_strict; [apply range_of_le_sorted|apply range_of_NoDup]. Qed.

Lemma kv_lt_sorted_le l : StronglySorted kv_lt l -> StronglySorted kv_le l.
Proof.
  induction 1 as [|x l Hl IH Hx]; constructor; [done|].
  eapply Forall_impl; [exact Hx|]. intros y Hy. by apply bytes_lt_le.
Qed.

Lemma kv_lt_sorted_NoDup l : StronglySorted kv_lt l -> NoDup l.
Proof.
  induction 1 as [|x l Hl IH Hx]; constructor; [|done].
  intros Hin. rewrite Forall_forall in Hx. eapply bytes_lt_irrefl, Hx, Hin.
Qed.

(** Strictly ascending lists with the same items are equal. *)
Lemma kv_lt_sorted_unique l1 l2 :
  StronglySorted kv_lt l1 -> StronglySorted kv_lt l2 ->
  (forall kv, kv ∈ l1 <-> kv ∈ l2) -> l1 = l2.
Proof.
  intros H1 H2 Helem.
  assert (Hp : l1 ≡ₚ l2) by (apply NoDup_Permutation; auto using kv_lt_sorted_NoDup).
  pose proof (kv_lt_sorted_le _ H1) as L1. pose proof (kv_lt_sorted_le _ H2) as L2.
  eapply (StronglySorted_unique_strong kv_le); try done.
  intros [k1 v1] [k2 v2] Hin1 Hin2%Helem Hle1 Hle2.
  assert (k1 = k2) as -> by (by apply (anti_symm bytes_le)).
  clear -H1 Hin1 Hin2.
  induction H1 as [|x l Hl IH Hx]; [by apply elem_of_nil in Hin1|].
  rewrite Forall_forall in Hx.
  apply elem_of_cons in Hin1 as [Hin1|Hin1], Hin2 as [Hin2|Hin2]; subst; [congruence| | |auto].
  - apply Hx in Hin2. by apply bytes_lt_irrefl in Hin2.
  - apply Hx in Hin1. by apply bytes_lt_irrefl in Hin1.
Qed.

Lemma range_of_unique m lower upper l :
  StronglySorted kv_lt l ->
  (forall kv, kv ∈ l <-> m !! kv.1 = Some kv.2 /\ in_range lower upper kv) ->
  range_of m lower upper = l.
Proof.
  intros Hl Helem. apply kv_lt_sorted_unique; [apply range_of_sorted|done|].
  intros kv. by rewrite elem_of_range_of, Helem.
Qed.

Lemma range_of_empty m lower upper : bytes_le upper lower -> range_of m lower upper = [].
Proof.
  intros Hle. apply range_of_unique; [constructor|]. intros kv. split; [by intros ?%elem_of_nil|].
  intros [_ [H1 H2]]. destruct (bytes_lt_irrefl kv.1). eauto with snap.
Qed.

(** ** Writes *)

Lemma apply_ops_lookup ops m k :
  NoDup ops.*1 ->
  apply_ops m ops !! k =
  match list_to_map (M := gmap bytes (option bytes)) ops !! k with
  | Some w => w
  | None => m !! k
  end.
Proof.
  revert m. induction ops as [|[k' w] ops IH]; intros m Hnd; [done|].
  apply NoDup_cons in Hnd as [Hnin Hnd]. simpl. rewrite IH by done.
  destruct (decide (k = k')) as [->|Hne].
  - rewrite lookup_insert_eq. rewrite not_elem_of_list_to_map_1 by done.
    unfold apply_op. simpl. destruct w; by rewrite ?lookup_insert_eq, ?lookup_delete_eq.
  - rewrite lookup_insert_ne by done. case_match; [done|].
    unfold apply_op. simpl. destruct w; by rewrite ?lookup_insert_ne, ?lookup_delete_ne.
Qed.

(** What committing a batch makes of the stored map. *)
Definition apply_batch (m : gmap bytes bytes) (b : RocksDbTransactionBatch) : gmap bytes bytes :=
  merge (fun old w => match w with Some v => v | None => old end) m (batch b).

Lemma lookup_apply_batch m b k :
  apply_batch m b !! k = match batch b !! k with Some w => w | None => m !! k end.
Proof. unfold apply_batch. rewrite lookup_merge. by destruct (m !! k), (batch b !! k). Qed.

Lemma apply_ops_batch m b ops :
  ops ≡ₚ map_to_list (batch b) -> apply_ops m ops = apply_batch m b.
Proof.
  intros Hp. apply map_eq. intros k. rewrite lookup_apply_batch, apply_ops_lookup.
  - erewrite (list_to_map_proper ops), list_to_map_to_list; [done| |done].
    rewrite Hp. apply NoDup_fst_map_to_list.
  - rewrite Hp. apply NoDup_fst_map_to_list.
Qed.

Lemma lookup_batch_merge b1 b2 k :
  batch (Batch.merge b1 b2) !! k =
  match batch b2 !! k with Some w => Some w | None => batch b1 !! k end.
Proof.
  unfold Batch.merge. simpl. rewrite <- (list_to_map_to_list (batch b2)) at 2.
  pose proof (NoDup_fst_map_to_list (batch b2)) as Hnd. revert Hnd.
  generalize (map_to_list (batch b2)), (batch b1). intros l. induction l as [|[k' w] l IH]; intros b Hnd.
  { done. }
  apply NoDup_cons in Hnd as [Hnin Hnd]. simpl. rewrite IH by done.
  destruct (decide (k = k')) as [->|Hne].
  - rewrite !lookup_insert_eq. by rewrite not_elem_of_list_to_map_1.
  - by rewrite !lookup_insert_ne.
Qed.

Lemma apply_batch_merge m b1 b2 :
  apply_batch m (Batch.merge b1 b2) = apply_batch (apply_batch m b1) b2.
Proof.
  apply map_eq. intros k. rewrite !lookup_apply_batch, lookup_batch_merge.
  by destruct (batch b2 !! k), (batch b1 !! k).
Qed.

Lemma apply_batch_new m : apply_batch m Batch.new = m.
Proof. apply map_eq. intros k. by rewrite lookup_apply_batch. Qed.

Lemma apply_batch_put m b k v : apply_batch m (Batch.put b k v) = <[k := v]> (apply_batch m b).
Proof.
  apply map_eq. intros k'. rewrite lookup_apply_batch. simpl.
  destruct (decide (k = k')) as [->|Hne]; [by rewrite !lookup_insert_eq|].
  by rewrite !lookup_insert_ne, lookup_apply_batch.
Qed.

Lemma apply_batch_delete m b k : apply_batch m (Batch.delete b k) = delete k (apply_batch m b).
Proof.
  apply map_eq. intros k'. rewrite lookup_apply_batch. simpl.
  destruct (decide (k = k')) as [->|Hne]; [by rewrite lookup_insert_eq, lookup_delete_eq|].
  by rewrite lookup_insert_ne, lookup_delete_ne, lookup_apply_batch.
Qed.

#[export] Hint Rewrite apply_batch_merge apply_batch_new apply_batch_put apply_batch_delete : snap_rw.

(** ** An open database and what it holds *)
Section Laws.
Context {T : Type} `{TransactionDBLaws T}.
Implicit Types (d : RocksDB T) (m : gmap bytes bytes).

(** [d] is open and its store holds [m]. *)
Definition holds d m : Prop := exists t, db d = Some t /\ tdb_map t = m.

Lemma RocksDB_get_holds d m k : holds d m -> RocksDB_get d k = Ok (m !! k).
Proof. intros (t & Ht & <-). unfold RocksDB_get, db_unwrap. rewrite Ht. simpl. by rewrite tdb_get_spec. Qed.

Lemma RocksDB_commit_holds d m b :
  holds d m -> exists d', RocksDB_commit d b = Ok d' /\ holds d' (apply_batch m b) /\ path d' = path d.
Proof.
  intros (t & Ht & <-). unfold RocksDB_commit. rewrite Ht.
  destruct (tdb_commit_spec t (map_to_list (batch b))) as (t' & E & Hm). rewrite E. simpl.
  eexists. split_and!; [done| |done]. exists t'. split; [done|]. rewrite Hm. by apply apply_ops_batch.
Qed.

Lemma RocksDB_put_holds d m k v :
  holds d m -> exists d', RocksDB_put d k v = Ok d' /\ holds d' (<[k := v]> m).
Proof.
  intros (t & Ht & <-). unfold RocksDB_put, db_unwrap. rewrite Ht. simpl.
  destruct (tdb_put_spec t k v) as (t' & E & Hm). rewrite E. simpl. eexists. split; [done|]. by exists t'.
Qed.

(** The items an iteration visits. *)
Definition visited m (start_prefix stop_prefix : option bytes) (po : PageOptions) : list (bytes * bytes) :=
  let o := get_iterator_options start_prefix stop_prefix po in
  let items := range_of m (iterate_lower_bound o) (iterate_upper_bound o) in
  if reverse_ po then reverse items else items.

Lemma for_each_paged_holds {A} d m start stop po (f : bytes -> bytes -> ST A RocksdbError bool) a :
  holds d m ->
  for_each_iterator_by_prefix_paged d start stop po f a =
  iter_loop f (page_size po) 0 (visited m start stop po) a.
Proof.
  intros (t & Ht & <-). unfold for_each_iterator_by_prefix_paged, visited. rewrite Ht. simpl.
  by rewrite tdb_range_spec.
Qed.

End Laws.

Lemma holds_gmap (m : gmap bytes bytes) path : holds (mkRocksDB (Some m) path) m.
Proof. by exists m. Qed.

#[export] Hint Resolve holds_gmap : snap.

(** ** Iteration and [clear] *)

(** A callback that never stops visits a prefix of the items: all of them,
    or as many as the page size (at least one). *)
Lemma iter_loop_fold {A} (f : bytes -> bytes -> ST A RocksdbError bool) (g : A -> bytes * bytes -> A)
    ps count items a :
  (forall k v a', f k v a' = (Ok false, g a' (k, v))) ->
  iter_loop f ps count items a =
  (Ok true, foldl g a (match ps with Some n => take (max 1 (n - count)) items | None => items end)).
Proof.
  intros Hf. revert count a. induction items as [|[k v] items IH]; intros count a; simpl.
  { destruct ps; [|done]. by rewrite take_nil. }
  rewrite Hf. destruct ps as [n|]; [|by rewrite IH].
  destruct (Nat.leb_spec n (count + 1)).
  - by replace (max 1 (n - count)) with 1 by lia.
  - rewrite IH. replace (max 1 (n - count)) with (S (n - (count + 1))) by lia.
    replace (max 1 (n - (count + 1))) with (n - (count + 1)) by lia. done.
Qed.

Lemma lookup_delete_all (items : list (bytes * bytes)) b k :
  batch (foldl (fun b kv => Batch.delete b kv.1) b items) !! k =
  if decide (k ∈ items.*1) then Some None else batch b !! k.
Proof.
  revert b. induction items as [|[k' v] items IH]; intros b; csimpl; [done|].
  rewrite IH. case_decide as Hin; case_decide as Hin'; try done.
  - destruct Hin'. set_solver.
  - apply elem_of_cons in Hin' as [->|]; [|done]. simpl. by rewrite lookup_insert_eq.
  - simpl. rewrite lookup_insert_ne; [done|]. set_solver.
Qed.

Lemma clear_round `{TransactionDBLaws T} (t : T) :
  apply_batch (tdb_map t) (foldl (fun b kv => Batch.delete b kv.1) Batch.new (tdb_iter t)) = ∅.
Proof.
  apply map_eq. intros k. rewrite lookup_apply_batch, lookup_delete_all, lookup_empty.
  case_decide as Hin; [done|]. simpl. destruct (tdb_map t !! k) as [v|] eqn:E; [|done].
  destruct Hin. rewrite tdb_iter_spec, (merge_sort_Permutation kv_le).
  apply list_elem_of_fmap. exists (k, v). split; [done|]. by apply elem_of_map_to_list.
Qed.

Lemma tdb_iter_empty `{TransactionDBLaws T} (t : T) : tdb_map t = ∅ -> tdb_iter t = [].
Proof. intros E. by rewrite tdb_iter_spec, E, map_to_list_empty. Qed.

(** ** Properties *)

(** Committing a batch has the same effect whatever order the hash map
    yields its entries in: each put key reads its value afterwards, each
    deleted key is gone and every other key is untouched. *)
Theorem commit_order_irrelevant (m : gmap bytes bytes) (b : RocksDbTransactionBatch)
    (ops : list write_op) (Hops : ops ≡ₚ map_to_list (batch b)) (k : bytes) :
  apply_ops m ops = apply_batch m b /\
  apply_ops m ops !! k =
    match batch b !! k with
    | Some (Some v) => Some v
    | Some None => None
    | None => m !! k
    end.
Proof.
  rewrite (apply_ops_batch m b ops Hops). split; [done|]. rewrite lookup_apply_batch.
  by destruct (batch b !! k) as [[]|].
Qed.

Lemma commit_order_irrelevant_witness :
  apply_ops {[ [1]%Z := [9]%Z ]} [([2]%Z, Some [7]%Z); ([1]%Z, None)] !! [1]%Z = None.
Proof.
  assert (Hp : [([2]%Z, Some [7]%Z); ([1]%Z, None)] ≡ₚ
    map_to_list (batch (Batch.delete (Batch.put Batch.new [2]%Z [7]%Z) [1]%Z))).
  { refine (bool_decide_unpack _ _). vm_compute. exact I. }
  exact (proj2 (commit_order_irrelevant {[ [1]%Z := [9]%Z ]} _ _ Hp [1]%Z)).
Defined.

(** Merging a second batch into a first and committing once equals
    committing them one after the other. *)
Theorem merge_commit_sequential `{TransactionDBLaws T} (d : RocksDB T) (m : gmap bytes bytes)
    (b1 b2 : RocksDbTransactionBatch) (Hd : holds d m) :
  exists d1 d2 d12,
    RocksDB_commit d b1 = Ok d1 /\ RocksDB_commit d1 b2 = Ok d2 /\
    RocksDB_commit d (Batch.merge b1 b2) = Ok d12 /\
    holds d2 (apply_batch (apply_batch m b1) b2) /\
    holds d12 (apply_batch (apply_batch m b1) b2).
Proof.
  destruct (RocksDB_commit_holds d m b1 Hd) as (d1 & E1 & H1 & _).
  destruct (RocksDB_commit_holds d1 _ b2 H1) as (d2 & E2 & H2 & _).
  destruct (RocksDB_commit_holds d m (Batch.merge b1 b2) Hd) as (d12 & E12 & H12 & _).
  rewrite apply_batch_merge in H12. eauto 10.
Qed.

Lemma merge_commit_sequential_witness :
  exists d1 d2 d12 : RocksDB (gmap bytes bytes),
    RocksDB_commit (mkRocksDB (Some ∅) "x") (Batch.put Batch.new [1]%Z [2]%Z) = Ok d1 /\
    RocksDB_commit d1 (Batch.delete Batch.new [1]%Z) = Ok d2 /\
    RocksDB_commit (mkRocksDB (Some ∅) "x")
      (Batch.merge (Batch.put Batch.new [1]%Z [2]%Z) (Batch.delete Batch.new [1]%Z)) = Ok d12.
Proof.
  destruct (merge_commit_sequential (mkRocksDB (Some ∅) "x") ∅ (Batch.put Batch.new [1]%Z [2]%Z)
    (Batch.delete Batch.new [1]%Z) (holds_gmap ∅ "x")) as (d1 & d2 & d12 & H1 & H2 & H3 & _).
  exists d1, d2, d12. split; [exact H1|split; [exact H2|exact H3]].
Defined.

(** An iteration whose callback never stops visits exactly the stored
    items of the half-open key range, each once, in ascending key order (in
    descending order when reversed), or the first [page_size] of them. *)
Theorem iteration_visits_range `{TransactionDBLaws T} {A : Type} (d : RocksDB T) (m : gmap bytes bytes)
    (start stop : bytes) (ps : option nat) (rev : bool)
    (f : bytes -> bytes -> ST A RocksdbError bool) (g : A -> bytes * bytes -> A) (a : A)
    (Hd : holds d m) (Hf : forall k v a', f k v a' = (Ok false, g a' (k, v))) :
  exists items : list (bytes * bytes),
    StronglySorted kv_lt items /\
    (forall kv, kv ∈ items <->
       m !! kv.1 = Some kv.2 /\ bytes_le start kv.1 /\ bytes_lt kv.1 stop) /\
    for_each_iterator_by_prefix_paged d (Some start) (Some stop) (mkPageOptions ps None rev) f a =
      (Ok true,
       foldl g a
         (let l := if rev then reverse items else items in
          match ps with Some n => take (max 1 n) l | None => l end)).
Proof.
  exists (range_of m start stop). split_and!.
  - apply range_of_sorted.
  - intros kv. apply elem_of_range_of.
  - rewrite (for_each_paged_holds d m) by done. rewrite (iter_loop_fold f g) by done.
    destruct ps; simpl; by rewrite ?Nat.sub_0_r.
Qed.

Lemma iteration_visits_range_witness :
  fst (for_each_iterator_by_prefix_paged
    (mkRocksDB (Some {[ [1]%Z := [5]%Z; [2]%Z := [6]%Z; [3]%Z := [7]%Z ]}) "x")
    (Some [1]%Z) (Some [3]%Z) (mkPageOptions None None true)
    (fun k v l => (Ok false, l ++ [k])) []) = Ok true.
Proof.
  destruct (iteration_visits_range
    (mkRocksDB (Some {[ [1]%Z := [5]%Z; [2]%Z := [6]%Z; [3]%Z := [7]%Z ]}) "x")
    {[ [1]%Z := [5]%Z; [2]%Z := [6]%Z; [3]%Z := [7]%Z ]} [1]%Z [3]%Z None true
    (fun k v l => (Ok false, l ++ [k])) (fun l kv => l ++ [kv.1]) [])
    as (items & _ & _ & E).
  - apply holds_gmap.
  - reflexivity.
  - rewrite E. reflexivity.
Defined.

(** With a page token that is not made of 255s the key range runs from
    the increment of the token up to the token itself: it is empty, and an
    iteration that resumes from a page token visits nothing, in either
    direction. *)
Theorem page_token_visits_nothing `{TransactionDBLaws T} {A : Type} (d : RocksDB T) (m : gmap bytes bytes)
    (start stop : option bytes) (ps : option nat) (rev : bool) (token : bytes)
    (f : bytes -> bytes -> ST A RocksdbError bool) (a : A)
    (Hd : holds d m) (Ht : is_bytes token)
    (Hmax : (be_value token < 256 ^ Z.of_nat (length token) - 1)%Z) :
  for_each_iterator_by_prefix_paged d start stop (mkPageOptions ps (Some token) rev) f a = (Ok true, a).
Proof.
  rewrite (for_each_paged_holds d m) by done. unfold visited. simpl.
  rewrite range_of_empty by (apply bytes_lt_le, increment_lt; done). by destruct rev.
Qed.

Lemma page_token_visits_nothing_witness :
  for_each_iterator_by_prefix_paged
    (mkRocksDB (Some {[ [1]%Z := [5]%Z; [2]%Z := [6]%Z; [3]%Z := [7]%Z ]}) "x")
    None None (mkPageOptions None (Some [1]%Z) false)
    (fun k v l => (Ok false, l ++ [k])) [] = (Ok true, []).
Proof.
  apply (page_token_visits_nothing _ {[ [1]%Z := [5]%Z; [2]%Z := [6]%Z; [3]%Z := [7]%Z ]}).
  - apply holds_gmap.
  - decide_now.
  - reflexivity.
Defined.

(** [clear] terminates within two rounds on every open database, reports
    zero deletions of its last round and leaves the store empty. *)
Theorem clear_empties `{TransactionDBLaws T} (d : RocksDB T) (m : gmap bytes bytes) (Hd : holds d m) :
  exists d', RocksDB_clear d = Ok (0%Z, d') /\ holds d' ∅.
Proof.
  unfold RocksDB_clear, clear_fuel. destruct Hd as (t & Ht & Em).
  set (b t := foldl (fun b kv => Batch.delete b kv.1) Batch.new (tdb_iter t)).
  assert (Hround : forall d t, db d = Some t -> exists d',
    RocksDB_commit d (b t) = Ok d' /\ holds d' ∅).
  { intros d1 t1 Ht1. destruct (RocksDB_commit_holds d1 (tdb_map t1) (b t1)) as (d' & E & Hd' & _);
      [by exists t1|]. exists d'. unfold b in Hd'. by rewrite clear_round in Hd'. }
  destruct (Hround d t Ht) as (d1 & E1 & t1 & Ht1 & Em1).
  destruct (Hround d1 t1 Ht1) as (d2 & E2 & Hd2).
  unfold b in *. simpl. unfold db_unwrap, txn. rewrite Ht. simpl. rewrite E1. simpl.
  destruct (length (tdb_iter t) =? 0); [by exists d1; split; [|exists t1]|].
  simpl. rewrite Ht1. simpl. rewrite E2. simpl.
  rewrite (tdb_iter_empty t1) by done. simpl. by exists d2.
Qed.

Lemma clear_empties_witness :
  exists d' : RocksDB (gmap bytes bytes),
    RocksDB_clear (mkRocksDB (Some {[ [1]%Z := [5]%Z ]}) "x") = Ok (0%Z, d') /\ holds d' ∅.
Proof. apply (clear_empties _ {[ [1]%Z := [5]%Z ]}). apply holds_gmap. Defined.
