(* ===== verification/TrieNode.v ===== *)
(** * The sync trie: nodes

    [src/storage/trie/trie_node.rs]. A node is a leaf that holds a key, or an
    inner node with a child per next byte; children are in memory or, once
    unloaded, placeholders that are read from the store on first access.
    Every operation of the file is here with its effect on the node, on the
    write batch and on the node's ancestors; [TrieSpec.v] states and proves
    what they compute. *)

From S2P Require Import Prelude Util Db.

Definition TIMESTAMP_LENGTH : nat := 10.
Definition MAX_VALUES_RETURNED_PER_CALL : nat := 1024.

(** [DbTrieNode] of [src/proto/sync_trie.proto]. *)
Record DbTrieNode := mkDbTrieNode {
  db_key : bytes;
  child_chars : list Z;
  db_items : Z;
  db_hash : bytes;
}.

#[export] Instance DbTrieNode_eq_dec : EqDecision DbTrieNode.
Proof. solve_decision. Defined.
#[export] Instance DbTrieNode_countable : Countable DbTrieNode.
Proof.
  apply (inj_countable' (fun n => (db_key n, child_chars n, db_items n, db_hash n))
    (fun '(a, b, c, d) => mkDbTrieNode a b c d)).
  by intros [].
Defined.

(** [SerializedTrieNode]: a child that is only in the store. *)
Record SerializedTrieNode := mkSerialized { serialized_hash : option bytes }.

Inductive TrieNode :=
| mkTrieNode (hash : bytes) (items : Z) (children : gmap Z TrieNodeType) (key : option bytes)
with TrieNodeType :=
| Node (n : TrieNode)
| Serialized (s : SerializedTrieNode).

(** The fields of [TrieNode]. *)
Definition hash (n : TrieNode) : bytes := let 'mkTrieNode h _ _ _ := n in h.
Definition items (n : TrieNode) : Z := let 'mkTrieNode _ i _ _ := n in i.
Definition children (n : TrieNode) : gmap Z TrieNodeType := let 'mkTrieNode _ _ c _ := n in c.
Definition key (n : TrieNode) : option bytes := let 'mkTrieNode _ _ _ k := n in k.

Definition TrieNode_new : TrieNode := mkTrieNode [] 0%Z ∅ None.

(** [TrieNode::default()] *)
Definition TrieNode_default : TrieNode := mkTrieNode [] 0%Z ∅ None.

Definition set_hash (h : bytes) (n : TrieNode) := mkTrieNode h (items n) (children n) (key n).
Definition set_items (i : Z) (n : TrieNode) := mkTrieNode (hash n) i (children n) (key n).
Definition set_children (c : gmap Z TrieNodeType) (n : TrieNode) := mkTrieNode (hash n) (items n) c (key n).
Definition set_key (k : option bytes) (n : TrieNode) := mkTrieNode (hash n) (items n) (children n) k.

(** Writing a child through the reference [get_or_load_child] returned. *)
Definition put_child (char : Z) (child : TrieNode) (n : TrieNode) : TrieNode :=
  set_children (<[char := Node child]> (children n)) n.

Definition make_primary_key (prefix : bytes) (child_char : option Z) : bytes :=
  root_prefix_u8 SyncMerkleTrieNode :: prefix ++
  match child_char with Some char => [char] | None => [] end.

(** The keys of the children, in the order the hash map yields them. *)
Definition children_keys (n : TrieNode) : list Z := elements (dom (children n)).

(** [sort]ed keys of the children. *)
Definition sorted_children (n : TrieNode) : list Z := merge_sort Z.le (children_keys n).

Definition is_leaf (n : TrieNode) : bool := bool_decide (children n = ∅).

(** [self.key.as_ref().unwrap_or(&vec![])] *)
Definition key_or_empty (n : TrieNode) : bytes := default [] (key n).

(** [value], compiled in test builds. *)
Definition value (n : TrieNode) : option bytes := if is_leaf n then key n else None.

Section Ops.
Context {T : Type} `{TransactionDB T} `{Codec DbTrieNode}.
Variable blake3 : bytes -> bytes.
Variable d : RocksDB T.

Definition serialize (node : TrieNode) : bytes :=
  encode_to_vec (mkDbTrieNode (key_or_empty node) (children_keys node)
    (wrap 32 (items node)) (hash node)).

Definition deserialize (serialized : bytes) : result HubError TrieNode :=
  db_trie_node ← map_err (fun e => invalid_parameter "Failed to decode trie node: {}") (decode serialized);
  Ok (mkTrieNode (db_hash db_trie_node) (db_items db_trie_node)
    (foldl (fun m char => <[wrap 8 char := Serialized (mkSerialized None)]> m) ∅ (child_chars db_trie_node))
    (Some (db_key db_trie_node))).

Definition get_or_load_child (prefix : bytes) (char : Z) : ST TrieNode HubError TrieNode :=
  fun self =>
  match children self !! char with
  | Some (Serialized _) =>
      let child_prefix := make_primary_key prefix (Some char) in
      match
        o ← map_err rocksdb_to_hub_error (RocksDB_get d child_prefix);
        match o with
        | Some b => unwrap_result (deserialize b)
        | None => Ok TrieNode_default
        end
      with
      | Ok child_node => (Ok child_node, put_child char child_node self)
      | r => (r, self)
      end
  | Some (Node node) => (Ok node, self)
  | None => (Err (invalid_parameter "Child {} at prefix {:?} not found"), self)
  end.

(** [get_node_from_trie] returns a reference into the trie: here the node it
    refers to, with the nodes on the way loaded into [self]. The recursion is
    on the part of [prefix] from [current_index] on. *)
Fixpoint get_node_from_trie_aux (prefix rest : bytes) (current_index : nat) :
    ST TrieNode HubError (option TrieNode) :=
  fun self =>
  match rest with
  | [] => (Ok (Some self), self)
  | char :: rest' =>
      match children self !! char with
      | None => (Ok None, self)
      | Some _ =>
          match get_or_load_child (take current_index prefix) char self with
          | (Ok child, self') =>
              let (r, child') := get_node_from_trie_aux prefix rest' (current_index + 1) child in
              (r, put_child char child' self')
          | (Err _, self') => (Ok None, self')
          | (Panic, self') => (Panic, self')
          | (OutOfFuel, self') => (OutOfFuel, self')
          end
      end
  end.

Definition get_node_from_trie (prefix : bytes) (current_index : nat) :
    ST TrieNode HubError (option TrieNode) :=
  get_node_from_trie_aux prefix (drop current_index prefix) current_index.

(** The hash [update_hash] reads for a child before it loads any. *)
Definition child_hash (child : TrieNodeType) : bytes :=
  match child with
  | Node node => hash node
  | Serialized s => match serialized_hash s with Some h => h | None => [] end
  end.

Definition child_hashes (n : TrieNode) : list (Z * bytes) :=
  map (fun char => (char, match children n !! char with Some c => child_hash c | None => [] end))
    (sorted_children n).

(** The loop that loads the children whose hash is not known. *)
Fixpoint concat_hashes_loop (prefix : bytes) (chs : list (Z * bytes)) (concat_hashes : bytes) :
    ST TrieNode HubError bytes :=
  match chs with
  | [] => st_ret concat_hashes
  | (char, h) :: chs' =>
      match h with
      | [] =>
          (let! child := get_or_load_child prefix char in
           concat_hashes_loop prefix chs' (concat_hashes ++ hash child))%st
      | _ => concat_hashes_loop prefix chs' (concat_hashes ++ h)
      end
  end.

Definition update_hash (prefix : bytes) : ST TrieNode HubError unit :=
  fun self =>
  if is_leaf self then (Ok tt, set_hash (blake3_20 blake3 (key_or_empty self)) self)
  else
    (let! concat_hashes := concat_hashes_loop prefix (child_hashes self) [] in
     st_modify (set_hash (blake3_20 blake3 concat_hashes)))%st self.

Definition put_to_txn (self : TrieNode) (txn : RocksDbTransactionBatch) (prefix : bytes) :
    RocksDbTransactionBatch :=
  Batch.put txn (make_primary_key prefix None) (serialize self).

Definition delete_to_txn (txn : RocksDbTransactionBatch) (prefix : bytes) : RocksDbTransactionBatch :=
  Batch.delete txn (make_primary_key prefix None).

(** ** State of the mutating operations: the node and the batch *)
Definition NodeTxn : Type := TrieNode * RocksDbTransactionBatch.

Definition on_node {A} (m : ST TrieNode HubError A) : ST NodeTxn HubError A :=
  fun s => let (r, n') := m s.1 in (r, (n', s.2)).

Definition modify_node (f : TrieNode -> TrieNode) : ST NodeTxn HubError unit :=
  st_modify (fun s => (f s.1, s.2)).

(** [self.put_to_txn(txn, prefix)] and [self.delete_to_txn(txn, prefix)]. *)
Definition put_self (prefix : bytes) : ST NodeTxn HubError unit :=
  st_modify (fun s => (s.1, put_to_txn s.1 s.2 prefix)).
Definition delete_self (prefix : bytes) : ST NodeTxn HubError unit :=
  st_modify (fun s => (s.1, delete_to_txn s.2 prefix)).

(** Run an operation on a child through its reference; the child it leaves is
    in [children], whatever the outcome. *)
Definition on_child {A} (char : Z) (child : TrieNode) (m : ST NodeTxn HubError A) : ST NodeTxn HubError A :=
  fun s => let '(r, (child', txn')) := m (child, s.2) in (r, (put_child char child' s.1, txn')).

(** [self.items += n] and [self.items -= n]. *)
Definition add_items (n : Z) : ST NodeTxn HubError unit :=
  (let! s := st_get in
   let! i := st_lift (add_u 64 (items s.1) n) in
   modify_node (set_items i))%st.
Definition sub_items (n : Z) : ST NodeTxn HubError unit :=
  (let! s := st_get in
   let! i := st_lift (sub_u (items s.1) n) in
   modify_node (set_items i))%st.

(** [enumerate] *)
Definition enumerate {A} (l : list A) : list (nat * A) := zip (seq 0 (length l)) l.

(** The [filter_map] of [insert] over the keys that are left when a leaf was
    reached: the keys to insert further down with their positions, and the
    results. *)
Fixpoint remaining_loop (self_key : bytes) (inserted : bool) (l : list (nat * bytes))
    (results : list bool) : result HubError (list (nat * bytes) * list bool) :=
  match l with
  | [] => Ok ([], results)
  | (i, k) :: l' =>
      if (bytes_compare self_key k =? 0)%Z then
        results' ← vec_set results i false;
        remaining_loop self_key inserted l' results'
      else
        '(rest, results') ← remaining_loop self_key inserted l' results;
        Ok ((i + if inserted then 1 else 0, k) :: rest, results')
  end.

(** The keys grouped by [key[current_index]], with their positions. *)
Fixpoint group_keys (current_index : nat) (l : list (nat * bytes))
    (grouped : gmap Z (list nat * list bytes)) : result HubError (gmap Z (list nat * list bytes)) :=
  match l with
  | [] => Ok grouped
  | (i, k) :: l' =>
      char ← index k current_index;
      let '(idxs, ks) := default ([], []) (grouped !! char) in
      group_keys current_index l' (<[char := (idxs ++ [i], ks ++ [k])]> grouped)
  end.

(** [for (i, result) in is.into_iter().zip(child_results)] *)
Fixpoint set_results (l : list (nat * bool)) (results : list bool) (successes : Z) :
    result HubError (list bool * Z) :=
  match l with
  | [] => Ok (results, successes)
  | (i, b) :: l' =>
      results' ← vec_set results i b;
      successes' ← (if b then add_u 64 successes 1 else Ok successes);
      set_results l' results' successes'
  end.

Definition key_length_exceeded : HubError := invalid_parameter "Key length exceeded".

(** [split_leaf_node], given how a child is inserted into. *)
Definition split_leaf_node_with (insert_rec : list bytes -> nat -> ST NodeTxn HubError (list bool))
    (current_index : nat) : ST NodeTxn HubError unit :=
  (let! s := st_get in
   let! k := st_lift (unwrap (key s.1)) in
   modify_node (set_key None) ;;;
   let! prefix := st_lift (slice_to k current_index) in
   let! new_child_char := st_lift (index k current_index) in
   modify_node (put_child new_child_char TrieNode_default) ;;;
   on_child new_child_char TrieNode_default (insert_rec [k] (current_index + 1)) ;;;
   on_node (update_hash prefix) ;;;
   put_self prefix)%st.

(** The loop of [insert] over the groups, given how a child is inserted into. *)
Fixpoint insert_groups (insert_rec : list bytes -> nat -> ST NodeTxn HubError (list bool))
    (prefix : bytes) (current_index : nat) (groups : list (Z * (list nat * list bytes)))
    (results : list bool) (successes : Z) : ST NodeTxn HubError (list bool * Z) :=
  match groups with
  | [] => st_ret (results, successes)
  | (char, (idxs, keys)) :: groups' =>
      (modify_node (fun n => match children n !! char with
                             | None => put_child char TrieNode_default n
                             | Some _ => n
                             end) ;;;
       let! child := on_node (get_or_load_child prefix char) in
       let! child_results := on_child char child (insert_rec keys (current_index + 1)) in
       let! (results', successes') := st_lift (set_results (zip idxs child_results) results successes) in
       insert_groups insert_rec prefix current_index groups' results' successes')%st
  end.

(** What [insert] does with a leaf at or below the timestamp: [inl] is an
    early return, [inr] the keys that go one level down. *)
Definition insert_leaf (insert_rec : list bytes -> nat -> ST NodeTxn HubError (list bool))
    (prefix : bytes) (keys : list bytes) (current_index : nat) (results : list bool) :
    ST NodeTxn HubError (list bool + list (nat * bytes) * list bool) :=
  (let! s := st_get in
   let! (inserted, keys, results) :=
     match key s.1 with
     | None =>
         let! k := st_lift (unwrap (last keys)) in
         modify_node (set_key (Some k)) ;;;
         add_items 1 ;;;
         on_node (update_hash prefix) ;;;
         put_self prefix ;;;
         let! results := st_lift (vec_set results 0 true) in
         st_ret (true, removelast keys, results)
     | Some _ => st_ret (false, keys, results)
     end in
   match keys with
   | [] => st_ret (inl results)
   | _ =>
       let! s := st_get in
       let! (remaining_keys, results) :=
         st_lift (remaining_loop (key_or_empty s.1) inserted (enumerate keys) results) in
       match remaining_keys with
       | [] => st_ret (inl results)
       | _ =>
           split_leaf_node_with insert_rec current_index ;;;
           st_ret (inr (remaining_keys, results))
       end
   end)%st.

(** What [insert] does with the keys that go one level down. *)
Definition insert_below (insert_rec : list bytes -> nat -> ST NodeTxn HubError (list bool))
    (prefix : bytes) (current_index : nat) (remaining_keys : list (nat * bytes)) (results : list bool) :
    ST NodeTxn HubError (list bool) :=
  (if existsb (fun ik => length ik.2 <=? current_index) remaining_keys
   then st_lift (Err key_length_exceeded)
   else
     let! grouped_keys := st_lift (group_keys current_index remaining_keys ∅) in
     let! (results, successes) :=
       insert_groups insert_rec prefix current_index (map_to_list grouped_keys) results 0 in
     if (0 <? successes)%Z then
       add_items successes ;;;
       on_node (update_hash prefix) ;;;
       put_self prefix ;;;
       st_ret results
     else st_ret results)%st.

(** [insert]. [fuel] bounds the depth of the recursion. *)
Fixpoint insert (fuel : nat) (keys : list bytes) (current_index : nat) {struct fuel} :
    ST NodeTxn HubError (list bool) :=
  match fuel with
  | O => st_lift OutOfFuel
  | S fuel' =>
      match keys with
      | [] => st_lift (Err (invalid_parameter "No keys to insert"))
      | key0 :: _ =>
          (let! prefix := st_lift (slice_to key0 current_index) in
           let results := map (fun _ => false) keys in
           let! s := st_get in
           let! leaf :=
             if (TIMESTAMP_LENGTH <=? current_index) && is_leaf s.1
             then insert_leaf (insert fuel') prefix keys current_index results
             else st_ret (inr (enumerate keys, results)) in
           match leaf with
           | inl results => st_ret results
           | inr (remaining_keys, results) =>
               insert_below (insert fuel') prefix current_index remaining_keys results
           end)%st
      end
  end.

(** The loop of [delete] at a leaf: the first matching key is deleted. *)
Fixpoint delete_leaf (prefix : bytes) (l : list (nat * bytes)) (results : list bool) :
    ST NodeTxn HubError (list bool) :=
  match l with
  | [] => st_ret results
  | (i, k) :: l' =>
      (let! s := st_get in
       if (bytes_compare (key_or_empty s.1) k =? 0)%Z then
         modify_node (set_key None) ;;;
         sub_items 1 ;;;
         delete_self prefix ;;;
         on_node (update_hash prefix) ;;;
         st_lift (vec_set results i true)
       else delete_leaf prefix l' results)%st
  end.

(** The loop of [delete] over the groups. *)
Fixpoint delete_groups (delete_rec : list bytes -> nat -> ST NodeTxn HubError (list bool))
    (prefix : bytes) (current_index : nat) (groups : list (Z * (list nat * list bytes)))
    (results : list bool) (successes : Z) : ST NodeTxn HubError (list bool * Z) :=
  match groups with
  | [] => st_ret (results, successes)
  | (char, (idxs, keys)) :: groups' =>
      (let! s := st_get in
       match children s.1 !! char with
       | None =>
           let! (results', _) :=
             st_lift (set_results (zip idxs (map (fun _ => false) idxs)) results successes) in
           delete_groups delete_rec prefix current_index groups' results' successes
       | Some _ =>
           let! child := on_node (get_or_load_child prefix char) in
           let! child_results := on_child char child (delete_rec keys (current_index + 1)) in
           let! s := st_get in
           let child_items :=
             match children s.1 !! char with Some (Node c) => items c | _ => 0%Z end in
           (if (child_items =? 0)%Z
            then modify_node (fun n => set_children (base.delete char (children n)) n)
            else st_ret tt) ;;;
           let! (results', successes') := st_lift (set_results (zip idxs child_results) results successes) in
           delete_groups delete_rec prefix current_index groups' results' successes'
       end)%st
  end.

(** The end of [delete] when something was deleted below an inner node. *)
Definition compact_after_delete (prefix : bytes) (current_index : nat) : ST NodeTxn HubError unit :=
  (let! s := st_get in
   (if (items s.1 =? 1)%Z && (size (children s.1) =? 1) && (TIMESTAMP_LENGTH <=? current_index) then
      let! char := st_lift (unwrap (head (children_keys s.1))) in
      let! child := on_node (get_or_load_child prefix char) in
      match key child with
      | Some k =>
          modify_node (fun n => set_children (base.delete char (children n)) (set_key (Some k) n)) ;;;
          let child_prefix := make_primary_key prefix (Some char) in
          delete_self child_prefix
      | None => st_ret tt
      end
    else st_ret tt) ;;;
   on_node (update_hash prefix) ;;;
   put_self prefix)%st.

Fixpoint delete (fuel : nat) (keys : list bytes) (current_index : nat) {struct fuel} :
    ST NodeTxn HubError (list bool) :=
  match fuel with
  | O => st_lift OutOfFuel
  | S fuel' =>
      (let! key0 := st_lift (index keys 0) in
       let! prefix := st_lift (slice_to key0 current_index) in
       let results := map (fun _ => false) keys in
       let! s := st_get in
       if is_leaf s.1 then delete_leaf prefix (enumerate keys) results
       else if existsb (fun k => length k <=? current_index) keys
       then st_lift (Err key_length_exceeded)
       else
         let! grouped_keys := st_lift (group_keys current_index (enumerate keys) ∅) in
         let! (results, successes) :=
           delete_groups (delete fuel') prefix current_index (map_to_list grouped_keys) results 0 in
         if (0 <? successes)%Z then
           sub_items successes ;;;
           let! s := st_get in
           if (items s.1 =? 0)%Z then
             delete_self prefix ;;;
             on_node (update_hash prefix) ;;;
             st_ret results
           else
             compact_after_delete prefix current_index ;;;
             st_ret results
         else st_ret results)%st
  end.

(** [exists]; the recursion is on the part of the key from [current_index]. *)
Fixpoint exists_aux (k rest : bytes) (current_index : nat) : ST TrieNode HubError bool :=
  fun self =>
  if is_leaf self then (Ok (bytes_compare (key_or_empty self) k =? 0)%Z, self)
  else
    match rest with
    | [] => (Ok false, self)
    | char :: rest' =>
        match children self !! char with
        | None => (Ok false, self)
        | Some _ =>
            match get_or_load_child (take current_index k) char self with
            | (Ok child, self') =>
                let (r, child') := exists_aux k rest' (current_index + 1) child in
                (r, put_child char child' self')
            | (Err e, self') => (Err e, self')
            | (Panic, self') => (Panic, self')
            | (OutOfFuel, self') => (OutOfFuel, self')
            end
        end
    end.

Definition exists_ (k : bytes) (current_index : nat) : ST TrieNode HubError bool :=
  exists_aux k (drop current_index k) current_index.

(** [unload_children]: children in memory become placeholders. *)
Definition unload_children (self : TrieNode) : TrieNode :=
  set_children
    (omap (fun child => match child with
                        | Node c => Some (Serialized (mkSerialized (Some (hash c))))
                        | Serialized _ => None
                        end) (children self)) self.

(** [excluded_hash]; [hex] is [hex::encode]. *)
Fixpoint excluded_loop (prefix : bytes) (prefix_char : Z) (chars : list Z)
    (excluded_items : Z) (hashes : bytes) : ST TrieNode HubError (Z * bytes) :=
  match chars with
  | [] => st_ret (excluded_items, hashes)
  | char :: chars' =>
      if (char =? prefix_char)%Z then excluded_loop prefix prefix_char chars' excluded_items hashes
      else
        (let! child_node := get_or_load_child prefix char in
         let! excluded_items' := st_lift (add_u 64 excluded_items (items child_node)) in
         excluded_loop prefix prefix_char chars' excluded_items' (hashes ++ hash child_node))%st
  end.

Variable hex : bytes -> string.

Definition excluded_hash (prefix : bytes) (prefix_char : Z) : ST TrieNode HubError (Z * string) :=
  (let! self := st_get in
   let! (excluded_items, hashes) := excluded_loop prefix prefix_char (sorted_children self) 0 [] in
   st_ret (excluded_items, hex (blake3_20 blake3 hashes)))%st.

(** [TrieSnapshot] of merkle_trie.rs. *)
Record TrieSnapshot := mkTrieSnapshot {
  snapshot_prefix : bytes;
  excluded_hashes : list string;
  num_messages : Z;
}.

(** The loop of [get_snapshot] over the bytes of the prefix from position [i]
    on; the node it stands at is reached through a chain of references. *)
Fixpoint snapshot_loop (prefix rest : bytes) (i : nat) (hashes : list string) (num : Z) :
    ST TrieNode HubError TrieSnapshot :=
  match rest with
  | [] =>
      (let! current_node := st_get in
       st_ret (mkTrieSnapshot prefix (hashes ++ [hex (hash current_node)]) num))%st
  | char :: rest' =>
      let current_prefix := take i prefix in
      (let! (excluded_items, excluded) := excluded_hash current_prefix char in
       let hashes := hashes ++ [excluded] in
       let! num := st_lift (add_u 64 num excluded_items) in
       let! current_node := st_get in
       match children current_node !! char with
       | None => st_ret (mkTrieSnapshot current_prefix hashes num)
       | Some _ =>
           let! child := get_or_load_child current_prefix char in
           fun self =>
           let (r, child') := snapshot_loop prefix rest' (i + 1) hashes num child in
           (r, put_child char child' self)
       end)%st
  end.

Definition get_snapshot (prefix : bytes) (current_index : nat) : ST TrieNode HubError TrieSnapshot :=
  snapshot_loop prefix (drop current_index prefix) current_index [] 0.

(** The loop of [get_all_values] over the sorted children, given how the
    values below a child are collected. *)
Fixpoint values_loop (rec : bytes -> ST TrieNode HubError (list bytes)) (prefix : bytes)
    (chars : list Z) (values : list bytes) : ST TrieNode HubError (list bytes) :=
  match chars with
  | [] => st_ret values
  | char :: chars' =>
      (let! child_node := get_or_load_child prefix char in
       let! vs := (fun self =>
         let (r, child') := rec (prefix ++ [char]) child_node in (r, put_child char child' self)) in
       let values := values ++ vs in
       if MAX_VALUES_RETURNED_PER_CALL <? length values then st_ret values
       else values_loop rec prefix chars' values)%st
  end.

Fixpoint get_all_values (fuel : nat) (prefix : bytes) : ST TrieNode HubError (list bytes) :=
  match fuel with
  | O => st_lift OutOfFuel
  | S fuel' => fun self =>
      if is_leaf self then (Ok [key_or_empty self], self)
      else values_loop (get_all_values fuel') prefix (sorted_children self) [] self
  end.

End Ops.
