(* ===== verification/TrieSpec.v ===== *)
(** * The sync trie: specification

    A trie stands for a finite set of keys. [spec_hash] is the reference
    definition of its hash, a function of the set alone; [repr] relates a node
    of the implementation, in memory or in the store, to the set of keys below
    it. The lemmas of this file establish [repr] for the loading, hashing,
    insertion and lookup code of [TrieNode.v]. *)

From S2P Require Import Prelude Util Db TrieNode.

(** ** Sets of keys below a prefix *)

(** The keys of [S] that extend [p]. *)
Definition under (p : bytes) (S : gset bytes) : gset bytes := filter (fun k => p `prefix_of` k) S.

(** The bytes that follow a prefix of the length of [p] in the keys of [S]. *)
Definition next_chars (p : bytes) (S : gset bytes) : gset Z :=
  set_omap (fun k : bytes => k !! length p) S.

(** No key is a proper prefix of another. *)
Definition prefix_free (S : gset bytes) : Prop :=
  forall k k', k ∈ S -> k' ∈ S -> k `prefix_of` k' -> k = k'.

(** The keys a trie can hold: byte strings of at least [TIMESTAMP_LENGTH] and
    at most [L] bytes, none a prefix of another. *)
Definition valid_keys (L : nat) (S : gset bytes) : Prop :=
  prefix_free S /\ (forall k, k ∈ S -> is_bytes k /\ TIMESTAMP_LENGTH <= length k <= L) /\
  (Z.of_nat (size S) < 2 ^ 32)%Z.

Lemma elem_of_under p S k : k ∈ under p S <-> k ∈ S /\ p `prefix_of` k.
Proof. unfold under. rewrite elem_of_filter. tauto. Qed.

Lemma elem_of_next_chars p S c : c ∈ next_chars p S <-> exists k, k ∈ S /\ k !! length p = Some c.
Proof. unfold next_chars. rewrite elem_of_set_omap. naive_solver. Qed.

Lemma prefix_snoc_iff (p k : bytes) c :
  p ++ [c] `prefix_of` k <-> p `prefix_of` k /\ k !! length p = Some c.
Proof.
  split.
  - intros [l ->]. split; [exists ([c] ++ l); by rewrite app_assoc|].
    by rewrite <- app_assoc, lookup_app_r, Nat.sub_diag by lia.
  - intros [[l ->] Hc]. rewrite lookup_app_r, Nat.sub_diag in Hc by lia.
    destruct l as [|c' l]; simplify_eq/=. exists l. by rewrite <- app_assoc.
Qed.

Lemma elem_of_under_snoc p S k c :
  (forall k, k ∈ S -> p `prefix_of` k) ->
  k ∈ under (p ++ [c]) S <-> k ∈ S /\ k !! length p = Some c.
Proof. intros HS. rewrite elem_of_under, prefix_snoc_iff. naive_solver. Qed.

Lemma under_union p S1 S2 : under p (S1 ∪ S2) = under p S1 ∪ under p S2.
Proof. apply set_eq. intros k. rewrite elem_of_union, !elem_of_under, elem_of_union. tauto. Qed.

Lemma next_chars_union p S1 S2 : next_chars p (S1 ∪ S2) = next_chars p S1 ∪ next_chars p S2.
Proof. apply set_eq. intros c. rewrite elem_of_union, !elem_of_next_chars. set_solver. Qed.

Lemma next_chars_empty p : next_chars p ∅ = ∅.
Proof. apply set_eq. intros c. rewrite elem_of_next_chars. set_solver. Qed.

Lemma under_empty p : under p ∅ = ∅.
Proof. apply set_eq. intros k. rewrite elem_of_under. set_solver. Qed.

Lemma under_subseteq p S : under p S ⊆ S.
Proof. intros k. rewrite elem_of_under. naive_solver. Qed.

Lemma valid_keys_subseteq L S1 S2 : S1 ⊆ S2 -> valid_keys L S2 -> valid_keys L S1.
Proof.
  intros Hsub (Hpf & Hk & Hsz). split_and!.
  - intros k k' H1 H2. apply Hpf; set_solver.
  - set_solver.
  - pose proof (subseteq_size S1 S2 Hsub). lia.
Qed.

#[export] Instance prefix_free_dec S : Decision (prefix_free S).
Proof.
  refine (cast_if (decide (set_Forall (fun k => set_Forall (fun k' => k `prefix_of` k' -> k = k') S) S))).
  - abstract (intros k k' H1 H2; exact (s k H1 k' H2)).
  - abstract (intros Hpf; apply n; intros k H1 k' H2; by apply Hpf).
Defined.

#[export] Instance valid_keys_dec L S : Decision (valid_keys L S).
Proof.
  unfold valid_keys. apply and_dec; [apply _|apply and_dec; [|apply _]].
  refine (cast_if (decide (set_Forall (fun k => is_bytes k /\ TIMESTAMP_LENGTH <= length k <= L) S))).
  all: abstract (unfold set_Forall in *; done).
Defined.

(** ** The reference hash *)
Section Spec.
Variable blake3 : bytes -> bytes.

(** The hash of the trie with keys [S] at prefix [p]: the hash of the key for
    a single key below the timestamp, otherwise the hash of the hashes of the
    sets of keys that continue with each byte, in the order of the bytes.
    The fuel is the number of bytes left. *)
Fixpoint spec_hash (fuel : nat) (p : bytes) (S : gset bytes) : bytes :=
  match fuel with
  | O => []
  | S fuel' =>
      if bool_decide (TIMESTAMP_LENGTH <= length p /\ size S = 1)
      then blake3_20 blake3 (default [] (head (elements S)))
      else
        blake3_20 blake3
          (concat (map (fun c => spec_hash fuel' (p ++ [c]) (under (p ++ [c]) S))
            (merge_sort Z.le (elements (next_chars p S)))))
  end.

(** The hash of an inner node. *)
Definition inner_hash (fuel : nat) (p : bytes) (S : gset bytes) : bytes :=
  blake3_20 blake3
    (concat (map (fun c => spec_hash fuel (p ++ [c]) (under (p ++ [c]) S))
      (merge_sort Z.le (elements (next_chars p S))))).

Lemma spec_hash_leaf fuel p k :
  TIMESTAMP_LENGTH <= length p -> spec_hash (S fuel) p {[k]} = blake3_20 blake3 k.
Proof.
  intros Hp. cbn [spec_hash]. rewrite bool_decide_eq_true_2 by (split; [done|apply size_singleton]).
  by rewrite elements_singleton.
Qed.

Lemma spec_hash_inner fuel p S :
  (TIMESTAMP_LENGTH <= length p -> 2 <= size S) -> spec_hash (Datatypes.S fuel) p S = inner_hash fuel p S.
Proof. intros Hp. cbn [spec_hash]. rewrite bool_decide_eq_false_2 by naive_solver lia. done. Qed.

End Spec.

(** ** Rows of the store *)

(** The key of the row of the node at [p]. *)
Definition node_key (p : bytes) : bytes := make_primary_key p None.

Lemma make_primary_key_snoc p c : make_primary_key p (Some c) = node_key (p ++ [c]).
Proof. unfold node_key, make_primary_key. by rewrite app_nil_r. Qed.

Lemma node_key_inj p q : node_key p = node_key q -> p = q.
Proof. unfold node_key, make_primary_key. rewrite !app_nil_r. intros H. by simplify_eq. Qed.

(** What the store keeps of a node. *)
Definition on_disk (n : TrieNode) : TrieNode :=
  mkTrieNode (hash n) (items n)
    ((fun _ => Serialized (mkSerialized None)) <$> children n) (Some (key_or_empty n)).

Lemma const_fmap_dom (m1 m2 : gmap Z TrieNodeType) (x : TrieNodeType) :
  dom m1 = dom m2 -> (fun _ => x) <$> m1 = (fun _ => x) <$> m2.
Proof.
  intros Hdom. apply map_eq. intros c. rewrite !lookup_fmap.
  destruct (m1 !! c) eqn:E1, (m2 !! c) eqn:E2; try done; exfalso.
  - apply elem_of_dom_2 in E1. rewrite Hdom in E1. by apply not_elem_of_dom in E2.
  - apply elem_of_dom_2 in E2. rewrite <- Hdom in E2. by apply not_elem_of_dom in E1.
Qed.

(** Loading children does not change what is stored of a node. *)
Lemma on_disk_set_children ch n :
  dom ch = dom (children n) -> on_disk (set_children ch n) = on_disk n.
Proof.
  intros Hdom. unfold on_disk. simpl.
  by rewrite (const_fmap_dom ch (children n) (Serialized (mkSerialized None)) Hdom).
Qed.

Lemma lookup_child_chars (l : list Z) (ch : gmap Z TrieNodeType) c :
  Forall is_byte l ->
  foldl (fun m char => <[wrap 8 char := Serialized (mkSerialized None)]> m) ch l !! c =
  if decide (c ∈ l) then Some (Serialized (mkSerialized None)) else ch !! c.
Proof.
  revert ch. induction l as [|c' l IH]; intros ch Hl; csimpl; [done|].
  apply Forall_cons in Hl as [Hc' Hl].
  assert (Hw : wrap 8 c' = c') by (unfold wrap, is_byte in *; apply Z.mod_small; lia).
  rewrite IH, Hw by done. case_decide as Hin1; case_decide as Hin2; try done.
  - set_solver.
  - apply elem_of_cons in Hin2 as [->|]; [|done]. by rewrite lookup_insert_eq.
  - rewrite lookup_insert_ne; [done|set_solver].
Qed.

Lemma next_chars_bytes p S c : (forall k, k ∈ S -> is_bytes k) -> c ∈ next_chars p S -> is_byte c.
Proof.
  intros HS (k & Hk & Hc)%elem_of_next_chars. specialize (HS k Hk).
  eapply Forall_lookup_1; eauto.
Qed.

Section Repr.
Context {T : Type} `{TransactionDBLaws T} `{!Codec DbTrieNode} {codec_law : CodecLaw DbTrieNode}.
Variable blake3 : bytes -> bytes.
Hypothesis blake3_length : forall l, length (blake3 l) = 32.
Variable d : RocksDB T.
Variable m : gmap bytes bytes.
Hypothesis d_holds : holds d m.
(** A bound on the length of keys. *)
Variable L : nat.

Implicit Types (v : gmap bytes bytes) (n : TrieNode) (S : gset bytes) (p k : bytes).

(** The row of the node at [p] in [v] reads back as [n]. *)
Definition row v p n : Prop :=
  exists b, v !! node_key p = Some b /\ deserialize b = Ok (on_disk n).

(** [repr v p t S]: the child [t] at prefix [p] stands for the keys [S].
    [m] is the store nodes are loaded from, [v] what it will hold once the
    pending writes are committed. *)
Inductive repr v : bytes -> TrieNodeType -> gset bytes -> Prop :=
| repr_leaf p n k :
    TIMESTAMP_LENGTH <= length p -> p `prefix_of` k ->
    children n = ∅ -> key n = Some k -> items n = 1%Z ->
    hash n = blake3_20 blake3 k ->
    row v p n ->
    repr v p (Node n) {[k]}
| repr_inner p n S :
    S ≠ ∅ ->
    (forall k, k ∈ S -> p `prefix_of` k /\ length p < length k <= L) ->
    (TIMESTAMP_LENGTH <= length p -> 2 <= size S) ->
    dom (children n) = next_chars p S ->
    (forall c t, children n !! c = Some t -> repr v (p ++ [c]) t (under (p ++ [c]) S)) ->
    items n = Z.of_nat (size S) ->
    hash n = inner_hash blake3 (L - length p) p S ->
    row v p n ->
    repr v p (Node n) S
| repr_stored p h n b S :
    m !! node_key p = Some b -> v !! node_key p = Some b ->
    deserialize b = Ok n ->
    (h = None \/ h = Some (hash n)) ->
    repr v p (Node n) S ->
    repr v p (Serialized (mkSerialized h)) S.

(** The children of [n] at [p] stand for the keys [S]. *)
Definition kids v p n S : Prop :=
  dom (children n) = next_chars p S /\
  forall c t, children n !! c = Some t -> repr v (p ++ [c]) t (under (p ++ [c]) S).

(** ** Shape *)

Lemma blake3_20_nonempty l : blake3_20 blake3 l ≠ [].
Proof using blake3_length.
  intros E%(f_equal length). unfold blake3_20 in E.
  by rewrite length_take, blake3_length in E.
Qed.

Lemma repr_extends v p t S k : repr v p t S -> k ∈ S -> p `prefix_of` k.
Proof using Type.
  induction 1 as [p n k' Hp Hpre| |]; [intros ->%elem_of_singleton|..]; naive_solver.
Qed.

Lemma repr_nonempty v p t S : repr v p t S -> S ≠ ∅.
Proof using Type. induction 1; [apply non_empty_singleton_L|done|done]. Qed.

(** A node below the timestamp that is not a leaf has two keys. *)
Lemma repr_hash v p n S : length p <= L -> repr v p (Node n) S -> hash n = spec_hash blake3 (Datatypes.S (L - length p)) p S.
Proof.
  intros Hp Hr. inversion Hr; subst.
  - by rewrite spec_hash_leaf.
  - by rewrite spec_hash_inner.
Qed.

Lemma repr_Node_dom v p n S : repr v p (Node n) S -> children n ≠ ∅ -> kids v p n S.
Proof. inversion 1; subst; done. Qed.

Lemma repr_row v p n S : repr v p (Node n) S -> row v p n.
Proof. by inversion 1. Qed.

Lemma repr_items v p n S : repr v p (Node n) S -> items n = Z.of_nat (size S).
Proof. inversion 1; subst; [by rewrite size_singleton|done]. Qed.

(** ** Frame: writes to rows outside the subtree do not matter *)
Lemma repr_frame v v' p t S :
  repr v p t S -> (forall q, p `prefix_of` q -> v' !! node_key q = v !! node_key q) ->
  repr v' p t S.
Proof.
  assert (Hrow : forall v v' p n, row v p n -> v' !! node_key p = v !! node_key p -> row v' p n).
  { intros v1 v2 p1 n1 (b & Hb & Hd) E. exists b. by rewrite E. }
  induction 1 as [p n k|p n S HS Hk Hsz Hdom Hch IH Hi Hh Hr|p h n b S Hm Hv Hd Hh Hr IH]; intros Hfr.
  - apply repr_leaf; eauto.
  - apply repr_inner; eauto. intros c t Hc. apply IH; [done|].
    intros q Hq. apply Hfr. by apply (prefix_snoc_iff p q c) in Hq as [? _].
  - eapply repr_stored; eauto. by rewrite Hfr.
Qed.

(** ** Loading a child *)
Lemma put_child_id c child n : children n !! c = Some (Node child) -> put_child c child n = n.
Proof. intros Hc. destruct n. unfold put_child, set_children. simpl in *. by rewrite insert_id. Qed.

Lemma get_or_load_child_repr v p n c t S :
  children n !! c = Some t -> repr v (p ++ [c]) t S ->
  exists child,
    get_or_load_child d p c n = (Ok child, put_child c child n) /\ repr v (p ++ [c]) (Node child) S.
Proof.
  intros Hc Hr. unfold get_or_load_child. rewrite Hc. destruct t as [child|s].
  - exists child. by rewrite put_child_id.
  - inversion Hr as [| |p' h n' b S' Hm Hv Hd Hh Hr']; subst. exists n'. split; [|done].
    rewrite make_primary_key_snoc, (RocksDB_get_holds d m) by done. rewrite Hm. simpl. by rewrite Hd.
Qed.

Lemma kids_put_child v p n S c child :
  kids v p n S -> is_Some (children n !! c) -> repr v (p ++ [c]) (Node child) (under (p ++ [c]) S) ->
  kids v p (put_child c child n) S.
Proof using Type.
  intros [Hdom Hch] [t Ht] Hr. split.
  - simpl. rewrite dom_insert_L, <- Hdom. apply elem_of_dom_2 in Ht.
    by apply subseteq_union_1_L, singleton_subseteq_l.
  - intros c' t'. simpl. destruct (decide (c = c')) as [->|Hne].
    + rewrite lookup_insert_eq. by intros [= <-].
    + rewrite lookup_insert_ne by done. apply Hch.
Qed.

(** ** Hashing *)

(** The reference hash of the child at [c]. *)
Definition child_spec p S (c : Z) : bytes :=
  spec_hash blake3 (L - length p) (p ++ [c]) (under (p ++ [c]) S).

Lemma repr_child_hash v p n S c :
  (forall k, k ∈ S -> length k <= L) ->
  repr v (p ++ [c]) (Node n) (under (p ++ [c]) S) -> hash n = child_spec p S c.
Proof using Type.
  intros HL Hr. destruct (set_choose_L _ (repr_nonempty _ _ _ _ Hr)) as [k Hk].
  apply elem_of_under in Hk as [Hk Hpre]. apply prefix_length in Hpre.
  specialize (HL k Hk). rewrite length_app in *. simpl in *.
  apply repr_hash in Hr; [|rewrite length_app; simpl; lia].
  rewrite Hr, length_app. unfold child_spec. simpl length. f_equal. lia.
Qed.

Lemma child_hash_spec v p S c t :
  (forall k, k ∈ S -> length k <= L) ->
  repr v (p ++ [c]) t (under (p ++ [c]) S) -> child_hash t = [] \/ child_hash t = child_spec p S c.
Proof using Type.
  intros HL Hr. destruct t as [n|s]; simpl.
  - right. eauto using repr_child_hash.
  - inversion Hr as [| |p' h n b S' Hm Hv Hd Hh Hr']; subst. simpl.
    destruct Hh as [->| ->]; [by left|right]. eauto using repr_child_hash.
Qed.

Lemma concat_hashes_loop_spec v p S chs acc n :
  kids v p n S -> (forall k, k ∈ S -> length k <= L) ->
  Forall (fun ch => ch.1 ∈ dom (children n) /\ (ch.2 = [] \/ ch.2 = child_spec p S ch.1)) chs ->
  exists ch',
    concat_hashes_loop d p chs acc n =
      (Ok (acc ++ concat (map (fun ch => child_spec p S ch.1) chs)), set_children ch' n) /\
    kids v p (set_children ch' n) S.
Proof using d_holds.
  intros Hk HL Hchs. revert acc n Hk Hchs.
  induction chs as [|[c h] chs IH]; intros acc n Hk Hchs.
  { exists (children n). rewrite app_nil_r. destruct n. split; done. }
  apply Forall_cons in Hchs as [[Hc Hh] Hchs]. simpl in Hc, Hh.
  assert (Hstep : h ≠ [] -> concat_hashes_loop d p ((c, h) :: chs) acc n =
    concat_hashes_loop d p chs (acc ++ child_spec p S c) n).
  { intros Hne. destruct Hh as [->| ->]; [done|]. simpl. by destruct (child_spec p S c). }
  destruct (decide (h = [])) as [->|Hne].
  - destruct Hk as [Hdom Hch]. apply elem_of_dom in Hc as [t Ht].
    destruct (get_or_load_child_repr v p n c t _ Ht (Hch c t Ht)) as (child & E & Hr).
    simpl. erewrite st_bind_Ok by exact E. rewrite (repr_child_hash v p child S c) by done.
    destruct (IH (acc ++ child_spec p S c) (put_child c child n)) as (ch' & E' & Hk').
    + apply kids_put_child; [done|by exists t|done].
    + eapply Forall_impl; [exact Hchs|]. simpl. intros [c' h'] [? ?].
      split; [rewrite dom_insert_L; by apply elem_of_union_r|done].
    + exists ch'. rewrite E'. by rewrite <- app_assoc.
  - rewrite Hstep by done. destruct (IH (acc ++ child_spec p S c) n Hk Hchs) as (ch' & E' & Hk').
    exists ch'. rewrite E'. by rewrite <- app_assoc.
Qed.

(** On an inner node [update_hash] computes the reference hash; it may load
    children. *)
Lemma update_hash_kids v p n S :
  kids v p n S -> S ≠ ∅ -> children n ≠ ∅ -> (forall k, k ∈ S -> length k <= L) ->
  exists ch',
    update_hash blake3 d p n =
      (Ok tt, set_hash (inner_hash blake3 (L - length p) p S) (set_children ch' n)) /\
    kids v p (set_children ch' n) S.
Proof using d_holds.
  intros Hk HS Hne HL. unfold update_hash, is_leaf. rewrite bool_decide_eq_false_2 by done.
  destruct (concat_hashes_loop_spec v p S (child_hashes n) [] n Hk HL) as (ch' & E & Hk').
  - destruct Hk as [Hdom Hch]. unfold child_hashes. apply Forall_fmap, Forall_forall.
    intros c Hc. simpl. unfold sorted_children, children_keys in Hc.
    rewrite (merge_sort_Permutation Z.le), elem_of_elements in Hc. split; [done|].
    apply elem_of_dom in Hc as [t Ht]. rewrite Ht. eauto using child_hash_spec.
  - exists ch'. split; [|done]. erewrite st_bind_Ok by exact E. simpl. unfold st_modify, inner_hash.
    repeat f_equal. unfold child_hashes. rewrite map_map. simpl.
    unfold sorted_children, children_keys. by rewrite (proj1 Hk).
Qed.

Lemma update_hash_leaf p n :
  children n = ∅ -> update_hash blake3 d p n = (Ok tt, set_hash (blake3_20 blake3 (key_or_empty n)) n).
Proof using Type. intros Hc. unfold update_hash, is_leaf. by rewrite bool_decide_eq_true_2. Qed.


(** ** Rows written *)

Lemma deserialize_serialize n :
  (0 <= items n < 2 ^ 32)%Z -> (forall c, c ∈ dom (children n) -> is_byte c) ->
  deserialize (serialize n) = Ok (on_disk n).
Proof using codec_law.
  intros Hi Hc. unfold deserialize, serialize. rewrite decode_encode. simpl. unfold on_disk.
  f_equal. unfold wrap. rewrite Z.mod_small by lia. f_equal.
  apply map_eq. intros c. rewrite lookup_child_chars, lookup_fmap, lookup_empty.
  - unfold children_keys. case_decide as Hin; rewrite elem_of_elements in Hin.
    + apply elem_of_dom in Hin as [t ->]. done.
    + apply not_elem_of_dom in Hin. by rewrite Hin.
  - apply Forall_forall. intros c' Hc'. apply Hc. unfold children_keys in Hc'. by rewrite elem_of_elements in Hc'.
Qed.

Lemma row_put v p n :
  (0 <= items n < 2 ^ 32)%Z -> (forall c, c ∈ dom (children n) -> is_byte c) ->
  row (<[node_key p := serialize n]> v) p n.
Proof using codec_law. intros Hi Hc. exists (serialize n). rewrite lookup_insert_eq. split; [done|]. by apply deserialize_serialize. Qed.

(** Rows outside the subtree at [p] are the same in [v] and [v']. *)
Definition same_outside p v v' : Prop :=
  forall k, (forall q, p `prefix_of` q -> k ≠ node_key q) -> v' !! k = v !! k.

Lemma same_outside_refl p v : same_outside p v v.
Proof. by intros k Hk. Qed.

Lemma same_outside_trans p v1 v2 v3 : same_outside p v1 v2 -> same_outside p v2 v3 -> same_outside p v1 v3.
Proof. intros Hs1 Hs2 k Hk. rewrite Hs2, Hs1; done. Qed.

Lemma same_outside_child p c v v' : same_outside (p ++ [c]) v v' -> same_outside p v v'.
Proof using Type. intros Hs k Hk. apply Hs. intros q Hq. apply Hk. by apply (prefix_snoc_iff p q c) in Hq as [? _]. Qed.

Lemma same_outside_put p v b : same_outside p v (<[node_key p := b]> v).
Proof using Type. intros k Hk. apply lookup_insert_ne. intros <-. by apply (Hk p). Qed.

Lemma same_outside_other p q v v' :
  same_outside p v v' -> ~ p `prefix_of` q -> v' !! node_key q = v !! node_key q.
Proof. intros Hs Hq. apply Hs. intros q' Hq' E%node_key_inj. congruence. Qed.

(** Children at other bytes are not affected by writes below [p ++ [c]], nor
    are children by a write of the row of [p] itself. *)
Lemma repr_sibling v v' p c c' t S :
  repr v (p ++ [c']) t S -> c ≠ c' -> same_outside (p ++ [c]) v v' -> repr v' (p ++ [c']) t S.
Proof.
  intros Hr Hne Hs. apply (repr_frame v); [done|]. intros q Hq.
  eapply same_outside_other; [done|]. intros Hq'.
  apply prefix_snoc_iff in Hq as [_ Hq], Hq' as [_ Hq']. congruence.
Qed.

Lemma repr_below v p c t S b :
  repr v (p ++ [c]) t S -> repr (<[node_key p := b]> v) (p ++ [c]) t S.
Proof using Type.
  intros Hr. apply (repr_frame v); [done|]. intros q Hq. apply lookup_insert_ne.
  intros ->%node_key_inj. apply prefix_length in Hq. rewrite length_app in Hq. simpl in Hq. lia.
Qed.

Lemma kids_put v p n S b : kids v p n S -> kids (<[node_key p := b]> v) p n S.
Proof. intros [Hdom Hch]. split; [done|]. intros c t Hc. by apply repr_below, Hch. Qed.

End Repr.
