(* ===== verification/TrieInsert.v ===== *)
(** * The sync trie: insertion

    The bulk [insert] of [src/storage/trie/trie_node.rs] implements the union
    of key sets: on a node that stands for [S], inserting distinct keys gives
    a node that stands for [S] with the keys added, with the reference hash,
    the right count, one result per key and every row of the store written. *)

From S2P Require Import Prelude Util Db TrieNode TrieSpec.

(** ** Lists of results *)

Definition fresh (S : gset bytes) (k : bytes) : bool := bool_decide (k ∉ S).

Definition count_true (l : list bool) : Z := Z.of_nat (length (filter (fun b => b = true) l)).

Lemma count_true_cons b l : count_true (b :: l) = ((if b then 1 else 0) + count_true l)%Z.
Proof. unfold count_true. rewrite filter_cons. destruct b; [rewrite decide_True by done; simpl; lia|by rewrite decide_False]. Qed.

Lemma count_true_bounds l : (0 <= count_true l <= Z.of_nat (length l))%Z.
Proof. unfold count_true. pose proof (length_filter (fun b => b = true) l). lia. Qed.

Lemma count_fresh (S : gset bytes) (ks : list bytes) :
  NoDup ks -> count_true (map (fresh S) ks) = (Z.of_nat (size (S ∪ list_to_set ks)) - Z.of_nat (size S))%Z.
Proof.
  revert S. induction ks as [|k ks IH]; intros S Hnd.
  { simpl. rewrite (right_id_L ∅ (∪)). unfold count_true. simpl. lia. }
  apply NoDup_cons in Hnd as [Hnin Hnd]. simpl map. rewrite count_true_cons.
  assert (E : map (fresh S) ks = map (fresh (S ∪ {[k]})) ks).
  { apply map_ext_in. intros k' Hk'%list_elem_of_In. unfold fresh. apply bool_decide_ext. set_solver. }
  rewrite E, IH by done. rewrite list_to_set_cons, (assoc_L (∪)). unfold fresh.
  case_bool_decide as Hk.
  - rewrite (size_union S {[k]}) by set_solver. rewrite size_singleton. lia.
  - replace (S ∪ {[k]}) with S by set_solver. lia.
Qed.

Lemma set_results_spec (l : list (nat * bool)) results succ :
  NoDup l.*1 -> Forall (fun ib => ib.1 < length results) l ->
  (0 <= succ)%Z -> (succ + Z.of_nat (length l) < 2 ^ 64)%Z ->
  exists results',
    set_results l results succ = Ok (results', (succ + count_true l.*2)%Z) /\
    length results' = length results /\
    (forall i b, (i, b) ∈ l -> results' !! i = Some b) /\
    (forall i, i ∉ l.*1 -> results' !! i = results !! i).
Proof.
  revert results succ. induction l as [|[i b] l IH]; intros results succ Hnd Hlt H0 Hb.
  { exists results. simpl. rewrite Z.add_0_r. split_and!; try done. set_solver. }
  csimpl in *. apply NoDup_cons in Hnd as [Hnin Hnd]. apply Forall_cons in Hlt as [Hi Hlt].
  simpl in Hi. unfold vec_set. rewrite (proj2 (Nat.ltb_lt _ _) Hi). simpl.
  destruct (IH (<[i:=b]> results) (succ + if b then 1 else 0)%Z) as (r' & E & Hlen & Hin & Hout).
  { done. } { by rewrite length_insert. } { destruct b; lia. } { destruct b; lia. }
  exists r'. rewrite length_insert in Hlen. split_and!.
  - destruct b; simpl.
    + unfold add_u. rewrite (proj2 (Z.ltb_lt _ _)) by lia. simpl.
      rewrite E. rewrite count_true_cons. do 2 f_equal. lia.
    + rewrite Z.add_0_r in E. rewrite E, count_true_cons. do 2 f_equal.
  - done.
  - intros j b' [Heq|Hj]%elem_of_cons; [|by apply Hin]. simplify_eq.
    rewrite Hout by done. by apply list_lookup_insert_eq.
  - intros j Hj. rewrite Hout by set_solver. apply list_lookup_insert_ne. set_solver.
Qed.

(** ** Positions and groups *)

Lemma elem_of_enumerate {A} (l : list A) i x : (i, x) ∈ enumerate l <-> l !! i = Some x.
Proof.
  unfold enumerate. rewrite list_elem_of_lookup. split.
  - intros (j & Hj). apply lookup_zip_with_Some in Hj as (a & b & Heq & Ha & Hb).
    apply lookup_seq in Ha as [-> _]. by simplify_eq/=.
  - intros Hl. exists i. apply lookup_zip_with_Some. exists i, x. split_and!; [done| |done].
    apply lookup_seq. split; [done|]. by apply lookup_lt_Some in Hl.
Qed.

Lemma enumerate_fst {A} (l : list A) : (enumerate l).*1 = seq 0 (length l).
Proof. unfold enumerate. apply fst_zip. by rewrite length_seq. Qed.

Lemma enumerate_snd {A} (l : list A) : (enumerate l).*2 = l.
Proof. unfold enumerate. apply snd_zip. by rewrite length_seq. Qed.

(** The part of [l] whose keys have byte [c] at position [j]. *)
Definition group (j : nat) (l : list (nat * bytes)) (c : Z) : list (nat * bytes) :=
  filter (fun ik => ik.2 !! j = Some c) l.

Lemma group_keys_spec j l g0 :
  Forall (fun ik => j < length ik.2) l ->
  exists g, group_keys j l g0 = Ok g /\
  forall c, g !! c =
    match group j l c with
    | [] => g0 !! c
    | l' => Some ((default ([], []) (g0 !! c)).1 ++ l'.*1, (default ([], []) (g0 !! c)).2 ++ l'.*2)
    end.
Proof.
  revert g0. induction l as [|[i k] l IH]; intros g0 Hl; [by exists g0|].
  apply Forall_cons in Hl as [Hk Hl]. simpl in Hk.
  destruct (lookup_lt_is_Some_2 k j Hk) as [c0 Hc0]. simpl. unfold index. rewrite Hc0. simpl.
  destruct (default ([], []) (g0 !! c0)) as [idxs ks] eqn:Ed.
  destruct (IH (<[c0 := (idxs ++ [i], ks ++ [k])]> g0) Hl) as (g & Eg & Hg).
  exists g. split; [done|]. intros c. rewrite Hg. unfold group. rewrite filter_cons. simpl.
  destruct (decide (c0 = c)) as [->|Hne].
  - rewrite lookup_insert_eq. simpl. rewrite decide_True by done.
    destruct (filter _ l) eqn:Ef; simpl; rewrite Ed; simpl.
    + done.
    + by rewrite <- !app_assoc.
  - rewrite lookup_insert_ne by done. rewrite decide_False by congruence. done.
Qed.

(** The groups as a list, with their members as pairs. *)
Definition group_list (g : list (Z * list (nat * bytes))) : list (Z * (list nat * list bytes)) :=
  map (fun cl => (cl.1, (cl.2.*1, cl.2.*2))) g.

(** The members of all groups. *)
Definition members (g : list (Z * list (nat * bytes))) : list (nat * bytes) := concat (map snd g).

Lemma elem_of_members gl ik : ik ∈ members gl <-> exists c l, (c, l) ∈ gl /\ ik ∈ l.
Proof.
  unfold members. rewrite list_elem_of_In, in_concat. split.
  - intros (l & Hl & Hik). apply in_map_iff in Hl as ([c l'] & <- & Hcl).
    exists c, l'. by rewrite !list_elem_of_In.
  - intros (c & l & Hcl & Hik). exists l. rewrite <- !list_elem_of_In. split; [|done].
    apply list_elem_of_fmap. by exists (c, l).
Qed.

(** Every member of a group has the group's byte at position [j]. *)
Definition grouped (j : nat) (gl : list (Z * list (nat * bytes))) : Prop :=
  Forall (fun cl => cl.2 ≠ [] /\ Forall (fun ik => ik.2 !! j = Some cl.1) cl.2) gl.

Lemma NoDup_members j gl :
  NoDup gl.*1 -> grouped j gl -> Forall (fun cl => NoDup cl.2) gl -> NoDup (members gl).
Proof.
  induction gl as [|[c l] gl IH]; intros Hnd Hgr Hls; [constructor|].
  csimpl in *. apply NoDup_cons in Hnd as [Hnin Hnd]. apply Forall_cons in Hgr as [[_ Hc] Hgr].
  apply Forall_cons in Hls as [Hl Hls]. unfold members. simpl. apply NoDup_app. split_and!; [done| |by apply IH].
  intros ik Hik Hik'. fold (members gl) in Hik'. apply elem_of_members in Hik' as (c' & l' & Hcl & Hik').
  unfold grouped in Hgr. rewrite Forall_forall in Hgr. rewrite Forall_forall in Hc. destruct (Hgr _ Hcl) as [_ Hc'].
  rewrite Forall_forall in Hc'. simpl in *. specialize (Hc _ Hik). specialize (Hc' _ Hik').
  destruct Hnin. assert (c = c') as -> by congruence. apply list_elem_of_fmap. by exists (c', l').
Qed.

Lemma group_keys_list j l :
  Forall (fun ik => j < length ik.2) l -> NoDup l ->
  exists g gl, group_keys j l ∅ = Ok g /\ map_to_list g = group_list gl /\
    NoDup gl.*1 /\ grouped j gl /\ members gl ≡ₚ l.
Proof.
  intros Hl Hnd. destruct (group_keys_spec j l ∅ Hl) as (g & Eg & Hg).
  set (gl := map (fun ck => (ck.1, group j l ck.1)) (map_to_list g)). exists g, gl.
  assert (Hgc : forall c x, g !! c = Some x -> group j l c ≠ [] /\ x = ((group j l c).*1, (group j l c).*2)).
  { intros c x Hx. rewrite Hg, lookup_empty in Hx. by destruct (group j l c); simplify_eq/=. }
  assert (Hgl : forall c l', (c, l') ∈ gl <-> l' = group j l c /\ l' ≠ []).
  { intros c l'. unfold gl. rewrite list_elem_of_fmap. split.
    - intros ([c' x] & Heq & Hx%elem_of_map_to_list). simplify_eq/=. by destruct (Hgc c' x Hx).
    - intros [-> Hne]. destruct (g !! c) as [x|] eqn:Ex.
      + exists (c, x). split; [done|]. by apply elem_of_map_to_list.
      + rewrite Hg, lookup_empty in Ex. by destruct (group j l c). }
  assert (Hnd1 : NoDup gl.*1) by (unfold gl; rewrite <- list_fmap_compose; apply NoDup_fst_map_to_list).
  assert (Hgr : grouped j gl).
  { apply Forall_forall. intros [c l'] [-> Hne]%Hgl. simpl. split; [done|].
    apply Forall_forall. intros ik [? _]%list_elem_of_filter. done. }
  split_and!; try done.
  - unfold group_list, gl. rewrite map_map. simpl. rewrite <- (map_id (map_to_list g)) at 1.
    apply map_ext_in. intros [c x] Hx%list_elem_of_In%elem_of_map_to_list. simpl.
    by destruct (Hgc c x Hx) as [_ ->].
  - apply NoDup_Permutation; [eapply NoDup_members; try done| done|].
    + apply Forall_forall. intros [c l'] [-> _]%Hgl. simpl. by apply NoDup_filter.
    + intros [i k]. rewrite elem_of_members. split.
      * intros (c & l' & [-> _]%Hgl & [_ Hik]%list_elem_of_filter). done.
      * intros Hik. rewrite Forall_forall in Hl. specialize (Hl _ Hik). simpl in Hl.
        destruct (lookup_lt_is_Some_2 k j Hl) as [c Hc]. exists c, (group j l c).
        assert (Hin : (i, k) ∈ group j l c) by (apply list_elem_of_filter; done).
        split; [|done]. apply Hgl. split; [done|]. intros E. rewrite E in Hin. set_solver.
Qed.

Lemma cons_false_snoc (l : list bytes) : map (fun _ => false) l ++ [false] = false :: map (fun _ => false) l.
Proof. induction l as [|k l IH]; simpl; [done|]. by rewrite IH. Qed.

(** Positions shifted by one, after the last key was taken. *)
Lemma shift_fst (l : list (nat * bytes)) : (map (fun ik => (ik.1 + 1, ik.2)) l).*1 = (fun i => i + 1) <$> l.*1.
Proof. induction l as [|ik l IH]; csimpl; [done|]. by rewrite IH. Qed.

Lemma shift_snd (l : list (nat * bytes)) : (map (fun ik => (ik.1 + 1, ik.2)) l).*2 = l.*2.
Proof. induction l as [|ik l IH]; csimpl; [done|]. by rewrite IH. Qed.

Section Insert.
Context {T : Type} `{TransactionDBLaws T} `{!Codec DbTrieNode} {codec_law : CodecLaw DbTrieNode}.
Variable blake3 : bytes -> bytes.
Hypothesis blake3_length : forall l, length (blake3 l) = 32.
Variable d : RocksDB T.
Variable m : gmap bytes bytes.
Hypothesis d_holds : holds d m.
Variable L : nat.
(** What the store will hold before the writes of this operation. *)
Variable v0 : gmap bytes bytes.

Abbreviation repr := (repr blake3 m L).
Abbreviation kids := (kids blake3 m L).
Abbreviation view txn := (apply_batch v0 txn).

Implicit Types (v : gmap bytes bytes) (n : TrieNode) (S : gset bytes) (p k : bytes) (txn : RocksDbTransactionBatch).

(** A node an insertion may start from: it stands for [S], or it is empty. *)
Definition start v p n S : Prop :=
  (S = ∅ /\ children n = ∅ /\ items n = 0%Z /\ (TIMESTAMP_LENGTH <= length p -> key n = None)) \/
  repr v p (Node n) S.

Lemma start_kids v p n S : start v p n S -> children n ≠ ∅ \/ S = ∅ -> kids v p n S.
Proof.
  intros [(-> & Hc & _ & _)|Hr] Hor.
  - split; [by rewrite Hc, next_chars_empty, dom_empty_L|]. rewrite Hc. intros c t. by rewrite lookup_empty.
  - destruct Hor as [Hc| ->]; [by eapply repr_Node_dom|]. by apply repr_nonempty in Hr.
Qed.

Lemma start_items v p n S : start v p n S -> items n = Z.of_nat (size S).
Proof. intros [(-> & _ & Hi & _)|Hr]; [by rewrite size_empty|eauto using repr_items]. Qed.

(** The result of a bulk insertion below [p]. *)
Definition insert_post p S keys txn (r : result HubError (list bool) * NodeTxn) : Prop :=
  exists n' txn',
    r = (Ok (map (fresh S) keys), (n', txn')) /\
    repr (view txn') p (Node n') (S ∪ list_to_set keys) /\
    same_outside p (view txn) (view txn').

(** The keys an insertion at [p] into [S] may be given. *)
Definition insertable p S (keys : list bytes) : Prop :=
  keys ≠ [] /\ NoDup keys /\ (forall k, k ∈ keys -> p `prefix_of` k) /\
  valid_keys L (S ∪ list_to_set keys).

(** Insertion meets its postcondition at prefixes of length [j]. *)
Definition inserts (rec : list bytes -> nat -> ST NodeTxn HubError (list bool)) (j : nat) : Prop :=
  forall p n S keys txn,
    length p = j -> start (view txn) p n S -> insertable p S keys ->
    insert_post p S keys txn (rec keys j (n, txn)).

(** Rows outside the subtrees below [p] are unchanged; in particular the row
    of [p]. *)
Definition same_above p v v' : Prop :=
  forall k, (forall q, p `prefix_of` q -> length p < length q -> k ≠ node_key q) -> v' !! k = v !! k.

Lemma same_above_outside p v v' : same_above p v v' -> same_outside p v v'.
Proof. intros Hs k Hk. apply Hs. intros q Hq _. by apply Hk. Qed.

Lemma same_above_trans p v1 v2 v3 : same_above p v1 v2 -> same_above p v2 v3 -> same_above p v1 v3.
Proof. intros Hs1 Hs2 k Hk. by rewrite Hs2, Hs1. Qed.

Lemma same_outside_above p c v v' : same_outside (p ++ [c]) v v' -> same_above p v v'.
Proof.
  intros Hs k Hk. apply Hs. intros q Hq. apply Hk.
  - by apply (prefix_snoc_iff p q c) in Hq as [? _].
  - apply prefix_length in Hq. rewrite length_app in Hq. simpl in Hq. lia.
Qed.


(** The child at [c] is loaded, or created when it is missing. *)
Lemma child_or_new v p n S c :
  kids v p n S -> (forall k, k ∈ S -> p `prefix_of` k) ->
  exists child n0,
    get_or_load_child d p c
      (match children n !! c with None => put_child c TrieNode_default n | Some _ => n end) =
      (Ok child, n0) /\ start v (p ++ [c]) child (under (p ++ [c]) S) /\
    children n0 = <[c := Node child]> (children n) /\ n0 = set_children (children n0) n.
Proof.
  intros [Hdom Hch] HS. destruct (children n !! c) as [t|] eqn:Ec.
  - destruct (get_or_load_child_repr blake3 d m d_holds L _ p n c t _ Ec (Hch c t Ec)) as (child & E & Hr).
    exists child, (put_child c child n). split_and!; [done|by right|done|by destruct n].
  - exists TrieNode_default, (put_child c TrieNode_default n). split_and!; [|left|done|by destruct n].
    + unfold get_or_load_child. simpl. by rewrite lookup_insert_eq.
    + split_and!; try done. apply not_elem_of_dom in Ec. rewrite Hdom in Ec.
      apply set_eq. intros k. rewrite elem_of_under_snoc by done.
      split; [|set_solver]. intros [Hk Hkc]. destruct Ec. apply elem_of_next_chars. eauto.
Qed.

(** The subtrees after keys with byte [c] were added. *)
Lemma under_added p S c ks :
  (forall k, k ∈ ks -> p `prefix_of` k /\ k !! length p = Some c) ->
  under (p ++ [c]) (S ∪ list_to_set ks) = under (p ++ [c]) S ∪ list_to_set ks /\
  forall c', c' ≠ c -> under (p ++ [c']) (S ∪ list_to_set ks) = under (p ++ [c']) S.
Proof.
  intros Hks. split; [|intros c' Hc'].
  - rewrite under_union. f_equal. apply set_eq. intros k. rewrite elem_of_under, prefix_snoc_iff, elem_of_list_to_set. naive_solver.
  - rewrite under_union. apply set_eq. intros k. rewrite elem_of_union, !elem_of_under.
    split; [|by left]. intros [?|[Hk%elem_of_list_to_set Hk']]; [done|].
    apply prefix_snoc_iff in Hk' as [_ Hk']. destruct (Hks k Hk) as [_ Hkc]. congruence.
Qed.

Lemma kids_insert_child v v' p n n0 S c child child' ks :
  kids v p n S -> ks ≠ [] -> (forall k, k ∈ ks -> p `prefix_of` k /\ k !! length p = Some c) ->
  children n0 = <[c := Node child]> (children n) ->
  repr v' (p ++ [c]) (Node child') (under (p ++ [c]) S ∪ list_to_set ks) -> same_outside (p ++ [c]) v v' ->
  kids v' p (put_child c child' n0) (S ∪ list_to_set ks).
Proof.
  intros [Hdom Hch] Hne Hks Hch0 Hr' Hout. destruct (under_added p S c ks Hks) as [Hc Hother]. split.
  - simpl. rewrite Hch0, insert_insert_eq, dom_insert_L, Hdom, next_chars_union.
    apply set_eq. intros c'. rewrite !elem_of_union, !elem_of_next_chars, elem_of_singleton.
    destruct ks as [|k0 ks]; [done|]. destruct (Hks k0) as [_ Hk0]; [by left|]. split.
    + intros [->|Hin]; [|by left]. right. exists k0. set_solver.
    + intros [Hin|(k & Hk & Hkc)]; [by right|left].
      apply elem_of_list_to_set in Hk. destruct (Hks k Hk) as [_ ?]. congruence.
  - intros c' t. simpl. rewrite Hch0, insert_insert_eq. destruct (decide (c = c')) as [<-|Hcc].
    + rewrite lookup_insert_eq, Hc. by intros [= <-].
    + rewrite lookup_insert_ne, Hother by done. intros Ht. eapply repr_sibling; [by apply Hch|done|done].
Qed.

(** One group: the child at [c] is created when it is missing, and the keys
    of the group are inserted below it. *)
Lemma insert_child_step rec p n S c ks txn :
  inserts rec (length p + 1) ->
  kids (view txn) p n S -> (forall k, k ∈ S -> p `prefix_of` k) ->
  insertable p S ks -> (forall k, k ∈ ks -> k !! length p = Some c) ->
  exists child n0 child' txn',
    get_or_load_child d p c
      (match children n !! c with None => put_child c TrieNode_default n | Some _ => n end) =
      (Ok child, n0) /\
    rec ks (length p + 1) (child, txn) = (Ok (map (fresh S) ks), (child', txn')) /\
    (exists ch, put_child c child' n0 = set_children ch n) /\
    kids (view txn') p (put_child c child' n0) (S ∪ list_to_set ks) /\
    same_above p (view txn) (view txn').
Proof.
  intros Hrec Hkids HS (Hne & Hnd & Hpre & Hval) Hks. set (Sc := under (p ++ [c]) S).
  assert (Hsub : Sc ∪ list_to_set ks ⊆ S ∪ list_to_set ks).
  { pose proof (under_subseteq (p ++ [c]) S). unfold Sc. set_solver. }
  assert (Hins : insertable (p ++ [c]) Sc ks).
  { split_and!; [done|done| |by eapply valid_keys_subseteq]. intros k Hk. apply prefix_snoc_iff. auto. }
  assert (Hfr : map (fresh Sc) ks = map (fresh S) ks).
  { apply map_ext_in. intros k Hk%list_elem_of_In. unfold fresh, Sc. apply bool_decide_ext.
    rewrite elem_of_under_snoc by done. naive_solver. }
  destruct (child_or_new _ p n S c Hkids HS) as (child & n0 & Eload & Hstart & Hch0 & Hn0).
  destruct (Hrec (p ++ [c]) child Sc ks txn) as (child' & txn' & Erec & Hr' & Hout);
    [rewrite length_app; simpl; lia|done|done|].
  exists child, n0, child', txn'. split_and!.
  - done.
  - by rewrite Erec, Hfr.
  - exists (<[c := Node child']> (children n0)). rewrite Hn0. by destruct n.
  - eapply kids_insert_child; eauto.
  - by eapply same_outside_above.
Qed.

(** The results of one group, at the positions of its keys *)
Lemma set_group_results S (l : list (nat * bytes)) results succ :
  NoDup l.*1 -> NoDup l.*2 -> Forall (fun ik => ik.1 < length results) l ->
  (0 <= succ)%Z -> (succ + Z.of_nat (length l) < 2 ^ 64)%Z ->
  exists results',
    set_results (zip l.*1 (map (fresh S) l.*2)) results succ =
      Ok (results', (succ + (Z.of_nat (size (S ∪ list_to_set l.*2)) - Z.of_nat (size S)))%Z) /\
    length results' = length results /\
    (forall i k, (i, k) ∈ l -> results' !! i = Some (fresh S k)) /\
    (forall i, i ∉ l.*1 -> results' !! i = results !! i).
Proof.
  intros Hndi Hndk Hlt H0s Hsz.
  assert (Hlen : length l.*1 = length (map (fresh S) l.*2)) by (by rewrite length_map, !length_fmap).
  destruct (set_results_spec (zip l.*1 (map (fresh S) l.*2)) results succ) as (results' & E & Hlen' & Hin & Hout).
  { rewrite fst_zip; [done|lia]. }
  { apply Forall_forall. intros [i b] Hib%elem_of_zip_l. simpl.
    apply list_elem_of_fmap in Hib as ([i' k'] & -> & Hik). rewrite Forall_forall in Hlt. by apply (Hlt _ Hik). }
  { done. }
  { rewrite length_zip_with, length_fmap. lia. }
  rewrite snd_zip, count_fresh in E by (done || lia). rewrite fst_zip in Hout by lia.
  exists results'. split_and!; [done|done| |done]. intros i k Hik. apply Hin.
  apply list_elem_of_lookup in Hik as [j Hj]. apply list_elem_of_lookup. exists j.
  apply lookup_zip_with_Some. exists i, (fresh S k). change (map (fresh S) l.*2) with (fresh S <$> l.*2).
  rewrite !list_lookup_fmap, Hj. done.
Qed.

(** The loop over the groups. *)
Lemma insert_groups_spec rec p gl n S results succ txn :
  inserts rec (length p + 1) ->
  kids (view txn) p n S -> (forall k, k ∈ S -> p `prefix_of` k) ->
  grouped (length p) gl -> NoDup (members gl).*1 -> NoDup (members gl).*2 ->
  (forall k, k ∈ (members gl).*2 -> p `prefix_of` k) ->
  valid_keys L (S ∪ list_to_set (members gl).*2) ->
  Forall (fun ik => ik.1 < length results) (members gl) ->
  (0 <= succ)%Z -> (succ + Z.of_nat (length (members gl)) < 2 ^ 64)%Z ->
  exists ch txn' results',
    insert_groups d rec p (length p) (group_list gl) results succ (n, txn) =
      (Ok (results', succ + Z.of_nat (size (S ∪ list_to_set (members gl).*2)) - Z.of_nat (size S))%Z,
       (set_children ch n, txn')) /\
    kids (view txn') p (set_children ch n) (S ∪ list_to_set (members gl).*2) /\
    same_above p (view txn) (view txn') /\
    length results' = length results /\
    (forall i k, (i, k) ∈ members gl -> results' !! i = Some (fresh S k)) /\
    (forall i, i ∉ (members gl).*1 -> results' !! i = results !! i).
Proof.
  intros Hrec. revert n S results succ txn.
  induction gl as [|[c l] gl IH]; intros n S results succ txn Hk HS Hgr Hndi Hndk Hpre Hval Hlt H0s Hsz.
  { exists (children n), txn, results. simpl. rewrite (right_id_L ∅ (∪)).
    replace (set_children (children n) n) with n by (by destruct n).
    replace (succ + _ - _)%Z with succ by lia. split_and!; try done. intros i k Hik. by apply elem_of_nil in Hik. }
  apply Forall_cons in Hgr as [[Hlne Hlc] Hgr]. simpl in Hlne, Hlc.
  change (members ((c, l) :: gl)) with (l ++ members gl) in *.
  rewrite fmap_app, NoDup_app in Hndi. rewrite fmap_app, NoDup_app in Hndk. destruct Hndi as (Hndi1 & Hdisji & Hndi2).
  destruct Hndk as (Hndk1 & Hdisjk & Hndk2).
  apply Forall_app in Hlt as [Hlt1 Hlt2]. rewrite fmap_app, list_to_set_app_L, (assoc_L (∪)) in *.
  rewrite length_app in Hsz.
  assert (Hkc : forall k, k ∈ l.*2 -> k !! length p = Some c).
  { intros k ([i k'] & -> & Hik)%list_elem_of_fmap. rewrite Forall_forall in Hlc. by apply (Hlc (i, k')). }
  destruct (insert_child_step rec p n S c l.*2 txn Hrec Hk HS) as
    (child & n0 & child' & txn1 & Eload & Erec & (ch0 & Ech0) & Hk1 & Hab1); [|done|].
  { split_and!; [by destruct l|done|intros k Hk'; apply Hpre; set_solver|].
    eapply valid_keys_subseteq; [|exact Hval]. set_solver. }
  destruct (set_group_results S l results succ Hndi1 Hndk1 Hlt1 H0s ltac:(lia)) as (results1 & Eset & Hlen1 & Hin1 & Hout1).
  destruct (IH (put_child c child' n0) (S ∪ list_to_set l.*2) results1
    (succ + (Z.of_nat (size (S ∪ list_to_set l.*2)) - Z.of_nat (size S)))%Z txn1) as
    (ch2 & txn2 & results2 & E2 & Hk2 & Hab2 & Hlen2 & Hin2 & Hout2); try done.
  { intros k [Hk'|Hk'%elem_of_list_to_set]%elem_of_union; [by apply HS|apply Hpre; set_solver]. }
  { intros k Hk'. apply Hpre. set_solver. }
  { by rewrite Hlen1. }
  { assert (Hsub : S ⊆ S ∪ list_to_set l.*2) by set_solver. apply subseteq_size in Hsub. lia. }
  { rewrite <- count_fresh by done. pose proof (count_true_bounds (map (fresh S) l.*2)).
    rewrite length_map, length_fmap in *. lia. }
  exists ch2, txn2, results2. split_and!.
  - simpl. unfold st_bind, modify_node, st_modify, on_node, on_child, st_lift. simpl.
    rewrite Eload. simpl. rewrite Erec. simpl. rewrite Eset. simpl. rewrite E2, Ech0.
    f_equal. do 2 f_equal. lia.
  - by rewrite Ech0 in Hk2; destruct n.
  - by eapply same_above_trans.
  - lia.
  - intros i k [Hik|Hik]%elem_of_app.
    + rewrite Hout2. 2:{ intros Hi. eapply Hdisji; [|exact Hi]. apply list_elem_of_fmap. by exists (i, k). }
      by apply Hin1.
    + rewrite (Hin2 _ _ Hik). f_equal. unfold fresh. apply bool_decide_ext.
      assert (k ∉ l.*2). { intros Hk'. eapply Hdisjk; [exact Hk'|]. apply list_elem_of_fmap. by exists (i, k). }
      set_solver.
  - intros i Hi. rewrite Hout2 by set_solver. apply Hout1. set_solver.
Qed.

Lemma kids_ext v p n n' S : children n' = children n -> kids v p n S -> kids v p n' S.
Proof. intros E [? ?]. split; by rewrite E. Qed.

Lemma valid_items S : valid_keys L S -> (Z.of_nat (size S) < 2 ^ 32)%Z.
Proof. intros (_ & _ & ?). done. Qed.

Lemma valid_length S k : valid_keys L S -> k ∈ S -> TIMESTAMP_LENGTH <= length k <= L.
Proof. intros (_ & Hk & _) Hin. by apply Hk. Qed.

Lemma valid_bytes S k : valid_keys L S -> k ∈ S -> is_bytes k.
Proof. intros (_ & Hk & _) Hin. by apply Hk. Qed.

(** A key that extends [p] properly, when another one extends [p]. *)
Lemma valid_longer S p k k' :
  valid_keys L S -> k ∈ S -> k' ∈ S -> k ≠ k' -> p `prefix_of` k -> p `prefix_of` k' -> length p < length k.
Proof.
  intros (Hpf & _ & _) Hk Hk' Hne [l ->] Hp'. destruct l as [|c l].
  - rewrite app_nil_r in *. destruct Hne. by apply Hpf.
  - rewrite length_app. simpl. lia.
Qed.

Lemma kids_nonempty v p n S :
  kids v p n S -> S ≠ ∅ -> (forall k, k ∈ S -> length p < length k) -> children n ≠ ∅.
Proof.
  intros [Hdom _] [k Hk]%set_choose_L Hlen Hc. rewrite Hc, dom_empty_L in Hdom.
  destruct (lookup_lt_is_Some_2 k (length p)) as [c Hkc]; [by apply Hlen|].
  assert (c ∈ next_chars p S) by (apply elem_of_next_chars; eauto). set_solver.
Qed.

Lemma kids_bytes v p n S c : kids v p n S -> valid_keys L S -> c ∈ dom (children n) -> is_byte c.
Proof. intros [Hdom _] Hv. rewrite Hdom. apply next_chars_bytes. intros k Hk. by eapply valid_bytes. Qed.

(** Updating the hash and writing the row of an inner node. *)
Lemma rehash_and_put p n S txn :
  kids (view txn) p n S -> S ≠ ∅ -> valid_keys L S ->
  (forall k, k ∈ S -> p `prefix_of` k /\ length p < length k) ->
  items n = Z.of_nat (size S) ->
  exists n' txn',
    (on_node (update_hash blake3 d p) ;;; put_self p)%st (n, txn) = (Ok tt, (n', txn')) /\
    kids (view txn') p n' S /\ items n' = items n /\
    hash n' = inner_hash blake3 (L - length p) p S /\ row (view txn') p n' /\
    same_outside p (view txn) (view txn').
Proof.
  intros Hk Hne Hv HS Hi.
  destruct (update_hash_kids blake3 d m d_holds L _ p n S Hk Hne) as (ch & E & Hk').
  { eapply kids_nonempty; try done. intros k Hin. by apply HS. }
  { intros k Hin. by eapply valid_length. }
  set (n' := set_hash (inner_hash blake3 (L - length p) p S) (set_children ch n)) in *.
  assert (Hk1 : kids (view txn) p n' S) by (eapply kids_ext; [|exact Hk']; done).
  exists n', (put_to_txn n' txn p). split_and!.
  - unfold st_bind, on_node. simpl. rewrite E. done.
  - unfold put_to_txn. rewrite apply_batch_put. by apply kids_put.
  - done.
  - done.
  - unfold put_to_txn. rewrite apply_batch_put. apply row_put.
    + change (items n') with (items n). rewrite Hi. pose proof (valid_items S Hv). lia.
    + intros c. by eapply kids_bytes.
  - unfold put_to_txn. rewrite apply_batch_put. apply same_outside_put.
Qed.

(** [split_leaf_node] turns a leaf into an inner node with the same key. *)
Lemma split_leaf_node_spec rec p n k txn :
  inserts rec (length p + 1) -> key n = Some k -> children n = ∅ -> items n = 1%Z ->
  p `prefix_of` k -> length p < length k -> valid_keys L {[k]} ->
  exists n' txn',
    split_leaf_node_with blake3 d rec (length p) (n, txn) = (Ok tt, (n', txn')) /\
    kids (view txn') p n' {[k]} /\ items n' = 1%Z /\
    same_outside p (view txn) (view txn').
Proof.
  intros Hrec Hkey Hch Hi Hpre Hlen Hv.
  destruct (lookup_lt_is_Some_2 k (length p) Hlen) as [c Hc].
  set (n1 := set_key None n).
  assert (Hk1 : kids (view txn) p n1 ∅).
  { split; simpl; rewrite Hch; [by rewrite dom_empty_L, next_chars_empty|]. intros ? ?. by rewrite lookup_empty. }
  destruct (insert_child_step rec p n1 ∅ c [k] txn Hrec Hk1) as
    (child & n0 & child' & txn1 & Eload & Erec & (ch0 & Ech0) & Hk2 & Hab); [set_solver| |set_solver|].
  { split_and!; [done|apply NoDup_singleton|set_solver|]. by rewrite (left_id_L ∅ (∪)), list_to_set_singleton_L. }
  rewrite (left_id_L ∅ (∪)), list_to_set_singleton_L in Hk2.
  simpl in Eload. rewrite Hch, lookup_empty in Eload. unfold get_or_load_child in Eload. simpl in Eload.
  rewrite lookup_insert_eq in Eload. injection Eload as <- <-.
  destruct (rehash_and_put p (put_child c child' (put_child c TrieNode_default n1)) {[k]} txn1) as
    (n' & txn' & E & Hk' & Hi' & _ & _ & Hout).
  { done. } { apply non_empty_singleton_L. } { done. } { set_solver. }
  { rewrite size_singleton. rewrite Ech0. simpl. rewrite Hi. done. }
  exists n', txn'. split_and!.
  - unfold split_leaf_node_with, st_bind, st_get, st_lift, modify_node, st_modify, on_child, slice_to, index.
    simpl. rewrite Hkey. simpl. rewrite (proj2 (Nat.leb_le _ _)) by lia. simpl. rewrite Hc. simpl.
    rewrite Erec. simpl. destruct Hpre as [l ->]. rewrite take_app_length. exact E.
  - done.
  - rewrite Hi', Ech0. done.
  - eapply same_outside_trans; [|done]. by apply same_above_outside.
Qed.

(** What [insert_below] does after its groups were inserted: only when keys
    were new, the count, the hash and the row of the node change. *)
Definition finish_below p (added : Z) (results : list bool) : ST NodeTxn HubError (list bool) :=
  if (0 <? added)%Z then (add_items added ;;; (on_node (update_hash blake3 d p) ;;; put_self p) ;;; st_ret results)%st
  else st_ret results.

Lemma insert_below_run rec p n rem results txn g gl results' added n1 txn1 :
  Forall (fun ik => length p < length ik.2) rem ->
  group_keys (length p) rem ∅ = Ok g -> map_to_list g = group_list gl ->
  insert_groups d rec p (length p) (group_list gl) results 0 (n, txn) = (Ok (results', added), (n1, txn1)) ->
  insert_below blake3 d rec p (length p) rem results (n, txn) = finish_below p added results' (n1, txn1).
Proof.
  intros Hlens Eg Egl E.
  assert (Hex : existsb (fun ik => length ik.2 <=? length p) rem = false).
  { apply not_true_is_false. intros ([i k] & Hik & Hle)%existsb_exists. apply Nat.leb_le in Hle.
    rewrite Forall_forall in Hlens. apply list_elem_of_In, Hlens in Hik. simpl in *. lia. }
  unfold insert_below, finish_below. rewrite Hex. unfold st_bind at 1, st_lift. rewrite Eg, Egl. unfold st_bind at 1. rewrite E.
  destruct (0 <? added)%Z; [|done]. unfold st_bind. do 4 (case_match; try done).
Qed.

(** New keys below an inner node: it is written again. *)
Lemma finish_below_new p n S S' txn results :
  kids (view txn) p n S' -> S' ≠ ∅ -> valid_keys L S' -> (forall k, k ∈ S' -> p `prefix_of` k /\ length p < length k) ->
  items n = Z.of_nat (size S) -> size S < size S' -> (TIMESTAMP_LENGTH <= length p -> 2 <= size S') ->
  exists n' txn',
    finish_below p (Z.of_nat (size S') - Z.of_nat (size S)) results (n, txn) = (Ok results, (n', txn')) /\
    repr (view txn') p (Node n') S' /\ same_outside p (view txn) (view txn').
Proof.
  intros Hk Hne Hval Hext Hi Hlt Hsz. set (i' := (items n + (Z.of_nat (size S') - Z.of_nat (size S)))%Z).
  assert (Hi' : i' = Z.of_nat (size S')) by (unfold i'; lia).
  destruct (rehash_and_put p (set_items i' n) S' txn) as (n' & txn' & E & Hk2 & Hi2 & Hh2 & Hrow & Hout);
    [by eapply kids_ext; [|exact Hk]|done..|].
  exists n', txn'. split_and!; [| |done].
  - unfold finish_below. rewrite (proj2 (Z.ltb_lt _ _)) by lia. pose proof (valid_items S' Hval).
    unfold add_items, st_bind at 1, st_get. simpl. unfold st_bind, st_lift, add_u. simpl.
    rewrite (proj2 (Z.ltb_lt _ _)) by (unfold i' in Hi'; lia). simpl.
    unfold st_bind in E. simpl in E. fold i'. by rewrite E.
  - destruct Hk2 as [Hdom Hch]. apply repr_inner; try done.
    + intros k Hks. split; [by apply Hext|]. split; [by apply Hext|]. by eapply valid_length.
    + by rewrite Hi2.
Qed.

(** No new keys: the node and its row stay as they are. *)
Lemma finish_below_same p n ch S v txn :
  kids v p n S -> kids (view txn) p (set_children ch n) S -> S ≠ ∅ -> valid_keys L S ->
  (forall k, k ∈ S -> p `prefix_of` k /\ length p < length k) -> items n = Z.of_nat (size S) ->
  (TIMESTAMP_LENGTH <= length p -> 2 <= size S) -> hash n = inner_hash blake3 (L - length p) p S -> row v p n ->
  same_above p v (view txn) -> repr (view txn) p (Node (set_children ch n)) S.
Proof.
  intros Hk Hk' Hne Hval Hext Hi Hsz Hh (b & Hb & Hdes) Hab. destruct Hk' as [Hdom Hch]. apply repr_inner; try done.
  - intros k Hks. split; [by apply Hext|]. split; [by apply Hext|]. by eapply valid_length.
  - exists b. split.
    + rewrite Hab; [done|]. intros q Hq Hlq ->%node_key_inj. lia.
    + rewrite Hdes, on_disk_set_children; [done|]. by rewrite (proj1 Hk).
Qed.

(** The keys that go one level down. *)
Lemma insert_below_spec rec p n S rem results txn :
  inserts rec (length p + 1) ->
  kids (view txn) p n S -> items n = Z.of_nat (size S) ->
  (forall k, k ∈ S ∪ list_to_set rem.*2 -> p `prefix_of` k /\ length p < length k) ->
  NoDup rem.*1 -> NoDup rem.*2 -> valid_keys L (S ∪ list_to_set rem.*2) ->
  Forall (fun ik => ik.1 < length results) rem ->
  (TIMESTAMP_LENGTH <= length p -> 2 <= size (S ∪ list_to_set rem.*2)) ->
  S ∪ list_to_set rem.*2 ≠ ∅ ->
  (list_to_set rem.*2 ⊆ S -> hash n = inner_hash blake3 (L - length p) p S /\ row (view txn) p n) ->
  exists n' txn' results',
    insert_below blake3 d rec p (length p) rem results (n, txn) = (Ok results', (n', txn')) /\
    repr (view txn') p (Node n') (S ∪ list_to_set rem.*2) /\
    same_outside p (view txn) (view txn') /\
    length results' = length results /\
    (forall i k, (i, k) ∈ rem -> results' !! i = Some (fresh S k)) /\
    (forall i, i ∉ rem.*1 -> results' !! i = results !! i).
Proof.
  intros Hrec Hk Hi Hext Hndi Hndk Hval Hlt Hsz Hne Hold.
  assert (Hlens : Forall (fun ik => length p < length ik.2) rem).
  { apply Forall_forall. intros [i k] Hik. apply Hext. apply elem_of_union_r, elem_of_list_to_set.
    apply list_elem_of_fmap. by exists (i, k). }
  destruct (group_keys_list (length p) rem Hlens) as (g & gl & Eg & Egl & Hndg & Hgr & Hperm).
  { by eapply NoDup_fmap_1. }
  assert (Hset : list_to_set (C := gset bytes) (members gl).*2 = list_to_set rem.*2).
  { apply list_to_set_perm_L. by rewrite Hperm. }
  assert (Hrem : (Z.of_nat (length rem) < 2 ^ 32)%Z).
  { pose proof (valid_items _ Hval). rewrite <- (length_fmap snd rem), <- (size_list_to_set (C := gset bytes)) by done.
    assert (Hsub : list_to_set rem.*2 ⊆ S ∪ list_to_set rem.*2) by apply union_subseteq_r.
    apply subseteq_size in Hsub. lia. }
  destruct (insert_groups_spec rec p gl n S results 0 txn Hrec Hk) as
    (ch & txn1 & results' & E & Hk' & Hab & Hlen & Hin & Hout); [..|rewrite Hset in E, Hk'].
  { intros k Hks. by apply Hext, elem_of_union_l. }
  { done. } { by rewrite Hperm. } { by rewrite Hperm. }
  { intros k Hks. apply Hext, elem_of_union_r. by rewrite <- Hset, elem_of_list_to_set. }
  { by rewrite Hset. } { by rewrite Hperm. } { done. } { rewrite Hperm. lia. }
  set (S' := S ∪ list_to_set rem.*2) in *.
  assert (Hres : forall i k, (i, k) ∈ rem -> results' !! i = Some (fresh S k)).
  { intros i k Hik. apply Hin. by rewrite Hperm. }
  assert (Hkeep : forall i, i ∉ rem.*1 -> results' !! i = results !! i).
  { intros i Hi'. apply Hout. by rewrite Hperm. }
  pose proof (insert_below_run rec p n rem results txn g gl results' _ _ _ Hlens Eg Egl E) as Erun. rewrite Z.add_0_l in Erun.
  destruct (decide (size S < size S')) as [Hgt|Hle].
  - destruct (finish_below_new p (set_children ch n) S S' txn1 results') as (n' & txn' & E' & Hr & Hout2); try done.
    exists n', txn', results'. split_and!; [by rewrite Erun|done| |done..].
    eapply same_outside_trans; [|done]. by apply same_above_outside.
  - assert (HS : S' = S) by (symmetry; apply set_subseteq_size_eq; [apply union_subseteq_l|lia]).
    assert (Hsub : list_to_set rem.*2 ⊆ S) by (rewrite <- HS; apply union_subseteq_r).
    destruct (Hold Hsub) as [Hh Hrow]. rewrite HS in *.
    exists (set_children ch n), txn1, results'. split_and!; [|by eapply finish_below_same|by apply same_above_outside|done..].
    rewrite Erun. unfold finish_below. by rewrite Z.sub_diag.
Qed.

(** A leaf that already has a key: it is split, and the other keys go down. *)
Lemma split_and_below rec p n k0 rem results txn :
  inserts rec (length p + 1) -> key n = Some k0 -> children n = ∅ -> items n = 1%Z ->
  p `prefix_of` k0 -> rem ≠ [] -> NoDup rem.*1 -> NoDup rem.*2 ->
  (forall k, k ∈ rem.*2 -> p `prefix_of` k /\ k ≠ k0) ->
  valid_keys L ({[k0]} ∪ list_to_set rem.*2) ->
  Forall (fun ik => ik.1 < length results) rem ->
  exists n1 txn1 n' txn' results',
    split_leaf_node_with blake3 d rec (length p) (n, txn) = (Ok tt, (n1, txn1)) /\
    insert_below blake3 d rec p (length p) rem results (n1, txn1) = (Ok results', (n', txn')) /\
    repr (view txn') p (Node n') ({[k0]} ∪ list_to_set rem.*2) /\
    same_outside p (view txn) (view txn') /\
    length results' = length results /\
    (forall i k, (i, k) ∈ rem -> results' !! i = Some true) /\
    (forall i, i ∉ rem.*1 -> results' !! i = results !! i).
Proof.
  intros Hrec Hkey Hch Hi Hpre Hne Hndi Hndk Hrem Hval Hlt.
  assert (Hk1 : exists k1, k1 ∈ rem.*2).
  { destruct rem as [|[i k1] rem]; [done|]. exists k1. by left. }
  destruct Hk1 as [k1 Hk1]. destruct (Hrem k1 Hk1) as [Hpre1 Hne1].
  assert (Hin0 : k0 ∈ {[k0]} ∪ list_to_set (C := gset bytes) rem.*2) by (by apply elem_of_union_l, elem_of_singleton).
  assert (Hin : forall k, k ∈ rem.*2 -> k ∈ {[k0]} ∪ list_to_set (C := gset bytes) rem.*2).
  { intros k Hk. by apply elem_of_union_r, elem_of_list_to_set. }
  assert (Hlen0 : length p < length k0) by (eapply (valid_longer _ p k0 k1); eauto).
  destruct (split_leaf_node_spec rec p n k0 txn) as (n1 & txn1 & E1 & Hkids & Hi1 & Hout1); try done.
  { eapply valid_keys_subseteq; [apply union_subseteq_l|done]. }
  destruct (insert_below_spec rec p n1 {[k0]} rem results txn1) as
    (n' & txn' & results' & E2 & Hr & Hout2 & Hlen & Hnew & Hkeep); try done.
  { by rewrite size_singleton. }
  { intros k [->%elem_of_singleton|Hk%elem_of_list_to_set]%elem_of_union; [done|].
    destruct (Hrem k Hk). split; [done|]. eapply (valid_longer _ p k k0); eauto. }
  { intros _. assert (Hsub : {[k0; k1]} ⊆ {[k0]} ∪ list_to_set (C := gset bytes) rem.*2).
    { apply union_mono_l, singleton_subseteq_l. by apply elem_of_list_to_set. }
    apply subseteq_size in Hsub. rewrite size_union, !size_singleton in Hsub; [lia|].
    apply disjoint_singleton_l. by intros ?%elem_of_singleton. }
  { intros E. apply (not_elem_of_empty (C := gset bytes) k0). by rewrite <- E. }
  { intros Hsub. specialize (Hsub k1). rewrite elem_of_list_to_set, elem_of_singleton in Hsub. by destruct Hne1; auto. }
  exists n1, txn1, n', txn', results'. split_and!; try done.
  - by eapply same_outside_trans.
  - intros i k Hik. rewrite (Hnew i k Hik). unfold fresh. rewrite bool_decide_eq_true_2; [done|].
    intros ->%elem_of_singleton. destruct (Hrem k0) as [_ ?]; [|done]. apply list_elem_of_fmap. by exists (i, k0).
Qed.

Lemma remaining_loop_spec k0 (ins : bool) l results :
  (forall i, (i, k0) ∈ l -> results !! i = Some false) ->
  remaining_loop k0 ins l results =
    Ok (map (fun ik => (ik.1 + (if ins then 1 else 0), ik.2)) (filter (fun ik => ik.2 ≠ k0) l), results).
Proof.
  induction l as [|[i k] l IH]; intros Hres; [done|]. simpl. rewrite bytes_compare_eqb.
  rewrite filter_cons. simpl. case_bool_decide as Hk; subst.
  - rewrite decide_False by naive_solver.
    assert (Hi : results !! i = Some false) by (apply Hres; by left).
    unfold vec_set. rewrite (proj2 (Nat.ltb_lt _ _)) by (by eapply lookup_lt_Some). simpl.
    rewrite list_insert_id by done. apply IH. intros j Hj. apply Hres. by right.
  - rewrite decide_True by congruence. rewrite IH; [done|]. intros j Hj. apply Hres. by right.
Qed.

Lemma insertable_slice p S keys k0 keys' :
  insertable p S keys -> keys = k0 :: keys' -> slice_to (E := HubError) k0 (length p) = Ok p.
Proof.
  intros (_ & _ & Hpre & _) ->. destruct (Hpre k0) as [l ->]; [by left|].
  unfold slice_to. rewrite length_app, (proj2 (Nat.leb_le _ _)) by lia. by rewrite take_app_length.
Qed.

(** [insert] at a leaf *)
Definition insert_at_leaf (rec : list bytes -> nat -> ST NodeTxn HubError (list bool)) p (keys : list bytes) : ST NodeTxn HubError (list bool) :=
  (let! leaf := insert_leaf blake3 d rec p keys (length p) (map (fun _ => false) keys) in
   match leaf with
   | inl results => st_ret results
   | inr (remaining_keys, results) => insert_below blake3 d rec p (length p) remaining_keys results
   end)%st.

Lemma nothing_inserted (keys : list bytes) i : map (fun _ => false) keys !! i = (fun _ => false) <$> keys !! i.
Proof. change (map (fun _ => false) keys) with ((fun _ : bytes => false) <$> keys). by rewrite list_lookup_fmap. Qed.

(** The keys other than the one of the leaf, with their positions *)
Definition others k0 (keys : list bytes) : list (nat * bytes) := filter (fun ik : nat * bytes => ik.2 ≠ k0) (enumerate keys).

Lemma elem_of_others k0 keys i k : (i, k) ∈ others k0 keys <-> keys !! i = Some k /\ k ≠ k0.
Proof. unfold others. rewrite list_elem_of_filter, elem_of_enumerate. naive_solver. Qed.

Lemma others_set k0 keys : {[k0]} ∪ list_to_set keys = {[k0]} ∪ list_to_set (C := gset bytes) (others k0 keys).*2.
Proof.
  apply set_eq. intros k. rewrite !elem_of_union, !elem_of_list_to_set, elem_of_singleton. split.
  - intros [?|Hk]; [by left|]. destruct (decide (k = k0)); [by left|right].
    apply list_elem_of_lookup in Hk as [i Hi]. apply list_elem_of_fmap. exists (i, k). split; [done|]. by apply elem_of_others.
  - intros [?|([i k'] & -> & [Hk _]%elem_of_others)%list_elem_of_fmap]; [by left|right]. by eapply list_elem_of_lookup_2.
Qed.

Lemma insert_leaf_run rec p n k0 keys txn : keys ≠ [] -> key n = Some k0 ->
  insert_leaf blake3 d rec p keys (length p) (map (fun _ => false) keys) (n, txn) =
  match others k0 keys with
  | [] => (Ok (inl (map (fun _ => false) keys)), (n, txn))
  | _ => (split_leaf_node_with blake3 d rec (length p) ;;; st_ret (inr (others k0 keys, map (fun _ => false) keys)))%st (n, txn)
  end.
Proof.
  intros Hne Hkey. set (results := map (fun _ => false) keys).
  assert (Hrl : remaining_loop k0 false (enumerate keys) results = Ok (others k0 keys, results)).
  { rewrite remaining_loop_spec.
    - do 2 f_equal. fold (others k0 keys). rewrite <- (map_id (others k0 keys)) at 2. apply map_ext. intros [i k]. simpl. by rewrite Nat.add_0_r.
    - intros i Hi%elem_of_enumerate. unfold results. by rewrite nothing_inserted, Hi. }
  unfold insert_leaf, st_bind at 1, st_get. cbn [fst]. rewrite Hkey. unfold st_bind at 1, st_ret at 1.
  destruct keys as [|k' keys']; [done|]. unfold st_bind at 1. simpl fst. unfold key_or_empty. rewrite Hkey.
  unfold st_bind at 1, st_lift. simpl default. rewrite Hrl. by destruct (others k0 (k' :: keys')).
Qed.

(** The results are right when those of the other keys are true and the rest
    was left false. *)
Lemma others_results k0 keys (r : list bool) : length r = length keys ->
  (forall i k, (i, k) ∈ others k0 keys -> r !! i = Some true) ->
  (forall i, i ∉ (others k0 keys).*1 -> r !! i = map (fun _ => false) keys !! i) ->
  r = map (fresh {[k0]}) keys.
Proof.
  intros Hl Hnew Hkeep. apply list_eq. intros i. change (map (fresh {[k0]}) keys) with (fresh {[k0]} <$> keys).
  rewrite list_lookup_fmap. destruct (keys !! i) as [k|] eqn:Ei; simpl.
  - destruct (decide (k = k0)) as [->|Hk].
    + rewrite Hkeep, nothing_inserted, Ei.
      2:{ intros ([i' k'] & -> & [Hi' Hk']%elem_of_others)%list_elem_of_fmap. simpl in *. congruence. }
      unfold fresh. simpl. f_equal. symmetry. apply bool_decide_eq_false_2. intros Hn. by apply Hn, elem_of_singleton.
    + rewrite (Hnew i k) by (by apply elem_of_others). unfold fresh. f_equal. symmetry. apply bool_decide_eq_true_2.
      by intros ?%elem_of_singleton.
  - apply lookup_ge_None in Ei. apply lookup_ge_None. lia.
Qed.

(** Insertion at a leaf below the timestamp. *)
Lemma insert_leaf_full rec p n S k0 keys txn :
  inserts rec (length p + 1) -> (S = {[k0]}) -> repr (view txn) p (Node n) S ->
  TIMESTAMP_LENGTH <= length p -> children n = ∅ -> key n = Some k0 ->
  insertable p S keys ->
  insert_post p S keys txn (insert_at_leaf rec p keys (n, txn)).
Proof.
  intros Hrec -> Hr Hp Hch Hkey (Hne & Hnd & Hpre & Hval). pose proof (others_set k0 keys) as Hset.
  unfold insert_at_leaf, st_bind at 1. rewrite (insert_leaf_run rec p n k0 keys txn Hne Hkey).
  destruct (others k0 keys) as [|ik rem'] eqn:Erem.
  - simpl in Hset. rewrite (right_id_L ∅ (∪)) in Hset.
    exists n, txn. split_and!; [|by rewrite Hset|apply same_outside_refl]. unfold st_ret. do 2 f_equal.
    apply others_results; [by rewrite length_map| |done]. rewrite Erem. intros i k Hik. by apply elem_of_nil in Hik.
  - rewrite <- Erem in *. set (rem := others k0 keys) in *.
    destruct (split_and_below rec p n k0 rem (map (fun _ => false) keys) txn) as
      (n1 & txn1 & n' & txn' & r & E1 & E2 & Hr' & Hout & Hlen & Hnew & Hkeep); try done.
    { by rewrite (repr_items _ _ _ _ _ _ _ Hr), size_singleton. }
    { eapply repr_extends; [exact Hr|by apply elem_of_singleton]. }
    { by rewrite Erem. }
    { eapply sublist_NoDup; [|apply fmap_sublist, sublist_filter]. rewrite enumerate_fst. apply NoDup_seq. }
    { eapply sublist_NoDup; [|apply fmap_sublist, sublist_filter]. by rewrite enumerate_snd. }
    { intros k ([i k'] & -> & [Hi Hk]%elem_of_others)%list_elem_of_fmap. split; [|done]. apply Hpre. by eapply list_elem_of_lookup_2. }
    { by rewrite <- Hset. }
    { apply Forall_forall. intros [i k] [Hi _]%elem_of_others. rewrite length_map. by eapply lookup_lt_Some. }
    exists n', txn'. rewrite Hset. split_and!; [|done|done].
    unfold st_bind at 1. rewrite E1. simpl. rewrite E2. do 2 f_equal.
    apply others_results; [by rewrite Hlen, length_map|done|done].
Qed.

(** The keys after the last one took the node: their positions are shifted by
    one. *)
Definition shifted (keys : list bytes) : list (nat * bytes) := map (fun ik : nat * bytes => (ik.1 + 1, ik.2)) (enumerate keys).

Lemma elem_of_shifted keys i k : (i, k) ∈ shifted keys <-> exists j, i = j + 1 /\ keys !! j = Some k.
Proof.
  unfold shifted. change (map ?f ?l) with (f <$> l). rewrite list_elem_of_fmap. split.
  - intros ([j k'] & Heq & Hj%elem_of_enumerate). simplify_eq/=. eauto.
  - intros (j & -> & Hj). exists (j, k). split; [done|]. by apply elem_of_enumerate.
Qed.

(** The node with its first key, and the batch with its row *)
Definition first_leaf k0 : TrieNode := mkTrieNode (blake3_20 blake3 k0) 1 ∅ (Some k0).

Lemma first_leaf_repr p k0 txn : p `prefix_of` k0 -> TIMESTAMP_LENGTH <= length p -> valid_keys L {[k0]} ->
  let txn1 := put_to_txn (first_leaf k0) txn p in
  repr (view txn1) p (Node (first_leaf k0)) {[k0]} /\ same_outside p (view txn) (view txn1).
Proof.
  intros Hpre Hp Hv txn1.
  assert (Hview : view txn1 = <[node_key p := serialize (first_leaf k0)]> (view txn)) by (unfold txn1, put_to_txn; by rewrite apply_batch_put).
  split; rewrite Hview; [|apply same_outside_put]. apply repr_leaf; try done. apply row_put; [simpl; lia|].
  intros c. simpl. by rewrite dom_empty_L, elem_of_empty.
Qed.

(** The results after the first key was inserted *)
Definition first_results (init : list bytes) : list bool := true :: map (fun _ => false) init.

Lemma set_first_result init k0 :
  vec_set (E := HubError) (map (fun _ => false) (init ++ [k0])) 0 true = Ok (first_results init).
Proof.
  unfold vec_set. rewrite (proj2 (Nat.ltb_lt _ _)) by (rewrite length_map, length_app; simpl; lia). f_equal. unfold first_results.
  rewrite map_app. destruct init as [|k1 l]; simpl; [done|]. f_equal. by rewrite (cons_false_snoc l).
Qed.

Lemma insert_leaf_first rec p h init k0 txn : TIMESTAMP_LENGTH <= length p -> k0 ∉ init ->
  let txn1 := put_to_txn (first_leaf k0) txn p in
  insert_leaf blake3 d rec p (init ++ [k0]) (length p) (map (fun _ => false) (init ++ [k0])) (mkTrieNode h 0 ∅ None, txn) =
  match init with
  | [] => (Ok (inl (first_results init)), (first_leaf k0, txn1))
  | _ => (split_leaf_node_with blake3 d rec (length p) ;;; st_ret (inr (shifted init, first_results init)))%st (first_leaf k0, txn1)
  end.
Proof.
  intros Hp Hk0n txn1. unfold insert_leaf, st_bind at 1, st_get. cbn [fst key]. rewrite last_snoc, removelast_last.
  unfold st_bind, st_lift, modify_node, st_modify, add_items, put_self, on_node, st_ret, st_get, add_u.
  cbn -[Z.pow update_hash insert_below map split_leaf_node_with vec_set]. change (0 + 1 <? 2 ^ 64)%Z with true.
  cbn -[Z.pow update_hash insert_below map split_leaf_node_with vec_set].
  rewrite update_hash_leaf by done. unfold key_or_empty, set_items, set_hash. cbn -[map vec_set first_results].
  rewrite set_first_result. fold (first_leaf k0). fold txn1. destruct init as [|k1 init']; [done|].
  rewrite remaining_loop_spec.
  - rewrite filter_all.
    2:{ apply Forall_forall. intros [i k] Hik%elem_of_enumerate. simpl. intros ->. apply Hk0n. by eapply list_elem_of_lookup_2. }
    fold (shifted (k1 :: init')). unfold shifted. destruct (enumerate (k1 :: init')) eqn:Ee; [|done]. by simpl in Ee.
  - intros i Hik%elem_of_enumerate. destruct Hk0n. by eapply list_elem_of_lookup_2.
Qed.

Lemma shifted_results init k0 (r : list bool) : length r = length (first_results init) ->
  (forall i k, (i, k) ∈ shifted init -> r !! i = Some true) ->
  (forall i, i ∉ (shifted init).*1 -> r !! i = first_results init !! i) ->
  r = map (fun _ => true) (init ++ [k0]).
Proof.
  intros Hlen Hnew Hkeep. apply list_eq. intros i. change (map ?f ?l) with (f <$> l). rewrite list_lookup_fmap.
  destruct i as [|i].
  - rewrite Hkeep; [by destruct init|]. intros ([i' k'] & Heq & (j & -> & Hj)%elem_of_shifted)%list_elem_of_fmap. simpl in Heq. lia.
  - destruct (init !! i) as [k|] eqn:Ei.
    + rewrite (Hnew (S i) k) by (apply elem_of_shifted; exists i; split; [lia|done]).
      destruct (lookup_lt_is_Some_2 (init ++ [k0]) (S i)) as [k' ->]; [|done].
      apply lookup_lt_Some in Ei. rewrite length_app. simpl. lia.
    + apply lookup_ge_None in Ei. rewrite !(proj2 (lookup_ge_None _ _)); [done| |].
      all: rewrite ?Hlen, ?length_app; unfold first_results; simpl; rewrite ?length_map; simpl in *; lia.
Qed.

(** Insertion at an empty node below the timestamp: the last key takes the
    node, the others go down after it. *)
Lemma insert_leaf_empty rec p n keys txn :
  inserts rec (length p + 1) ->
  TIMESTAMP_LENGTH <= length p -> children n = ∅ -> key n = None -> items n = 0%Z ->
  insertable p ∅ keys ->
  insert_post p ∅ keys txn (insert_at_leaf rec p keys (n, txn)).
Proof.
  intros Hrec Hp Hch Hkey Hi (Hne & Hnd & Hpre & Hval).
  destruct n as [h i ch ok]. simpl in Hch, Hkey, Hi. subst i ch ok. destruct (exists_last Hne) as (init & k0 & ->).
  apply NoDup_app in Hnd as (Hnd0 & Hd & _). assert (Hk0n : k0 ∉ init) by (intros Hin; apply (Hd k0); [done|by left]).
  assert (Hk0 : k0 ∈ init ++ [k0]) by (apply elem_of_app; right; by left).
  destruct (first_leaf_repr p k0 txn (Hpre k0 Hk0) Hp) as [Hr1 Hout1].
  { eapply valid_keys_subseteq; [|exact Hval]. rewrite (left_id_L ∅ (∪)). by apply singleton_subseteq_l, elem_of_list_to_set. }
  assert (Hfr : map (fresh ∅) (init ++ [k0]) = map (fun _ => true) (init ++ [k0])).
  { apply map_ext. intros k. unfold fresh. apply bool_decide_eq_true_2, not_elem_of_empty. }
  unfold insert_at_leaf, st_bind at 1. rewrite (insert_leaf_first rec p h init k0 txn Hp Hk0n). unfold insert_post. rewrite Hfr.
  set (txn1 := put_to_txn (first_leaf k0) txn p) in *. destruct (decide (init = [])) as [->|Hnil].
  { exists (first_leaf k0), txn1. simpl. rewrite (right_id_L ∅ (∪)), (left_id_L ∅ (∪)). split_and!; done. }
  assert (Hset : ∅ ∪ list_to_set (init ++ [k0]) = {[k0]} ∪ list_to_set (C := gset bytes) (shifted init).*2).
  { rewrite (left_id_L ∅ (∪)), list_to_set_app_L, (comm_L (∪)). simpl. rewrite (right_id_L ∅ (∪)). f_equal. f_equal.
    unfold shifted. by rewrite shift_snd, enumerate_snd. }
  destruct (split_and_below rec p (first_leaf k0) k0 (shifted init) (first_results init) txn1) as
    (n2 & txn2 & n' & txn' & r & E1 & E2 & Hr' & Hout & Hlen & Hnew & Hkeep); try done.
  { by apply Hpre. }
  { unfold shifted. by destruct init. }
  { unfold shifted. rewrite shift_fst, enumerate_fst. apply NoDup_fmap_2, NoDup_seq. intros ???. lia. }
  { unfold shifted. by rewrite shift_snd, enumerate_snd. }
  { intros k ([i k'] & -> & (j & -> & Hj)%elem_of_shifted)%list_elem_of_fmap. simpl. apply list_elem_of_lookup_2 in Hj.
    split; [apply Hpre, elem_of_app; by left|congruence]. }
  { by rewrite <- Hset. }
  { apply Forall_forall. intros [i k] (j & -> & Hj)%elem_of_shifted. unfold first_results. simpl. rewrite length_map.
    apply lookup_lt_Some in Hj. lia. }
  exists n', txn'. rewrite Hset. split_and!; [|done|by eapply same_outside_trans].
  destruct init as [|k1 init'] eqn:Einit; [done|]. rewrite <- Einit in *. unfold st_bind at 1. rewrite E1. simpl.
  rewrite E2. do 2 f_equal. by apply shifted_results.
Qed.

(** An inner node, or a node above the timestamp, inserts into its children. *)
Lemma insert_inner rec p n S keys txn :
  inserts rec (length p + 1) -> start (view txn) p n S -> insertable p S keys ->
  (TIMESTAMP_LENGTH <= length p -> children n ≠ ∅) ->
  insert_post p S keys txn
    (insert_below blake3 d rec p (length p) (enumerate keys) (map (fun _ => false) keys) (n, txn)).
Proof.
  intros Hrec Hs (Hne & Hnd & Hpre & Hval) Hts.
  assert (Hor : S = ∅ \/ (kids (view txn) p n S /\ (forall k, k ∈ S -> p `prefix_of` k /\ length p < length k) /\
    (TIMESTAMP_LENGTH <= length p -> 2 <= size S) /\ hash n = inner_hash blake3 (L - length p) p S /\ row (view txn) p n)).
  { destruct Hs as [(-> & _)|Hr]; [by left|right]. inversion Hr; subst.
    - exfalso. by apply Hts.
    - split_and!; try done. intros k Hk. naive_solver. }
  destruct (insert_below_spec rec p n S (enumerate keys) (map (fun _ => false) keys) txn) as
    (n' & txn' & results' & E & Hr & Hout & Hlen & Hnew & _); rewrite ?enumerate_fst, ?enumerate_snd in *; try done.
  - destruct Hor as [->|[? _]]; [|done]. eapply start_kids; [done|by right].
  - by eapply start_items.
  - assert (HS : forall k, k ∈ S -> p `prefix_of` k) by (intros k Hk; destruct Hor as [->|(_ & HS & _)]; [set_solver|by apply HS]).
    intros k Hk. assert (Hpk : p `prefix_of` k).
    { apply elem_of_union in Hk as [Hk|Hk%elem_of_list_to_set]; auto. }
    split; [done|]. destruct (decide (length p < TIMESTAMP_LENGTH)) as [Hlt|Hge].
    + pose proof (valid_length _ k Hval Hk). lia.
    + destruct Hor as [->|(_ & HSl & Hsz & _)].
      { destruct Hs as [(_ & Hc & _)|Hr]; [destruct Hts; [lia|done]|by apply repr_nonempty in Hr]. }
      destruct (decide (k ∈ S)) as [|Hkn]; [by apply HSl|].
      destruct (set_choose_L S) as [k' Hk']; [intros ->; rewrite size_empty in Hsz; lia|].
      eapply (valid_longer _ p k k'); [done|done|by apply elem_of_union_l|by intros ->|done|by apply HS].
  - apply NoDup_seq.
  - apply Forall_forall. intros [i k] Hi%elem_of_enumerate. rewrite length_map. by eapply lookup_lt_Some.
  - intros Hp. destruct Hor as [->|(_ & _ & Hsz & _)].
    + destruct Hs as [(_ & Hc & _)|Hr]; [by destruct Hts|by apply repr_nonempty in Hr].
    + assert (Hsub : S ⊆ S ∪ list_to_set keys) by apply union_subseteq_l. apply subseteq_size in Hsub. specialize (Hsz Hp). lia.
  - destruct keys as [|k0 keys]; [done|]. intros E. apply (not_elem_of_empty (C := gset bytes) k0).
    rewrite <- E. apply elem_of_union_r, elem_of_list_to_set. by left.
  - intros Hsub. destruct Hor as [->|(_ & _ & _ & ? & ?)]; [|done].
    destruct keys as [|k0 keys]; [done|]. destruct (not_elem_of_empty (C := gset bytes) k0). apply Hsub, elem_of_list_to_set. by left.
  - exists n', txn'. split_and!; [|done|done]. rewrite E. do 2 f_equal.
    apply list_eq. intros i. change (map ?f ?l) with (f <$> l). rewrite list_lookup_fmap.
    destruct (keys !! i) as [k|] eqn:Ei; simpl.
    + apply Hnew. by apply elem_of_enumerate.
    + apply lookup_ge_None in Ei. apply lookup_ge_None. rewrite Hlen, length_map. done.
Qed.

(** Bulk insertion is correct at every depth, with enough fuel for the bytes
    that are left. *)
Lemma insert_inserts fuel j : L + 1 <= fuel + j -> inserts (insert blake3 d fuel) j.
Proof.
  revert j. induction fuel as [|fuel IH]; intros j Hf p n S keys txn <- Hs Hins.
  { exfalso. destruct Hins as (Hne & _ & Hpre & Hval). destruct keys as [|k0 keys]; [done|].
    assert (Hp : p `prefix_of` k0) by (apply Hpre; by left). apply prefix_length in Hp.
    pose proof (valid_length _ k0 Hval). destruct H1; [|lia]. apply elem_of_union_r, elem_of_list_to_set. by left. }
  assert (Hrec : inserts (insert blake3 d fuel) (length p + 1)) by (apply IH; lia).
  destruct keys as [|k0 keys]; [by destruct Hins|]. cbn [insert].
  unfold st_bind at 1, st_lift at 1. rewrite (insertable_slice p S (k0 :: keys) k0 keys) by done.
  unfold st_bind at 1, st_get at 1. cbn [fst].
  destruct (decide (TIMESTAMP_LENGTH <= length p /\ children n = ∅)) as [[Hp Hc]|Hno].
  - rewrite (proj2 (Nat.leb_le _ _)) by done. unfold is_leaf. rewrite bool_decide_eq_true_2 by done.
    destruct Hs as [(-> & _ & Hi & Hk)|Hr].
    + apply insert_leaf_empty; auto.
    + inversion Hr as [p' n' k Hp' Hpre Hch Hkey Hi Hh Hrow|p' n' S' HS Hk Hsz Hdom Hch Hi Hh Hrow|]; subst.
      * by eapply insert_leaf_full.
      * destruct (kids_nonempty (view txn) p n S); try done. intros k Hks. naive_solver.
  - replace ((TIMESTAMP_LENGTH <=? length p) && is_leaf n) with false.
    + apply insert_inner; auto.
    + symmetry. apply andb_false_iff. unfold is_leaf. destruct (Nat.leb_spec TIMESTAMP_LENGTH (length p)); [right|by left].
      apply bool_decide_eq_false_2. intros ?. by destruct Hno.
Qed.

End Insert.
