(* ===== verification/TrieQuery.v ===== *)
(** * The sync trie: lookup and reloading

    [exists] answers membership in the set a node stands for; a node read back
    from the rows a batch has written stands for the same set as the node in
    memory. *)

From S2P Require Import Prelude Util Db TrieNode TrieSpec TrieInsert.

Section Query.
Context {T : Type} `{TransactionDBLaws T} `{!Codec DbTrieNode} {codec_law : CodecLaw DbTrieNode}.
Variable blake3 : bytes -> bytes.
Variable d : RocksDB T.
Variable m : gmap bytes bytes.
Hypothesis d_holds : holds d m.
Variable L : nat.

Implicit Types (v : gmap bytes bytes) (n : TrieNode) (S : gset bytes) (p k : bytes).

(** Loading a child of an inner node leaves the node's set unchanged. *)
Lemma repr_put_child v p n S c child :
  repr blake3 m L v p (Node n) S -> is_Some (children n !! c) ->
  repr blake3 m L v (p ++ [c]) (Node child) (under (p ++ [c]) S) ->
  repr blake3 m L v p (Node (put_child c child n)) S.
Proof using Type.
  intros Hr Hc Hchild. inversion Hr as [p' n' k Hp Hpre Hch|p' n' S' HS Hk Hsz Hdom Hch Hi Hh Hrow|]; subst.
  { rewrite Hch, lookup_empty in Hc. by destruct Hc. }
  destruct (kids_put_child blake3 m L v p n S c child) as [Hdom' Hch']; [by split|done|done|].
  apply repr_inner; try done. destruct Hrow as (b & Hb & Hd). exists b. split; [done|].
  rewrite Hd. unfold put_child. rewrite on_disk_set_children; [done|]. rewrite Hdom. exact Hdom'.
Qed.

(** A node with children splits its set by the next byte. *)
Lemma repr_children v p n S k :
  repr blake3 m L v p (Node n) S -> children n ≠ ∅ -> k ∈ S ->
  exists c, k !! length p = Some c /\ c ∈ dom (children n).
Proof using Type.
  intros Hr Hne Hk. inversion Hr as [|p' n' S' HS Hks Hsz Hdom Hch|]; subst; [done|].
  destruct (Hks k Hk) as [_ Hlen]. destruct (lookup_lt_is_Some_2 k (length p)) as [c Hc]; [lia|].
  exists c. split; [done|]. rewrite Hdom. apply elem_of_next_chars. eauto.
Qed.

Lemma exists_aux_spec v k rest p n S :
  repr blake3 m L v p (Node n) S -> k = p ++ rest ->
  exists n', exists_aux d k rest (length p) n = (Ok (bool_decide (k ∈ S)), n') /\
    repr blake3 m L v p (Node n') S.
Proof using d_holds.
  revert p n S. induction rest as [|c rest IH]; intros p n S Hr ->; simpl;
    unfold is_leaf; case_bool_decide as Hc.
  1,3: inversion Hr as [p' n' k0 Hp Hpre Hch Hkey| |]; subst;
    [exists n; split; [|done]; rewrite bytes_compare_eqb; unfold key_or_empty; rewrite Hkey; simpl;
     do 2 f_equal; apply bool_decide_ext; rewrite elem_of_singleton; naive_solver|].
  - exfalso. assert (Hs : S ≠ ∅) by done. apply set_choose_L in Hs as [k Hk].
    assert (Hl : length p < length k) by naive_solver. destruct (lookup_lt_is_Some_2 k (length p) Hl) as [c' Hc'].
    assert (Hin : c' ∈ next_chars p S) by (apply elem_of_next_chars; eauto).
    match goal with Hd : dom (children n) = _ |- _ => rewrite <- Hd, Hc, dom_empty_L in Hin end. set_solver.
  - exfalso. assert (Hs : S ≠ ∅) by done. apply set_choose_L in Hs as [k Hk].
    assert (Hl : length p < length k) by naive_solver. destruct (lookup_lt_is_Some_2 k (length p) Hl) as [c' Hc'].
    assert (Hin : c' ∈ next_chars p S) by (apply elem_of_next_chars; eauto).
    match goal with Hd : dom (children n) = _ |- _ => rewrite <- Hd, Hc, dom_empty_L in Hin end. set_solver.
  - exists n. split; [|done]. rewrite bool_decide_eq_false_2; [done|]. intros Hk.
    destruct (repr_children v p n S (p ++ []) Hr Hc Hk) as (c & Hcc & _).
    rewrite app_nil_r in Hcc. apply lookup_lt_Some in Hcc. lia.
  - destruct (children n !! c) as [t|] eqn:Et.
    + destruct (repr_Node_dom _ _ _ _ _ _ _ Hr Hc) as [Hdom Hch].
      destruct (get_or_load_child_repr blake3 d m d_holds L v p n c t _ Et (Hch c t Et)) as (child & E & Hrc).
      rewrite take_app_length, E.
      destruct (IH (p ++ [c]) child _ Hrc) as (child' & E' & Hrc'); [by rewrite <- app_assoc|].
      rewrite length_app in E'. simpl in E'. rewrite E'. simpl. eexists. split.
      * do 2 f_equal. apply bool_decide_ext. rewrite elem_of_under. split; [naive_solver|]. intros; split; [done|].
        exists rest. by rewrite <- app_assoc.
      * assert (Hr1 : repr blake3 m L v p (Node (put_child c child n)) S) by (apply repr_put_child; [done|by exists t|done]).
        apply repr_put_child; [done| |done]. simpl. rewrite lookup_insert_eq. by eexists.
    + exists n. split; [|done]. rewrite bool_decide_eq_false_2; [done|]. intros Hk.
      destruct (repr_children v p n S _ Hr Hc Hk) as (c' & Hcc & Hin).
      rewrite lookup_app_r, Nat.sub_diag in Hcc by lia. simplify_eq/=.
      apply not_elem_of_dom in Et. done.
Qed.

Lemma on_disk_idem n : on_disk (on_disk n) = on_disk n.
Proof.
  unfold on_disk. simpl. f_equal. apply map_eq. intros c. rewrite !lookup_fmap. by destruct (children n !! c).
Qed.

(** Once the rows are written, the node that is read back stands for the same
    keys. *)
Lemma repr_reload v p t S :
  repr blake3 m L v p t S ->
  repr blake3 v L v p (Serialized (mkSerialized None)) S /\
  forall n, t = Node n -> repr blake3 v L v p (Node (on_disk n)) S.
Proof using Type.
  assert (Hstored : forall p n S, row v p n -> repr blake3 v L v p (Node (on_disk n)) S ->
    repr blake3 v L v p (Serialized (mkSerialized None)) S).
  { intros p' n' S' (b & Hb & Hd) Hr. eapply repr_stored; eauto. }
  induction 1 as [p n k Hp Hpre Hch Hkey Hi Hh Hrow|p n S HS Hk Hsz Hdom Hch IH Hi Hh Hrow|p h n b S Hm Hv Hd Hh Hr [IH1 IH2]].
  - assert (Hn : repr blake3 v L v p (Node (on_disk n)) {[k]}).
    { apply repr_leaf; try done; simpl.
      - by rewrite Hch, fmap_empty.
      - unfold key_or_empty. by rewrite Hkey.
      - destruct Hrow as (b & Hb & Hd). exists b. by rewrite on_disk_idem. }
    split; [by eapply Hstored|]. by intros n' [= <-].
  - assert (Hn : repr blake3 v L v p (Node (on_disk n)) S).
    { apply repr_inner; try done; simpl.
      - by rewrite dom_fmap_L.
      - intros c t. rewrite lookup_fmap. destruct (children n !! c) as [t'|] eqn:Et; simpl; [|done].
        intros [= <-]. by destruct (IH c t' Et).
      - destruct Hrow as (b & Hb & Hd). exists b. by rewrite on_disk_idem. }
    split; [by eapply Hstored|]. by intros n' [= <-].
  - split; [done|]. by intros n'.
Qed.

End Query.
