(* ===== verification/TrieDelete.v ===== *)
(** * The sync trie: deletion

    The bulk [delete] of [src/storage/trie/trie_node.rs] implements the
    difference of key sets, with one result per key and the reference hash of
    what is left. The row that deletion removes when it merges an only child
    into its parent has a key with the row prefix twice, so rows of keys that
    begin with the prefix byte are excluded. *)

From S2P Require Import Prelude Util Db TrieNode TrieSpec TrieInsert.

Definition present (S : gset bytes) (k : bytes) : bool := bool_decide (k ∈ S).

Lemma count_present (S : gset bytes) (ks : list bytes) :
  NoDup ks -> count_true (map (present S) ks) = (Z.of_nat (size S) - Z.of_nat (size (S ∖ list_to_set ks)))%Z.
Proof.
  revert S. induction ks as [|k ks IH]; intros S Hnd.
  { simpl. rewrite (difference_empty_L S). unfold count_true. simpl. lia. }
  apply NoDup_cons in Hnd as [Hnin Hnd]. simpl map. rewrite count_true_cons.
  assert (E : map (present S) ks = map (present (S ∖ {[k]})) ks).
  { apply map_ext_in. intros k' Hk'%list_elem_of_In. unfold present. apply bool_decide_ext. set_solver. }
  rewrite E, IH by done. rewrite list_to_set_cons, difference_difference_l_L. unfold present.
  case_bool_decide as Hk.
  - pose proof (size_difference S {[k]}) as Hd. rewrite size_singleton in Hd.
    assert (size {[k]} <= size S) by (apply subseteq_size; set_solver). rewrite size_singleton in *.
    assert ({[k]} ⊆ S) by set_solver. specialize (Hd H0). lia.
  - assert (E' : S ∖ ({[k]} ∪ list_to_set ks) = S ∖ {[k]} ∖ list_to_set ks) by set_solver.
    replace (S ∖ {[k]}) with S by set_solver. lia.
Qed.

Lemma count_true_none {A} (l : list A) : count_true (map (fun _ => false) l) = 0%Z.
Proof. induction l as [|a l IH]; [done|]. simpl. by rewrite count_true_cons. Qed.

(** Rows other than those of the prefixes in [P] are the same. *)
Definition touches (P : bytes -> Prop) (v v' : gmap bytes bytes) : Prop :=
  forall k, (forall q, P q -> k ≠ node_key q) -> v' !! k = v !! k.

(** The prefixes at and below [p], those strictly below, and those of stray
    rows: a row key prefixed once more. *)
Definition stray (q : bytes) : Prop := head q = Some (root_prefix_u8 SyncMerkleTrieNode).
Definition at_below (p q : bytes) : Prop := p `prefix_of` q \/ stray q.
Definition below (p q : bytes) : Prop := (p `prefix_of` q /\ length p < length q) \/ stray q.

Lemma touches_refl P v : touches P v v.
Proof. by intros k Hk. Qed.

Lemma touches_mono (P Q : bytes -> Prop) v v' : (forall q, P q -> Q q) -> touches P v v' -> touches Q v v'.
Proof. intros HPQ Ht k Hk. apply Ht. intros q Hq. by apply Hk, HPQ. Qed.

Lemma touches_trans P v1 v2 v3 : touches P v1 v2 -> touches P v2 v3 -> touches P v1 v3.
Proof. intros H1 H2 k Hk. rewrite H2, H1; done. Qed.

Lemma touches_put (P : bytes -> Prop) q v b : P q -> touches P v (<[node_key q := b]> v).
Proof. intros HP k Hk. apply lookup_insert_ne. intros <-. by apply (Hk q). Qed.

Lemma touches_delete (P : bytes -> Prop) q v : P q -> touches P v (base.delete (node_key q) v).
Proof. intros HP k Hk. apply lookup_delete_ne. intros <-. by apply (Hk q). Qed.

Lemma touches_same (P : bytes -> Prop) q v v' : touches P v v' -> ~ P q -> v' !! node_key q = v !! node_key q.
Proof. intros Ht HP. apply Ht. intros q' HP' E%node_key_inj. congruence. Qed.

Lemma at_below_child p c q : at_below (p ++ [c]) q -> below p q.
Proof.
  intros [Hq|Hq]; [left|by right]. pose proof (prefix_length _ _ Hq) as Hl. rewrite length_app in Hl. simpl in Hl.
  apply (prefix_snoc_iff p q c) in Hq as [? _]. split; [done|lia].
Qed.

Lemma below_at_below p q : below p q -> at_below p q.
Proof. intros [[? _]|?]; [by left|by right]. Qed.

(** Keys that do not begin with the row prefix. *)
Definition unstray (S : gset bytes) : Prop := forall k, k ∈ S -> ~ stray k.

Lemma unstray_prefix S p k q :
  unstray S -> k ∈ S -> p ≠ [] -> p `prefix_of` k -> p `prefix_of` q -> ~ stray q.
Proof.
  intros Hu Hk Hp [l ->] [l' ->]. specialize (Hu _ Hk). unfold stray in *. by destruct p.
Qed.

Lemma set_results_map (f : bytes -> bool) (l : list (nat * bytes)) results succ :
  NoDup l.*1 -> Forall (fun ik => ik.1 < length results) l ->
  (0 <= succ)%Z -> (succ + Z.of_nat (length l) < 2 ^ 64)%Z ->
  exists results',
    set_results (zip l.*1 (map f l.*2)) results succ = Ok (results', (succ + count_true (map f l.*2))%Z) /\
    length results' = length results /\
    (forall i k, (i, k) ∈ l -> results' !! i = Some (f k)) /\
    (forall i, i ∉ l.*1 -> results' !! i = results !! i).
Proof.
  intros Hnd Hlt H0 Hsz.
  destruct (set_results_spec (zip l.*1 (map f l.*2)) results succ) as (r & E & Hlen & Hin & Hout).
  - rewrite fst_zip; [done|]. by rewrite length_map, !length_fmap.
  - apply Forall_forall. intros [i b] Hib%elem_of_zip_l. simpl.
    apply list_elem_of_fmap in Hib as ([i' k'] & -> & Hik). rewrite Forall_forall in Hlt. by apply (Hlt _ Hik).
  - done.
  - rewrite length_zip_with, length_fmap. lia.
  - rewrite snd_zip in E by (by rewrite length_map, !length_fmap). exists r. split_and!; [done|done| |].
    + intros i k Hik. apply Hin. apply list_elem_of_lookup in Hik as [j Hj]. apply list_elem_of_lookup. exists j.
      apply lookup_zip_with_Some. exists i, (f k). split_and!; [done| |].
      * by rewrite list_lookup_fmap, Hj.
      * change (map f l.*2) with (f <$> l.*2). by rewrite !list_lookup_fmap, Hj.
    + intros i Hi. apply Hout. by rewrite fst_zip by (by rewrite length_map, !length_fmap).
Qed.

Lemma run_sub_items n (txn : RocksDbTransactionBatch) x :
  (x <= items n)%Z -> sub_items x (n, txn) = (Ok tt, (set_items (items n - x) n, txn)).
Proof.
  intros Hx. unfold sub_items, st_bind, st_get, st_lift, modify_node, st_modify, sub_u. cbn [fst snd].
  by rewrite (proj2 (Z.ltb_ge _ _)).
Qed.

Section Delete.
Context {T : Type} `{TransactionDBLaws T} `{!Codec DbTrieNode} {codec_law : CodecLaw DbTrieNode}.
Variable blake3 : bytes -> bytes.
Hypothesis blake3_length : forall l, length (blake3 l) = 32.
Variable d : RocksDB T.
Variable m : gmap bytes bytes.
Hypothesis d_holds : holds d m.
Variable L : nat.
Variable v0 : gmap bytes bytes.

Abbreviation repr := (repr blake3 m L).
Abbreviation kids := (kids blake3 m L).
Abbreviation view txn := (apply_batch v0 txn).

Implicit Types (v : gmap bytes bytes) (n : TrieNode) (S : gset bytes) (p k : bytes) (txn : RocksDbTransactionBatch).

(** A node all keys of which are gone. *)
Definition emptied n : Prop := children n = ∅ /\ items n = 0%Z.

(** What is left below [p]. *)
Definition left_over v p n S : Prop := (S = ∅ /\ emptied n) \/ repr v p (Node n) S.

Definition delete_post p S keys txn (r : result HubError (list bool) * NodeTxn) : Prop :=
  exists n' txn',
    r = (Ok (map (present S) keys), (n', txn')) /\
    left_over (view txn') p n' (S ∖ list_to_set keys) /\
    touches (at_below p) (view txn) (view txn').

(** The keys a deletion at [p] from [S] may be given. *)
Definition deletable p S (keys : list bytes) : Prop :=
  keys ≠ [] /\ NoDup keys /\ (forall k, k ∈ keys -> p `prefix_of` k) /\
  valid_keys L (S ∪ list_to_set keys) /\ unstray S.

Definition deletes (rec : list bytes -> nat -> ST NodeTxn HubError (list bool)) (j : nat) : Prop :=
  forall p n S keys txn,
    length p = j -> repr (view txn) p (Node n) S -> deletable p S keys ->
    delete_post p S keys txn (rec keys j (n, txn)).

Lemma left_over_items v p n S : left_over v p n S -> items n = Z.of_nat (size S).
Proof. intros [[-> [_ Hi]]|Hr]; [by rewrite size_empty|by eapply repr_items]. Qed.

(** Siblings are not affected by a deletion below [p ++ [c]]. *)
Lemma repr_sibling_touches v v' p c c' t S :
  repr v (p ++ [c']) t S -> unstray S -> c ≠ c' -> touches (at_below (p ++ [c])) v v' -> repr v' (p ++ [c']) t S.
Proof.
  intros Hr Hu Hne Ht. apply (repr_frame blake3 m L v); [done|]. intros q Hq.
  eapply touches_same; [done|]. intros [Hq'|Hq'].
  - apply prefix_snoc_iff in Hq as [_ Hq], Hq' as [_ Hq']. congruence.
  - destruct (set_choose_L _ (repr_nonempty _ _ _ _ _ _ _ Hr)) as [k Hk].
    eapply (unstray_prefix S (p ++ [c']) k q); try done; [by destruct p|by eapply repr_extends].
Qed.

(** The node after a group was deleted: a child without keys is dropped. *)
Definition after_group c child' n : TrieNode :=
  if (items child' =? 0)%Z then set_children (base.delete c (children n)) n else put_child c child' n.

Lemma put_child_twice c x y n : put_child c x (put_child c y n) = put_child c x n.
Proof. unfold put_child, set_children. simpl. by rewrite insert_insert_eq. Qed.

Lemma drop_put_child c x n :
  set_children (base.delete c (children (put_child c x n))) (put_child c x n) =
  set_children (base.delete c (children n)) n.
Proof. unfold put_child, set_children. simpl. by rewrite delete_insert_eq. Qed.

Lemma after_group_set_children c child' n : exists ch, after_group c child' n = set_children ch n.
Proof. unfold after_group, put_child. case_match; eauto. Qed.

Lemma under_difference_other p c c' S ks :
  c' ≠ c -> (forall k, k ∈ ks -> k !! length p = Some c) ->
  under (p ++ [c']) (S ∖ list_to_set ks) = under (p ++ [c']) S.
Proof.
  intros Hne Hks. apply set_eq. intros k. rewrite !elem_of_under, elem_of_difference, elem_of_list_to_set.
  split; [tauto|]. intros [Hk Hpre]. split_and!; [done| |done]. intros Hin. specialize (Hks k Hin).
  apply prefix_snoc_iff in Hpre as [_ Hc]. congruence.
Qed.

Lemma under_difference_same p c S (ks : list bytes) :
  under (p ++ [c]) (S ∖ list_to_set ks) = under (p ++ [c]) S ∖ list_to_set ks.
Proof. apply set_eq. intros k. rewrite elem_of_difference, !elem_of_under, elem_of_difference. tauto. Qed.

(** The children after a group: an emptied child has left, the others stand
    for what they stood for. *)
Lemma kids_after_group v v' p n S c child' ks :
  kids v p n S -> (forall k, k ∈ S -> p `prefix_of` k) -> unstray S -> (forall k, k ∈ ks -> k !! length p = Some c) ->
  c ∈ dom (children n) ->
  left_over v' (p ++ [c]) child' (under (p ++ [c]) S ∖ list_to_set ks) -> touches (at_below (p ++ [c])) v v' ->
  kids v' p (after_group c child' n) (S ∖ list_to_set ks).
Proof.
  intros [Hdom Hch] HS Hu Hks Hcn Hr' Hout. set (Sc := under (p ++ [c]) S) in *.
  assert (Hkids : forall c' t', c' ≠ c -> children n !! c' = Some t' ->
    repr v' (p ++ [c']) t' (under (p ++ [c']) (S ∖ list_to_set ks))).
  { intros c' t' Hc' Ht'. rewrite (under_difference_other p c c') by done.
    eapply (repr_sibling_touches v _ p c c'); [by apply Hch| |done|done]. intros k Hk. apply Hu. by eapply under_subseteq. }
  assert (Hnext : forall c', c' ≠ c -> c' ∈ next_chars p (S ∖ list_to_set ks) <-> c' ∈ dom (children n)).
  { intros c' Hc'. rewrite Hdom, !elem_of_next_chars. split; intros (k & Hk & Hkc).
    - apply elem_of_difference in Hk as [Hk _]. eauto.
    - exists k. split; [|done]. apply elem_of_difference. split; [done|]. intros Hin%elem_of_list_to_set%Hks. congruence. }
  assert (Hc : c ∈ next_chars p (S ∖ list_to_set ks) <-> Sc ∖ list_to_set ks ≠ ∅).
  { rewrite elem_of_next_chars. unfold Sc. rewrite <- under_difference_same. split.
    - intros (k & Hk & Hkc) E0. apply (not_elem_of_empty (C := gset bytes) k). rewrite <- E0.
      apply elem_of_under_snoc; [|done]. intros k' [Hk' _]%elem_of_difference. by apply HS.
    - intros [k Hk]%set_choose_L. apply elem_of_under in Hk as [Hk Hkp]. apply prefix_snoc_iff in Hkp as [_ ?]. eauto. }
  pose proof (left_over_items _ _ _ _ Hr') as Hit. unfold after_group. destruct (Z.eqb_spec (items child') 0) as [Hz|Hz].
  - assert (Hemp : Sc ∖ list_to_set ks = ∅) by (apply leibniz_equiv, size_empty_inv; lia). split; simpl.
    + apply set_eq. intros c'. rewrite dom_delete_L, elem_of_difference, elem_of_singleton.
      destruct (decide (c' = c)) as [->|Hne']; [rewrite Hc; naive_solver|]. rewrite (Hnext c' Hne'). tauto.
    + intros c' t'. rewrite lookup_delete_Some. intros [? ?]. by apply Hkids.
  - destruct Hr' as [[Hemp _]|Hr']; [rewrite Hemp, size_empty in Hit; lia|]. split; simpl.
    + apply set_eq. intros c'. rewrite dom_insert_L, elem_of_union, elem_of_singleton.
      destruct (decide (c' = c)) as [->|Hne']; [|rewrite (Hnext c' Hne'); tauto].
      rewrite Hc. apply repr_nonempty in Hr'. tauto.
    + intros c' t'. destruct (decide (c' = c)) as [->|Hne'].
      * rewrite lookup_insert_eq. intros [= <-]. by rewrite under_difference_same.
      * rewrite lookup_insert_ne by done. by apply Hkids.
Qed.

(** One group whose child is present. *)
Lemma delete_child_step rec p n S c t ks txn :
  deletes rec (length p + 1) ->
  kids (view txn) p n S -> (forall k, k ∈ S -> p `prefix_of` k) ->
  deletable p S ks -> (forall k, k ∈ ks -> k !! length p = Some c) -> children n !! c = Some t ->
  exists child child' txn',
    get_or_load_child d p c n = (Ok child, put_child c child n) /\
    rec ks (length p + 1) (child, txn) = (Ok (map (present S) ks), (child', txn')) /\
    kids (view txn') p (after_group c child' n) (S ∖ list_to_set ks) /\
    touches (below p) (view txn) (view txn').
Proof.
  intros Hrec Hk HS (Hne & Hnd & Hpre & Hval & Hu) Hks Ht. set (Sc := under (p ++ [c]) S).
  destruct (get_or_load_child_repr blake3 d m d_holds L _ p n c t _ Ht (proj2 Hk c t Ht)) as (child & E & Hr).
  destruct (Hrec (p ++ [c]) child Sc ks txn) as (child' & txn' & Erec & Hr' & Hout).
  { rewrite length_app. simpl. lia. } { done. }
  { split_and!; [done|done| | |].
    - intros k Hk'. apply prefix_snoc_iff. auto.
    - eapply valid_keys_subseteq; [|exact Hval]. pose proof (under_subseteq (p ++ [c]) S). unfold Sc. set_solver.
    - intros k Hk'. apply Hu. by eapply under_subseteq. }
  assert (Hfr : map (present Sc) ks = map (present S) ks).
  { apply map_ext_in. intros k Hk'%list_elem_of_In. unfold present, Sc. apply bool_decide_ext.
    rewrite elem_of_under_snoc by done. naive_solver. }
  exists child, child', txn'. split_and!; [done|by rewrite Erec, Hfr| |].
  - eapply kids_after_group; eauto. by apply elem_of_dom_2 in Ht.
  - eapply touches_mono; [|exact Hout]. apply at_below_child.
Qed.

(** A group without a child has no key of the set. *)
Lemma absent_group p n S c (ks : list bytes) v :
  kids v p n S -> (forall k, k ∈ ks -> k !! length p = Some c) -> children n !! c = None ->
  forall k, k ∈ ks -> k ∉ S.
Proof using Type.
  intros [Hdom _] Hks Hc k Hk Hin. apply not_elem_of_dom in Hc. rewrite Hdom in Hc.
  apply Hc, elem_of_next_chars. eauto.
Qed.

(** One group: its child is entered, or all of its keys are absent. *)
Lemma delete_group_step rec p c l n S results succ txn :
  deletes rec (length p + 1) -> kids (view txn) p n S -> (forall k, k ∈ S -> p `prefix_of` k) ->
  deletable p S l.*2 -> (forall k, k ∈ l.*2 -> k !! length p = Some c) -> NoDup l.*1 ->
  Forall (fun ik => ik.1 < length results) l -> (0 <= succ)%Z -> (succ + Z.of_nat (length l) < 2 ^ 64)%Z ->
  exists ch1 txn1 results1,
    (forall rest, delete_groups d rec p (length p) ((c, (l.*1, l.*2)) :: rest) results succ (n, txn) =
      delete_groups d rec p (length p) rest results1 (succ + count_true (map (present S) l.*2)) (set_children ch1 n, txn1)) /\
    kids (view txn1) p (set_children ch1 n) (S ∖ list_to_set l.*2) /\
    touches (below p) (view txn) (view txn1) /\
    length results1 = length results /\
    (forall i k, (i, k) ∈ l -> results1 !! i = Some (present S k)) /\
    (forall i, i ∉ l.*1 -> results1 !! i = results !! i).
Proof.
  intros Hrec Hk HS Hdel Hkc Hndi Hlt H0s Hsz. destruct (children n !! c) as [t|] eqn:Ec.
  - destruct (delete_child_step rec p n S c t l.*2 txn Hrec Hk HS Hdel Hkc Ec) as (child & child' & txn1 & El & Er & Hk1 & Ht1).
    destruct (set_results_map (present S) l results succ) as (r & Es & Hlen & Hin & Hout); [done..|].
    destruct (after_group_set_children c child' n) as [ch1 Ech1]. rewrite Ech1 in Hk1.
    exists ch1, txn1, r. split_and!; try done. intros rest. cbn [delete_groups].
    unfold st_bind, st_get, on_node, on_child, st_lift, modify_node, st_modify, st_ret. cbn [fst snd]. rewrite Ec. cbn [fst snd]. rewrite El. cbn [fst snd].
    rewrite Er. cbn [fst snd]. unfold put_child at 1. cbn [children set_children]. rewrite lookup_insert_eq. rewrite <- Ech1. unfold after_group.
    by destruct (items child' =? 0)%Z; cbn [fst snd]; rewrite Es; cbn [fst snd];
      rewrite ?drop_put_child, ?put_child_twice.
  - pose proof (absent_group p n S c l.*2 _ Hk Hkc Ec) as Habs.
    assert (Hmap : map (present S) l.*2 = map (fun _ => false) l.*2).
    { apply map_ext_in. intros k Hk'%list_elem_of_In. apply bool_decide_eq_false_2. by apply Habs. }
    destruct (set_results_map (fun _ => false) l results succ) as (r & Es & Hlen & Hin & Hout); [done..|].
    exists (children n), txn, r. replace (set_children (children n) n) with n by (by destruct n).
    replace (S ∖ list_to_set l.*2) with S by set_solver. split_and!; try done.
    + intros rest. cbn [delete_groups]. unfold st_bind, st_get, st_lift. cbn [fst snd]. rewrite Ec.
      replace (map (fun _ => false) l.*1) with (map (fun _ => false) l.*2) by (clear; induction l; simpl; [done|by f_equal]).
      by rewrite Es, Hmap, count_true_none, Z.add_0_r.
    + intros i k Hik. rewrite (Hin i k Hik). f_equal. symmetry. apply bool_decide_eq_false_2, Habs.
      apply list_elem_of_fmap. by exists (i, k).
Qed.

(** The loop over the groups. *)
Lemma delete_groups_spec rec p gl n S results succ txn :
  deletes rec (length p + 1) ->
  kids (view txn) p n S -> (forall k, k ∈ S -> p `prefix_of` k) -> unstray S ->
  grouped (length p) gl -> NoDup (members gl).*1 -> NoDup (members gl).*2 ->
  (forall k, k ∈ (members gl).*2 -> p `prefix_of` k) ->
  valid_keys L (S ∪ list_to_set (members gl).*2) ->
  Forall (fun ik => ik.1 < length results) (members gl) ->
  (0 <= succ)%Z -> (succ + Z.of_nat (length (members gl)) < 2 ^ 64)%Z ->
  exists ch txn' results',
    delete_groups d rec p (length p) (group_list gl) results succ (n, txn) =
      (Ok (results', succ + (Z.of_nat (size S) - Z.of_nat (size (S ∖ list_to_set (members gl).*2))))%Z,
       (set_children ch n, txn')) /\
    kids (view txn') p (set_children ch n) (S ∖ list_to_set (members gl).*2) /\
    touches (below p) (view txn) (view txn') /\
    length results' = length results /\
    (forall i k, (i, k) ∈ members gl -> results' !! i = Some (present S k)) /\
    (forall i, i ∉ (members gl).*1 -> results' !! i = results !! i).
Proof.
  intros Hrec. revert n S results succ txn.
  induction gl as [|[c l] gl IH]; intros n S results succ txn Hk HS Hu Hgr Hndi Hndk Hpre Hval Hlt H0s Hsz.
  { exists (children n), txn, results. simpl. rewrite (difference_empty_L S).
    replace (set_children (children n) n) with n by (by destruct n). rewrite Z.sub_diag, Z.add_0_r.
    split_and!; try done. intros i k Hik. by apply elem_of_nil in Hik. }
  apply Forall_cons in Hgr as [[Hlne Hlc] Hgr]. simpl in Hlne, Hlc.
  change (members ((c, l) :: gl)) with (l ++ members gl) in *.
  rewrite fmap_app, NoDup_app in Hndi. rewrite fmap_app, NoDup_app in Hndk. destruct Hndi as (Hndi1 & Hdisji & Hndi2).
  destruct Hndk as (Hndk1 & Hdisjk & Hndk2).
  apply Forall_app in Hlt as [Hlt1 Hlt2]. rewrite fmap_app, list_to_set_app_L in *. rewrite length_app in Hsz.
  rewrite <- (difference_difference_l_L S).
  assert (Hkc : forall k, k ∈ l.*2 -> k !! length p = Some c).
  { intros k ([i k'] & -> & Hik)%list_elem_of_fmap. rewrite Forall_forall in Hlc. by apply (Hlc (i, k')). }
  destruct (delete_group_step rec p c l n S results succ txn Hrec Hk HS) as
    (ch1 & txn1 & results1 & E1 & Hk1 & Hab1 & Hlen1 & Hin1 & Hout1); [|done|done|done|done|lia|].
  { split_and!; try done; [by destruct l|intros k Hk'; apply Hpre; set_solver|].
    eapply valid_keys_subseteq; [|exact Hval]. set_solver. }
  pose proof (count_true_bounds (map (present S) l.*2)) as Hcb. rewrite length_map, length_fmap in Hcb.
  destruct (IH (set_children ch1 n) (S ∖ list_to_set l.*2) results1 (succ + count_true (map (present S) l.*2))%Z txn1) as
    (ch2 & txn2 & results2 & E2 & Hk2 & Hab2 & Hlen2 & Hin2 & Hout2); try done; try lia.
  { intros k [Hk' _]%elem_of_difference. by apply HS. }
  { intros k [Hk' _]%elem_of_difference. by apply Hu. }
  { intros k Hk'. apply Hpre. set_solver. }
  { eapply valid_keys_subseteq; [|exact Hval]. set_solver. }
  { by rewrite Hlen1. }
  exists ch2, txn2, results2. split_and!.
  - change (group_list ((c, l) :: gl)) with ((c, (l.*1, l.*2)) :: group_list gl). rewrite E1, E2.
    rewrite count_present by done. destruct n. do 3 f_equal. lia.
  - by destruct n.
  - by eapply touches_trans.
  - lia.
  - intros i k [Hik|Hik]%elem_of_app.
    + rewrite Hout2; [by apply Hin1|]. intros Hi. eapply Hdisji; [|exact Hi]. apply list_elem_of_fmap. by exists (i, k).
    + rewrite (Hin2 _ _ Hik). f_equal. unfold present. apply bool_decide_ext. rewrite elem_of_difference, elem_of_list_to_set.
      assert (k ∉ l.*2). { intros Hk'. eapply Hdisjk; [exact Hk'|]. apply list_elem_of_fmap. by exists (i, k). }
      tauto.
  - intros i Hi. rewrite Hout2 by set_solver. apply Hout1. set_solver.
Qed.

(** A node below the timestamp with one key is the leaf with this key. *)
Lemma repr_single v p n k : repr v p (Node n) {[k]} -> TIMESTAMP_LENGTH <= length p -> key n = Some k.
Proof.
  intros Hr Hp. remember ({[k]} : gset bytes) as S eqn:ES.
  inversion Hr as [p' n' k' Hp' Hpre Hch Hkey|p' n' S' HS Hk Hsz|]; subst p' n'.
  - assert (Hin : k' ∈ ({[k]} : gset bytes)) by (rewrite <- ES; set_solver).
    apply elem_of_singleton in Hin. congruence.
  - specialize (Hsz Hp). rewrite ES, size_singleton in Hsz. lia.
Qed.

(** Deletion at a leaf. *)
Lemma delete_leaf_spec p n k0 l results txn :
  children n = ∅ -> key n = Some k0 -> items n = 1%Z -> NoDup l.*2 ->
  Forall (fun ik => ik.1 < length results) l ->
  exists n' txn',
    delete_leaf blake3 d p l results (n, txn) =
      (Ok (match filter (fun ik => ik.2 = k0) l with [] => results | (i, _) :: _ => <[i := true]> results end), (n', txn')) /\
    (k0 ∉ l.*2 -> n' = n /\ txn' = txn) /\
    (k0 ∈ l.*2 -> emptied n' /\ txn' = delete_to_txn txn p).
Proof using Type.
  destruct n as [h it ch ok]. simpl. intros -> -> ->. set (n := mkTrieNode h 1 ∅ (Some k0)).
  induction l as [|[i k] l IH]; intros Hnd Hlt.
  { exists n, txn. split_and!; [done|done|]. intros Hin. by apply elem_of_nil in Hin. }
  csimpl in Hnd. apply NoDup_cons in Hnd as [Hnin Hnd]. apply Forall_cons in Hlt as [Hlt0 Hlt].
  simpl delete_leaf. unfold st_bind at 1, st_get. change (key_or_empty (n, txn).1) with k0.
  rewrite bytes_compare_eqb, filter_cons. cbn [snd]. case_bool_decide as Hk.
  - subst k. rewrite decide_True by done.
    exists (set_hash (blake3_20 blake3 []) (set_items 0 (set_key None n))), (delete_to_txn txn p). split_and!.
    + unfold st_bind, modify_node, st_modify, st_lift, delete_self, on_node. cbn [fst snd].
      rewrite run_sub_items by done. unfold st_modify. cbn [fst snd]. rewrite update_hash_leaf by done. unfold vec_set. simpl in Hlt0. cbn [fst snd].
      by rewrite (proj2 (Nat.ltb_lt _ _)).
    + intros Hin. destruct Hin. csimpl. by left.
    + intros _. done.
  - rewrite decide_False by congruence. destruct (IH Hnd Hlt) as (n' & txn' & E & H1 & H2).
    exists n', txn'. split_and!; [exact E| |]; csimpl.
    + intros [_ Hl]%not_elem_of_cons. by apply H1.
    + intros [Hk'|Hl]%elem_of_cons; [by destruct Hk|by apply H2].
Qed.

Lemma filter_eq_nodup (k0 : bytes) (keys : list bytes) (i : nat) :
  NoDup keys -> keys !! i = Some k0 ->
  filter (fun ik : nat * bytes => ik.2 = k0) (enumerate keys) = [(i, k0)].
Proof using Type.
  intros Hnd Hi. set (f := filter _ _).
  assert (Hin : forall jk, jk ∈ f <-> jk = (i, k0)).
  { intros [j k]. unfold f. rewrite list_elem_of_filter, elem_of_enumerate. split.
    - intros [Hk Hj]. simpl in Hk. subst k. f_equal. by eapply NoDup_lookup.
    - intros [= -> ->]. done. }
  assert (Hndf : NoDup f).
  { apply NoDup_filter. eapply NoDup_fmap_1 with (f := fst). rewrite enumerate_fst. apply NoDup_seq. }
  clearbody f. destruct f as [|x [|y f]].
  - exfalso. apply (not_elem_of_nil (i, k0)), Hin. done.
  - f_equal. apply Hin. by left.
  - assert (x = (i, k0)) by (apply Hin; by left). assert (y = (i, k0)) by (apply Hin; right; by left).
    subst. apply NoDup_cons in Hndf as [Hn _]. destruct Hn. by left.
Qed.

(** The single key left below a node *)
Lemma kids_single v p n k c : kids v p n {[k]} -> p `prefix_of` k -> k !! length p = Some c ->
  dom (children n) = {[c]} /\ children_keys n = [c] /\ size (children n) = 1 /\
  exists t, children n !! c = Some t /\ repr v (p ++ [c]) t {[k]}.
Proof.
  intros [Hdom Hch] Hpre Hc.
  assert (Hnext : next_chars p {[k]} = {[c]}).
  { apply set_eq. intros c'. rewrite elem_of_next_chars, elem_of_singleton. split.
    - intros (k' & ->%elem_of_singleton & Hc'). congruence.
    - intros ->. exists k. split; [by apply elem_of_singleton|done]. }
  rewrite Hnext in Hdom. assert (Ht : c ∈ dom (children n)) by (rewrite Hdom; by apply elem_of_singleton).
  apply elem_of_dom in Ht as [t Ht]. split_and!; [done| | |].
  - unfold children_keys. by rewrite Hdom, elements_singleton.
  - rewrite <- size_dom, Hdom. apply size_singleton.
  - exists t. split; [done|]. pose proof (Hch c t Ht) as Hr. replace (under (p ++ [c]) {[k]}) with ({[k]} : gset bytes) in Hr; [done|].
    apply set_eq. intros k'. rewrite elem_of_under, elem_of_singleton, prefix_snoc_iff. naive_solver.
Qed.

(** A node whose last key is below its only child takes the key itself. *)
Lemma compact_single p n k txn :
  kids (view txn) p n {[k]} -> valid_keys L {[k]} -> p `prefix_of` k -> length p < length k -> TIMESTAMP_LENGTH <= length p ->
  items n = 1%Z ->
  exists n' txn',
    compact_after_delete blake3 d p (length p) (n, txn) = (Ok tt, (n', txn')) /\
    repr (view txn') p (Node n') {[k]} /\ touches (at_below p) (view txn) (view txn').
Proof.
  intros Hk Hv Hpre Hlen Hp Hi. destruct (lookup_lt_is_Some_2 k (length p) Hlen) as [c Hc].
  destruct (kids_single _ p n k c Hk Hpre Hc) as (Hdom & Hone & Hcs & t & Ht & Hrt).
  destruct (get_or_load_child_repr blake3 d m d_holds L _ p n c t _ Ht Hrt) as (child & E & Hr).
  assert (Hck : key child = Some k) by (eapply repr_single; [exact Hr|]; rewrite length_app; lia).
  set (n1 := set_children (base.delete c (children (put_child c child n))) (set_key (Some k) (put_child c child n))).
  assert (Hn1 : children n1 = ∅).
  { unfold n1, put_child. simpl. rewrite delete_insert_eq. apply map_eq. intros c'. rewrite lookup_empty.
    apply lookup_delete_None. destruct (decide (c = c')) as [|Hcc]; [by left|right]. apply not_elem_of_dom. rewrite Hdom. set_solver. }
  set (txn1 := delete_to_txn txn (make_primary_key p (Some c))).
  set (n2 := set_hash (blake3_20 blake3 k) n1). exists n2, (put_to_txn n2 txn1 p). split_and!.
  - unfold compact_after_delete, st_bind, st_get, st_lift, on_node. cbn [fst snd].
    rewrite Hi, Hcs, (proj2 (Nat.leb_le _ _)) by done. change ((1 =? 1)%Z && (1 =? 1) && true) with true. cbv iota.
    unfold st_bind, st_lift. rewrite Hone. cbn [head unwrap fst snd]. rewrite E. cbn [fst snd]. rewrite Hck.
    unfold modify_node, delete_self, put_self, st_modify. cbn [fst snd]. fold n1. fold txn1.
    rewrite update_hash_leaf by done. done.
  - unfold put_to_txn. rewrite apply_batch_put. apply repr_leaf; try done.
    apply row_put; [change (items n2) with (items n); rewrite Hi; lia|].
    change (children n2) with (children n1). rewrite Hn1. intros c'. by rewrite dom_empty_L, elem_of_empty.
  - unfold put_to_txn, txn1, delete_to_txn. rewrite apply_batch_put, apply_batch_delete.
    eapply touches_trans; [apply touches_delete|apply touches_put]; [right|by left]. done.
Qed.

(** Merging an only child into its parent, when the parent is below the
    timestamp and has a single key left. *)
Lemma compact_spec p n S txn :
  kids (view txn) p n S -> S ≠ ∅ -> valid_keys L S ->
  (forall k, k ∈ S -> p `prefix_of` k /\ length p < length k) ->
  items n = Z.of_nat (size S) ->
  exists n' txn',
    compact_after_delete blake3 d p (length p) (n, txn) = (Ok tt, (n', txn')) /\
    repr (view txn') p (Node n') S /\
    touches (at_below p) (view txn) (view txn').
Proof.
  intros Hk Hne Hv HS Hi.
  assert (HL : forall k, k ∈ S -> p `prefix_of` k /\ length p < length k <= L).
  { intros k Hks. destruct (HS k Hks). pose proof (valid_length L S k Hv Hks). split; [done|lia]. }
  destruct (decide (TIMESTAMP_LENGTH <= length p /\ size S = 1)) as [[Hp Hsz]|Hno].
  - destruct (size_1_elem_of S Hsz) as [k HSk]. apply leibniz_equiv in HSk. subst S.
    destruct (HS k) as [Hpre Hlen]; [by apply elem_of_singleton|].
    apply compact_single; try done. by rewrite Hi, size_singleton.
  - assert (Hskip : compact_after_delete blake3 d p (length p) (n, txn) =
      (on_node (update_hash blake3 d p) ;;; put_self p)%st (n, txn)).
    { unfold compact_after_delete, st_bind at 1, st_get. cbn [fst].
      replace ((items n =? 1)%Z && (size (children n) =? 1) && (TIMESTAMP_LENGTH <=? length p)) with false; [done|].
      symmetry. apply not_true_iff_false. intros [[H1%Z.eqb_eq _]%andb_true_iff H2%Nat.leb_le]%andb_true_iff.
      apply Hno. split; [done|lia]. }
    rewrite Hskip.
    destruct (rehash_and_put blake3 blake3_length d m d_holds L v0 p n S txn) as
      (n' & txn' & E & Hk' & Hi' & Hh & Hrow & Hout); try done.
    exists n', txn'. split_and!; [done| |].
    + destruct Hk' as [Hdom Hch]. apply repr_inner; try done; [|by rewrite Hi'].
      intros Hp. assert (size S ≠ 0) by (by intros ?%size_empty_inv%leibniz_equiv). assert (size S ≠ 1) by naive_solver. lia.
    + intros q Hq. apply Hout. intros q' Hq'. apply Hq. by left.
Qed.

Lemma delete_at_leaf p n k0 S keys txn :
  repr (view txn) p (Node n) S -> S = {[k0]} -> children n = ∅ -> key n = Some k0 -> deletable p S keys ->
  delete_post p S keys txn (delete_leaf blake3 d p (enumerate keys) (map (fun _ => false) keys) (n, txn)).
Proof.
  intros Hr -> Hch Hkey (Hne & Hnd & Hpre & Hval & Hu).
  assert (Hi : items n = 1%Z) by (by rewrite (repr_items _ _ _ _ _ _ _ Hr), size_singleton).
  destruct (delete_leaf_spec p n k0 (enumerate keys) (map (fun _ => false) keys) txn) as
    (n' & txn' & E & Hno & Hyes); try done.
  { by rewrite enumerate_snd. }
  { apply Forall_forall. intros [i k] Hi'%elem_of_enumerate. rewrite length_map. by eapply lookup_lt_Some. }
  rewrite enumerate_snd in *. exists n', txn'. rewrite E.
  destruct (decide (k0 ∈ keys)) as [Hin|Hnin].
  - destruct (Hyes Hin) as [Hem ->]. apply list_elem_of_lookup in Hin as [i Hki].
    rewrite (filter_eq_nodup k0 keys i) by done. split_and!.
    + do 2 f_equal. apply list_eq. intros j. change (map ?f ?l) with (f <$> l).
      destruct (decide (j = i)) as [->|Hj].
      * rewrite list_lookup_insert_eq by (rewrite length_fmap; by eapply lookup_lt_Some).
        rewrite list_lookup_fmap, Hki. unfold present. simpl. by rewrite bool_decide_eq_true_2 by (by apply elem_of_singleton).
      * rewrite list_lookup_insert_ne by done. rewrite !list_lookup_fmap. destruct (keys !! j) as [k|] eqn:Ej; simpl; [|done].
        unfold present. rewrite bool_decide_eq_false_2; [done|]. intros ->%elem_of_singleton. apply Hj. by eapply NoDup_lookup.
    + left. split; [|done]. apply set_eq. intros k. rewrite elem_of_difference, elem_of_singleton, elem_of_list_to_set.
      split; [|by intros ?%elem_of_empty]. intros [-> Hk]. destruct Hk. by eapply list_elem_of_lookup_2.
    + unfold delete_to_txn. rewrite apply_batch_delete. apply touches_delete. by left.
  - destruct (Hno Hnin) as [-> ->]. split_and!.
    + assert (Hf : filter (fun ik : nat * bytes => ik.2 = k0) (enumerate keys) = []).
      { destruct (filter _ _) as [|[i k] f] eqn:Ef; [done|]. exfalso. apply Hnin.
        assert (Hik : (i, k) ∈ (i, k) :: f) by left. rewrite <- Ef in Hik.
        apply list_elem_of_filter in Hik as [Hk Hik]. simpl in Hk. subst k. apply elem_of_enumerate in Hik.
        by eapply list_elem_of_lookup_2. }
      rewrite Hf. do 2 f_equal. apply map_ext_in. intros k Hk%list_elem_of_In. unfold present.
      rewrite bool_decide_eq_false_2; [done|]. by intros ->%elem_of_singleton.
    + right. replace ({[k0]} ∖ list_to_set keys) with ({[k0]} : gset bytes); [done|].
      apply set_eq. intros k. rewrite elem_of_difference, elem_of_singleton, elem_of_list_to_set. naive_solver.
    + apply touches_refl.
Qed.

(** What [delete] does after its groups were deleted *)
Definition finish_delete p (successes : Z) (results : list bool) : ST NodeTxn HubError (list bool) :=
  (if (0 <? successes)%Z then
     sub_items successes ;;;
     let! s := st_get in
     if (items s.1 =? 0)%Z then
       delete_self p ;;;
       on_node (update_hash blake3 d p) ;;;
       st_ret results
     else
       compact_after_delete blake3 d p (length p) ;;;
       st_ret results
   else st_ret results)%st.

Lemma finish_delete_some p n S S' results txn :
  kids (view txn) p n S' -> S' ⊆ S -> size S' < size S -> valid_keys L S -> items n = Z.of_nat (size S) ->
  (forall k, k ∈ S -> p `prefix_of` k /\ length p < length k) ->
  exists n' txn',
    finish_delete p (Z.of_nat (size S) - Z.of_nat (size S')) results (n, txn) = (Ok results, (n', txn')) /\
    left_over (view txn') p n' S' /\ touches (at_below p) (view txn) (view txn').
Proof.
  intros Hk Hsub Hlt HvS Hi HS. unfold finish_delete. rewrite (proj2 (Z.ltb_lt _ _)) by lia.
  erewrite st_bind_Ok by (apply run_sub_items; lia). unfold st_bind at 1, st_get. cbn [fst].
  set (n2 := set_items (items n - (Z.of_nat (size S) - Z.of_nat (size S'))) n).
  assert (Hi2 : items n2 = Z.of_nat (size S')) by (change (items n2) with (items n - (Z.of_nat (size S) - Z.of_nat (size S')))%Z; lia).
  assert (Hk2 : kids (view txn) p n2 S') by (eapply kids_ext; [|exact Hk]; done).
  destruct (Z.eqb_spec (items n2) 0) as [Hz|Hz].
  - assert (HS' : S' = ∅) by (apply leibniz_equiv, size_empty_inv; lia).
    assert (Hch : children n2 = ∅).
    { destruct Hk2 as [Hdom _]. rewrite HS', next_chars_empty in Hdom. by apply dom_empty_inv_L. }
    exists (set_hash (blake3_20 blake3 (key_or_empty n2)) n2), (delete_to_txn txn p). split_and!.
    + unfold st_bind, delete_self, st_modify, on_node. cbn [fst snd]. by rewrite update_hash_leaf.
    + left. split; [done|]. split; done.
    + unfold delete_to_txn. rewrite apply_batch_delete. apply touches_delete. by left.
  - destruct (compact_spec p n2 S' txn) as (n' & txn' & Ec & Hr' & Ht); try done.
    { intros Hemp. rewrite Hemp, size_empty in Hi2. lia. } { by eapply valid_keys_subseteq. } { intros k Hks. by apply HS, Hsub. }
    exists n', txn'. split_and!; [by erewrite st_bind_Ok by exact Ec|by right|done].
Qed.

(** Nothing was deleted: the node stands for what it stood for. *)
Lemma finish_delete_none p n ch S v txn :
  repr v p (Node n) S -> children n ≠ ∅ -> unstray S -> valid_keys L S -> kids (view txn) p (set_children ch n) S ->
  touches (below p) v (view txn) -> repr (view txn) p (Node (set_children ch n)) S.
Proof.
  intros Hr Hne Hu HvS Hk1 Hab. pose proof (repr_Node_dom _ _ _ _ _ _ _ Hr Hne) as Hk.
  assert (Hin : S ≠ ∅ /\ (forall k, k ∈ S -> p `prefix_of` k /\ length p < length k) /\
    (TIMESTAMP_LENGTH <= length p -> 2 <= size S) /\ hash n = inner_hash blake3 (L - length p) p S /\ row v p n).
  { inversion Hr; subst; [done|]. split_and!; try done. intros k Hks. naive_solver. }
  destruct Hin as (HSne & HS & Hsz & Hh & b & Hb & Hd). pose proof (repr_items _ _ _ _ _ _ _ Hr) as Hi.
  destruct Hk1 as [Hdom Hch]. apply repr_inner; try done.
  - intros k Hks. destruct (HS k Hks). pose proof (valid_length L S k HvS Hks). split; [done|lia].
  - exists b. split.
    + rewrite (touches_same (below p) p v (view txn)); [done|done|].
      intros [[_ Hl]|Hs]; [lia|]. destruct (set_choose_L S HSne) as [k Hks]. specialize (Hu k Hks).
      destruct (HS k Hks) as [[l ->] _]. unfold stray in *. by destruct p.
    + rewrite Hd, on_disk_set_children; [done|]. by rewrite (proj1 Hk).
Qed.

(** The keys to delete below a node are longer than its prefix. *)
Lemma deletable_longer p S keys : S ≠ ∅ -> (forall k, k ∈ S -> p `prefix_of` k /\ length p < length k) ->
  (forall k, k ∈ keys -> p `prefix_of` k) -> valid_keys L (S ∪ list_to_set keys) ->
  forall k, k ∈ keys -> length p < length k.
Proof.
  intros HSne HS Hpre Hval k Hk'.
  assert (Hku : k ∈ S ∪ list_to_set keys) by (by apply elem_of_union_r, elem_of_list_to_set).
  destruct (decide (length p < TIMESTAMP_LENGTH)) as [Hlt|Hge]; [pose proof (valid_length _ _ k Hval Hku); lia|].
  destruct (decide (k ∈ S)) as [|Hkn]; [by apply HS|]. destruct (set_choose_L S HSne) as [k' Hk''].
  eapply (valid_longer L _ p k k'); [done|done|by apply elem_of_union_l|by intros ->|by apply Hpre|by apply HS].
Qed.

(** What [delete] does at an inner node. *)
Lemma delete_inner rec p n S keys txn :
  deletes rec (length p + 1) -> repr (view txn) p (Node n) S -> children n ≠ ∅ -> deletable p S keys ->
  existsb (fun k => length k <=? length p) keys = false /\
  delete_post p S keys txn
    ((let! grouped_keys := st_lift (group_keys (length p) (enumerate keys) ∅) in
      let! (results, successes) :=
        delete_groups d rec p (length p) (map_to_list grouped_keys) (map (fun _ => false) keys) 0 in
      if (0 <? successes)%Z then
        sub_items successes ;;;
        let! s := st_get in
        if (items s.1 =? 0)%Z then
          delete_self p ;;;
          on_node (update_hash blake3 d p) ;;;
          st_ret results
        else
          compact_after_delete blake3 d p (length p) ;;;
          st_ret results
      else st_ret results)%st (n, txn)).
Proof.
  intros Hrec Hr Hne (Hkne & Hnd & Hpre & Hval & Hu).
  assert (Hin : S ≠ ∅ /\ (forall k, k ∈ S -> p `prefix_of` k /\ length p < length k)).
  { inversion Hr; subst; [done|]. split; [done|]. intros k Hk. naive_solver. }
  destruct Hin as [HSne HS].
  pose proof (repr_Node_dom _ _ _ _ _ _ _ Hr Hne) as Hk.
  pose proof (repr_items _ _ _ _ _ _ _ Hr) as Hi.
  pose proof (deletable_longer p S keys HSne HS Hpre Hval) as Hlens.
  split.
  { apply not_true_is_false. intros (k & Hk' & Hle)%existsb_exists. apply Nat.leb_le in Hle.
    apply list_elem_of_In, Hlens in Hk'. lia. }
  destruct (group_keys_list (length p) (enumerate keys)) as (g & gl & Eg & Egl & Hndg & Hgr & Hperm).
  { apply Forall_forall. intros [i k] Hik%elem_of_enumerate. apply Hlens. by eapply list_elem_of_lookup_2. }
  { eapply NoDup_fmap_1 with (f := fst). rewrite enumerate_fst. apply NoDup_seq. }
  assert (Hp1 : (members gl).*1 ≡ₚ seq 0 (length keys)) by (by rewrite Hperm, enumerate_fst).
  assert (Hp2 : (members gl).*2 ≡ₚ keys) by (by rewrite Hperm, enumerate_snd).
  assert (Hset : list_to_set (C := gset bytes) (members gl).*2 = list_to_set keys) by (by apply list_to_set_perm_L).
  assert (Hcnt : (Z.of_nat (length (members gl)) < 2 ^ 32)%Z).
  { pose proof (valid_items _ _ Hval). rewrite <- (length_fmap snd (members gl)), Hp2.
    rewrite <- (size_list_to_set (C := gset bytes)) by done.
    assert (Hsub : list_to_set keys ⊆ S ∪ list_to_set keys) by apply union_subseteq_r. apply subseteq_size in Hsub. lia. }
  destruct (delete_groups_spec rec p gl n S (map (fun _ => false) keys) 0 txn Hrec Hk) as
    (ch & txn1 & results & E & Hk1 & Hab & Hlen & Hres & _); [..|rewrite Hset, Z.add_0_l in E; rewrite Hset in Hk1].
  { intros k Hks. by apply HS. } { done. } { done. } { rewrite Hp1. apply NoDup_seq. } { by rewrite Hp2. }
  { intros k Hks. apply Hpre. by rewrite <- Hp2. } { by rewrite Hset. }
  { rewrite Hperm. apply Forall_forall. intros [i k] Hik%elem_of_enumerate. rewrite length_map. by eapply lookup_lt_Some. }
  { done. } { lia. }
  set (S' := S ∖ list_to_set keys) in *.
  assert (Hsub : S' ⊆ S) by (intros k [? _]%elem_of_difference; done). pose proof (subseteq_size _ _ Hsub) as Hle.
  assert (HvS : valid_keys L S) by (eapply valid_keys_subseteq; [apply union_subseteq_l|exact Hval]).
  assert (Hresults : results = map (present S) keys).
  { apply list_eq. intros i. change (map (present S) keys) with (present S <$> keys). rewrite list_lookup_fmap.
    destruct (keys !! i) as [k|] eqn:Ei; simpl.
    - apply Hres. rewrite Hperm. by apply elem_of_enumerate.
    - apply lookup_ge_None in Ei. apply lookup_ge_None. rewrite Hlen, length_map. done. }
  unfold st_bind at 1, st_lift. rewrite Eg, Egl. erewrite st_bind_Ok by exact E. rewrite Hresults.
  assert (Habove : touches (at_below p) (view txn) (view txn1)).
  { eapply touches_mono; [|exact Hab]. apply below_at_below. }
  destruct (decide (size S' < size S)) as [Hlt|Hge].
  - destruct (finish_delete_some p (set_children ch n) S S' (map (present S) keys) txn1) as (n' & txn' & Ef & Hl & Ht); try done.
    exists n', txn'. split_and!; [exact Ef|done|]. by eapply touches_trans.
  - assert (HSS : S' = S) by (apply set_subseteq_size_eq; [done|lia]).
    exists (set_children ch n), txn1. fold S'. rewrite HSS in *. rewrite Z.sub_diag. split_and!; [done| |done].
    right. apply finish_delete_none with (v := view txn); try done.
Qed.

(** Bulk deletion is correct at every depth. *)
Lemma delete_deletes fuel j : L + 1 <= fuel + j -> deletes (delete blake3 d fuel) j.
Proof.
  revert j. induction fuel as [|fuel IH]; intros j Hf p n S keys txn <- Hr Hdel;
    destruct keys as [|k0 keys]; try by destruct Hdel.
  { exfalso. destruct Hdel as (Hne & _ & Hpre & Hval & _).
    assert (Hp : p `prefix_of` k0) by (apply Hpre; by left). apply prefix_length in Hp.
    assert (Hin : k0 ∈ S ∪ list_to_set (k0 :: keys)) by (apply elem_of_union_r, elem_of_list_to_set; by left).
    pose proof (valid_length _ _ k0 Hval Hin). lia. }
  assert (Hrec : deletes (delete blake3 d fuel) (length p + 1)) by (apply IH; lia).
  assert (Hslice : slice_to (E := HubError) k0 (length p) = Ok p).
  { destruct Hdel as (_ & _ & Hpre & _). destruct (Hpre k0) as [l ->]; [by left|].
    unfold slice_to. rewrite length_app, (proj2 (Nat.leb_le _ _)) by lia. by rewrite take_app_length. }
  cbn [delete]. unfold st_bind at 1, st_lift at 1. change (index (k0 :: keys) 0) with (@Ok HubError bytes k0). cbv iota.
  unfold st_bind at 1, st_lift at 1. rewrite Hslice. unfold st_bind at 1, st_get at 1. cbn [fst]. unfold is_leaf.
  case_bool_decide as Hc.
  - inversion Hr as [p' n' k Hp' Hpre' Hch Hkey|p' n' S' HS Hk Hsz Hdom|]; subst p' n'.
    + subst S. by apply (delete_at_leaf p n k).
    + subst S'. exfalso. rewrite Hc, dom_empty_L in Hdom. destruct (set_choose_L S HS) as [k Hks].
      destruct (lookup_lt_is_Some_2 k (length p)) as [c Hkc]; [by apply Hk|].
      apply (not_elem_of_empty (C := gset Z) c). rewrite Hdom. apply elem_of_next_chars. eauto.
  - destruct (delete_inner (delete blake3 d fuel) p n S (k0 :: keys) txn Hrec Hr Hc Hdel) as [-> Hpost]. exact Hpost.
Qed.

End Delete.
