(* ===== verification/MerkleTrie.v ===== *)
(** * The sync trie: transactions over the store

    [src/storage/trie/merkle_trie.rs]. A [MerkleTrie] keeps the root node in
    memory and the rows that were written but not yet committed in a batch.
    [trie_holds] is the abstraction: the trie stands for a finite set of keys,
    and its store for the set of the last commit. Insertion and deletion are
    union and difference, [commit] followed by [reload] keeps the set,
    [reload] alone returns to the committed one. *)

From S2P Require Import Prelude Util Db TrieNode TrieSpec TrieInsert TrieDelete TrieQuery.

(** [NodeMetadata]; the children in the source are metadata without children. *)
Inductive NodeMetadata := mkNodeMetadata {
  meta_prefix : bytes;
  meta_num_messages : Z;
  meta_hash : string;
  meta_children : list (Z * NodeMetadata);
}.

Definition TRIE_UNLOAD_THRESHOLD : nat := Z.to_nat 10000.

Section MerkleTrie.
Context {T : Type} `{TransactionDB T} `{!Codec DbTrieNode}.
Variable blake3 : bytes -> bytes.
Variable hex : bytes -> string.
(** A bound on the depth of the recursions; the bytes of the longest key and
    one more are enough. *)
Variable depth : nat.

(** [MerkleTrie]; the handle to the store is shared with the owner of the
    trie, so the trie of a component is where its store is. *)
Record MerkleTrie := mkMerkleTrie {
  root : option TrieNode;
  trie_db : RocksDB T;
  db_owned : bool;
  txn_batch : RocksDbTransactionBatch;
}.

Definition set_root (r : option TrieNode) (t : MerkleTrie) : MerkleTrie :=
  mkMerkleTrie r (trie_db t) (db_owned t) (txn_batch t).
Definition set_trie_db (d : RocksDB T) (t : MerkleTrie) : MerkleTrie :=
  mkMerkleTrie (root t) d (db_owned t) (txn_batch t).
Definition set_txn_batch (b : RocksDbTransactionBatch) (t : MerkleTrie) : MerkleTrie :=
  mkMerkleTrie (root t) (trie_db t) (db_owned t) b.

(** [MerkleTrie::new], with the joined path. *)
Definition MerkleTrie_new (path : string) : MerkleTrie :=
  mkMerkleTrie None (RocksDB_new path) true Batch.new.

Definition new_with_db (d : RocksDB T) : MerkleTrie := mkMerkleTrie None d false Batch.new.

Definition create_empty_root : ST MerkleTrie HubError unit :=
  let root_key := make_primary_key [] None in
  let empty := TrieNode_new in
  st_modify (fun t => set_root (Some empty) (set_txn_batch (Batch.put (txn_batch t) root_key (serialize empty)) t)).

Definition load_root : ST MerkleTrie HubError (option TrieNode) := fun t =>
  (let root_key := make_primary_key [] None in
   b ← map_err rocksdb_to_hub_error (RocksDB_get (trie_db t) root_key);
   match b with
   | Some root_bytes => root_node ← deserialize root_bytes; Ok (Some root_node)
   | None => Ok None
   end, t).

Definition initialize : ST MerkleTrie HubError unit :=
  (let! t := st_get in
   (if db_owned t then
      let! d := st_lift (map_err rocksdb_to_hub_error (RocksDB_open (trie_db t))) in
      st_modify (set_trie_db d)
    else st_ret tt) ;;;
   let! loaded := load_root in
   match loaded with
   | Some root_node => st_modify (set_root (Some root_node))
   | None => create_empty_root
   end)%st.

Definition MerkleTrie_clear : ST MerkleTrie HubError unit :=
  (st_modify (set_txn_batch Batch.new) ;;;
   let! t := st_get in
   let! (_, d) := st_lift (map_err rocksdb_to_hub_error (RocksDB_clear (trie_db t))) in
   st_modify (set_trie_db d) ;;;
   create_empty_root)%st.

Definition stop : ST MerkleTrie HubError unit :=
  st_modify (fun t => if db_owned t then set_trie_db (RocksDB_close (trie_db t)) t else t).

(** [unload_from_memory] on the root: the batch is taken before the commit. *)
Definition unload_from_memory (r : TrieNode) (force : bool) : ST MerkleTrie HubError unit :=
  (let! t := st_get in
   if force || (TRIE_UNLOAD_THRESHOLD <? Batch.len (txn_batch t)) then
     st_put (set_txn_batch Batch.new t) ;;;
     let! d := st_lift (map_err rocksdb_to_hub_error (RocksDB_commit (trie_db t) (txn_batch t))) in
     st_modify (fun t => set_root (Some (unload_children r)) (set_trie_db d t))
   else st_ret tt)%st.

Definition commit : ST MerkleTrie HubError unit :=
  (let! t := st_get in
   match root t with
   | Some r => unload_from_memory r true
   | None => st_lift Panic
   end)%st.

Definition reload : ST MerkleTrie HubError unit :=
  (let! loaded := load_root in
   match loaded with
   | Some replacement_root => st_modify (fun t => set_txn_batch Batch.new (set_root (Some replacement_root) t))
   | None => st_lift (Err (mkHubError "bad_request.internal_error" "unable to reload root"))
   end)%st.

Definition not_initialized : HubError :=
  mkHubError "bad_request.internal_error" "Merkle Trie not initialized".

Definition key_too_short : HubError :=
  mkHubError "bad_request.invalid_param" "Key length is too short".

(** The common shape of [insert] and [delete]: the operation on the root with
    a fresh batch, which is merged when it succeeds. *)
Definition on_root_txn (op : ST NodeTxn HubError (list bool)) : ST MerkleTrie HubError (list bool) := fun t =>
  match root t with
  | Some r =>
      let '(res, (r', txn)) := op (r, Batch.new) in
      let t' := set_root (Some r') t in
      match res with
      | Ok results => (Ok results, set_txn_batch (Batch.merge (txn_batch t) txn) t')
      | Err e => (Err e, t')
      | Panic => (Panic, t')
      | OutOfFuel => (OutOfFuel, t')
      end
  | None => (Err not_initialized, t)
  end.

Definition MerkleTrie_insert (keys : list bytes) : ST MerkleTrie HubError (list bool) := fun t =>
  match keys with
  | [] => (Ok [], t)
  | _ =>
      if existsb (fun k => length k <? TIMESTAMP_LENGTH) keys then (Err key_too_short, t)
      else on_root_txn (insert blake3 (trie_db t) depth keys 0) t
  end.

Definition MerkleTrie_delete (keys : list bytes) : ST MerkleTrie HubError (list bool) := fun t =>
  match keys with
  | [] => (Ok [], t)
  | _ =>
      if existsb (fun k => length k <? TIMESTAMP_LENGTH) keys then (Err key_too_short, t)
      else on_root_txn (delete blake3 (trie_db t) depth keys 0) t
  end.

(** An operation on the root that only loads nodes. *)
Definition on_root {A} (op : ST TrieNode HubError A) : ST MerkleTrie HubError A := fun t =>
  match root t with
  | Some r => let (res, r') := op r in (res, set_root (Some r') t)
  | None => (Err not_initialized, t)
  end.

Definition MerkleTrie_exists (k : bytes) : ST MerkleTrie HubError bool := fun t =>
  on_root (exists_ (trie_db t) k 0) t.

Definition MerkleTrie_items (t : MerkleTrie) : result HubError Z :=
  match root t with Some r => Ok (items r) | None => Err not_initialized end.

Definition root_hash (t : MerkleTrie) : result HubError bytes :=
  match root t with Some r => Ok (hash r) | None => Err not_initialized end.

(** [get_node]: a row of the batch before a row of the store; what does not
    decode counts as missing. *)
Definition get_node (t : MerkleTrie) (prefix : bytes) : result HubError (option TrieNode) :=
  let node_key := make_primary_key prefix None in
  match
    match batch (txn_batch t) !! node_key with
    | Some (Some node_bytes) => deserialize node_bytes
    | _ => Err not_initialized
    end
  with
  | Ok node => Ok (Some node)
  | _ =>
      match RocksDB_get (trie_db t) node_key with
      | Ok (Some node_bytes) =>
          match deserialize node_bytes with Ok node => Ok (Some node) | _ => Ok None end
      | Ok None => Ok None
      | Err _ => Ok None
      | Panic => Panic
      | OutOfFuel => OutOfFuel
      end
  end.

(** Put back the node a reference into the trie points to. *)
Fixpoint replace_at (rest : bytes) (node self : TrieNode) : TrieNode :=
  match rest with
  | [] => node
  | c :: rest' =>
      match children self !! c with
      | Some (Node child) => put_child c (replace_at rest' node child) self
      | _ => self
      end
  end.

Definition MerkleTrie_get_all_values (prefix : bytes) : ST MerkleTrie HubError (list bytes) := fun t =>
  on_root (fun r =>
    match get_node_from_trie (trie_db t) prefix 0 r with
    | (Ok (Some node), r') =>
        let (res, node') := get_all_values (trie_db t) depth prefix node in
        (res, replace_at prefix node' r')
    | (Ok None, r') => (Ok [], r')
    | (Err e, r') => (Err e, r')
    | (Panic, r') => (Panic, r')
    | (OutOfFuel, r') => (OutOfFuel, r')
    end) t.

Definition MerkleTrie_get_snapshot (prefix : bytes) : ST MerkleTrie HubError TrieSnapshot := fun t =>
  on_root (get_snapshot blake3 (trie_db t) hex prefix 0) t.

Fixpoint metadata_loop (t : MerkleTrie) (prefix : bytes) (chars : list Z) :
    result HubError (list (Z * NodeMetadata)) :=
  match chars with
  | [] => Ok []
  | char :: chars' =>
      let child_prefix := prefix ++ [char] in
      o ← get_node t child_prefix;
      child_node ← ok_or o (mkHubError "bad_request.internal_error" "Child Node not found");
      rest ← metadata_loop t prefix chars';
      Ok ((char, mkNodeMetadata child_prefix (items child_node) (hex (hash child_node)) []) :: rest)
  end.

Definition get_trie_node_metadata (t : MerkleTrie) (prefix : bytes) : result HubError NodeMetadata :=
  o ← get_node t prefix;
  match o with
  | Some node =>
      children ← metadata_loop t prefix (children_keys node);
      Ok (mkNodeMetadata prefix (items node) (hex (hash node)) children)
  | None => Err (mkHubError "bad_request.invalid_param" "Node not found")
  end.

End MerkleTrie.

Arguments MerkleTrie T : clear implicits.

(** ** What a trie stands for *)
Section Correct.
Context {T : Type} `{TransactionDBLaws T} `{!Codec DbTrieNode} {codec_law : CodecLaw DbTrieNode}.
Variable blake3 : bytes -> bytes.
Hypothesis blake3_length : forall l, length (blake3 l) = 32.
(** A bound on the length of keys. *)
Variable L : nat.

Implicit Types (t : MerkleTrie T) (m v : gmap bytes bytes) (r : TrieNode) (S : gset bytes) (C : option (gset bytes)).

(** The root [r] stands for [S] in the view [v] of a store [m]. *)
Definition root_repr m v r S : Prop := start blake3 m L v [] r S /\ row v [] r.

(** What the store holds of the trie: nothing yet, or a set of keys. *)
Definition committed m (C : option (gset bytes)) : Prop :=
  match C with
  | None => m !! node_key [] = None
  | Some C => exists b n, m !! node_key [] = Some b /\ deserialize b = Ok n /\ root_repr m m n C
  end.

(** The trie stands for [S], and its store for the keys [C] of the last
    commit. *)
Definition trie_holds t (C : option (gset bytes)) S : Prop :=
  exists m r, holds (trie_db t) m /\ root t = Some r /\
    root_repr m (apply_batch m (txn_batch t)) r S /\ committed m C.

(** The reference root hash of a set of keys. *)
Definition spec_root S : bytes := spec_hash blake3 (Datatypes.S L) [] S.

Lemma root_repr_repr m v r S : S ≠ ∅ -> root_repr m v r S -> repr blake3 m L v [] (Node r) S.
Proof using Type. by intros HS [[[-> _]|Hr] _]. Qed.

Lemma trie_holds_root_hash t C S : trie_holds t C S -> S ≠ ∅ -> root_hash t = Ok (spec_root S).
Proof using Type.
  intros (m & r & _ & Hr & Hrr & _) HS. unfold root_hash. rewrite Hr. f_equal.
  apply root_repr_repr in Hrr; [|done]. apply repr_hash in Hrr; [|apply Nat.le_0_l].
  rewrite Hrr. unfold spec_root. simpl length. by rewrite Nat.sub_0_r.
Qed.

Lemma trie_holds_items t C S : trie_holds t C S -> MerkleTrie_items t = Ok (Z.of_nat (size S)).
Proof using Type.
  intros (m & r & _ & Hr & [Hs _] & _). unfold MerkleTrie_items. rewrite Hr. f_equal. by eapply start_items.
Qed.

Lemma root_repr_reload m v r S : root_repr m v r S -> root_repr v v (on_disk r) S.
Proof using Type.
  intros [Hs (b & Hb & Hd)]. split.
  - destruct Hs as [(HS & Hc & Hi & _)|Hr].
    + left. split_and!; [done|simpl; by rewrite Hc, fmap_empty|done|]. simpl. unfold TIMESTAMP_LENGTH. lia.
    + right. by apply (repr_reload blake3 m L v [] (Node r) S Hr).
  - exists b. by rewrite on_disk_idem.
Qed.

Lemma no_short_key S (keys : list bytes) :
  valid_keys L (S ∪ list_to_set keys) -> existsb (fun k => length k <? TIMESTAMP_LENGTH) keys = false.
Proof using Type.
  intros Hv. apply not_true_is_false. intros (k & Hk & Hlt)%existsb_exists. apply Nat.ltb_lt in Hlt.
  apply list_elem_of_In in Hk. pose proof (valid_length _ _ k Hv). rewrite elem_of_union, elem_of_list_to_set in *.
  assert (TIMESTAMP_LENGTH <= length k <= L) by auto. lia.
Qed.

Lemma exists_spec t C S k :
  trie_holds t C S -> S ≠ ∅ ->
  exists t', MerkleTrie_exists k t = (Ok (bool_decide (k ∈ S)), t') /\ trie_holds t' C S /\
    trie_db t' = trie_db t /\ txn_batch t' = txn_batch t.
Proof using Type.
  intros (m & r & Hd & Hr & Hrr & HC) HS. apply root_repr_repr in Hrr; [|done].
  destruct (exists_aux_spec blake3 (trie_db t) m Hd L (apply_batch m (txn_batch t)) k k [] r S Hrr eq_refl)
    as (r' & E & Hr'). unfold MerkleTrie_exists, on_root. rewrite Hr. unfold exists_. rewrite drop_0.
  simpl in E. rewrite E. eexists. split; [done|]. split; [|done].
  exists m, r'. split_and!; [done|done| |done]. split; [by right|by eapply repr_row].
Qed.

Lemma commit_spec t C S :
  trie_holds t C S ->
  exists t', commit t = (Ok tt, t') /\ root_hash t' = root_hash t /\ txn_batch t' = Batch.new /\
    exists m', holds (trie_db t') m' /\ committed m' (Some S) /\
      (forall m, holds (trie_db t) m -> m' = apply_batch m (txn_batch t)).
Proof using Type.
  intros (m & r & Hd & Hr & Hrr & HC). unfold commit, unload_from_memory, st_bind, st_get, st_put, st_lift, st_modify.
  rewrite Hr. cbn [orb]. destruct (RocksDB_commit_holds (trie_db t) m (txn_batch t) Hd) as (d' & E & Hd' & _).
  cbn [trie_db set_txn_batch]. rewrite E. simpl. eexists. split; [done|].
  split_and!; [|done|].
  - unfold root_hash. by rewrite Hr.
  - exists (apply_batch m (txn_batch t)). split_and!; [done| |].
    + destruct Hrr as [Hs (b & Hb & Hdes)]. exists b, (on_disk r). split_and!; [done|done|].
      eapply root_repr_reload. split; [done|by exists b].
    + intros m2 (x & Hx & <-). destruct Hd as (y & Hy & <-). congruence.
Qed.

Lemma reload_spec t m (C : gset bytes) :
  holds (trie_db t) m -> committed m (Some C) ->
  exists t', reload t = (Ok tt, t') /\ trie_holds t' (Some C) C /\ txn_batch t' = Batch.new /\ trie_db t' = trie_db t.
Proof using Type.
  intros Hd (b & n & Hb & Hdes & Hrr). unfold reload, load_root, st_bind.
  change (make_primary_key [] None) with (node_key []).
  rewrite (RocksDB_get_holds (trie_db t) m) by done. simpl. rewrite Hb, Hdes. simpl.
  eexists. split; [done|]. split_and!; [|done|done].
  exists m, n. simpl. rewrite apply_batch_new. split_and!; [done|done|done|]. exists b, n. done.
Qed.

Lemma committed_of t C S m : trie_holds t C S -> holds (trie_db t) m -> committed m C.
Proof using Type. intros (m' & r & (x & Hx & <-) & _ & _ & HC) (y & Hy & <-). congruence. Qed.

Lemma initialize_new_spec (d : RocksDB T) m :
  holds d m -> m !! node_key [] = None ->
  exists t, initialize (new_with_db d) = (Ok tt, t) /\ trie_holds t None ∅ /\ trie_db t = d.
Proof using codec_law.
  intros Hd Hm. unfold initialize, st_bind, st_get. cbn [db_owned new_with_db st_ret].
  unfold load_root, st_ret. change (make_primary_key [] None) with (node_key []).
  change (trie_db (new_with_db d)) with d. rewrite (RocksDB_get_holds d m) by done. simpl. rewrite Hm. simpl.
  unfold create_empty_root, st_modify. eexists. split; [done|]. split; [|done].
  exists m, TrieNode_new. simpl. split_and!; [done|done| |done]. split.
  - left. split_and!; [done|done|done|]. intros _. done.
  - change (make_primary_key [] None) with (node_key []). rewrite apply_batch_put. apply row_put; simpl; [lia|].
    intros c. by rewrite dom_empty_L, elem_of_empty.
Qed.

(** Recursions one deeper than the longest key are allowed. *)
Variable depth : nat.
Hypothesis depth_enough : L + 1 <= depth.

Lemma insert_spec t C S keys :
  trie_holds t C S -> NoDup keys -> valid_keys L (S ∪ list_to_set keys) ->
  exists t', MerkleTrie_insert blake3 depth keys t = (Ok (map (fresh S) keys), t') /\
    trie_holds t' C (S ∪ list_to_set keys) /\ trie_db t' = trie_db t /\ db_owned t' = db_owned t.
Proof.
  intros Hh Hnd Hv. destruct keys as [|k0 ks].
  { exists t. split_and!; try done. simpl. by rewrite (right_id_L ∅ (∪)). }
  destruct Hh as (m & r & Hd & Hr & [Hs Hrow] & HC). cbn [MerkleTrie_insert]. rewrite (no_short_key S) by done.
  set (keys := k0 :: ks) in *.
  destruct (insert_inserts blake3 blake3_length (trie_db t) m Hd L (apply_batch m (txn_batch t)) depth 0 ltac:(lia)
    [] r S keys Batch.new) as (n' & txn' & E & Hr' & _).
  { done. } { by rewrite apply_batch_new. }
  { split_and!; [done|done|intros; apply prefix_nil|done]. }
  unfold on_root_txn. rewrite Hr, E. eexists. split; [done|]. split; [|done].
  exists m, n'. simpl. rewrite apply_batch_merge. split_and!; [done|done| |done].
  split; [by right|]. by eapply repr_row.
Qed.

Lemma delete_spec t C S keys :
  trie_holds t C S -> NoDup keys -> valid_keys L (S ∪ list_to_set keys) ->
  unstray S -> S ∖ list_to_set keys ≠ ∅ ->
  exists t', MerkleTrie_delete blake3 depth keys t = (Ok (map (present S) keys), t') /\
    trie_holds t' C (S ∖ list_to_set keys).
Proof.
  intros Hh Hnd Hv Hu Hne. destruct keys as [|k0 ks].
  { exists t. split_and!; try done. simpl in *. by rewrite (difference_empty_L S). }
  destruct Hh as (m & r & Hd & Hr & Hrr & HC). cbn [MerkleTrie_delete]. rewrite (no_short_key S) by done.
  apply root_repr_repr in Hrr; [|intros ->; apply Hne; by rewrite (subseteq_empty_difference_L ∅)].
  set (keys := k0 :: ks) in *.
  destruct (delete_deletes blake3 blake3_length (trie_db t) m Hd L (apply_batch m (txn_batch t)) depth 0 ltac:(lia)
    [] r S keys Batch.new) as (n' & txn' & E & Hr' & _).
  { done. } { by rewrite apply_batch_new. }
  { split_and!; [done|done|intros; apply prefix_nil|done|done]. }
  unfold on_root_txn. rewrite Hr, E. eexists. split; [done|].
  destruct Hr' as [[Hemp _]|Hr']; [done|].
  exists m, n'. simpl. rewrite apply_batch_merge. split_and!; [done|done| |done].
  split; [by right|]. by eapply repr_row.
Qed.


End Correct.

(** ** Histories

    What a client does with a trie: bulk insertions and deletions, lookups,
    commits (each with the reload that follows it in [engine.rs]) and reloads
    that roll back. *)
Inductive TrieOp :=
| OpInsert (keys : list bytes)
| OpDelete (keys : list bytes)
| OpExists (key : bytes)
| OpCommit
| OpRollback.

Section History.
Context {T : Type} `{TransactionDB T} `{!Codec DbTrieNode}.
Variable blake3 : bytes -> bytes.
Variable L depth : nat.

Definition run_op (op : TrieOp) : ST (MerkleTrie T) HubError unit :=
  match op with
  | OpInsert keys => (let! _ := MerkleTrie_insert blake3 depth keys in st_ret tt)%st
  | OpDelete keys => (let! _ := MerkleTrie_delete blake3 depth keys in st_ret tt)%st
  | OpExists key => (let! _ := MerkleTrie_exists key in st_ret tt)%st
  | OpCommit => (commit ;;; reload)%st
  | OpRollback => reload
  end.

Fixpoint run_ops (ops : list TrieOp) : ST (MerkleTrie T) HubError unit :=
  match ops with
  | [] => st_ret tt
  | op :: ops => (run_op op ;;; run_ops ops)%st
  end.

(** A new trie over a store, taken through a history *)
Definition trie_after (d : RocksDB T) (ops : list TrieOp) : result HubError unit * MerkleTrie T :=
  (initialize ;;; run_ops ops)%st (new_with_db d).

(** The set of the last commit and the present set after a history, by the
    operations on sets. *)
Inductive history : list TrieOp -> option (gset bytes) -> gset bytes -> Prop :=
| history_start : history [] None ∅
| history_insert ops C S keys : history ops C S -> NoDup keys -> valid_keys L (S ∪ list_to_set keys) ->
    history (ops ++ [OpInsert keys]) C (S ∪ list_to_set keys)
| history_delete ops C S keys : history ops C S -> NoDup keys -> valid_keys L (S ∪ list_to_set keys) ->
    unstray S -> S ∖ list_to_set keys ≠ ∅ ->
    history (ops ++ [OpDelete keys]) C (S ∖ list_to_set keys)
| history_exists ops C S key : history ops C S -> S ≠ ∅ -> history (ops ++ [OpExists key]) C S
| history_commit ops C S : history ops C S -> history (ops ++ [OpCommit]) (Some S) S
| history_rollback ops C S : history ops (Some C) S -> history (ops ++ [OpRollback]) (Some C) C.

Lemma run_ops_snoc ops op t t1 t2 :
  run_ops ops t = (Ok tt, t1) -> run_op op t1 = (Ok tt, t2) -> run_ops (ops ++ [op]) t = (Ok tt, t2).
Proof using Type.
  revert t. induction ops as [|o ops IH]; intros t E1 E2; simpl in *.
  - injection E1 as ->. by erewrite st_bind_Ok by exact E2.
  - unfold st_bind in *. destruct (run_op o t) as [[[]| | |] t']; try discriminate. by apply IH.
Qed.
End History.

Section HistorySpec.
Context {T : Type} `{TransactionDBLaws T} `{!Codec DbTrieNode} {codec_law : CodecLaw DbTrieNode}.
Variable blake3 : bytes -> bytes.
Hypothesis blake3_length : forall l, length (blake3 l) = 32.
Variable L depth : nat.
Hypothesis depth_enough : L + 1 <= depth.

Lemma commit_reload_spec (t : MerkleTrie T) C S : trie_holds blake3 L t C S ->
  exists t', (commit ;;; reload)%st t = (Ok tt, t') /\ trie_holds blake3 L t' (Some S) S /\ txn_batch t' = Batch.new.
Proof using Type.
  intros Ht. destruct (commit_spec blake3 L t C S Ht) as (t1 & E1 & _ & _ & m & Hd & Hc & _).
  destruct (reload_spec blake3 L t1 m S Hd Hc) as (t2 & E2 & Ht2 & Hb & _).
  exists t2. by split; [erewrite st_bind_Ok by exact E1|].
Qed.

Lemma rollback_spec (t : MerkleTrie T) C S : trie_holds blake3 L t (Some C) S ->
  exists t', reload t = (Ok tt, t') /\ trie_holds blake3 L t' (Some C) C /\ txn_batch t' = Batch.new /\ trie_db t' = trie_db t.
Proof using Type. intros (m & r & Hd & Hr & Hrr & HC). by apply (reload_spec blake3 L t m C Hd HC). Qed.

(** Every history runs, and the trie stands for its set. *)
Lemma history_runs (t : MerkleTrie T) ops C S : trie_holds blake3 L t None ∅ -> history L ops C S ->
  exists t', run_ops blake3 depth ops t = (Ok tt, t') /\ trie_holds blake3 L t' C S.
Proof.
  intros Ht. induction 1 as [|ops C S keys _ IH Hnd Hv|ops C S keys _ IH Hnd Hv Hu Hne|ops C S key _ IH Hne|ops C S _ IH|ops C S _ IH];
    [by exists t|destruct IH as (t1 & E1 & Ht1)..].
  - destruct (insert_spec blake3 blake3_length L depth depth_enough t1 C S keys Ht1 Hnd Hv) as (t2 & E2 & Ht2 & _).
    exists t2. split; [|done]. eapply run_ops_snoc; [exact E1|]. simpl. by erewrite st_bind_Ok by exact E2.
  - destruct (delete_spec blake3 blake3_length L depth depth_enough t1 C S keys Ht1 Hnd Hv Hu Hne) as (t2 & E2 & Ht2).
    exists t2. split; [|done]. eapply run_ops_snoc; [exact E1|]. simpl. by erewrite st_bind_Ok by exact E2.
  - destruct (exists_spec blake3 L t1 C S key Ht1 Hne) as (t2 & E2 & Ht2 & _).
    exists t2. split; [|done]. eapply run_ops_snoc; [exact E1|]. simpl. by erewrite st_bind_Ok by exact E2.
  - destruct (commit_reload_spec t1 C S Ht1) as (t2 & E2 & Ht2 & _). exists t2. split; [|done]. by eapply run_ops_snoc.
  - destruct (rollback_spec t1 C S Ht1) as (t2 & E2 & Ht2 & _). exists t2. split; [|done]. by eapply run_ops_snoc.
Qed.

Lemma trie_after_spec (d : RocksDB T) m ops C S :
  holds d m -> m !! node_key [] = None -> history L ops C S ->
  exists t, trie_after blake3 depth d ops = (Ok tt, t) /\ trie_holds blake3 L t C S.
Proof.
  intros Hd Hm Hh. destruct (initialize_new_spec blake3 L d m Hd Hm) as (t0 & E0 & Ht0 & _).
  destruct (history_runs t0 ops C S Ht0 Hh) as (t & E & Ht). exists t. split; [|done].
  unfold trie_after. by erewrite st_bind_Ok by exact E0.
Qed.
End HistorySpec.

(** ** Properties *)
Section Properties.
Context {T : Type} `{TransactionDBLaws T} `{!Codec DbTrieNode} {codec_law : CodecLaw DbTrieNode}.
Variable blake3 : bytes -> bytes.
Variable L depth : nat.

(** C4. Bulk insertion computes the union: inserting distinct keys into a trie
    that stands for [S] reports for each key whether it was new and leaves a
    trie that stands for [S] with the keys added, whose root hash is the
    reference hash of that set and whose item count is its size. The set of
    the last commit stays in the store. *)
Theorem trie_insert_union (t : MerkleTrie T) (C : option (gset bytes)) (S : gset bytes) (keys : list bytes)
    (Hblake : forall l, length (blake3 l) = 32) (Hdepth : L + 1 <= depth)
    (Ht : trie_holds blake3 L t C S) (Hnd : NoDup keys) (Hne : keys ≠ [])
    (Hv : valid_keys L (S ∪ list_to_set keys)) :
  exists t',
    MerkleTrie_insert blake3 depth keys t = (Ok (map (fresh S) keys), t') /\
    trie_holds blake3 L t' C (S ∪ list_to_set keys) /\
    root_hash t' = Ok (spec_root blake3 L (S ∪ list_to_set keys)) /\
    MerkleTrie_items t' = Ok (Z.of_nat (size (S ∪ list_to_set keys))).
Proof.
  destruct (insert_spec blake3 Hblake L depth Hdepth t C S keys Ht Hnd Hv) as (t' & E & Ht' & _).
  exists t'. split_and!; [done|done| |by eapply trie_holds_items].
  eapply trie_holds_root_hash; [done|]. destruct keys as [|k keys]; [done|].
  intros Hemp. apply (not_elem_of_empty (C := gset bytes) k). rewrite <- Hemp.
  apply elem_of_union_r, elem_of_list_to_set. by left.
Qed.

(** C5. Bulk deletion computes the difference: it reports for each key whether
    it was there and, as long as a key is left, leaves a trie that stands for
    the rest with the reference root hash and item count. Keys that begin with
    the row prefix of the trie are excluded. *)
Theorem trie_delete_difference (t : MerkleTrie T) (C : option (gset bytes)) (S : gset bytes) (keys : list bytes)
    (Hblake : forall l, length (blake3 l) = 32) (Hdepth : L + 1 <= depth)
    (Ht : trie_holds blake3 L t C S) (Hnd : NoDup keys)
    (Hv : valid_keys L (S ∪ list_to_set keys)) (Hu : forall k, k ∈ S -> head k ≠ Some 11%Z)
    (Hne : S ∖ list_to_set keys ≠ ∅) :
  exists t',
    MerkleTrie_delete blake3 depth keys t = (Ok (map (present S) keys), t') /\
    trie_holds blake3 L t' C (S ∖ list_to_set keys) /\
    root_hash t' = Ok (spec_root blake3 L (S ∖ list_to_set keys)) /\
    MerkleTrie_items t' = Ok (Z.of_nat (size (S ∖ list_to_set keys))).
Proof.
  destruct (delete_spec blake3 Hblake L depth Hdepth t C S keys Ht Hnd Hv Hu Hne) as (t' & E & Ht').
  exists t'. split_and!; [done|done|by eapply trie_holds_root_hash|by eapply trie_holds_items].
Qed.

(** C6. The root hash does not depend on the history: take two new tries, over
    any two stores without a trie, through any two histories of bulk
    insertions, bulk deletions, lookups, commits and rollbacks. Both histories
    run without an error, and when they lead to the same non-empty set the
    tries have the same root hash, and both count the keys of the set. The keys
    of every call are distinct and valid, as in C4 and C5, and no deletion
    empties the trie. *)
Theorem trie_root_history_independent `{TransactionDBLaws T'} (d1 : RocksDB T) (d2 : RocksDB T') (m1 m2 : gmap bytes bytes)
    (ops1 ops2 : list TrieOp) (C1 C2 : option (gset bytes)) (S : gset bytes)
    (Hblake : forall l, length (blake3 l) = 32) (Hdepth : L + 1 <= depth)
    (Hd1 : holds d1 m1) (Hm1 : m1 !! node_key [] = None) (Hd2 : holds d2 m2) (Hm2 : m2 !! node_key [] = None)
    (Hops1 : history L ops1 C1 S) (Hops2 : history L ops2 C2 S) (Hne : S ≠ ∅) :
  exists t1 t2 root,
    trie_after blake3 depth d1 ops1 = (Ok tt, t1) /\ trie_after blake3 depth d2 ops2 = (Ok tt, t2) /\
    root_hash t1 = Ok root /\ root_hash t2 = Ok root /\
    MerkleTrie_items t1 = Ok (Z.of_nat (size S)) /\ MerkleTrie_items t2 = Ok (Z.of_nat (size S)).
Proof.
  destruct (trie_after_spec blake3 Hblake L depth Hdepth d1 m1 ops1 C1 S Hd1 Hm1 Hops1) as (t1 & E1 & Ht1).
  destruct (trie_after_spec blake3 Hblake L depth Hdepth d2 m2 ops2 C2 S Hd2 Hm2 Hops2) as (t2 & E2 & Ht2).
  exists t1, t2, (spec_root blake3 L S).
  split_and!; [done|done|by eapply trie_holds_root_hash..|by eapply trie_holds_items|by eapply trie_holds_items].
Qed.

(** [exists] answers membership and leaves the set, the store and the
    batch as they were. *)
Theorem trie_exists_member (t : MerkleTrie T) (C : option (gset bytes)) (S : gset bytes) (k : bytes)
    (Ht : trie_holds blake3 L t C S) (Hne : S ≠ ∅) :
  exists t',
    MerkleTrie_exists k t = (Ok (bool_decide (k ∈ S)), t') /\ trie_holds blake3 L t' C S /\
    trie_db t' = trie_db t /\ txn_batch t' = txn_batch t.
Proof. by apply exists_spec. Qed.

(** C7. [commit] followed by [reload] succeeds, keeps the set and the root
    hash, empties the batch and makes the set the committed one. *)
Theorem trie_commit_reload (t : MerkleTrie T) (C : option (gset bytes)) (S : gset bytes)
    (Ht : trie_holds blake3 L t C S) :
  exists t',
    (commit ;;; reload)%st t = (Ok tt, t') /\ trie_holds blake3 L t' (Some S) S /\
    txn_batch t' = Batch.new /\ (S ≠ ∅ -> root_hash t' = root_hash t).
Proof.
  destruct (commit_reload_spec blake3 L t C S Ht) as (t2 & E & Ht2 & Hb).
  exists t2. split_and!; [done|done|done|]. intros Hne.
  by rewrite (trie_holds_root_hash _ _ _ _ _ Ht2 Hne), (trie_holds_root_hash _ _ _ _ _ Ht Hne).
Qed.

(** [reload] without a commit rolls back: whatever was inserted or deleted
    since, the trie stands for the set of the last commit again, with an empty
    batch and the same store. *)
Theorem trie_rollback (t : MerkleTrie T) (C S : gset bytes) (Ht : trie_holds blake3 L t (Some C) S) :
  exists t',
    reload t = (Ok tt, t') /\ trie_holds blake3 L t' (Some C) C /\
    txn_batch t' = Batch.new /\ trie_db t' = trie_db t.
Proof. by apply (rollback_spec blake3 L t C S). Qed.

End Properties.

(** A concrete store, codec and hash function. *)
Module Sample.
#[export] Instance node_codec : Codec DbTrieNode := countable_codec DbTrieNode.
#[export] Instance node_codec_law : CodecLaw DbTrieNode := countable_codec_law DbTrieNode.

Definition sample_blake3 (l : bytes) : bytes :=
  be_bytes 32 (foldl (fun a b => (a * 257 + b + 1) mod (2 ^ 255 - 19))%Z 7%Z l).

Lemma sample_blake3_length l : length (sample_blake3 l) = 32.
Proof. apply length_be_bytes. Qed.

Definition sample_key (a : Z) : bytes := [1; 2; 3; 4; 5; 6; 7; 8; 9; 10; a; 12]%Z.

Definition sample_store : RocksDB (gmap bytes bytes) := mkRocksDB (Some ∅) "x".

Definition sample_trie : MerkleTrie (gmap bytes bytes) := (initialize (new_with_db sample_store)).2.

Lemma sample_trie_empty : trie_holds sample_blake3 20 sample_trie None ∅.
Proof.
  destruct (initialize_new_spec sample_blake3 20 sample_store ∅) as (t & E & Ht & _); [apply holds_gmap|done|].
  unfold sample_trie. rewrite E. done.
Qed.

Definition sample_trie_two : MerkleTrie (gmap bytes bytes) :=
  (MerkleTrie_insert sample_blake3 21 [sample_key 1; sample_key 2] sample_trie).2.

Lemma sample_trie_two_holds : trie_holds sample_blake3 20 sample_trie_two None (∅ ∪ list_to_set [sample_key 1; sample_key 2]).
Proof.
  destruct (insert_spec sample_blake3 sample_blake3_length 20 21 ltac:(lia) sample_trie None ∅ [sample_key 1; sample_key 2] sample_trie_empty)
    as (t & E & Ht & _); [decide_now|decide_now|].
  unfold sample_trie_two. rewrite E. done.
Qed.

Definition sample_trie_committed : MerkleTrie (gmap bytes bytes) := ((commit ;;; reload)%st sample_trie_two).2.

Lemma sample_trie_committed_holds :
  trie_holds sample_blake3 20 sample_trie_committed (Some (∅ ∪ list_to_set [sample_key 1; sample_key 2])) (∅ ∪ list_to_set [sample_key 1; sample_key 2]).
Proof.
  destruct (commit_spec sample_blake3 20 sample_trie_two None _ sample_trie_two_holds) as (t1 & E1 & _ & _ & m & Hd & Hc & _).
  destruct (reload_spec sample_blake3 20 t1 m _ Hd Hc) as (t2 & E2 & Ht2 & _).
  unfold sample_trie_committed. erewrite st_bind_Ok by exact E1. by rewrite E2.
Qed.
End Sample.
Import Sample.

Lemma trie_insert_union_witness :
  exists t',
    MerkleTrie_insert sample_blake3 21 [sample_key 3; sample_key 1] sample_trie_two = (Ok [true; false], t') /\
    MerkleTrie_items t' = Ok 3%Z.
Proof.
  destruct (trie_insert_union sample_blake3 20 21 sample_trie_two None _ [sample_key 3; sample_key 1]
    sample_blake3_length ltac:(lia) sample_trie_two_holds) as (t' & E & _ & _ & Hi); [decide_now|done|decide_now|].
  exists t'. split; [exact E|exact Hi].
Defined.

Lemma trie_delete_difference_witness :
  exists t',
    MerkleTrie_delete sample_blake3 21 [sample_key 3; sample_key 1] sample_trie_two = (Ok [false; true], t') /\
    MerkleTrie_items t' = Ok 1%Z.
Proof.
  destruct (trie_delete_difference sample_blake3 20 21 sample_trie_two None _ [sample_key 3; sample_key 1]
    sample_blake3_length ltac:(lia) sample_trie_two_holds) as (t' & E & _ & _ & Hi); [decide_now|decide_now| |decide_now|].
  - assert (Hall : set_Forall (fun k => head k ≠ Some 11%Z) (∅ ∪ list_to_set [sample_key 1; sample_key 2] : gset bytes)) by decide_now.
    exact Hall.
  - exists t'. split; [exact E|exact Hi].
Defined.

(** The second and the third key inserted at once; and the first two, a
    commit, an insertion that is rolled back, the third, and the first
    deleted. *)
Definition two_keys : gset bytes := list_to_set [sample_key 1; sample_key 2].
Definition ops_direct : list TrieOp := [OpInsert [sample_key 3; sample_key 2]].
Definition ops_rolled_back : list TrieOp := [OpInsert [sample_key 1; sample_key 2]; OpCommit; OpInsert [sample_key 4]; OpRollback].
Definition ops_detour : list TrieOp := ops_rolled_back ++ [OpInsert [sample_key 3]] ++ [OpDelete [sample_key 1]].

Lemma history_direct : history 20 ops_direct None (∅ ∪ list_to_set [sample_key 3; sample_key 2]).
Proof. apply (history_insert 20 [] None ∅ [sample_key 3; sample_key 2] (history_start 20)); decide_now. Qed.

Lemma history_rolled_back : history 20 ops_rolled_back (Some (∅ ∪ two_keys)) (∅ ∪ two_keys).
Proof.
  apply (history_rollback 20 [OpInsert [sample_key 1; sample_key 2]; OpCommit; OpInsert [sample_key 4]] _
    (∅ ∪ two_keys ∪ list_to_set [sample_key 4])).
  apply (history_insert 20 [OpInsert [sample_key 1; sample_key 2]; OpCommit] _ (∅ ∪ two_keys) [sample_key 4]); [|decide_now|decide_now].
  apply (history_commit 20 [OpInsert [sample_key 1; sample_key 2]] None (∅ ∪ two_keys)).
  apply (history_insert 20 [] None ∅ [sample_key 1; sample_key 2] (history_start 20)); decide_now.
Qed.

Lemma history_detour : history 20 ops_detour (Some (∅ ∪ two_keys)) ((∅ ∪ two_keys ∪ list_to_set [sample_key 3]) ∖ list_to_set [sample_key 1]).
Proof.
  unfold ops_detour. rewrite app_assoc.
  apply (history_delete 20 (ops_rolled_back ++ [OpInsert [sample_key 3]])); [|decide_now|decide_now| |decide_now].
  - apply (history_insert 20 ops_rolled_back _ _ [sample_key 3] history_rolled_back); decide_now.
  - assert (Hall : set_Forall (fun k => head k ≠ Some 11%Z) (∅ ∪ two_keys ∪ list_to_set [sample_key 3])) by decide_now. exact Hall.
Qed.

Lemma trie_root_history_independent_witness :
  exists t1 t2 root,
    trie_after sample_blake3 21 sample_store ops_direct = (Ok tt, t1) /\
    trie_after sample_blake3 21 sample_store ops_detour = (Ok tt, t2) /\
    root_hash t1 = Ok root /\ root_hash t2 = Ok root.
Proof.
  assert (Hsame : (∅ ∪ two_keys ∪ list_to_set [sample_key 3]) ∖ list_to_set [sample_key 1] = ∅ ∪ list_to_set [sample_key 3; sample_key 2])
    by decide_now.
  pose proof history_detour as Hdetour. rewrite Hsame in Hdetour.
  destruct (trie_root_history_independent sample_blake3 20 21 sample_store sample_store ∅ ∅ ops_direct ops_detour _ _ _
    sample_blake3_length ltac:(lia) (holds_gmap _ _) eq_refl (holds_gmap _ _) eq_refl history_direct Hdetour)
    as (t1 & t2 & root & E1 & E2 & R1 & R2 & _); [decide_now|].
  exists t1, t2, root. split_and!; [exact E1|exact E2|exact R1|exact R2].
Defined.

Lemma trie_exists_member_witness :
  exists t', MerkleTrie_exists (sample_key 2) sample_trie_committed = (Ok true, t').
Proof.
  destruct (trie_exists_member sample_blake3 20 sample_trie_committed _ _ (sample_key 2) sample_trie_committed_holds)
    as (t' & E & _); [decide_now|]. exists t'. exact E.
Defined.

Lemma trie_commit_reload_witness :
  exists t', (commit ;;; reload)%st sample_trie_two = (Ok tt, t') /\ txn_batch t' = Batch.new.
Proof.
  destruct (trie_commit_reload sample_blake3 20 sample_trie_two None _ sample_trie_two_holds) as (t' & E & _ & Hb & _).
  exists t'. split; [exact E|exact Hb].
Defined.

Lemma trie_rollback_witness :
  exists t', reload sample_trie_committed = (Ok tt, t') /\ txn_batch t' = Batch.new.
Proof.
  destruct (trie_rollback sample_blake3 20 sample_trie_committed _ _ sample_trie_committed_holds) as (t' & E & _ & Hb & _).
  exists t'. split; [exact E|exact Hb].
Defined.

(** ** Behaviour outside the contract *)

(** A batch that repeats a new key loses its insertion: inserting the same
    key twice in one call into an empty trie reports [false] for both
    occurrences and leaves the root's item count and hash untouched, although
    the key is found afterwards. *)
Theorem trie_insert_duplicate_lost :
  let (r, t) := MerkleTrie_insert sample_blake3 21 [sample_key 1; sample_key 1] sample_trie in
  r = Ok [false; false] /\ MerkleTrie_items t = Ok 0%Z /\ root_hash t = root_hash sample_trie /\
  (MerkleTrie_exists (sample_key 1) t).1 = Ok true.
Proof. vm_compute. done. Qed.

(** A second [commit] without a [reload] forgets the children the first
    one unloaded: a key that was inserted, committed and found is not found
    after committing again, and its siblings are gone from the root. *)
Theorem trie_second_commit_forgets :
  let t1 := (commit sample_trie_two).2 in
  let t2 := (commit t1).2 in
  (MerkleTrie_exists (sample_key 1) t1).1 = Ok true /\
  (commit t1).1 = Ok tt /\
  (MerkleTrie_exists (sample_key 1) t2).1 = Ok false.
Proof. vm_compute. done. Qed.

(** Merging an only child into its parent deletes the row of the child's
    key with the row prefix once more, not the row of the child. The row of
    the child stays in the store, and the key whose row was deleted instead,
    one that begins with the prefix byte, is lost: it was found before an
    unrelated key was deleted, and is not found after a commit and a reload. *)
Theorem trie_delete_removes_stray_row :
  let k a := [1; 2; 3; 4; 5; 6; 7; 8; 9; 10; a]%Z in
  let stray a := [11; 1; 2; 3; 4; 5; 6; 7; 8; 9; 10; a]%Z in
  let t0 := (MerkleTrie_insert sample_blake3 21 [k 1%Z; k 2%Z; stray 1%Z; stray 2%Z] sample_trie).2 in
  let t1 := ((commit ;;; reload)%st t0).2 in
  let t2 := (MerkleTrie_delete sample_blake3 21 [k 2%Z] t1).2 in
  let t3 := ((commit ;;; reload)%st t2).2 in
  (MerkleTrie_exists (stray 1%Z) t1).1 = Ok true /\
  (MerkleTrie_exists (stray 1%Z) t3).1 = Ok false /\
  is_ok (RocksDB_get (trie_db t3) (node_key (k 1%Z))) = true /\
  RocksDB_get (trie_db t3) (node_key (k 1%Z)) ≠ Ok None.
Proof. vm_compute. done. Qed.
