(* ===== verification/Proto.v ===== *)
(** * Protocol messages

    The message types of [src/proto/message.proto], [username_proof.proto]
    and [blocks.proto] that the program handles. An enumeration field is the
    number it carries, as in the generated code; a message field and a [oneof]
    are options. *)

From S2P Require Import Prelude.

(** ** [message.proto] *)
Record CastId := mkCastId { cast_fid : Z; cast_hash : bytes }.

Inductive Parent :=
| ParentCastId (c : CastId)
| ParentUrl (url : string).

(** An embedded url or cast. *)
Inductive Embed :=
| EmbedUrl (url : string)
| EmbedCastId (c : CastId).

Record CastAddBody := mkCastAddBody {
  embeds_deprecated : list string;
  mentions : list Z;
  parent : option Parent;
  text : string;
  mentions_positions : list Z;
  embeds : list (option Embed);
  cast_type : Z;
}.

Record CastRemoveBody := mkCastRemoveBody { target_hash : bytes }.

Inductive ReactionTarget :=
| TargetCastId (c : CastId)
| TargetUrl (url : string).

Record ReactionBody := mkReactionBody { reaction_type : Z; reaction_target : option ReactionTarget }.

Record VerificationAddAddressBody := mkVerificationAddAddressBody {
  vadd_address : bytes;
  claim_signature : bytes;
  block_hash : bytes;
  verification_type : Z;
  v_chain_id : Z;
  vadd_protocol : Z;
}.

Record VerificationRemoveBody := mkVerificationRemoveBody { vremove_address : bytes; vremove_protocol : Z }.

Record UserDataBody := mkUserDataBody { user_data_type : Z; user_data_value : string }.

(** The only target of a link is a fid. *)
Record LinkBody := mkLinkBody {
  link_type : string;
  display_timestamp : option Z;
  link_target : option Z;
}.

Record LinkCompactStateBody := mkLinkCompactStateBody { compact_type : string; target_fids : list Z }.

Record FrameActionBody := mkFrameActionBody {
  frame_url : bytes;
  button_index : Z;
  frame_cast_id : option CastId;
  input_text : bytes;
  frame_state : bytes;
  transaction_id : bytes;
  frame_address : bytes;
}.

Record UserNameProof := mkUserNameProof {
  proof_timestamp : Z;
  proof_name : bytes;
  proof_owner : bytes;
  proof_signature : bytes;
  proof_fid : Z;
  proof_type : Z;
}.

Inductive Body :=
| CastAddBody_ (b : CastAddBody)
| CastRemoveBody_ (b : CastRemoveBody)
| ReactionBody_ (b : ReactionBody)
| VerificationAddAddressBody_ (b : VerificationAddAddressBody)
| VerificationRemoveBody_ (b : VerificationRemoveBody)
| UserDataBody_ (b : UserDataBody)
| LinkBody_ (b : LinkBody)
| UsernameProofBody_ (b : UserNameProof)
| FrameActionBody_ (b : FrameActionBody)
| LinkCompactStateBody_ (b : LinkCompactStateBody).

Record MessageData := mkMessageData {
  msg_type : Z;
  fid : Z;
  timestamp : Z;
  network : Z;
  body : option Body;
}.

Record Message := mkMessage {
  data : option MessageData;
  msg_hash : bytes;
  hash_scheme : Z;
  signature : bytes;
  signature_scheme : Z;
  signer : bytes;
  data_bytes : option bytes;
}.

(** [MessageType] *)
Inductive MessageType :=
| MT_None | MT_CastAdd | MT_CastRemove | MT_ReactionAdd | MT_ReactionRemove
| MT_LinkAdd | MT_LinkRemove | MT_VerificationAddEthAddress | MT_VerificationRemove
| MT_UserDataAdd | MT_UsernameProof | MT_FrameAction | MT_LinkCompactState.

(** [MessageType::X as i32] *)
Definition message_type_i32 (t : MessageType) : Z :=
  match t with
  | MT_None => 0 | MT_CastAdd => 1 | MT_CastRemove => 2 | MT_ReactionAdd => 3 | MT_ReactionRemove => 4
  | MT_LinkAdd => 5 | MT_LinkRemove => 6 | MT_VerificationAddEthAddress => 7 | MT_VerificationRemove => 8
  | MT_UserDataAdd => 11 | MT_UsernameProof => 12 | MT_FrameAction => 13 | MT_LinkCompactState => 14
  end%Z.

(** ** [blocks.proto] *)
Record Height := mkHeight { shard_index : Z; block_number : Z }.
Record ShardHash := mkShardHash { sh_shard_index : Z; sh_hash : bytes }.

Record ProtoVote := mkProtoVote {
  pv_type : Z;
  pv_height : option Height;
  pv_round : Z;
  pv_value : option ShardHash;
  pv_voter : bytes;
}.

Record ProtoProposal := mkProtoProposal {
  pp_height : option Height;
  pp_round : Z;
  pp_pol_round : Z;
  pp_proposer : bytes;
  pp_value : option ShardHash;
}.

Record ConfirmedVotes := mkConfirmedVotes { votes : list ProtoVote; signatures : list bytes }.

Record ShardHeader := mkShardHeader {
  shard_height : option Height;
  shard_timestamp : Z;
  shard_parent_hash : bytes;
  shard_root : bytes;
}.

(** The system messages are empty messages. *)
Record ValidatorMessage := mkValidatorMessage { on_chain_event : option unit; fname_transfer : option unit }.

Record Transaction := mkTransaction {
  tx_fid : Z;
  user_messages : list Message;
  system_messages : list ValidatorMessage;
  account_root : bytes;
}.

Record ShardChunk := mkShardChunk {
  chunk_header : option ShardHeader;
  chunk_hash : bytes;
  transactions : list Transaction;
  chunk_votes : option ConfirmedVotes;
}.

Record ProtoValidator := mkProtoValidator {
  pval_fid : Z;
  pval_signer : bytes;
  pval_rpc_address : string;
  pval_shard_index : Z;
  pval_current_height : Z;
}.

Record BlockHeader := mkBlockHeader {
  block_height : option Height;
  block_timestamp : Z;
  version : Z;
  chain_id : Z;
  validators_hash : bytes;
  shard_headers_hash : bytes;
  block_parent_hash : bytes;
}.

Record Block := mkBlock {
  block_header : option BlockHeader;
  block_hash_ : bytes;
  shard_chunks : list ShardChunk;
  validators_ : option (list ProtoValidator);
  block_votes : option ConfirmedVotes;
}.

Inductive ProposedValue :=
| PV_Block (b : Block)
| PV_Shard (c : ShardChunk).

Record FullProposal := mkFullProposal {
  fp_height : option Height;
  fp_round : Z;
  fp_proposer : bytes;
  proposed_value : option ProposedValue;
}.

(** Messages of the gossip network. *)
Inductive ProtoConsensus :=
| PC_Vote (v : ProtoVote)
| PC_Proposal (p : ProtoProposal).

Record ConsensusMessage := mkConsensusMessage { cm_message : option ProtoConsensus; cm_signature : bytes }.

Record ProtoRegisterValidator := mkProtoRegisterValidator { rv_validator : option ProtoValidator; rv_nonce : Z }.

Inductive GossipPayload :=
| GP_Consensus (m : ConsensusMessage)
| GP_Validator (v : ProtoRegisterValidator)
| GP_FullProposal (p : FullProposal).

Record GossipMessage := mkGossipMessage { gm_message : option GossipPayload }.

(** ** [rpc.proto] *)
Record BlocksRequest := mkBlocksRequest {
  br_shard_id : Z;
  br_start_block_number : Z;
  br_stop_block_number : option Z;
}.

Record BlocksResponse := mkBlocksResponse { response_blocks : list Block }.

(** ** Decidable equality and countability *)
#[export] Instance CastId_eq_dec : EqDecision CastId. Proof. solve_decision. Defined.
#[export] Instance Parent_eq_dec : EqDecision Parent. Proof. solve_decision. Defined.
#[export] Instance Embed_eq_dec : EqDecision Embed. Proof. solve_decision. Defined.
#[export] Instance CastAddBody_eq_dec : EqDecision CastAddBody. Proof. solve_decision. Defined.
#[export] Instance CastRemoveBody_eq_dec : EqDecision CastRemoveBody. Proof. solve_decision. Defined.
#[export] Instance ReactionTarget_eq_dec : EqDecision ReactionTarget. Proof. solve_decision. Defined.
#[export] Instance ReactionBody_eq_dec : EqDecision ReactionBody. Proof. solve_decision. Defined.
#[export] Instance VerificationAdd_eq_dec : EqDecision VerificationAddAddressBody. Proof. solve_decision. Defined.
#[export] Instance VerificationRemove_eq_dec : EqDecision VerificationRemoveBody. Proof. solve_decision. Defined.
#[export] Instance UserDataBody_eq_dec : EqDecision UserDataBody. Proof. solve_decision. Defined.
#[export] Instance LinkBody_eq_dec : EqDecision LinkBody. Proof. solve_decision. Defined.
#[export] Instance LinkCompact_eq_dec : EqDecision LinkCompactStateBody. Proof. solve_decision. Defined.
#[export] Instance FrameAction_eq_dec : EqDecision FrameActionBody. Proof. solve_decision. Defined.
#[export] Instance UserNameProof_eq_dec : EqDecision UserNameProof. Proof. solve_decision. Defined.
#[export] Instance Body_eq_dec : EqDecision Body. Proof. solve_decision. Defined.
#[export] Instance MessageData_eq_dec : EqDecision MessageData. Proof. solve_decision. Defined.
#[export] Instance Message_eq_dec : EqDecision Message. Proof. solve_decision. Defined.
#[export] Instance Height_eq_dec : EqDecision Height. Proof. solve_decision. Defined.
#[export] Instance ShardHash_eq_dec : EqDecision ShardHash. Proof. solve_decision. Defined.
#[export] Instance ProtoVote_eq_dec : EqDecision ProtoVote. Proof. solve_decision. Defined.
#[export] Instance ProtoProposal_eq_dec : EqDecision ProtoProposal. Proof. solve_decision. Defined.
#[export] Instance ConfirmedVotes_eq_dec : EqDecision ConfirmedVotes. Proof. solve_decision. Defined.
#[export] Instance ShardHeader_eq_dec : EqDecision ShardHeader. Proof. solve_decision. Defined.
#[export] Instance ValidatorMessage_eq_dec : EqDecision ValidatorMessage. Proof. solve_decision. Defined.
#[export] Instance Transaction_eq_dec : EqDecision Transaction. Proof. solve_decision. Defined.
#[export] Instance ShardChunk_eq_dec : EqDecision ShardChunk. Proof. solve_decision. Defined.
#[export] Instance ProtoValidator_eq_dec : EqDecision ProtoValidator. Proof. solve_decision. Defined.
#[export] Instance BlockHeader_eq_dec : EqDecision BlockHeader. Proof. solve_decision. Defined.
#[export] Instance Block_eq_dec : EqDecision Block. Proof. solve_decision. Defined.
#[export] Instance ProposedValue_eq_dec : EqDecision ProposedValue. Proof. solve_decision. Defined.
#[export] Instance FullProposal_eq_dec : EqDecision FullProposal. Proof. solve_decision. Defined.
#[export] Instance ProtoConsensus_eq_dec : EqDecision ProtoConsensus. Proof. solve_decision. Defined.
#[export] Instance ConsensusMessage_eq_dec : EqDecision ConsensusMessage. Proof. solve_decision. Defined.
#[export] Instance ProtoRegisterValidator_eq_dec : EqDecision ProtoRegisterValidator. Proof. solve_decision. Defined.
#[export] Instance GossipPayload_eq_dec : EqDecision GossipPayload. Proof. solve_decision. Defined.
#[export] Instance GossipMessage_eq_dec : EqDecision GossipMessage. Proof. solve_decision. Defined.

(** A record is as countable as the tuple of its fields. *)
Ltac countable_as f g := apply (inj_countable' f g); by intros [].

#[export] Instance CastId_countable : Countable CastId.
Proof. countable_as (fun x => (cast_fid x, cast_hash x)) (fun '(a, b) => mkCastId a b). Defined.
#[export] Instance Parent_countable : Countable Parent.
Proof.
  countable_as (fun x => match x with ParentCastId c => inl c | ParentUrl u => inr u end)
    (fun x => match x with inl c => ParentCastId c | inr u => ParentUrl u end).
Defined.
#[export] Instance Embed_countable : Countable Embed.
Proof.
  countable_as (fun x => match x with EmbedCastId c => inl c | EmbedUrl u => inr u end)
    (fun x => match x with inl c => EmbedCastId c | inr u => EmbedUrl u end).
Defined.
#[export] Instance CastAddBody_countable : Countable CastAddBody.
Proof.
  countable_as (fun x => (embeds_deprecated x, mentions x, parent x, text x, mentions_positions x, embeds x, cast_type x))
    (fun '(a, b, c, d, e, f, g) => mkCastAddBody a b c d e f g).
Defined.
#[export] Instance CastRemoveBody_countable : Countable CastRemoveBody.
Proof. countable_as (fun x => target_hash x) mkCastRemoveBody. Defined.
#[export] Instance ReactionTarget_countable : Countable ReactionTarget.
Proof.
  countable_as (fun x => match x with TargetCastId c => inl c | TargetUrl u => inr u end)
    (fun x => match x with inl c => TargetCastId c | inr u => TargetUrl u end).
Defined.
#[export] Instance ReactionBody_countable : Countable ReactionBody.
Proof. countable_as (fun x => (reaction_type x, reaction_target x)) (fun '(a, b) => mkReactionBody a b). Defined.
#[export] Instance VerificationAdd_countable : Countable VerificationAddAddressBody.
Proof.
  countable_as (fun x => (vadd_address x, claim_signature x, block_hash x, verification_type x, v_chain_id x, vadd_protocol x))
    (fun '(a, b, c, d, e, f) => mkVerificationAddAddressBody a b c d e f).
Defined.
#[export] Instance VerificationRemove_countable : Countable VerificationRemoveBody.
Proof. countable_as (fun x => (vremove_address x, vremove_protocol x)) (fun '(a, b) => mkVerificationRemoveBody a b). Defined.
#[export] Instance UserDataBody_countable : Countable UserDataBody.
Proof. countable_as (fun x => (user_data_type x, user_data_value x)) (fun '(a, b) => mkUserDataBody a b). Defined.
#[export] Instance LinkBody_countable : Countable LinkBody.
Proof. countable_as (fun x => (link_type x, display_timestamp x, link_target x)) (fun '(a, b, c) => mkLinkBody a b c). Defined.
#[export] Instance LinkCompact_countable : Countable LinkCompactStateBody.
Proof. countable_as (fun x => (compact_type x, target_fids x)) (fun '(a, b) => mkLinkCompactStateBody a b). Defined.
#[export] Instance FrameAction_countable : Countable FrameActionBody.
Proof.
  countable_as (fun x => (frame_url x, button_index x, frame_cast_id x, input_text x, frame_state x, transaction_id x, frame_address x))
    (fun '(a, b, c, d, e, f, g) => mkFrameActionBody a b c d e f g).
Defined.
#[export] Instance UserNameProof_countable : Countable UserNameProof.
Proof.
  countable_as (fun x => (proof_timestamp x, proof_name x, proof_owner x, proof_signature x, proof_fid x, proof_type x))
    (fun '(a, b, c, d, e, f) => mkUserNameProof a b c d e f).
Defined.
#[export] Instance Body_countable : Countable Body.
Proof.
  countable_as (fun x => match x with
      | CastAddBody_ b => inl (inl (inl (inl b))) | CastRemoveBody_ b => inl (inl (inl (inr b)))
      | ReactionBody_ b => inl (inl (inr b)) | VerificationAddAddressBody_ b => inl (inr (inl b))
      | VerificationRemoveBody_ b => inl (inr (inr b)) | UserDataBody_ b => inr (inl (inl b))
      | LinkBody_ b => inr (inl (inr (inl b))) | UsernameProofBody_ b => inr (inl (inr (inr b)))
      | FrameActionBody_ b => inr (inr (inl b)) | LinkCompactStateBody_ b => inr (inr (inr b))
      end)
    (fun x => match x with
      | inl (inl (inl (inl b))) => CastAddBody_ b | inl (inl (inl (inr b))) => CastRemoveBody_ b
      | inl (inl (inr b)) => ReactionBody_ b | inl (inr (inl b)) => VerificationAddAddressBody_ b
      | inl (inr (inr b)) => VerificationRemoveBody_ b | inr (inl (inl b)) => UserDataBody_ b
      | inr (inl (inr (inl b))) => LinkBody_ b | inr (inl (inr (inr b))) => UsernameProofBody_ b
      | inr (inr (inl b)) => FrameActionBody_ b | inr (inr (inr b)) => LinkCompactStateBody_ b
      end).
Defined.
#[export] Instance MessageData_countable : Countable MessageData.
Proof.
  countable_as (fun x => (msg_type x, fid x, timestamp x, network x, body x))
    (fun '(a, b, c, d, e) => mkMessageData a b c d e).
Defined.
#[export] Instance Message_countable : Countable Message.
Proof.
  countable_as (fun x => (data x, msg_hash x, hash_scheme x, signature x, signature_scheme x, signer x, data_bytes x))
    (fun '(a, b, c, d, e, f, g) => mkMessage a b c d e f g).
Defined.
#[export] Instance Height_countable : Countable Height.
Proof. countable_as (fun x => (shard_index x, block_number x)) (fun '(a, b) => mkHeight a b). Defined.
#[export] Instance ShardHash_countable : Countable ShardHash.
Proof. countable_as (fun x => (sh_shard_index x, sh_hash x)) (fun '(a, b) => mkShardHash a b). Defined.
#[export] Instance ProtoVote_countable : Countable ProtoVote.
Proof.
  countable_as (fun x => (pv_type x, pv_height x, pv_round x, pv_value x, pv_voter x))
    (fun '(a, b, c, d, e) => mkProtoVote a b c d e).
Defined.
#[export] Instance ProtoProposal_countable : Countable ProtoProposal.
Proof.
  countable_as (fun x => (pp_height x, pp_round x, pp_pol_round x, pp_proposer x, pp_value x))
    (fun '(a, b, c, d, e) => mkProtoProposal a b c d e).
Defined.
#[export] Instance ConfirmedVotes_countable : Countable ConfirmedVotes.
Proof. countable_as (fun x => (votes x, signatures x)) (fun '(a, b) => mkConfirmedVotes a b). Defined.
#[export] Instance ShardHeader_countable : Countable ShardHeader.
Proof.
  countable_as (fun x => (shard_height x, shard_timestamp x, shard_parent_hash x, shard_root x))
    (fun '(a, b, c, d) => mkShardHeader a b c d).
Defined.
#[export] Instance ValidatorMessage_countable : Countable ValidatorMessage.
Proof. countable_as (fun x => (on_chain_event x, fname_transfer x)) (fun '(a, b) => mkValidatorMessage a b). Defined.
#[export] Instance Transaction_countable : Countable Transaction.
Proof.
  countable_as (fun x => (tx_fid x, user_messages x, system_messages x, account_root x))
    (fun '(a, b, c, d) => mkTransaction a b c d).
Defined.
#[export] Instance ShardChunk_countable : Countable ShardChunk.
Proof.
  countable_as (fun x => (chunk_header x, chunk_hash x, transactions x, chunk_votes x))
    (fun '(a, b, c, d) => mkShardChunk a b c d).
Defined.
#[export] Instance ProtoValidator_countable : Countable ProtoValidator.
Proof.
  countable_as (fun x => (pval_fid x, pval_signer x, pval_rpc_address x, pval_shard_index x, pval_current_height x))
    (fun '(a, b, c, d, e) => mkProtoValidator a b c d e).
Defined.
#[export] Instance BlockHeader_countable : Countable BlockHeader.
Proof.
  countable_as (fun x => (block_height x, block_timestamp x, version x, chain_id x, validators_hash x, shard_headers_hash x, block_parent_hash x))
    (fun '(a, b, c, d, e, f, g) => mkBlockHeader a b c d e f g).
Defined.
#[export] Instance Block_countable : Countable Block.
Proof.
  countable_as (fun x => (block_header x, block_hash_ x, shard_chunks x, validators_ x, block_votes x))
    (fun '(a, b, c, d, e) => mkBlock a b c d e).
Defined.
#[export] Instance ProposedValue_countable : Countable ProposedValue.
Proof.
  countable_as (fun x => match x with PV_Block b => inl b | PV_Shard c => inr c end)
    (fun x => match x with inl b => PV_Block b | inr c => PV_Shard c end).
Defined.
#[export] Instance FullProposal_countable : Countable FullProposal.
Proof.
  countable_as (fun x => (fp_height x, fp_round x, fp_proposer x, proposed_value x))
    (fun '(a, b, c, d) => mkFullProposal a b c d).
Defined.
#[export] Instance ProtoConsensus_countable : Countable ProtoConsensus.
Proof.
  countable_as (fun x => match x with PC_Vote v => inl v | PC_Proposal p => inr p end)
    (fun x => match x with inl v => PC_Vote v | inr p => PC_Proposal p end).
Defined.
#[export] Instance ConsensusMessage_countable : Countable ConsensusMessage.
Proof. countable_as (fun x => (cm_message x, cm_signature x)) (fun '(a, b) => mkConsensusMessage a b). Defined.
#[export] Instance ProtoRegisterValidator_countable : Countable ProtoRegisterValidator.
Proof. countable_as (fun x => (rv_validator x, rv_nonce x)) (fun '(a, b) => mkProtoRegisterValidator a b). Defined.
#[export] Instance GossipPayload_countable : Countable GossipPayload.
Proof.
  countable_as (fun x => match x with GP_Consensus m => inl m | GP_Validator v => inr (inl v) | GP_FullProposal p => inr (inr p) end)
    (fun x => match x with inl m => GP_Consensus m | inr (inl v) => GP_Validator v | inr (inr p) => GP_FullProposal p end).
Defined.
#[export] Instance GossipMessage_countable : Countable GossipMessage.
Proof. countable_as gm_message mkGossipMessage. Defined.
