(* ===== verification/FnameFetcher.v ===== *)
(** * The fetcher of names

    [src/connectors/fname/mod.rs]: polls a server for the transfers of names,
    from the last id it has seen on. The request and the parsing of its answer
    are third-party: the server is a function of the number of the request and
    its url. *)

From S2P Require Import Prelude Text.

(** [Config] *)
Record FnameConfig := mkFnameConfig { start_from : Z; stop_at : Z; url : string; disable : bool }.
Definition FnameConfig_default : FnameConfig := mkFnameConfig 0 200 "https://fnames.farcaster.xyz/transfers" false.

Record Transfer := mkTransfer {
  tr_id : Z;
  tr_timestamp : Z;
  tr_username : string;
  tr_owner : string;
  tr_from : Z;
  tr_to : Z;
  tr_user_signature : string;
  tr_server_signature : string;
}.

Inductive FetchError :=
| NonSequentialIds (position id : Z)
| NoNewIDs
| Stop
| Reqwest (e : string).

Record Fetcher := mkFetcher { position : Z; transfers : list Transfer; fetcher_cfg : FnameConfig }.

Definition Fetcher_new (cfg : FnameConfig) : Fetcher := mkFetcher (start_from cfg) [] cfg.

Section Fetcher.
Variable get : nat -> string -> result string (list Transfer).

Definition fetch_url (cfg : FnameConfig) (position : Z) : string := url cfg +:+ "?from_id=" +:+ print_uint position.

(** [for t in response.transfers] *)
Fixpoint take_transfers (ts : list Transfer) : ST Fetcher FetchError unit :=
  match ts with
  | [] => st_ret tt
  | t :: ts =>
      (let! s := st_get in
       if (tr_id t <=? position s)%Z then st_lift (Err (NonSequentialIds (position s) (tr_id t)))
       else if (stop_at (fetcher_cfg s) <? tr_id t)%Z then st_lift (Err Stop)
       else st_put (mkFetcher (tr_id t) (transfers s ++ [t]) (fetcher_cfg s)) ;;; take_transfers ts)%st
  end.

(** The loop of [fetch], from request [n] on. *)
Fixpoint fetch_loop (fuel n : nat) : ST Fetcher FetchError unit :=
  match fuel with
  | O => st_lift OutOfFuel
  | S fuel =>
      (let! s := st_get in
       let! response := st_lift (map_err Reqwest (get n (fetch_url (fetcher_cfg s) (position s)))) in
       match response with
       | [] => st_ret tt
       | _ => take_transfers response ;;; fetch_loop fuel (S n)
       end)%st
  end.

(** One request for every id up to the last, and two more, are enough. *)
Definition fetch_fuel (s : Fetcher) : nat := Z.to_nat (stop_at (fetcher_cfg s) - position s) + 2.

Definition fetch (n : nat) : ST Fetcher FetchError unit := fun s => fetch_loop (fetch_fuel s) n s.

(** The rounds of [run], given the numbers of their first requests: after
    [Stop] it returns, after any other outcome it sleeps and goes on. The
    boolean tells whether it returned. *)
Fixpoint fetcher_run (rounds : list nat) : ST Fetcher FetchError bool := fun s =>
  match rounds with
  | [] => (Ok false, s)
  | n :: rounds =>
      match fetch n s with
      | (Err Stop, s) => (Ok true, s)
      | (Ok _, s) | (Err _, s) => fetcher_run rounds s
      | (Panic, s) => (Panic, s)
      | (OutOfFuel, s) => (OutOfFuel, s)
      end
  end.

(** ** What a fetch keeps *)

Implicit Types (s : Fetcher) (ts : list Transfer).

(** Ids that increase from above a position. *)
Fixpoint increasing (pos : Z) ts : Prop :=
  match ts with [] => True | t :: ts => (pos < tr_id t)%Z /\ increasing (tr_id t) ts end.
Fixpoint last_id (pos : Z) ts : Z := match ts with [] => pos | t :: ts => last_id (tr_id t) ts end.

(** [s'] continues [s] with new transfers. *)
Definition continues s s' (new : list Transfer) : Prop :=
  transfers s' = transfers s ++ new /\ position s' = last_id (position s) new /\ fetcher_cfg s' = fetcher_cfg s /\
  increasing (position s) new /\ Forall (fun t => tr_id t <= stop_at (fetcher_cfg s))%Z new.

Lemma last_id_app pos ts ts' : last_id pos (ts ++ ts') = last_id (last_id pos ts) ts'.
Proof using Type. revert pos. induction ts as [|t ts IH]; intros pos; simpl; auto. Qed.

Lemma increasing_app pos ts ts' : increasing pos (ts ++ ts') <-> increasing pos ts /\ increasing (last_id pos ts) ts'.
Proof using Type. revert pos. induction ts as [|t ts IH]; intros pos; simpl; [tauto|]. rewrite IH. tauto. Qed.

Lemma continues_refl s : continues s s [].
Proof using Type. unfold continues. rewrite app_nil_r. simpl. auto. Qed.

Lemma continues_trans s1 s2 s3 a b : continues s1 s2 a -> continues s2 s3 b -> continues s1 s3 (a ++ b).
Proof using Type.
  intros (T1 & P1 & C1 & I1 & F1) (T2 & P2 & C2 & I2 & F2). unfold continues.
  rewrite T2, T1, P2, P1, C2, C1, app_assoc, last_id_app, increasing_app. rewrite P1 in I2. rewrite C1 in F2.
  split_and!; auto. by apply Forall_app.
Qed.

Lemma take_transfers_spec ts s :
  exists r s' new, take_transfers ts s = (r, s') /\ continues s s' new /\ (exists rest, ts = new ++ rest) /\
    ((r = Ok tt /\ new = ts) \/ (exists p i, r = Err (NonSequentialIds p i)) \/ r = Err Stop).
Proof using Type.
  revert s. induction ts as [|t ts IH]; intros s.
  { exists (Ok tt), s, []. split_and!; [done|apply continues_refl|by exists []|auto]. }
  cbn [take_transfers]. unfold st_bind at 1, st_get.
  destruct (Z.leb_spec (tr_id t) (position s)).
  { exists (Err (NonSequentialIds (position s) (tr_id t))), s, []. split_and!; [done|apply continues_refl|by exists (t :: ts)|eauto]. }
  destruct (Z.ltb_spec (stop_at (fetcher_cfg s)) (tr_id t)).
  { exists (Err Stop), s, []. split_and!; [done|apply continues_refl|by exists (t :: ts)|eauto]. }
  set (s1 := mkFetcher (tr_id t) (transfers s ++ [t]) (fetcher_cfg s)).
  assert (H1 : continues s s1 [t]) by (unfold continues; simpl; repeat constructor; lia).
  destruct (IH s1) as (r & s' & new & E & Hc & (rest & Hr) & Ho). exists r, s', (t :: new). split_and!.
  - exact E.
  - exact (continues_trans s s1 s' [t] new H1 Hc).
  - exists rest. by rewrite Hr.
  - destruct Ho as [[-> ->]|Ho]; auto.
Qed.

(** A fetch that asks again has advanced. *)
Lemma last_id_mono pos ts : increasing pos ts -> (pos <= last_id pos ts)%Z /\ (ts ≠ [] -> (pos < last_id pos ts)%Z).
Proof using Type.
  revert pos. induction ts as [|t ts IH]; intros pos; simpl; [split; [lia|done]|]. intros [Ht Hi]. destruct (IH _ Hi). split; intros; lia.
Qed.

Lemma last_id_bound pos ts stop : Forall (fun t => tr_id t <= stop)%Z ts -> (last_id pos ts <= Z.max pos stop)%Z.
Proof using Type.
  revert pos. induction ts as [|t ts IH]; intros pos; simpl; [lia|]. intros [Ht Hf]%Forall_cons. specialize (IH (tr_id t) Hf). lia.
Qed.

Context (get_total : forall n u, (exists l, get n u = Ok l) \/ (exists e, get n u = Err e)).

Lemma fetch_loop_spec fuel n s :
  (Z.max 0 (stop_at (fetcher_cfg s) - position s) < Z.of_nat fuel)%Z ->
  exists r s' new, fetch_loop fuel n s = (r, s') /\ continues s s' new /\
    (r = Ok tt \/ (exists p i, r = Err (NonSequentialIds p i)) \/ r = Err Stop \/ exists e, r = Err (Reqwest e)).
Proof using get_total.
  revert n s. induction fuel as [|fuel IH]; intros n s Hf; [simpl in Hf; lia|].
  cbn [fetch_loop]. unfold st_bind at 1, st_get, st_bind at 1, st_lift.
  destruct (get_total n (fetch_url (fetcher_cfg s) (position s))) as [[l El]|[e Ee]]; [rewrite El|rewrite Ee]; simpl map_err; cbv iota.
  2:{ exists (Err (Reqwest e)), s, []. split_and!; [done|apply continues_refl|eauto 6]. }
  destruct l as [|t l]; [exists (Ok tt), s, []; split_and!; [done|apply continues_refl|auto]|].
  destruct (take_transfers_spec (t :: l) s) as (r & s1 & new & E & Hc & _ & Ho).
  destruct Ho as [[-> ->]|Ho].
  - rewrite (st_bind_Ok _ _ _ _ _ E). pose proof Hc as (_ & Hp & Hcfg & Hi & Hb).
    destruct (last_id_mono _ _ Hi) as [_ Hm]. pose proof (last_id_bound (position s) _ _ Hb). specialize (Hm ltac:(done)).
    destruct (IH (S n) s1) as (r' & s' & new' & E' & Hc' & Ho'); [rewrite Hcfg, Hp; lia|].
    exists r', s', ((t :: l) ++ new'). split_and!; [exact E'|by eapply continues_trans|exact Ho'].
  - exists r, s1, new. split_and!; [|done|destruct Ho as [?|?]; auto].
    unfold st_bind. rewrite E. by destruct Ho as [(? & ? & ->)| ->].
Qed.

(** ** An honest server

    It has transfers with increasing ids, and answers a request from a
    position with some of those above it, in order, at least one if there is
    any. *)
Definition above (p : Z) (all : list Transfer) : list Transfer := filter (fun t => p < tr_id t)%Z all.
Definition honest (cfg : FnameConfig) (all : list Transfer) : Prop :=
  forall n p, (0 <= p < 2 ^ 64)%Z -> exists k, get n (fetch_url cfg p) = Ok (take (S k) (above p all)).

Lemma above_all pos p ts : increasing pos ts -> (p <= pos)%Z -> above p ts = ts.
Proof using Type.
  revert pos. induction ts as [|t ts IH]; intros pos; [done|]. cbn [increasing]. intros [Ht Hi] Hp. unfold above.
  rewrite filter_cons_True by lia. f_equal. apply (IH (tr_id t)); [done|lia].
Qed.

Lemma above_next pos p ts t rest : increasing pos ts -> above p ts = t :: rest -> above (tr_id t) ts = rest.
Proof using Type.
  revert pos. induction ts as [|t' ts IH]; intros pos; [done|]. cbn [increasing]. intros [Ht Hi]. unfold above. rewrite !filter_cons.
  case_decide as Hp; [|case_decide; intros E].
  - intros E. simplify_eq. rewrite decide_False by lia.
    etransitivity; [apply (above_all (tr_id t)); [done|lia]|symmetry; apply (above_all (tr_id t)); [done|lia]].
  - exfalso. assert (t ∈ above p ts) as [? ?]%list_elem_of_filter by (unfold above; rewrite E; left). lia.
  - by apply (IH (tr_id t')).
Qed.

Lemma above_advance pos p all new rest : increasing pos all -> above p all = new ++ rest -> above (last_id p new) all = rest.
Proof using Type. revert p. induction new as [|t new IH]; intros p Hi E; [done|]. simpl. apply IH; [done|]. by eapply above_next. Qed.

Lemma above_increasing pos p all : increasing pos all -> increasing p (above p all).
Proof using Type.
  revert pos. induction all as [|t all IH]; intros pos; [done|]. cbn [increasing]. intros [Ht Hi]. unfold above. rewrite filter_cons.
  case_decide; [|by eapply IH]. split; [done|]. fold (above p all). rewrite (above_all (tr_id t)) by (done || lia). done.
Qed.

Definition kept (stop : Z) ts : list Transfer := filter (fun t => tr_id t <= stop)%Z ts.
Definition verdict (stop : Z) ts : result FetchError unit :=
  if decide (Forall (fun t => tr_id t <= stop)%Z ts) then Ok tt else Err Stop.

Lemma kept_none pos stop ts : increasing pos ts -> (stop <= pos)%Z -> kept stop ts = [].
Proof using Type.
  revert pos. induction ts as [|t ts IH]; intros pos; [done|]. intros [Ht Hi] Hs. unfold kept.
  rewrite filter_cons_False by lia. apply (IH (tr_id t)); [done|lia].
Qed.

Lemma kept_all stop ts : Forall (fun t => tr_id t <= stop)%Z ts -> kept stop ts = ts.
Proof using Type. induction 1 as [|t ts Ht Hf IH]; [done|]. unfold kept in *. by rewrite filter_cons_True, IH. Qed.

Lemma take_increasing ts s :
  increasing (position s) ts ->
  exists s', take_transfers ts s = (verdict (stop_at (fetcher_cfg s)) ts, s') /\ continues s s' (kept (stop_at (fetcher_cfg s)) ts).
Proof using Type.
  revert s. induction ts as [|t ts IH]; intros s; [intros _; exists s; split; [done|apply continues_refl]|].
  intros [Ht Hi]. cbn [take_transfers]. unfold st_bind at 1, st_get.
  destruct (Z.leb_spec (tr_id t) (position s)); [lia|]. destruct (Z.ltb_spec (stop_at (fetcher_cfg s)) (tr_id t)) as [Hs|Hs].
  - exists s. unfold verdict, kept. rewrite decide_False by (rewrite Forall_cons; lia). rewrite filter_cons_False by lia.
    split; [done|]. fold (kept (stop_at (fetcher_cfg s)) ts). rewrite (kept_none (tr_id t)) by (done || lia). apply continues_refl.
  - set (s1 := mkFetcher (tr_id t) (transfers s ++ [t]) (fetcher_cfg s)).
    destruct (IH s1 Hi) as (s' & E & Hc). exists s'. unfold verdict, kept. rewrite filter_cons_True by done. split.
    + etransitivity; [exact E|]. f_equal. unfold verdict. apply decide_ext. rewrite Forall_cons. tauto.
    + apply (continues_trans s s1 s' [t]); [unfold continues; simpl; repeat constructor; lia|exact Hc].
Qed.

Lemma last_id_above pos stop ts : increasing pos ts -> ~ Forall (fun t => tr_id t <= stop)%Z ts -> (stop <= last_id pos ts)%Z.
Proof using Type.
  revert pos. induction ts as [|t ts IH]; intros pos; [by intros _ []|]. cbn [increasing last_id]. intros [Ht Hi] Hs.
  destruct (decide (tr_id t <= stop)%Z).
  - apply IH; [done|]. intros Hf. apply Hs. by constructor.
  - pose proof (proj1 (last_id_mono _ _ Hi)). lia.
Qed.

Lemma fetch_loop_honest all fuel n s pos :
  increasing pos all -> honest (fetcher_cfg s) all -> (0 <= position s < 2 ^ 64)%Z -> (stop_at (fetcher_cfg s) < 2 ^ 64)%Z ->
  (Z.max 0 (stop_at (fetcher_cfg s) - position s) < Z.of_nat fuel)%Z ->
  let rest := above (position s) all in
  exists s', fetch_loop fuel n s = (verdict (stop_at (fetcher_cfg s)) rest, s') /\ continues s s' (kept (stop_at (fetcher_cfg s)) rest).
Proof using Type.
  intros Hall. revert n s. induction fuel as [|fuel IH]; intros n s Hh H0 Hst0 Hf rest; [simpl in Hf; lia|].
  cbn [fetch_loop]. unfold st_bind at 1, st_get, st_bind at 1, st_lift. destruct (Hh n (position s) H0) as [k ->]. simpl map_err. cbv iota.
  fold rest. pose proof (above_increasing pos (position s) all Hall) as Hr. fold rest in Hr.
  destruct (take (S k) rest) as [|t l] eqn:Et.
  { assert (rest = []) as -> by (destruct rest; [done|discriminate Et]). exists s. split; [done|apply continues_refl]. }
  set (page := t :: l) in *. pose proof (take_drop (S k) rest) as Hs. rewrite Et in Hs. set (later := drop (S k) rest) in *.
  pose proof Hr as [Hpage Hlater]%(eq_ind_r (fun r => increasing (position s) r -> _) (proj1 (increasing_app _ page later)) (eq_sym Hs)).
  destruct (take_increasing page s Hpage) as (s1 & E1 & Hc1). unfold verdict in E1. case_decide as Hst.
  - rewrite (st_bind_Ok _ _ _ _ _ E1). rewrite (kept_all _ page Hst) in Hc1. pose proof Hc1 as (_ & Hp & Hcfg & _).
    pose proof (above_advance pos (position s) all page later Hall (eq_sym Hs)) as Hadv.
    destruct (last_id_mono _ _ Hpage) as [_ Hm]. pose proof (last_id_bound (position s) _ _ Hst). specialize (Hm ltac:(done)).
    destruct (IH (S n) s1) as (s' & E & Hc); [by rewrite Hcfg|rewrite Hp; lia|by rewrite Hcfg|rewrite Hcfg, Hp; lia|].
    rewrite Hp, Hcfg, Hadv in E, Hc. exists s'. rewrite E, <- Hs. unfold verdict, kept in *. rewrite filter_app. split.
    + f_equal. apply decide_ext. rewrite Forall_app. tauto.
    + fold (kept (stop_at (fetcher_cfg s)) page). rewrite (kept_all _ page Hst). by eapply continues_trans.
  - exists s1. unfold st_bind. rewrite E1. split.
    + unfold verdict. rewrite decide_False; [done|]. rewrite <- Hs, Forall_app. tauto.
    + rewrite <- Hs. unfold kept in *. rewrite filter_app. fold (kept (stop_at (fetcher_cfg s)) later).
      rewrite (kept_none (last_id (position s) page)); [by rewrite app_nil_r|done|by apply last_id_above].
Qed.

End Fetcher.

(** ** Samples *)
Definition transfer (i : Z) (name : string) : Transfer := mkTransfer i 1700000000 name "0xaa" 0 i "0x" "0x".
Definition sample_transfers : list Transfer := [transfer 3 "alice"; transfer 5 "bob"; transfer 9 "carol"; transfer 20 "dave"].
Definition sample_cfg (stop : Z) : FnameConfig := mkFnameConfig 0 stop "https://names/transfers" false.
(** A server that answers at most two transfers a request: it reads the
    position from the url. *)
Definition sample_get (n : nat) (u : string) : result string (list Transfer) :=
  match parse_uint 64 (String.substring (String.length "https://names/transfers?from_id=") (String.length u) u) with
  | Some p => Ok (take 2 (above p sample_transfers))
  | None => Err "bad request"
  end.

Example sample_fetch : (fetch sample_get 0 (Fetcher_new (sample_cfg 15))).1 = Err Stop.
Proof. vm_compute. reflexivity. Qed.

Lemma sample_get_honest stop n p :
  (0 <= p < 2 ^ 64)%Z -> sample_get n (fetch_url (sample_cfg stop) p) = Ok (take 2 (above p sample_transfers)).
Proof.
  intros Hp. unfold sample_get, fetch_url, sample_cfg. cbn [url].
  replace (String.substring _ _ _) with (print_uint p); [by rewrite parse_print_uint|]. symmetry.
  change ("https://names/transfers" +:+ "?from_id=" +:+ print_uint p) with ("https://names/transfers?from_id=" +:+ print_uint p).
  apply (substring_suffix "https://names/transfers?from_id=").
Qed.

(** ** Properties *)

(** C33. Whatever the server answers, a fetch ends, and keeps what it has: it
    returns after finitely many requests, with success, an error of the
    request, ids out of order or the stop; the transfers it adds have
    increasing ids above its position and not above the configured last id,
    and its position becomes the last of them. *)
Theorem fetch_ends (get : nat -> string -> result string (list Transfer)) (n : nat) (s : Fetcher)
    (Hget : forall n u, (exists l, get n u = Ok l) \/ (exists e, get n u = Err e)) :
  exists r s' new, fetch get n s = (r, s') /\ continues s s' new /\
    (r = Ok tt \/ (exists p i, r = Err (NonSequentialIds p i)) \/ r = Err Stop \/ exists e, r = Err (Reqwest e)).
Proof. apply (fetch_loop_spec get Hget). unfold fetch_fuel. lia. Qed.

Lemma fetch_ends_witness :
  exists r s' new, fetch sample_get 0 (Fetcher_new (sample_cfg 15)) = (r, s') /\ continues (Fetcher_new (sample_cfg 15)) s' new /\
    (r = Ok tt \/ (exists p i, r = Err (NonSequentialIds p i)) \/ r = Err Stop \/ exists e, r = Err (Reqwest e)).
Proof. apply (fetch_ends sample_get 0 (Fetcher_new (sample_cfg 15))). intros n u. unfold sample_get. case_match; eauto. Defined.

(** C32. From a server that gives the transfers above the requested position
    in pages of any size, one fetch gets every transfer above its position up
    to the configured last id, each once and in order, and reports the stop
    exactly when the server has transfers beyond that id. *)
Theorem fetch_complete (get : nat -> string -> result string (list Transfer)) (all : list Transfer) (pos : Z) (n : nat) (s : Fetcher)
    (Hall : increasing pos all) (Hget : honest get (fetcher_cfg s) all)
    (Hpos : (0 <= position s < 2 ^ 64)%Z) (Hstop : (stop_at (fetcher_cfg s) < 2 ^ 64)%Z) :
  exists s', fetch get n s = (verdict (stop_at (fetcher_cfg s)) (above (position s) all), s') /\
    transfers s' = transfers s ++ kept (stop_at (fetcher_cfg s)) (above (position s) all) /\
    position s' = last_id (position s) (kept (stop_at (fetcher_cfg s)) (above (position s) all)).
Proof.
  destruct (fetch_loop_honest get all (fetch_fuel s) n s pos Hall Hget Hpos Hstop) as (s' & E & Ht & Hp & _); [unfold fetch_fuel; lia|].
  by exists s'.
Qed.

Lemma fetch_complete_witness :
  exists s', fetch sample_get 0 (mkFetcher 4 [transfer 3 "alice"] (sample_cfg 15)) = (Err Stop, s') /\
    transfers s' = [transfer 3 "alice"; transfer 5 "bob"; transfer 9 "carol"] /\ position s' = 9%Z.
Proof.
  apply (fetch_complete sample_get sample_transfers 0 0 (mkFetcher 4 [transfer 3 "alice"] (sample_cfg 15))).
  - simpl. lia.
  - intros n p Hp. exists 1. by apply sample_get_honest.
  - simpl. lia.
  - reflexivity.
Defined.
