(* ===== verification/OnchainEvents.v ===== *)
(** * The subscriber to events of the chain

    [src/connectors/onchain_events/mod.rs]: reads the logs of three contracts
    and keeps their events by block. The client of the chain and the decoding
    of logs are third-party ([alloy]): the interface [Alloy]. *)

From S2P Require Import Prelude.

(** [Log] of [alloy]: a log of a contract. Addresses, hashes and byte strings
    are [bytes]; the integers of the contracts have 256 bits. *)
Record Log := mkLog {
  log_block_hash : option bytes;
  log_log_index : option Z;
  log_block_number : option Z;
  log_transaction_index : option Z;
  log_topics : list bytes;
  log_data : bytes;
}.
Definition topic0 (l : Log) : option bytes := head (log_topics l).

(** The events of the contracts, as the macro [sol!] generates them from the
    interfaces of the contracts, without the hashed key. *)
Record RentLog := mkRentLog { rent_payer : bytes; rent_fid : Z; rent_units : Z }.
Record RegisterLog := mkRegisterLog { register_to : bytes; register_id : Z; register_recovery : bytes }.
Record TransferLog := mkTransferLog { transfer_from : bytes; transfer_to : bytes; transfer_id : Z }.
Record RecoveryLog := mkRecoveryLog { recovery_id : Z; recovery_address_of : bytes }.
Record AddLog := mkAddLog { add_fid : Z; add_keytype : Z; add_keyBytes : bytes; add_metadatatype : Z; add_metadata : bytes }.
Record RemoveLog := mkRemoveLog { remove_fid : Z; remove_keyBytes : bytes }.
Record ResetLog := mkResetLog { reset_fid : Z; reset_keyBytes : bytes }.

(** The hash of each event's signature, the decoding of its logs, and the
    timestamp in the header of the block with a hash, asked for with the [n]th
    request. *)
Class Alloy := {
  Rent_hash : bytes; decode_Rent : Log -> result string RentLog;
  Register_hash : bytes; decode_Register : Log -> result string RegisterLog;
  Transfer_hash : bytes; decode_Transfer : Log -> result string TransferLog;
  Recovery_hash : bytes; decode_Recovery : Log -> result string RecoveryLog;
  Add_hash : bytes; decode_Add : Log -> result string AddLog;
  Remove_hash : bytes; decode_Remove : Log -> result string RemoveLog;
  Reset_hash : bytes; decode_Reset : Log -> result string ResetLog;
  Migrated_hash : bytes; decode_Migrated : Log -> result string Z;
  get_block_by_hash : nat -> bytes -> result string (option Z);
}.

(** A call returns a value or an error. *)
Definition returns {E A} (r : result E A) : Prop := (exists a, r = Ok a) \/ (exists e, r = Err e).

Class AlloyLaws `{Alloy} : Prop := {
  hashes_distinct : NoDup [Rent_hash; Register_hash; Transfer_hash; Recovery_hash; Add_hash; Remove_hash; Reset_hash; Migrated_hash];
  decodings_return (l : Log) :
    returns (decode_Rent l) /\ returns (decode_Register l) /\ returns (decode_Transfer l) /\ returns (decode_Recovery l) /\
    returns (decode_Add l) /\ returns (decode_Remove l) /\ returns (decode_Reset l) /\ returns (decode_Migrated l);
  block_returns (n : nat) (h : bytes) : returns (get_block_by_hash n h);
}.

Definition CHAIN_ID : Z := 10.
Definition RENT_EXPIRY_IN_SECONDS : Z := 365 * 24 * 60 * 60.

(** [Config] *)
Record OnchainConfig := mkOnchainConfig { rpc_url : string }.
Definition OnchainConfig_default : OnchainConfig := mkOnchainConfig "".

Inductive SubscribeError :=
| UnableToSubscribe (e : string)
| UnableToParseUrl (e : string)
| UnableToParseLog (e : string)
| EmptyRpcUrl
| LogMissingBlockHash
| LogMissingLogIndex
| LogMissingBlockNumber
| LogMissingTxIndex
| UnableToFindBlockByHash.

Inductive SignerEvent :=
| SignerAdd (key : bytes) (key_type : Z) (metadata : bytes) (metadata_type : Z)
| SignerRemove (key : bytes)
| SignerAdminReset (key : bytes).

Inductive IdRegisterEvent :=
| IdRegister_Register (to recovery_address : bytes)
| IdRegister_Transfer (from to : bytes)
| IdRegister_ChangeRecovery (recovery_address : bytes).

Record StorageRentEvent := mkStorageRentEvent { payer : bytes; units : Z; expiry : Z }.

Inductive EventType :=
| EventSigner (e : SignerEvent)
| EventSignerMigrated (migrated_at : Z)
| EventIdRegister (e : IdRegisterEvent)
| EventStorageRent (e : StorageRentEvent).

Record Event := mkEvent {
  ev_chain_id : Z;
  ev_block_number : Z;
  ev_block_hash : bytes;
  ev_block_timestamp : Z;
  ev_log_index : Z;
  ev_fid : Z;
  ev_tx_index : Z;
  ev_version : Z;
  ev_event_type : EventType;
}.

(** [Subscriber], without its client *)
Record Subscriber := mkSubscriber { onchain_events_by_block : gmap Z (list Event) }.

(** [Subscriber::new]; [parse_url] is the parser of urls. *)
Definition Subscriber_new (parse_url : string -> result string unit) (config : OnchainConfig) : result SubscribeError Subscriber :=
  if decide (rpc_url config = ""%string) then Err EmptyRpcUrl
  else match map_err UnableToParseUrl (parse_url (rpc_url config)) with
       | Ok _ => Ok (mkSubscriber ∅)
       | Err e => Err e
       | Panic => Panic
       | OutOfFuel => OutOfFuel
       end.

Definition add_onchain_event {E} (fid block_number : Z) (block_hash : bytes) (block_timestamp log_index tx_index : Z) (event_type : EventType) :
    ST Subscriber E unit := fun s =>
  let event := mkEvent CHAIN_ID block_number block_hash block_timestamp log_index fid tx_index 0 event_type in
  match onchain_events_by_block s !! block_number with
  | None => (Ok tt, mkSubscriber (<[block_number := [event]]> (onchain_events_by_block s)))
  | Some events => (Ok tt, mkSubscriber (<[block_number := events ++ [event]]> (onchain_events_by_block s)))
  end.

(** [Uint::to::<u64>]: panics on values that do not fit. *)
Definition uint_to_u64 {E} (x : Z) : result E Z := if (x <? 2 ^ 64)%Z then Ok x else Panic.

Section Subscriber.
Context `{AL : Alloy}.

Definition get_block_timestamp (n : nat) (block_hash : bytes) : result SubscribeError Z :=
  match map_err UnableToSubscribe (get_block_by_hash n block_hash) with
  | Ok block => ok_or block UnableToFindBlockByHash
  | Err e => Err e
  | Panic => Panic
  | OutOfFuel => OutOfFuel
  end.

(** [log_decode()?] *)
Definition log_decode {A} (r : result string A) : ST Subscriber SubscribeError A := st_lift (map_err UnableToParseLog r).

(** [process_log], with the [n]th request for a block *)
Definition process_log (n : nat) (event : Log) : ST Subscriber SubscribeError unit :=
  (let! block_hash := st_lift (ok_or (log_block_hash event) LogMissingBlockHash) in
   let! log_index := st_lift (ok_or (log_log_index event) LogMissingLogIndex) in
   let! block_number := st_lift (ok_or (log_block_number event) LogMissingBlockNumber) in
   let! tx_index := st_lift (ok_or (log_transaction_index event) LogMissingTxIndex) in
   let! block_timestamp := st_lift (get_block_timestamp n block_hash) in
   let add_event fid event_type := add_onchain_event fid block_number block_hash block_timestamp log_index tx_index event_type in
   if decide (topic0 event = Some Rent_hash) then
     let! r := log_decode (decode_Rent event) in
     let! fid := st_lift (uint_to_u64 (rent_fid r)) in
     let! units := st_lift (uint_to_u64 (rent_units r)) in
     let! expiry := st_lift (add_u 64 block_timestamp RENT_EXPIRY_IN_SECONDS) in
     add_event fid (EventStorageRent (mkStorageRentEvent (rent_payer r) units expiry))
   else if decide (topic0 event = Some Register_hash) then
     let! r := log_decode (decode_Register event) in
     let! fid := st_lift (uint_to_u64 (register_id r)) in
     add_event fid (EventIdRegister (IdRegister_Register (register_to r) (register_recovery r)))
   else if decide (topic0 event = Some Transfer_hash) then
     let! r := log_decode (decode_Transfer event) in
     let! fid := st_lift (uint_to_u64 (transfer_id r)) in
     add_event fid (EventIdRegister (IdRegister_Transfer (transfer_from r) (transfer_to r)))
   else if decide (topic0 event = Some Recovery_hash) then
     let! r := log_decode (decode_Recovery event) in
     let! fid := st_lift (uint_to_u64 (recovery_id r)) in
     add_event fid (EventIdRegister (IdRegister_ChangeRecovery (recovery_address_of r)))
   else if decide (topic0 event = Some Add_hash) then
     let! r := log_decode (decode_Add event) in
     let! fid := st_lift (uint_to_u64 (add_fid r)) in
     add_event fid (EventSigner (SignerAdd (add_keyBytes r) (add_keytype r) (add_metadata r) (add_metadatatype r)))
   else if decide (topic0 event = Some Remove_hash) then
     let! r := log_decode (decode_Remove event) in
     let! fid := st_lift (uint_to_u64 (remove_fid r)) in
     add_event fid (EventSigner (SignerRemove (remove_keyBytes r)))
   else if decide (topic0 event = Some Reset_hash) then
     let! r := log_decode (decode_Reset event) in
     let! fid := st_lift (uint_to_u64 (reset_fid r)) in
     add_event fid (EventSigner (SignerAdminReset (reset_keyBytes r)))
   else if decide (topic0 event = Some Migrated_hash) then
     let! keysMigratedAt := log_decode (decode_Migrated event) in
     let! migrated_at := st_lift (uint_to_u64 keysMigratedAt) in
     add_event 0%Z (EventSignerMigrated migrated_at)
   else st_ret tt)%st.

(** [for event in events]: an error of one log is reported, and the next log
    is processed. The logs are numbered from [n] on. *)
Fixpoint process_logs (n : nat) (events : list Log) : ST Subscriber SubscribeError unit := fun s =>
  match events with
  | [] => (Ok tt, s)
  | event :: events =>
      match process_log n event s with
      | (Ok _, s) | (Err _, s) => process_logs (S n) events s
      | (Panic, s) => (Panic, s)
      | (OutOfFuel, s) => (OutOfFuel, s)
      end
  end.

(** The batches of the stream, until it ends *)
Fixpoint process_stream (n : nat) (stream : list (list Log)) : ST Subscriber SubscribeError unit :=
  match stream with
  | [] => st_ret tt
  | events :: stream => (process_logs n events ;;; process_stream (n + length events) stream)%st
  end.

(** [run]; [watch] is the stream [watch_logs] gives. *)
Definition subscriber_run (watch : result string (list (list Log))) : ST Subscriber SubscribeError unit :=
  (let! stream := st_lift (map_err UnableToSubscribe watch) in process_stream 0 stream)%st.

(** ** What a log says *)

(** The user and the event that a log of a block with timestamp [ts]
    describes. *)
Inductive describes (l : Log) (ts : Z) : Z -> EventType -> Prop :=
| describes_rent r : topic0 l = Some Rent_hash -> decode_Rent l = Ok r ->
    describes l ts (rent_fid r) (EventStorageRent (mkStorageRentEvent (rent_payer r) (rent_units r) (ts + RENT_EXPIRY_IN_SECONDS)))
| describes_register r : topic0 l = Some Register_hash -> decode_Register l = Ok r ->
    describes l ts (register_id r) (EventIdRegister (IdRegister_Register (register_to r) (register_recovery r)))
| describes_transfer r : topic0 l = Some Transfer_hash -> decode_Transfer l = Ok r ->
    describes l ts (transfer_id r) (EventIdRegister (IdRegister_Transfer (transfer_from r) (transfer_to r)))
| describes_recovery r : topic0 l = Some Recovery_hash -> decode_Recovery l = Ok r ->
    describes l ts (recovery_id r) (EventIdRegister (IdRegister_ChangeRecovery (recovery_address_of r)))
| describes_add r : topic0 l = Some Add_hash -> decode_Add l = Ok r ->
    describes l ts (add_fid r) (EventSigner (SignerAdd (add_keyBytes r) (add_keytype r) (add_metadata r) (add_metadatatype r)))
| describes_remove r : topic0 l = Some Remove_hash -> decode_Remove l = Ok r ->
    describes l ts (remove_fid r) (EventSigner (SignerRemove (remove_keyBytes r)))
| describes_reset r : topic0 l = Some Reset_hash -> decode_Reset l = Ok r ->
    describes l ts (reset_fid r) (EventSigner (SignerAdminReset (reset_keyBytes r)))
| describes_migrated at_ : topic0 l = Some Migrated_hash -> decode_Migrated l = Ok at_ ->
    describes l ts 0 (EventSignerMigrated at_).

(** The event of a log: it is complete, and its block is found. *)
Definition reads (n : nat) (l : Log) (e : Event) : Prop :=
  log_block_hash l = Some (ev_block_hash e) /\ log_log_index l = Some (ev_log_index e) /\
  log_block_number l = Some (ev_block_number e) /\ log_transaction_index l = Some (ev_tx_index e) /\
  get_block_by_hash n (ev_block_hash e) = Ok (Some (ev_block_timestamp e)) /\
  describes l (ev_block_timestamp e) (ev_fid e) (ev_event_type e) /\ ev_chain_id e = CHAIN_ID /\ ev_version e = 0%Z.

(** The integers of an event have 64 bits. *)
Definition event_fits (e : Event) : Prop :=
  (ev_fid e < 2 ^ 64)%Z /\
  match ev_event_type e with
  | EventStorageRent r => (units r < 2 ^ 64)%Z /\ (expiry r < 2 ^ 64)%Z
  | EventSignerMigrated m => (m < 2 ^ 64)%Z
  | _ => True
  end.

#[export] Instance event_fits_dec e : Decision (event_fits e).
Proof. unfold event_fits. apply and_dec; [apply _|]. destruct (ev_event_type e); apply _. Defined.

(** The state with one more event of a block, and the events of a block *)
Definition block_events (s : Subscriber) (b : Z) : list Event := default [] (onchain_events_by_block s !! b).
Definition with_event (s : Subscriber) (e : Event) : Subscriber :=
  mkSubscriber (<[ev_block_number e := block_events s (ev_block_number e) ++ [e]]> (onchain_events_by_block s)).

Lemma add_onchain_event_eq {E} fid bn bh ts li ti et s :
  add_onchain_event (E := E) fid bn bh ts li ti et s = (Ok tt, with_event s (mkEvent CHAIN_ID bn bh ts li fid ti 0 et)).
Proof using Type. unfold add_onchain_event, with_event, block_events. simpl. by destruct (onchain_events_by_block s !! bn). Qed.

Lemma uint_to_u64_fits {E} x : (x < 2 ^ 64)%Z -> uint_to_u64 (E := E) x = Ok x.
Proof using Type. unfold uint_to_u64. by intros ->%Z.ltb_lt. Qed.

Lemma add_u_fits {E} w a b : (a + b < 2 ^ w)%Z -> add_u (E := E) w a b = Ok (a + b)%Z.
Proof using Type. unfold add_u. by intros ->%Z.ltb_lt. Qed.

Lemma block_events_with s e b :
  block_events (with_event s e) b = block_events s b ++ (if decide (ev_block_number e = b) then [e] else []).
Proof using Type.
  unfold with_event, block_events. simpl. case_decide as Hb.
  - subst b. by rewrite lookup_insert_eq.
  - by rewrite lookup_insert_ne, app_nil_r.
Qed.

Context {LAWS : AlloyLaws}.

(** The arm of a log's signature, given which it is *)
Ltac take_arm Ht :=
  let Hn := fresh in pose proof hashes_distinct as Hn; rewrite !NoDup_cons, !not_elem_of_cons in Hn; destruct_and? Hn;
  repeat (rewrite decide_False by (rewrite Ht; congruence)); rewrite decide_True by exact Ht.

Lemma process_log_reads n l e s : reads n l e -> event_fits e -> process_log n l s = (Ok tt, with_event s e).
Proof using LAWS.
  destruct e as [chain bn bh ts li fid ti ver et]. unfold reads, event_fits. simpl.
  intros (Hbh & Hli & Hbn & Hti & Hts & Hd & -> & ->) [Hfid Hfit].
  unfold process_log, get_block_timestamp. rewrite Hbh, Hli, Hbn, Hti. unfold st_bind, st_lift, log_decode. simpl. rewrite Hts. simpl.
  inversion Hd as [r Ht Hr|r Ht Hr|r Ht Hr|r Ht Hr|r Ht Hr|r Ht Hr|r Ht Hr|r Ht Hr]; subst; take_arm Ht;
    rewrite Hr; simpl in *; rewrite uint_to_u64_fits by lia; try (rewrite uint_to_u64_fits by lia; rewrite add_u_fits by lia);
    apply add_onchain_event_eq.
Qed.

Lemma process_log_silent n l s :
  (forall e, ~ reads n l e) -> process_log n l s = (Ok tt, s) \/ exists x, process_log n l s = (Err x, s).
Proof using LAWS.
  intros Hno. unfold process_log, st_bind, st_lift, log_decode.
  destruct (log_block_hash l) as [bh|] eqn:Hbh; simpl; [|eauto].
  destruct (log_log_index l) as [li|] eqn:Hli; simpl; [|eauto].
  destruct (log_block_number l) as [bn|] eqn:Hbn; simpl; [|eauto].
  destruct (log_transaction_index l) as [ti|] eqn:Hti; simpl; [|eauto].
  unfold get_block_timestamp. destruct (block_returns n bh) as [[[ts|] Hts]|[x Hts]]; rewrite Hts; simpl; [|eauto..].
  assert (Hnone : forall fid et, ~ describes l ts fid et).
  { intros fid et Hdes. by apply (Hno (mkEvent CHAIN_ID bn bh ts li fid ti 0 et)). }
  destruct (decodings_return l) as (D1 & D2 & D3 & D4 & D5 & D6 & D7 & D8).
  repeat case_decide; try (by left);
    match goal with Ht : topic0 l = Some ?h |- context [map_err UnableToParseLog ?d] =>
      match goal with D : returns d |- _ =>
        destruct D as [[? Hr]|[? Hr]]; [exfalso; eapply Hnone; econstructor; eassumption|rewrite Hr; simpl; eauto]
      end
    end.
Qed.

(** ** Runs *)

(** [out] are the events of the logs that have one, numbered from [n]. *)
Inductive events_of : nat -> list Log -> list Event -> Prop :=
| events_nil n : events_of n [] []
| events_some n l ls e out : reads n l e -> events_of (S n) ls out -> events_of n (l :: ls) (e :: out)
| events_none n l ls out : (forall e, ~ reads n l e) -> events_of (S n) ls out -> events_of n (l :: ls) out.

Lemma process_logs_groups n ls out s :
  events_of n ls out -> Forall event_fits out ->
  exists s', process_logs n ls s = (Ok tt, s') /\
    forall b, block_events s' b = block_events s b ++ filter (fun e => ev_block_number e = b) out.
Proof using LAWS.
  intros Ho. revert s. induction Ho as [n|n l ls e out Hr Ho IH|n l ls out Hno Ho IH]; intros s Hf.
  - exists s. split; [done|]. intros b. by rewrite app_nil_r.
  - apply Forall_cons in Hf as [He Hf]. cbn [process_logs]. rewrite (process_log_reads n l e s Hr He).
    destruct (IH (with_event s e) Hf) as (s' & E & Hb). exists s'. split; [done|]. intros b.
    rewrite Hb, block_events_with, <- app_assoc, filter_cons. by case_decide.
  - cbn [process_logs]. destruct (process_log_silent n l s Hno) as [-> | [x ->]]; by apply IH.
Qed.

Lemma process_logs_app n ls ls' s :
  process_logs n (ls ++ ls') s = (process_logs n ls ;;; process_logs (n + length ls) ls')%st s.
Proof using Type.
  revert n s. induction ls as [|l ls IH]; intros n s; unfold st_bind; cbn [process_logs app length]; [by rewrite Nat.add_0_r|].
  rewrite Nat.add_succ_r. destruct (process_log n l s) as [[a|x| |] s1]; try done; apply (IH (S n) s1).
Qed.

(** The batches of the stream make no difference. *)
Lemma process_stream_concat n stream s : process_stream n stream s = process_logs n (concat stream) s.
Proof using Type.
  revert n s. induction stream as [|ls stream IH]; intros n s; [done|]. cbn [process_stream concat]. rewrite process_logs_app.
  unfold st_bind. destruct (process_logs n ls s) as [[a|x| |] s1]; done.
Qed.

Lemma describes_or l ts : (exists fid et, describes l ts fid et) \/ (forall fid et, ~ describes l ts fid et).
Proof using LAWS.
  pose proof hashes_distinct as Hn. rewrite !NoDup_cons, !not_elem_of_cons in Hn. destruct_and? Hn.
  destruct (decodings_return l) as (D1 & D2 & D3 & D4 & D5 & D6 & D7 & D8).
  destruct (topic0 l) as [h|] eqn:Ht; [|right; inversion 1; congruence].
  let decided D H := (destruct D as [[? Hr]|[? Hr]]; [left; do 2 eexists; econstructor; [rewrite Ht, H; reflexivity|eassumption]|right; inversion 1; congruence]) in
  (destruct (decide (h = Rent_hash)) as [Heq1|?]; [decided D1 Heq1|]; destruct (decide (h = Register_hash)) as [Heq2|?]; [decided D2 Heq2|];
   destruct (decide (h = Transfer_hash)) as [Heq3|?]; [decided D3 Heq3|]; destruct (decide (h = Recovery_hash)) as [Heq4|?]; [decided D4 Heq4|];
   destruct (decide (h = Add_hash)) as [Heq5|?]; [decided D5 Heq5|]; destruct (decide (h = Remove_hash)) as [Heq6|?]; [decided D6 Heq6|];
   destruct (decide (h = Reset_hash)) as [Heq7|?]; [decided D7 Heq7|]; destruct (decide (h = Migrated_hash)) as [Heq8|?]; [decided D8 Heq8|]).
  right. inversion 1; congruence.
Qed.

Lemma reads_or n l : (exists e, reads n l e) \/ (forall e, ~ reads n l e).
Proof using LAWS.
  unfold reads.
  destruct (log_block_hash l) as [bh|]; [|right; naive_solver]. destruct (log_log_index l) as [li|]; [|right; naive_solver].
  destruct (log_block_number l) as [bn|]; [|right; naive_solver]. destruct (log_transaction_index l) as [ti|]; [|right; naive_solver].
  destruct (block_returns n bh) as [[[ts|] Hts]|[x Hts]]; [|right; naive_solver congruence..].
  destruct (describes_or l ts) as [(fid & et & Hd)|Hd]; [left|right].
  - by exists (mkEvent CHAIN_ID bn bh ts li fid ti 0 et).
  - intros e (E & _ & _ & _ & Ets & Hde & _). simplify_eq. rewrite Hts in Ets. simplify_eq. by apply (Hd (ev_fid e) (ev_event_type e)).
Qed.

Lemma events_of_total n ls : exists out, events_of n ls out.
Proof using LAWS.
  revert n. induction ls as [|l ls IH]; intros n; [exists []; constructor|]. destruct (IH (S n)) as [out Ho].
  destruct (reads_or n l) as [[e He]|Hno]; [exists (e :: out)|exists out]; by constructor.
Qed.

(** ** Integers that do not fit *)

Lemma uint_to_u64_over {E} x : ~ (x < 2 ^ 64)%Z -> uint_to_u64 (E := E) x = Panic.
Proof using Type. unfold uint_to_u64. by destruct (Z.ltb_spec x (2 ^ 64)). Qed.

Lemma add_u_over {E} w a b : ~ (a + b < 2 ^ w)%Z -> add_u (E := E) w a b = Panic.
Proof using Type. unfold add_u. by destruct (Z.ltb_spec (a + b) (2 ^ w)). Qed.

Lemma process_log_overflow n l e s : reads n l e -> ~ event_fits e -> process_log n l s = (Panic, s).
Proof using LAWS.
  destruct e as [chain bn bh ts li fid ti ver et]. unfold reads, event_fits. simpl.
  intros (Hbh & Hli & Hbn & Hti & Hts & Hd & -> & ->) Hfit.
  unfold process_log, get_block_timestamp. rewrite Hbh, Hli, Hbn, Hti. unfold st_bind, st_lift, log_decode. simpl. rewrite Hts. simpl.
  inversion Hd as [r Ht Hr|r Ht Hr|r Ht Hr|r Ht Hr|r Ht Hr|r Ht Hr|r Ht Hr|r Ht Hr]; subst; take_arm Ht; rewrite Hr; simpl in *;
    try (rewrite uint_to_u64_over by (intros ?; apply Hfit; by split); done).
  destruct (decide (rent_fid r < 2 ^ 64)%Z) as [Hfid|?]; [rewrite (uint_to_u64_fits _ Hfid)|by rewrite uint_to_u64_over].
  destruct (decide (rent_units r < 2 ^ 64)%Z) as [Hunits|?]; [rewrite (uint_to_u64_fits _ Hunits)|by rewrite uint_to_u64_over].
  by rewrite add_u_over by tauto.
Qed.

(** The logs up to the first whose event does not fit *)
Lemma process_logs_run n ls s :
  exists done_ out r s', process_logs n ls s = (r, s') /\ events_of n done_ out /\ Forall event_fits out /\
    (forall b, block_events s' b = block_events s b ++ filter (fun e => ev_block_number e = b) out) /\
    ((r = Ok tt /\ done_ = ls) \/
     (r = Panic /\ exists l rest e, ls = done_ ++ l :: rest /\ reads (n + length done_) l e /\ ~ event_fits e)).
Proof using LAWS.
  revert n s. induction ls as [|l ls IH]; intros n s.
  { exists [], [], (Ok tt), s. split_and!; try done; [constructor|intros b; by rewrite app_nil_r|by left]. }
  destruct (reads_or n l) as [[e He]|Hno]; [destruct (decide (event_fits e)) as [Hf|Hf]|].
  - cbn [process_logs]. rewrite (process_log_reads n l e s He Hf).
    destruct (IH (S n) (with_event s e)) as (done_ & out & r & s' & E & Ho & Hfits & Hb & Hend).
    exists (l :: done_), (e :: out), r, s'. split_and!; [exact E|by constructor|by constructor| |].
    + intros b. rewrite Hb, block_events_with, <- app_assoc, filter_cons. by case_decide.
    + destruct Hend as [[-> ->]|[-> (l' & rest & e' & -> & Hr & Hn)]]; [by left|right]. split; [done|].
      exists l', rest, e'. simpl. by rewrite Nat.add_succ_r.
  - exists [], [], Panic, s. cbn [process_logs]. rewrite (process_log_overflow n l e s He Hf).
    split_and!; try done; [constructor|intros b; by rewrite app_nil_r|]. right. split; [done|]. exists l, ls, e. simpl. by rewrite Nat.add_0_r.
  - destruct (IH (S n) s) as (done_ & out & r & s' & E & Ho & Hfits & Hb & Hend). exists (l :: done_), out, r, s'.
    split_and!; [|by constructor|done|done|].
    + cbn [process_logs]. by destruct (process_log_silent n l s Hno) as [-> | [x ->]].
    + destruct Hend as [[-> ->]|[-> (l' & rest & e' & -> & Hr & Hn)]]; [by left|right]. split; [done|].
      exists l', rest, e'. simpl. by rewrite Nat.add_succ_r.
Qed.

End Subscriber.

(** ** Samples *)
Module OnchainSample.

(** A log's data are its fields. *)
Definition fields2 {A} (f : Z -> bytes -> A) (l : Log) : result string A :=
  match log_data l with x :: k => Ok (f x k) | _ => Err "malformed" end.

#[export] Instance sample_alloy : Alloy := {|
  Rent_hash := [1]; decode_Rent l := match log_data l with [p; f; u] => Ok (mkRentLog [p] f u) | _ => Err "malformed" end;
  Register_hash := [2]; decode_Register := fields2 (fun i k => mkRegisterLog k i []);
  Transfer_hash := [3]; decode_Transfer := fields2 (fun i k => mkTransferLog k [] i);
  Recovery_hash := [4]; decode_Recovery := fields2 mkRecoveryLog;
  Add_hash := [5]; decode_Add := fields2 (fun i k => mkAddLog i 1 k 1 []);
  Remove_hash := [6]; decode_Remove := fields2 mkRemoveLog;
  Reset_hash := [7]; decode_Reset := fields2 mkResetLog;
  Migrated_hash := [8]; decode_Migrated := fields2 (fun x _ => x);
  get_block_by_hash n h := if decide (h = []) then Ok None else Ok (Some 1700000000);
|}%Z.

#[export] Instance sample_alloy_laws : AlloyLaws.
Proof.
  split.
  - decide_now.
  - intros l. unfold returns. simpl. unfold fields2. destruct (log_data l) as [|x [|y [|z [|? ?]]]]; simpl; split_and!; eauto.
  - intros n h. unfold returns. simpl. case_decide; eauto.
Qed.

Definition log (bn : Z) (topic data : bytes) : Log := mkLog (Some [bn]) (Some 0%Z) (Some bn) (Some 0%Z) [topic] data.
(** A rent, a registration in the next block, a log without a block, and one
    more event of the first block. *)
Definition sample_stream : list (list Log) :=
  [[log 7 [1] [170; 42; 2]; log 8 [2] [43; 9; 9]]; [mkLog None None None None [[1]] []; log 7 [5] [42; 5; 5]]]%Z.

Definition sample_events : list Event :=
  [mkEvent 10 7 [7] 1700000000 0 42 0 0 (EventStorageRent (mkStorageRentEvent [170] 2 1731536000));
   mkEvent 10 8 [8] 1700000000 0 43 0 0 (EventIdRegister (IdRegister_Register [9; 9] []));
   mkEvent 10 7 [7] 1700000000 0 42 0 0 (EventSigner (SignerAdd [5; 5] 1 [] 1))]%Z.

Example sample_run : map (fun b => length (block_events (subscriber_run (Ok sample_stream) (mkSubscriber ∅)).2 b)) [7; 8]%Z = [2; 1]%nat.
Proof. vm_compute. reflexivity. Qed.

End OnchainSample.

(** ** Properties *)

(** C30. The subscriber keeps exactly the events of the logs it is given, by
    block and in the order of their arrival: a log that is complete, of a
    block the chain knows and of one of the eight events of the contracts adds
    the event it describes to its block, with a rent expiring a year after the
    block; every other log, wrong or of another event, adds nothing and does
    not end the run. The integers of the events must have 64 bits, otherwise
    the conversion panics. *)
Theorem subscriber_groups_events `{AlloyLaws} (stream : list (list Log)) (s : Subscriber) (out : list Event)
    (Hout : events_of 0 (concat stream) out) (Hfits : Forall event_fits out) :
  exists s', subscriber_run (Ok stream) s = (Ok tt, s') /\
    forall b, block_events s' b = block_events s b ++ filter (fun e => ev_block_number e = b) out.
Proof.
  destruct (process_logs_groups 0 _ _ s Hout Hfits) as (s' & E & Hb). exists s'. split; [|exact Hb].
  unfold subscriber_run, st_bind at 1, st_lift. simpl. by rewrite process_stream_concat.
Qed.

Lemma subscriber_groups_events_witness :
  exists s', subscriber_run (AL := OnchainSample.sample_alloy) (Ok OnchainSample.sample_stream) (mkSubscriber ∅) = (Ok tt, s') /\
    forall b, block_events s' b = block_events (mkSubscriber ∅) b ++ filter (fun e => ev_block_number e = b) OnchainSample.sample_events.
Proof.
  apply (@subscriber_groups_events OnchainSample.sample_alloy OnchainSample.sample_alloy_laws OnchainSample.sample_stream (mkSubscriber ∅) OnchainSample.sample_events).
  - simpl. apply events_some; [repeat (split; [reflexivity|]); split; [|done]; refine (describes_rent _ 1700000000%Z (mkRentLog [170] 42 2)%Z _ _); reflexivity|].
    apply events_some; [repeat (split; [reflexivity|]); split; [|done]; refine (describes_register _ 1700000000%Z (mkRegisterLog [9; 9] 43 [])%Z _ _); reflexivity|].
    apply events_none; [by intros e [? _]|].
    apply events_some; [repeat (split; [reflexivity|]); split; [|done]; refine (describes_add _ 1700000000%Z (mkAddLog 42 1 [5; 5] 1 [])%Z _ _); reflexivity|constructor].
  - repeat constructor; vm_compute; reflexivity.
Defined.

(** A rent of more units than 64 bits hold, between two registrations *)
Definition overflow_stream : list (list Log) :=
  [[OnchainSample.log 8 [2] [43; 9; 9]]; [OnchainSample.log 7 [1] [170; 42; 2 ^ 64]; OnchainSample.log 9 [2] [44; 9; 9]]]%Z.

(** C31. Integers of the contracts are never cut off: whatever logs the chain
    sends, every event that is kept is the event of its log with the very
    integers of the log, and these fit into the 64 bits of its fields. Either
    the events of all logs fit, and the run ends with all of them kept; or the
    run panics at the first log with an integer that does not fit, with the
    events of the logs before it kept and nothing of that log or the later
    ones. *)
Theorem subscriber_never_truncates `{AlloyLaws} (stream : list (list Log)) (s : Subscriber) :
  exists done_ out r s', subscriber_run (Ok stream) s = (r, s') /\ events_of 0 done_ out /\ Forall event_fits out /\
    (forall b, block_events s' b = block_events s b ++ filter (fun e => ev_block_number e = b) out) /\
    ((r = Ok tt /\ done_ = concat stream) \/
     (r = Panic /\ exists l rest e, concat stream = done_ ++ l :: rest /\ reads (length done_) l e /\ ~ event_fits e)).
Proof.
  destruct (process_logs_run 0 (concat stream) s) as (done_ & out & r & s' & E & Hrun). exists done_, out, r, s'.
  split; [|exact Hrun]. unfold subscriber_run, st_bind, st_lift. simpl. by rewrite process_stream_concat.
Qed.

(** The first registration is kept, the rent panics. *)
Lemma subscriber_never_truncates_witness :
  exists s', subscriber_run (AL := OnchainSample.sample_alloy) (Ok overflow_stream) (mkSubscriber ∅) = (Panic, s') /\
    length (block_events s' 8) = 1.
Proof.
  destruct (@subscriber_never_truncates OnchainSample.sample_alloy OnchainSample.sample_alloy_laws overflow_stream (mkSubscriber ∅))
    as (done_ & out & r & s' & E & _). exists s'. assert (Hr : r = Panic /\ length (block_events s' 8) = 1).
  { assert (Hv : (fun x => (x.1, length (block_events x.2 8)))
      (subscriber_run (AL := OnchainSample.sample_alloy) (Ok overflow_stream) (mkSubscriber ∅)) = (Panic, 1)) by (vm_compute; reflexivity).
    rewrite E in Hv. simpl in Hv. by injection Hv as -> ->. }
  destruct Hr as [-> Hl]. split; [exact E|exact Hl].
Defined.
