(* ===== verification/Block.v ===== *)
(** * Blocks and shard chunks in the store

    [src/storage/store/block.rs] and [src/storage/store/shard.rs]: blocks and
    shard chunks are rows whose key is a prefix byte and the big-endian
    height, so that the order of rows is the order of heights. The two files
    have the same paged read; it is modelled once, for any kind of row. *)

From S2P Require Import Prelude Util Db Proto.

(** [PAGE_SIZE_MAX] of [src/storage/store/utils.rs]. *)
Definition PAGE_SIZE_MAX : nat := Z.to_nat 1000.
(** [PAGE_SIZE] of [block.rs]. *)
Definition PAGE_SIZE : nat := 100.

(** [RootPrefix::Block] and [RootPrefix::Shard] of [block.rs]. *)
Definition BlockPrefix : Z := 1.
Definition ShardPrefix : Z := 2.

Inductive BlockStorageError :=
| BSE_RocksdbError (e : RocksdbError)
| BlockMissingHeader
| BlockMissingHeight
| TooManyBlocksInResult.

Inductive ShardStorageError :=
| SSE_RocksdbError (e : RocksdbError)
| ShardMissingHeader
| ShardMissingHeight
| TooManyShardsInResult.

Definition make_block_key (shard_index block_number : Z) : bytes :=
  BlockPrefix :: be_bytes 4 shard_index ++ be_bytes 8 block_number.

Definition make_shard_key (block_number : Z) : bytes := ShardPrefix :: be_bytes 8 block_number.

(** [BlockPage] and [ShardPage]. *)
Record Page (A : Type) := mkPage { page_items : list A; next_page_token : option bytes }.
Arguments mkPage {A} _ _.
Arguments page_items {A} _.
Arguments next_page_token {A} _.

Section Pages.
Context {T : Type} `{TransactionDB T} {A : Type} `{!Codec A}.

(** The callback: the rows decoded so far and the key of the last row of a
    full page. *)
Definition page_callback (page_options : PageOptions) (key value : bytes) :
    ST (list A * bytes) RocksdbError bool :=
  fun '(rows, last_key) =>
  match decode value with
  | Ok row =>
      let rows := rows ++ [row] in
      if default PAGE_SIZE_MAX (page_size page_options) <=? length rows then (Ok true, (rows, key))
      else (Ok false, (rows, last_key))
  | Err e => (Err (DecodeError e), (rows, last_key))
  | Panic => (Panic, (rows, last_key))
  | OutOfFuel => (OutOfFuel, (rows, last_key))
  end.

(** [get_block_page_by_prefix] and [get_shard_page_by_prefix]. *)
Definition get_page_by_prefix (d : RocksDB T) (page_options : PageOptions)
    (start_prefix stop_prefix : option bytes) : result RocksdbError (Page A) :=
  let (r, s) := for_each_iterator_by_prefix_paged d start_prefix stop_prefix page_options
                  (page_callback page_options) ([], []) in
  _ ← r;
  Ok (mkPage s.1 (if 0 <? length s.2 then Some s.2 else None)).

(** Reading a page of an open store gives the page or an error. *)
Lemma page_loop_total `{!CodecTotal A} po items acc count :
  exists acc' r, iter_loop (page_callback po) (page_size po) count items acc = (r, acc') /\
    ((exists b, r = Ok b) \/ exists e, r = Err e).
Proof using Type.
  revert acc count. induction items as [|[k v] items IH]; intros [rows lk] count; [cbn; eauto 8|].
  cbn [iter_loop page_callback].
  destruct (decode_total (A := A) v) as [[a E]|[e E]]; rewrite E; [|eauto 8].
  destruct (_ <=? length (rows ++ [a])); [eauto 8|].
  case_match; [|apply IH]. case_match; [eauto 8|apply IH].
Qed.

Lemma get_page_total `{!CodecTotal A} (d : RocksDB T) t po start stop :
  db d = Some t -> (exists p, get_page_by_prefix d po start stop = Ok p) \/ (exists e, get_page_by_prefix d po start stop = Err e).
Proof using Type.
  intros Hd. unfold get_page_by_prefix, for_each_iterator_by_prefix_paged. rewrite Hd.
  match goal with |- context [iter_loop _ _ _ ?l ?a] => destruct (page_loop_total po l a 0) as (acc & r & E & [[b ->]|[e ->]]) end;
    rewrite E; simpl; eauto.
Qed.

End Pages.

(** ** Blocks *)
Section Blocks.
Context {T : Type} `{TransactionDB T} `{!Codec Block}.

Definition get_block_page_by_prefix (d : RocksDB T) (page_options : PageOptions)
    (start_prefix stop_prefix : option bytes) : result BlockStorageError (Page Block) :=
  map_err BSE_RocksdbError (get_page_by_prefix d page_options start_prefix stop_prefix).

Definition height_page_options : PageOptions := mkPageOptions (Some 1) None true.

Definition block_get_current_height (d : RocksDB T) (shard_index : Z) : result BlockStorageError (option Z) :=
  let start_block_key := make_block_key shard_index 0 in
  block_page ← get_block_page_by_prefix d height_page_options (Some start_block_key) None;
  if 1 <? length (page_items block_page) then Err TooManyBlocksInResult
  else Ok (block ← page_items block_page !! 0;
           header ← block_header block;
           height ← block_height header;
           Some (block_number height)).

Definition get_blocks_in_range (d : RocksDB T) (page_options : PageOptions) (shard_index start_block_number : Z)
    (stop_block_number : option Z) : result BlockStorageError (Page Block) :=
  let start_primary_key := make_block_key shard_index start_block_number in
  let stop_prefix := make_block_key shard_index <$> stop_block_number in
  get_block_page_by_prefix d page_options (Some start_primary_key) stop_prefix.

Definition put_block (d : RocksDB T) (block : Block) : result BlockStorageError (RocksDB T) :=
  header ← ok_or (block_header block) BlockMissingHeader;
  height ← ok_or (block_height header) BlockMissingHeight;
  let primary_key := make_block_key (shard_index height) (block_number height) in
  let txn := Batch.put (txn d) primary_key (encode_to_vec block) in
  map_err BSE_RocksdbError (RocksDB_commit d txn).

Definition block_max_block_number (d : RocksDB T) (shard_index : Z) : result BlockStorageError Z :=
  current_height ← block_get_current_height d shard_index;
  Ok (default 0%Z current_height).

(** The loop of [get_blocks]; two rounds are always enough. *)
Fixpoint get_blocks_loop (fuel : nat) (d : RocksDB T) (start_block_number : Z) (stop_block_number : option Z)
    (shard_index : Z) (next_token : option bytes) (blocks : list Block) : result BlockStorageError (list Block) :=
  match fuel with
  | O => OutOfFuel
  | S fuel' =>
      block_page ← get_blocks_in_range d (mkPageOptions (Some PAGE_SIZE) next_token false)
        shard_index start_block_number stop_block_number;
      let blocks := blocks ++ page_items block_page in
      match next_page_token block_page with
      | None => Ok blocks
      | Some token => get_blocks_loop fuel' d start_block_number stop_block_number shard_index (Some token) blocks
      end
  end.

Definition get_blocks_rounds : nat := 2.

Definition get_blocks (d : RocksDB T) (start_block_number : Z) (stop_block_number : option Z)
    (shard_index : Z) : result BlockStorageError (list Block) :=
  get_blocks_loop get_blocks_rounds d start_block_number stop_block_number shard_index None [].

End Blocks.

(** ** Shard chunks *)
Section Shards.
Context {T : Type} `{TransactionDB T} `{!Codec ShardChunk}.

Definition get_shard_page_by_prefix (d : RocksDB T) (page_options : PageOptions)
    (start_prefix stop_prefix : option bytes) : result ShardStorageError (Page ShardChunk) :=
  map_err SSE_RocksdbError (get_page_by_prefix d page_options start_prefix stop_prefix).

Definition shard_get_current_height (d : RocksDB T) : result ShardStorageError (option Z) :=
  let start_block_key := make_shard_key 0 in
  shard_page ← get_shard_page_by_prefix d height_page_options (Some start_block_key) None;
  if 1 <? length (page_items shard_page) then Err TooManyShardsInResult
  else Ok (shard_chunk ← page_items shard_page !! 0;
           header ← chunk_header shard_chunk;
           height ← shard_height header;
           Some (block_number height)).

Definition put_shard_chunk (d : RocksDB T) (shard_chunk : ShardChunk) : result ShardStorageError (RocksDB T) :=
  header ← ok_or (chunk_header shard_chunk) ShardMissingHeader;
  height ← ok_or (shard_height header) ShardMissingHeight;
  let primary_key := make_shard_key (block_number height) in
  let txn := Batch.put (txn d) primary_key (encode_to_vec shard_chunk) in
  map_err SSE_RocksdbError (RocksDB_commit d txn).

Definition shard_max_block_number (d : RocksDB T) : result ShardStorageError Z :=
  current_height ← shard_get_current_height d;
  Ok (default 0%Z current_height).

End Shards.

(** ** Keys *)

Definition is_u64 (n : Z) : Prop := (0 <= n < 2 ^ 64)%Z.
#[export] Instance is_u64_dec n : Decision (is_u64 n).
Proof. unfold is_u64. apply _. Defined.

Lemma be_bytes_compare n1 n2 : is_u64 n1 -> is_u64 n2 -> lex_compare (be_bytes 8 n1) (be_bytes 8 n2) = (n1 ?= n2)%Z.
Proof.
  intros H1 H2. rewrite lex_compare_be_value; [|apply be_bytes_is_bytes|apply be_bytes_is_bytes|by rewrite !length_be_bytes].
  unfold is_u64 in *. by rewrite !be_value_be_bytes by (change (256 ^ Z.of_nat 8)%Z with (2 ^ 64)%Z; lia).
Qed.

Lemma make_block_key_compare s n1 n2 :
  is_u64 n1 -> is_u64 n2 -> lex_compare (make_block_key s n1) (make_block_key s n2) = (n1 ?= n2)%Z.
Proof.
  intros H1 H2. unfold make_block_key. rewrite !(app_comm_cons _ _ BlockPrefix), lex_compare_app_l.
  by apply be_bytes_compare.
Qed.

Lemma make_block_key_lt s n1 n2 : is_u64 n1 -> is_u64 n2 -> bytes_lt (make_block_key s n1) (make_block_key s n2) <-> (n1 < n2)%Z.
Proof. intros. unfold bytes_lt. rewrite make_block_key_compare by done. apply Z.compare_lt_iff. Qed.

Lemma make_block_key_le s n1 n2 : is_u64 n1 -> is_u64 n2 -> bytes_le (make_block_key s n1) (make_block_key s n2) <-> (n1 <= n2)%Z.
Proof. intros. unfold bytes_le. by rewrite make_block_key_compare. Qed.

Lemma make_block_key_inj s n1 n2 : is_u64 n1 -> is_u64 n2 -> make_block_key s n1 = make_block_key s n2 -> n1 = n2.
Proof.
  intros H1 H2 E. apply Z.compare_eq. rewrite <- (make_block_key_compare s) by done. rewrite E. apply lex_compare_refl.
Qed.

Lemma make_block_key_bytes s n : is_bytes (make_block_key s n).
Proof.
  unfold make_block_key. apply is_bytes_cons. split; [unfold is_byte, BlockPrefix; lia|].
  apply is_bytes_app. auto with snap.
Qed.

Lemma length_make_block_key s n : length (make_block_key s n) = 13.
Proof. unfold make_block_key. solve_len. Qed.

(** Below the upper bound an iteration without a stop prefix uses. *)
Lemma make_block_key_lt_max s n : bytes_lt (make_block_key s n) (replicate 32 255%Z).
Proof. done. Qed.

(** ** Reading pages *)
Section PageSpec.
Context {A : Type} `{!Codec A}.

Definition decodes (kv : bytes * bytes) (a : A) : Prop := decode kv.2 = Ok a.

(** The callback takes rows until the page is full. *)
Lemma page_loop_spec (po : PageOptions) (N : nat) items (rows : list A) acc lk count :
  Forall2 decodes items rows -> default PAGE_SIZE_MAX (page_size po) = N -> length acc < N -> count <= length acc ->
  exists b, iter_loop (page_callback po) (page_size po) count items (acc, lk) =
    (Ok b, (acc ++ take (N - length acc) rows,
            default lk (fst <$> items !! (N - length acc - 1)))).
Proof.
  intros Hd HN. revert acc lk count. induction Hd as [|[k v] a items rows Hkv Hd IH]; intros acc lk count Hacc Hc.
  { exists true. cbn [iter_loop]. by rewrite take_nil, app_nil_r. }
  unfold decodes in Hkv. simpl in Hkv. cbn [iter_loop]. unfold page_callback at 1. rewrite Hkv, HN, length_app. cbn [length].
  destruct (Nat.leb_spec N (length acc + 1)) as [Hfull|Hnot].
  - exists false. replace (N - length acc) with 1 by lia. done.
  - assert (Hstop : (match page_size po with Some n => n <=? count + 1 | None => false end) = false).
    { destruct (page_size po) as [n|]; [|done]. simpl in HN. subst. apply Nat.leb_gt. lia. }
    assert (Hrec : exists b, iter_loop (page_callback po) (page_size po)
        (match page_size po with Some _ => count + 1 | None => count end) items (acc ++ [a], lk) =
      (Ok b, ((acc ++ [a]) ++ take (N - length (acc ++ [a])) rows,
              default lk (fst <$> items !! (N - length (acc ++ [a]) - 1))))).
    { apply IH; rewrite length_app; simpl; [lia|]. destruct (page_size po); lia. }
    destruct Hrec as [b E]. exists b. replace (N - length acc) with (Datatypes.S (N - length (acc ++ [a]))).
    2:{ rewrite length_app. simpl. lia. }
    rewrite firstn_cons, <- (app_assoc acc [a]) in *. simpl in E. 
    replace (Datatypes.S (N - length (acc ++ [a])) - 1) with (Datatypes.S (N - length (acc ++ [a]) - 1)).
    2:{ rewrite length_app. simpl. lia. }
    rewrite lookup_cons, <- E. by destruct (page_size po) as [n|]; [rewrite Hstop|].
Qed.

Context {T : Type} `{TransactionDBLaws T}.

(** A page is the rows at its start, with the last key when it is full. *)
Lemma get_page_spec (d : RocksDB T) (m : gmap bytes bytes) start stop po N items (rows : list A) :
  holds d m -> visited m start stop po = items -> Forall2 decodes items rows ->
  default PAGE_SIZE_MAX (page_size po) = N -> 0 < N -> (forall kv, kv ∈ items -> kv.1 ≠ []) ->
  get_page_by_prefix d po start stop = Ok (mkPage (take N rows) (fst <$> items !! (N - 1))).
Proof.
  intros Hd Hv Hrows HN Hpos Hne. unfold get_page_by_prefix. rewrite (for_each_paged_holds d m), Hv by done.
  destruct (page_loop_spec po N items rows [] [] 0 Hrows HN Hpos) as [b E]; [done|].
  simpl in E. rewrite Nat.sub_0_r in E. rewrite E. simpl. do 2 f_equal.
  destruct (items !! (N - 1)) as [[k v]|] eqn:Ei; simpl; [|done].
  destruct k as [|c k]; [|done]. by destruct (Hne ([], v)); [eapply list_elem_of_lookup_2|].
Qed.

End PageSpec.

(** ** The block store as a map from heights *)
Section BlockSpec.
Context {T : Type} `{TransactionDBLaws T} `{!Codec Block} {codec_law : CodecLaw Block}.
Implicit Types (m : gmap bytes bytes) (f : gmap Z Block) (d : RocksDB T).

(** The rows of [m] are the blocks [f] of shard [s], and nothing else. *)
Definition block_rows (s : Z) m f : Prop :=
  (forall n b, f !! n = Some b -> is_u64 n /\ (block_header b ≫= block_height) = Some (mkHeight s n)) /\
  (forall k v, m !! k = Some v <-> exists n b, f !! n = Some b /\ k = make_block_key s n /\ v = encode_to_vec b).

(** The blocks of heights from [lo] on, below [hi], by height. *)
Definition height_le (x y : Z * Block) : Prop := (x.1 <= y.1)%Z.
#[export] Instance height_le_dec x y : Decision (height_le x y).
Proof. unfold height_le. apply _. Defined.

Definition in_heights (lo : Z) (hi : option Z) (nb : Z * Block) : Prop :=
  (lo <= nb.1)%Z /\ match hi with Some h => (nb.1 < h)%Z | None => True end.
#[export] Instance in_heights_dec lo hi nb : Decision (in_heights lo hi nb).
Proof. unfold in_heights. destruct hi; apply _. Defined.

Definition entries f (lo : Z) (hi : option Z) : list (Z * Block) :=
  merge_sort height_le (filter (in_heights lo hi) (map_to_list f)).

Definition entry_row (s : Z) (nb : Z * Block) : bytes * bytes := (make_block_key s nb.1, encode_to_vec nb.2).

Instance height_le_total : Total height_le.
Proof. intros x y. unfold height_le. lia. Qed.
Instance height_le_trans : Transitive height_le.
Proof. intros x y z. unfold height_le. lia. Qed.

Lemma entries_sorted f lo hi : StronglySorted height_le (entries f lo hi).
Proof using Type. apply StronglySorted_merge_sort; apply _. Qed.

Lemma elem_of_entries f lo hi n b : (n, b) ∈ entries f lo hi <-> f !! n = Some b /\ in_heights lo hi (n, b).
Proof. unfold entries. rewrite (merge_sort_Permutation height_le), list_elem_of_filter, elem_of_map_to_list. tauto. Qed.

Lemma entries_rows_sorted s m f lo hi : block_rows s m f -> StronglySorted kv_lt (map (entry_row s) (entries f lo hi)).
Proof.
  intros [Hf _].
  pose proof (entries_sorted f lo hi) as Hs.
  assert (Hnd : NoDup (entries f lo hi).*1).
  { unfold entries. rewrite (merge_sort_Permutation height_le).
    eapply sublist_NoDup; [apply (NoDup_fst_map_to_list f)|apply fmap_sublist, sublist_filter]. }
  assert (Hu : forall nb, nb ∈ entries f lo hi -> is_u64 nb.1).
  { intros [n b] [Hn _]%elem_of_entries. by apply (Hf n b). }
  revert Hs Hnd Hu. generalize (entries f lo hi) as l. induction l as [|x l IH]; intros Hs Hnd Hu; [constructor|].
  apply StronglySorted_inv in Hs as [Hs Hx]. apply NoDup_cons in Hnd as [Hnin Hnd]. simpl. constructor.
  { apply IH; [done|done|]. intros nb Hnb. apply Hu. by right. }
  apply Forall_forall. intros kv Hkv. apply list_elem_of_fmap in Hkv as (y & -> & Hy).
  rewrite Forall_forall in Hx. specialize (Hx y Hy). unfold kv_lt, entry_row. simpl.
  apply make_block_key_lt; [apply Hu; by left|apply Hu; by right|]. unfold height_le in Hx.
  assert (x.1 ≠ y.1); [|lia]. intros E. apply Hnin. rewrite E. by apply list_elem_of_fmap_2.
Qed.

(** The rows an iteration from height [lo] to [hi] visits. *)
Lemma range_of_entries s m f lo hi :
  block_rows s m f -> is_u64 lo -> (forall h, hi = Some h -> is_u64 h) ->
  range_of m (make_block_key s lo)
    (match make_block_key s <$> hi with None => replicate 32 255%Z | Some p => p end) =
  map (entry_row s) (entries f lo hi).
Proof.
  intros Hm Hlo Hhi. apply range_of_unique; [by eapply entries_rows_sorted|].
  destruct Hm as [Hf Hm]. intros [k v]. unfold in_range. simpl. rewrite Hm.
  change (map ?g ?l) with (g <$> l). rewrite list_elem_of_fmap. split.
  - intros ([n b] & Heq & [Hn [Hl Hh]]%elem_of_entries). unfold entry_row in Heq. simplify_eq/=.
    destruct (Hf n b Hn) as [Hu _]. split_and!; [eauto|by apply make_block_key_le|].
    destruct hi as [h|]; simpl; [apply make_block_key_lt; auto|apply make_block_key_lt_max].
  - intros ((n & b & Hn & -> & ->) & Hl & Hh). destruct (Hf n b Hn) as [Hu _]. exists (n, b). split; [done|].
    apply elem_of_entries. split; [done|]. split; simpl; [by apply make_block_key_le in Hl|].
    destruct hi as [h|]; simpl in *; [|done]. apply make_block_key_lt in Hh; auto.
Qed.

Lemma entries_decode s f lo hi : Forall2 decodes (map (entry_row s) (entries f lo hi)) (entries f lo hi).*2.
Proof using codec_law.
  induction (entries f lo hi) as [|[n b] l IH]; constructor; [|done]. unfold decodes. simpl. apply decode_encode.
Qed.

Lemma block_rows_insert s m f b n :
  block_rows s m f -> (block_header b ≫= block_height) = Some (mkHeight s n) -> is_u64 n ->
  block_rows s (<[make_block_key s n := encode_to_vec b]> m) (<[n := b]> f).
Proof using Type.
  intros [Hf Hm] Hb Hn. split.
  - intros n' b'. rewrite lookup_insert_Some. intros [[<- <-]|[_ Hn']]; [done|by apply Hf].
  - intros k v. rewrite lookup_insert_Some, Hm. split.
    + intros [[<- <-]|(Hk & n' & b' & Hn' & -> & ->)].
      * exists n, b. by rewrite lookup_insert_eq.
      * exists n', b'. rewrite lookup_insert_ne; [done|]. by intros ->.
    + intros (n' & b' & Hn' & -> & ->). apply lookup_insert_Some in Hn' as [[<- <-]|[Hne Hn']]; [by left|right].
      split; [|eauto]. destruct (Hf n' b' Hn') as [Hu _]. intros E'%make_block_key_inj; done.
Qed.

Lemma put_block_spec d s m f b n :
  holds d m -> block_rows s m f -> (block_header b ≫= block_height) = Some (mkHeight s n) -> is_u64 n ->
  exists d' m', put_block d b = Ok d' /\ holds d' m' /\ block_rows s m' (<[n := b]> f).
Proof using Type.
  intros Hd Hm Hb Hn. pose proof (block_rows_insert s m f b n Hm Hb Hn) as Hm'.
  unfold put_block. destruct (block_header b) as [h|]; [|done]. simpl in Hb. simpl. rewrite Hb. simpl.
  destruct (RocksDB_commit_holds d m (Batch.put (txn d) (make_block_key s n) (encode_to_vec b)) Hd) as (d' & E & Hd' & _).
  rewrite E. eexists _, _. split_and!; [reflexivity|exact Hd'|]. unfold txn. by rewrite apply_batch_put, apply_batch_new.
Qed.

Lemma visited_reverse m start stop ps :
  visited m start stop (mkPageOptions ps None true) =
  reverse (range_of m (default [] start) (match stop with None => replicate 32 255%Z | Some p => p end)).
Proof. unfold visited. simpl. by destruct start, stop. Qed.

Lemma visited_forward m start stop ps :
  visited m start stop (mkPageOptions ps None false) =
  range_of m (default [] start) (match stop with None => replicate 32 255%Z | Some p => p end).
Proof. unfold visited. simpl. by destruct start, stop. Qed.

Lemma entry_row_nonempty s (l : list (Z * Block)) kv : kv ∈ map (entry_row s) l -> kv.1 ≠ [].
Proof. by intros (nb & -> & _)%list_elem_of_fmap. Qed.

Lemma block_height_spec d s m f :
  holds d m -> block_rows s m f ->
  block_get_current_height d s = Ok (fst <$> last (entries f 0 None)).
Proof using codec_law.
  intros Hd Hm. unfold block_get_current_height, get_block_page_by_prefix.
  rewrite (get_page_spec d m _ _ _ 1 (reverse (map (entry_row s) (entries f 0 None))) (reverse (entries f 0 None).*2)); try done.
  - simpl. destruct (reverse (entries f 0 None)) as [|[n b] l] eqn:El.
    + assert (Er : entries f 0 None = []) by (by rewrite <- (reverse_involutive (entries f 0 None)), El). by rewrite Er.
    + assert (Er : entries f 0 None = reverse l ++ [(n, b)]).
      { by rewrite <- reverse_cons, <- El, reverse_involutive. }
      rewrite Er, fmap_app, reverse_app, last_snoc. simpl.
      assert (Hn : (n, b) ∈ entries f 0 None) by (rewrite Er; apply elem_of_app; right; by left).
      apply elem_of_entries in Hn as [Hn _]. destruct Hm as [Hf _]. destruct (Hf n b Hn) as [_ Hh].
      destruct (block_header b); simpl in *; [|done]. by rewrite Hh.
  - unfold height_page_options. rewrite visited_reverse. f_equal.
    by apply (range_of_entries s m f 0 None).
  - apply Forall2_reverse, entries_decode.
  - lia.
  - intros kv. rewrite elem_of_reverse. apply entry_row_nonempty.
Qed.

(** The last entry has the greatest height. *)
Lemma last_entry_max f n b :
  last (entries f 0 None) = Some (n, b) -> f !! n = Some b /\ forall n' b', f !! n' = Some b' -> (0 <= n')%Z -> (n' <= n)%Z.
Proof.
  intros Hl. pose proof (entries_sorted f 0 None) as Hs.
  split; [by apply last_Some_elem_of, elem_of_entries in Hl as [? _]|].
  intros n' b' Hn' Hpos. assert (Hin : (n', b') ∈ entries f 0 None) by (apply elem_of_entries; done).
  apply last_Some in Hl as [l El]. rewrite El in Hs, Hin. apply elem_of_app in Hin as [Hin|Hin].
  - clear El. induction l as [|x l IH]; [by apply elem_of_nil in Hin|]. apply StronglySorted_inv in Hs as [Hs Hx].
    apply elem_of_cons in Hin as [<-|Hin]; [|by apply IH].
    rewrite Forall_forall in Hx. apply (Hx (n, b)). apply elem_of_app. right. by left.
  - apply list_elem_of_singleton in Hin. by simplify_eq.
Qed.

Lemma get_blocks_spec d s m f lo hi :
  holds d m -> block_rows s m f -> is_u64 lo -> (forall h, hi = Some h -> is_u64 h) ->
  get_blocks d lo hi s = Ok (take PAGE_SIZE (entries f lo hi).*2).
Proof using codec_law.
  intros Hd Hm Hlo Hhi. unfold get_blocks, get_blocks_rounds. cbn [get_blocks_loop].
  unfold get_blocks_in_range, get_block_page_by_prefix.
  rewrite (get_page_spec d m _ _ _ PAGE_SIZE (map (entry_row s) (entries f lo hi)) (entries f lo hi).*2); try done.
  2:{ rewrite visited_forward. by apply range_of_entries. }
  2:{ apply entries_decode. }
  2:{ unfold PAGE_SIZE. lia. }
  2:{ apply entry_row_nonempty. }
  cbn -[PAGE_SIZE]. destruct (map (entry_row s) (entries f lo hi) !! (PAGE_SIZE - 1)) as [[k v]|] eqn:Ei; [|done].
  cbn -[PAGE_SIZE].
  assert (Hk : exists n, k = make_block_key s n).
  { change (map ?g ?l) with (g <$> l) in Ei. rewrite list_lookup_fmap in Ei.
    destruct (entries f lo hi !! _) as [[n b]|]; [|done]. injection Ei as <- _. by exists n. }
  destruct Hk as [n ->].
  rewrite (get_page_spec d m _ _ _ PAGE_SIZE [] []); try done.
  - cbn -[PAGE_SIZE]. rewrite take_nil, app_nil_r, lookup_nil. done.
  - unfold visited. simpl. apply range_of_empty, bytes_lt_le, increment_lt; [apply make_block_key_bytes|].
    rewrite length_make_block_key. unfold make_block_key. rewrite be_value_cons.
    assert (Hbs : is_bytes (be_bytes 4 s ++ be_bytes 8 n)) by (apply is_bytes_app; auto with snap).
    pose proof (be_value_bounds _ Hbs) as Hb. rewrite length_app, !length_be_bytes in *.
    unfold BlockPrefix. simpl Z.of_nat in *. lia.
  - unfold PAGE_SIZE. lia.
  - by intros kv ?%elem_of_nil.
Qed.

End BlockSpec.

(** ** Properties *)

(** [put_block] refines insertion into a map from heights to blocks: from
    a store that holds exactly the blocks [f] of a shard, putting a block of
    that shard leads to a store that holds exactly [f] with the block at its
    height; a block without header or height is refused and nothing is
    written. *)
Theorem put_block_refines_insert `{TransactionDBLaws T} `{!Codec Block} {codec_law : CodecLaw Block}
    (d : RocksDB T) (s : Z) (m : gmap bytes bytes) (f : gmap Z Block) (b : Block)
    (Hd : holds d m) (Hf : block_rows s m f) :
  (block_header b = None -> put_block d b = Err BlockMissingHeader) /\
  (forall h, block_header b = Some h -> block_height h = None -> put_block d b = Err BlockMissingHeight) /\
  (forall h n, block_header b = Some h -> block_height h = Some (mkHeight s n) -> is_u64 n ->
    exists d' m', put_block d b = Ok d' /\ holds d' m' /\ block_rows s m' (<[n := b]> f)).
Proof.
  split_and!.
  - intros E. unfold put_block. by rewrite E.
  - intros h E Eh. unfold put_block. rewrite E. simpl. by rewrite Eh.
  - intros h n E Eh Hn. eapply put_block_spec; [done|done| |done]. by rewrite E.
Qed.

(** The height of a store that holds exactly the blocks of one shard is
    the greatest stored height, or 0 when there is none. *)
Theorem max_block_number_is_max `{TransactionDBLaws T} `{!Codec Block} {codec_law : CodecLaw Block}
    (d : RocksDB T) (s : Z) (m : gmap bytes bytes) (f : gmap Z Block)
    (Hd : holds d m) (Hf : block_rows s m f) :
  exists h, block_max_block_number d s = Ok h /\
    (forall n, is_Some (f !! n) -> (n <= h)%Z) /\ (h = 0%Z \/ is_Some (f !! h)).
Proof.
  unfold block_max_block_number. rewrite (block_height_spec d s m f) by done.
  destruct (last (entries f 0 None)) as [[n b]|] eqn:El; simpl.
  - destruct (last_entry_max f n b El) as [Hn Hmax]. exists n. split_and!; [done| |by right; eexists].
    intros n' [b' Hn']. apply (Hmax n' b' Hn'). apply (proj1 Hf n' b' Hn').
  - exists 0%Z. split_and!; [done| |by left]. intros n [b Hn].
    apply last_None in El. assert (Hin : (n, b) ∈ entries f 0 None).
    { apply elem_of_entries. split; [done|]. split; [apply (proj1 Hf n b Hn)|done]. }
    rewrite El in Hin. by apply elem_of_nil in Hin.
Qed.

(** [get_blocks] terminates within two rounds and returns the blocks of
    the half-open height range in ascending order, but never more than the
    100 of its first page: the second page it asks for is always empty. *)
Theorem get_blocks_first_page `{TransactionDBLaws T} `{!Codec Block} {codec_law : CodecLaw Block}
    (d : RocksDB T) (s : Z) (m : gmap bytes bytes) (f : gmap Z Block) (lo : Z) (hi : option Z)
    (Hd : holds d m) (Hf : block_rows s m f) (Hlo : is_u64 lo) (Hhi : forall h, hi = Some h -> is_u64 h) :
  exists l : list (Z * Block),
    get_blocks d lo hi s = Ok (take 100 l.*2) /\
    StronglySorted height_le l /\ NoDup l /\
    (forall n b, (n, b) ∈ l <-> f !! n = Some b /\ (lo <= n)%Z /\ match hi with Some h => (n < h)%Z | None => True end).
Proof.
  exists (entries f lo hi). split_and!.
  - by eapply get_blocks_spec.
  - apply StronglySorted_merge_sort; [apply height_le_trans|apply height_le_total].
  - unfold entries. rewrite (merge_sort_Permutation height_le). apply NoDup_filter, NoDup_map_to_list.
  - intros n b. apply elem_of_entries.
Qed.

(** A concrete block store. *)
Module BlockSample.
#[export] Instance block_codec : Codec Block := countable_codec Block.
#[export] Instance block_codec_law : CodecLaw Block := countable_codec_law Block.

Definition sample_header (n : Z) : BlockHeader := mkBlockHeader (Some (mkHeight 0 n)) 0 0 0 [] [] [].
Definition sample_block (n : Z) : Block := mkBlock (Some (sample_header n)) [1; 2; 3]%Z [] None None.
Definition empty_store : RocksDB (gmap bytes bytes) := mkRocksDB (Some ∅) "x".

Lemma empty_rows : block_rows 0 ∅ ∅.
Proof.
  split; [by intros n b ?%lookup_empty_Some|]. intros k v. rewrite lookup_empty. split; [done|].
  by intros (n & b & ?%lookup_empty_Some & _).
Qed.
End BlockSample.
Import BlockSample.

Lemma put_block_refines_insert_witness :
  exists d' m', put_block empty_store (sample_block 7) = Ok d' /\ holds d' m' /\
    block_rows 0 m' (<[7%Z := sample_block 7]> ∅).
Proof.
  destruct (put_block_refines_insert empty_store 0 ∅ ∅ (sample_block 7) (holds_gmap ∅ "x") empty_rows) as (_ & _ & H).
  apply (H (sample_header 7) 7%Z); [reflexivity|reflexivity|decide_now].
Defined.

Lemma max_block_number_is_max_witness :
  exists d' m' h, put_block empty_store (sample_block 7) = Ok d' /\ holds d' m' /\
    block_max_block_number d' 0 = Ok h /\ (7 <= h)%Z.
Proof.
  destruct (put_block_spec empty_store 0 ∅ ∅ (sample_block 7) 7 (holds_gmap ∅ "x") empty_rows) as
    (d' & m' & E & Hd & Hm); [reflexivity|decide_now|].
  destruct (max_block_number_is_max d' 0 m' _ Hd Hm) as (h & Eh & Hle & _).
  exists d', m', h. split_and!; [exact E|exact Hd|exact Eh|]. apply Hle. by eexists.
Defined.

Lemma get_blocks_first_page_witness :
  exists d' m' (l : list (Z * Block)), put_block empty_store (sample_block 7) = Ok d' /\ holds d' m' /\
    get_blocks d' 1 None 0 = Ok (take 100 l.*2) /\ (7%Z, sample_block 7) ∈ l.
Proof.
  destruct (put_block_spec empty_store 0 ∅ ∅ (sample_block 7) 7 (holds_gmap ∅ "x") empty_rows) as
    (d' & m' & E & Hd & Hm); [reflexivity|decide_now|].
  destruct (get_blocks_first_page d' 0 m' _ 1 None Hd Hm) as (l & El & _ & _ & Hl).
  - decide_now.
  - intros h [=].
  - exists d', m', l. split_and!; [exact E|exact Hd|exact El|]. apply Hl. split_and!; [reflexivity|lia|done].
Defined.
