(* ===== verification/Engine.v ===== *)
(** * The shard engine and the block engine

    [src/storage/store/engine.rs]. The shard engine keeps the mempool, the
    sync trie and the store of shard chunks; trie and chunks share one store.
    Proposing computes the root after the pending messages and rolls the trie
    back; committing replays the messages of a chunk, checks its root and
    writes the trie and the chunk. *)

From S2P Require Import Prelude Util Db Proto TrieNode TrieSpec TrieInsert TrieDelete TrieQuery MerkleTrie Block.

Record ShardStateChange := mkShardStateChange {
  state_shard_id : Z;
  new_state_root : bytes;
  state_transactions : list Transaction;
}.

(** The key that [ShardEngine::new] inserts so that the trie is never empty. *)
Definition sentinel : bytes := [0; 1; 2; 3; 4; 5; 6; 7; 8; 9]%Z.

(** [.unwrap()] of a call, and a call whose error is ignored. *)
Definition st_unwrap {S E F A} (m : ST S E A) : ST S F A := fun s =>
  let (r, s') := m s in (unwrap_result r, s').
Definition st_ignore {S E F A} (m : ST S E A) : ST S F unit := fun s =>
  let (r, s') := m s in
  (match r with Ok _ => Ok tt | Err _ => Ok tt | Panic => Panic | OutOfFuel => OutOfFuel end, s').

Section Engine.
Context {T : Type} `{TransactionDB T} `{!Codec DbTrieNode, !Codec ShardChunk, !Codec Block}.
Variable blake3 : bytes -> bytes.
Variable depth : nat.

(** [encode_vec], for the log. *)
Fixpoint join (sep : string) (l : list string) : string :=
  match l with
  | [] => ""
  | [s] => s
  | s :: l' => s +:+ sep +:+ join sep l'
  end.
Definition encode_vec (hex : bytes -> string) (data : list bytes) : string := join ", " (map hex data).

(** [ShardEngine]. [messages_rx] is what the channel holds. The store of the
    chunks is the store of the trie. *)
Record ShardEngine := mkShardEngine {
  engine_shard_id : Z;
  messages_rx : list Message;
  trie : MerkleTrie T;
}.

Definition set_messages_rx (l : list Message) (e : ShardEngine) : ShardEngine :=
  mkShardEngine (engine_shard_id e) l (trie e).
Definition set_trie (t : MerkleTrie T) (e : ShardEngine) : ShardEngine :=
  mkShardEngine (engine_shard_id e) (messages_rx e) t.

Definition on_trie {A} (m : ST (MerkleTrie T) HubError A) : ST ShardEngine HubError A := fun e =>
  let (r, t') := m (trie e) in (r, set_trie t' e).

(** [self.trie.root_hash().unwrap()] and [self.trie.items().unwrap()]. *)
Definition unwrap_root_hash : ST ShardEngine HubError bytes := fun e =>
  (unwrap_result (root_hash (trie e)), e).
Definition unwrap_items : ST ShardEngine HubError Z := fun e =>
  (unwrap_result (MerkleTrie_items (trie e)), e).

(** [ShardEngine::new] on a store. *)
Definition ShardEngine_new (shard_id : Z) (d : RocksDB T) : result HubError ShardEngine :=
  let (r, t) :=
    (st_unwrap initialize ;;;
     st_unwrap (MerkleTrie_insert blake3 depth [sentinel]) ;;;
     st_unwrap commit ;;;
     st_unwrap reload)%st (new_with_db d) in
  _ ← r;
  Ok (mkShardEngine shard_id [] t).

(** A message that a client of [messages_tx] sends; the channel holds at most
    10000, a further one waits. *)
Definition messages_capacity : nat := Z.to_nat 10000.
Definition send_message (msg : Message) (e : ShardEngine) : ShardEngine :=
  if length (messages_rx e) <? messages_capacity then set_messages_rx (messages_rx e ++ [msg]) e else e.

Definition propose_state_change (shard : Z) : ST ShardEngine HubError ShardStateChange :=
  (let! e := st_get in
   let user_messages := messages_rx e in
   st_modify (set_messages_rx []) ;;;
   let hashes := map msg_hash user_messages in
   let transactions := [mkTransaction 1234 user_messages [] [5; 5; 6; 6]%Z] in
   let! _ := unwrap_root_hash in
   st_ignore (on_trie (MerkleTrie_insert blake3 depth hashes)) ;;;
   let! new_root_hash := unwrap_root_hash in
   let! count := unwrap_items in
   let result := mkShardStateChange shard new_root_hash transactions in
   st_unwrap (on_trie reload) ;;;
   let! _ := unwrap_root_hash in
   st_ret result)%st.

Definition validate_state_change (shard_state_change : ShardStateChange) (e : ShardEngine) : bool := true.

(** [self.shard_store.put_shard_chunk], on the shared store. *)
Definition store_put_shard_chunk (shard_chunk : ShardChunk) : ST ShardEngine ShardStorageError unit := fun e =>
  match put_shard_chunk (trie_db (trie e)) shard_chunk with
  | Ok d => (Ok tt, set_trie (set_trie_db d (trie e)) e)
  | Err err => (Err err, e)
  | Panic => (Panic, e)
  | OutOfFuel => (OutOfFuel, e)
  end.

Definition commit_shard_chunk (shard_chunk : ShardChunk) : ST ShardEngine HubError unit :=
  (let! header := st_lift (unwrap (chunk_header shard_chunk)) in
   let shard_root := shard_root header in
   let! tx := st_lift (index (transactions shard_chunk) 0) in
   let hashes := map msg_hash (user_messages tx) in
   let! root0 := unwrap_root_hash in
   st_unwrap (on_trie (MerkleTrie_insert blake3 depth hashes)) ;;;
   let! root1 := unwrap_root_hash in
   if bool_decide (root1 = shard_root) then
     st_unwrap (on_trie commit) ;;;
     let! committed_root := unwrap_root_hash in
     st_unwrap (on_trie reload) ;;;
     let! reloaded_root := unwrap_root_hash in
     st_ignore (store_put_shard_chunk shard_chunk)
   else st_lift Panic)%st.

Definition shard_get_confirmed_height (e : ShardEngine) : result HubError Height :=
  match shard_max_block_number (trie_db (trie e)) with
  | Ok block_num => Ok (mkHeight (engine_shard_id e) block_num)
  | Err _ => Ok (mkHeight (engine_shard_id e) 0)
  | Panic => Panic
  | OutOfFuel => OutOfFuel
  end.

(** [BlockEngine]: the store of the blocks. *)
Record BlockEngine := mkBlockEngine { block_store : RocksDB T }.

(** [commit_block]: an error is logged. *)
Definition commit_block (block : Block) : ST BlockEngine HubError unit := fun e =>
  match put_block (block_store e) block with
  | Ok d => (Ok tt, mkBlockEngine d)
  | Err _ => (Ok tt, e)
  | Panic => (Panic, e)
  | OutOfFuel => (OutOfFuel, e)
  end.

Definition block_get_confirmed_height (e : BlockEngine) : result HubError Height :=
  let shard_index := 0%Z in
  match block_max_block_number (block_store e) shard_index with
  | Ok block_num => Ok (mkHeight shard_index block_num)
  | Err _ => Ok (mkHeight shard_index 0)
  | Panic => Panic
  | OutOfFuel => OutOfFuel
  end.

End Engine.

Arguments ShardEngine T : clear implicits.
Arguments BlockEngine T : clear implicits.

Lemma st_unwrap_Ok {S E F A : Type} (m : ST S E A) s a s' : m s = (Ok a, s') -> st_unwrap (F := F) m s = (Ok a, s').
Proof. unfold st_unwrap. by intros ->. Qed.

Lemma st_ignore_Ok {S E F A : Type} (m : ST S E A) s a s' : m s = (Ok a, s') -> st_ignore (F := F) m s = (Ok tt, s').
Proof. unfold st_ignore. by intros ->. Qed.

Lemma send_message_trie {T} (x : Message) (e : ShardEngine T) : trie (send_message x e) = trie e.
Proof. unfold send_message. by destruct (_ <? _). Qed.

Lemma node_key_not_shard q n : node_key q ≠ make_shard_key n.
Proof. done. Qed.

Section EngineSpec.
Context {T : Type} `{TransactionDBLaws T} `{!Codec DbTrieNode, !Codec ShardChunk}
  {node_law : CodecLaw DbTrieNode} {chunk_law : CodecLaw ShardChunk}.
Variable blake3 : bytes -> bytes.
Hypothesis blake3_length : forall l, length (blake3 l) = 32.
Variable L depth : nat.
Hypothesis depth_enough : L + 1 <= depth.

Implicit Types (e : ShardEngine T) (t : MerkleTrie T) (m v : gmap bytes bytes) (S : gset bytes).

(** The engine is between two blocks with the committed keys [S]. *)
Definition engine_holds e S : Prop := trie_holds blake3 L (trie e) (Some S) S /\ S ≠ ∅.

(** [repr] depends only on the rows of the trie. *)
Lemma repr_rows m m' v v' p (x : TrieNodeType) S :
  repr blake3 m L v p x S ->
  (forall q, m' !! node_key q = m !! node_key q) -> (forall q, v' !! node_key q = v !! node_key q) ->
  repr blake3 m' L v' p x S.
Proof using Type.
  intros Hr Hm Hv.
  assert (Hrow : forall p n, row v p n -> row v' p n) by (intros p' n' (b & Hb & Hd); exists b; by rewrite Hv).
  induction Hr as [p n k|p n S HS Hk Hsz Hdom Hch IH Hi Hh Hr|p h n b S Hmb Hvb Hd Hh Hr IH].
  - apply repr_leaf; auto.
  - apply repr_inner; auto.
  - eapply repr_stored; [by rewrite Hm|by rewrite Hv|done..].
Qed.

Lemma root_repr_rows m m' v v' r S :
  root_repr blake3 L m v r S ->
  (forall q, m' !! node_key q = m !! node_key q) -> (forall q, v' !! node_key q = v !! node_key q) ->
  root_repr blake3 L m' v' r S.
Proof using Type.
  intros [Hs (b & Hb & Hd)] Hm Hv. split.
  - destruct Hs as [Hs|Hs]; [by left|right; by eapply repr_rows].
  - exists b. by rewrite Hv.
Qed.

(** Rows outside the trie may be written to the store of a trie. *)
Lemma trie_holds_other_row t C S (d' : RocksDB T) m k b :
  trie_holds blake3 L t C S -> holds (trie_db t) m -> holds d' (<[k := b]> m) ->
  (forall q, k ≠ node_key q) -> trie_holds blake3 L (set_trie_db d' t) C S.
Proof using Type.
  intros (m0 & r & (x & Hx & <-) & Hr & Hrr & HC) (y & Hy & <-) Hd' Hk. assert (x = y) as -> by congruence.
  assert (Hm : forall q, <[k := b]> (tdb_map y) !! node_key q = tdb_map y !! node_key q).
  { intros q. by rewrite lookup_insert_ne. }
  exists (<[k := b]> (tdb_map y)), r. split_and!; [done|done| |].
  - eapply root_repr_rows; [exact Hrr|exact Hm|]. intros q. simpl. rewrite !lookup_apply_batch.
    by destruct (batch (txn_batch t) !! node_key q).
  - destruct C as [C|]; simpl in *; [|by rewrite Hm].
    destruct HC as (b' & n & Hb & Hd & Hrr'). exists b', n. rewrite Hm. split_and!; [done|done|].
    by eapply root_repr_rows.
Qed.

Lemma on_trie_Ok {A} (m : ST (MerkleTrie T) HubError A) e a t' :
  m (trie e) = (Ok a, t') -> on_trie m e = (Ok a, set_trie t' e).
Proof using Type. unfold on_trie. by intros ->. Qed.

Lemma unwrap_root_hash_Ok e h : root_hash (trie e) = Ok h -> unwrap_root_hash e = (Ok h, e).
Proof using Type. unfold unwrap_root_hash. by intros ->. Qed.

Lemma unwrap_items_Ok e h : MerkleTrie_items (trie e) = Ok h -> unwrap_items e = (Ok h, e).
Proof using Type. unfold unwrap_items. by intros ->. Qed.

Lemma union_nonempty S (keys : list bytes) : S ≠ ∅ -> S ∪ list_to_set keys ≠ ∅.
Proof using Type. intros HS E. apply HS. apply (empty_union_L S) in E as [? _]. done. Qed.

(** Proposing. *)
Lemma propose_spec e S shard :
  engine_holds e S ->
  let hashes := map msg_hash (messages_rx e) in
  NoDup hashes -> valid_keys L (S ∪ list_to_set hashes) ->
  exists e', propose_state_change blake3 depth shard e =
      (Ok (mkShardStateChange shard (spec_root blake3 L (S ∪ list_to_set hashes))
             [mkTransaction 1234 (messages_rx e) [] [5; 5; 6; 6]%Z]), e') /\
    engine_holds e' S /\ messages_rx e' = [] /\ trie_db (trie e') = trie_db (trie e) /\
    engine_shard_id e' = engine_shard_id e.
Proof.
  intros [Ht HS] hashes Hnd Hv. unfold propose_state_change.
  destruct (insert_spec blake3 blake3_length L depth depth_enough (trie e) _ S hashes Ht Hnd Hv) as (t1 & E1 & Ht1 & Hdb1 & _).
  pose proof (trie_holds_root_hash blake3 L _ _ _ Ht HS) as Hr0.
  pose proof (trie_holds_root_hash blake3 L _ _ _ Ht1 (union_nonempty S hashes HS)) as Hr1.
  pose proof (trie_holds_items blake3 L _ _ _ Ht1) as Hi1.
  assert (HC : exists m, holds (trie_db t1) m /\ committed blake3 L m (Some S)).
  { destruct Ht1 as (m & r & Hd & _ & _ & HC). eauto. }
  destruct HC as (m & Hd & HC).
  destruct (reload_spec blake3 L t1 m S Hd HC) as (t2 & E2 & Ht2 & _ & Hdb2).
  pose proof (trie_holds_root_hash blake3 L _ _ _ Ht2 HS) as Hr2.
  exists (set_trie t2 (set_messages_rx [] e)).
  erewrite st_bind_Ok by reflexivity. erewrite st_bind_Ok by reflexivity.
  erewrite st_bind_Ok by (apply unwrap_root_hash_Ok; exact Hr0).
  erewrite st_bind_Ok by (eapply st_ignore_Ok, on_trie_Ok; exact E1).
  erewrite st_bind_Ok by (apply unwrap_root_hash_Ok; exact Hr1).
  erewrite st_bind_Ok by (apply unwrap_items_Ok; exact Hi1).
  erewrite st_bind_Ok by (eapply st_unwrap_Ok, on_trie_Ok; exact E2).
  erewrite st_bind_Ok by (apply unwrap_root_hash_Ok; exact Hr2).
  split_and!; try done. simpl. congruence.
Qed.

Definition chunk_hashes (c : ShardChunk) : list bytes :=
  match transactions c with tx :: _ => map msg_hash (user_messages tx) | [] => [] end.

(** Committing a chunk whose root is the root of its messages. *)
Lemma commit_spec_ok e S chunk header n si :
  engine_holds e S -> chunk_header chunk = Some header -> transactions chunk ≠ [] ->
  shard_height header = Some (mkHeight si n) ->
  NoDup (chunk_hashes chunk) -> valid_keys L (S ∪ list_to_set (chunk_hashes chunk)) ->
  shard_root header = spec_root blake3 L (S ∪ list_to_set (chunk_hashes chunk)) ->
  exists e' m', commit_shard_chunk blake3 depth chunk e = (Ok tt, e') /\
    engine_holds e' (S ∪ list_to_set (chunk_hashes chunk)) /\
    holds (trie_db (trie e')) m' /\ m' !! make_shard_key n = Some (encode_to_vec chunk) /\
    messages_rx e' = messages_rx e /\ engine_shard_id e' = engine_shard_id e.
Proof.
  intros [Ht HS] Eh Htx Ehh Hnd Hv Hroot. unfold chunk_hashes in *.
  destruct (transactions chunk) as [|tx txs] eqn:Etx; [done|]. set (hashes := map msg_hash (user_messages tx)) in *.
  destruct (insert_spec blake3 blake3_length L depth depth_enough (trie e) _ S hashes Ht Hnd Hv) as (t1 & E1 & Ht1 & _).
  pose proof (union_nonempty S hashes HS) as HS'.
  pose proof (trie_holds_root_hash blake3 L _ _ _ Ht HS) as Hr0.
  pose proof (trie_holds_root_hash blake3 L _ _ _ Ht1 HS') as Hr1.
  destruct (MerkleTrie.commit_spec blake3 L t1 _ _ Ht1) as (t2 & E2 & Hr2 & _ & m & Hd & HC & _).
  destruct (reload_spec blake3 L t2 m _ Hd HC) as (t3 & E3 & Ht3 & _ & Hdb3).
  pose proof (trie_holds_root_hash blake3 L _ _ _ Ht3 HS') as Hr3.
  destruct (RocksDB_commit_holds (trie_db t3) m
    (Batch.put Batch.new (make_shard_key n) (encode_to_vec chunk))) as (d' & E4 & Hd' & _); [by rewrite Hdb3|].
  rewrite apply_batch_put, apply_batch_new in Hd'.
  assert (Eput : put_shard_chunk (trie_db t3) chunk = Ok d').
  { unfold put_shard_chunk, txn. rewrite Eh. simpl. rewrite Ehh. simpl. simpl in E4. by rewrite E4. }
  exists (set_trie (set_trie_db d' t3) e), (<[make_shard_key n := encode_to_vec chunk]> m). split_and!; try done.
  - unfold commit_shard_chunk. rewrite Eh, Etx. erewrite st_bind_Ok by reflexivity. erewrite st_bind_Ok by reflexivity.
    erewrite st_bind_Ok by (apply unwrap_root_hash_Ok; exact Hr0).
    erewrite st_bind_Ok by (eapply st_unwrap_Ok, on_trie_Ok; exact E1).
    erewrite st_bind_Ok by (apply unwrap_root_hash_Ok; exact Hr1).
    rewrite bool_decide_eq_true_2 by done.
    erewrite st_bind_Ok by (eapply st_unwrap_Ok, on_trie_Ok; exact E2).
    erewrite st_bind_Ok by (apply unwrap_root_hash_Ok; simpl; rewrite Hr2; exact Hr1).
    erewrite st_bind_Ok by (eapply st_unwrap_Ok, on_trie_Ok; exact E3).
    erewrite st_bind_Ok by (apply unwrap_root_hash_Ok; exact Hr3).
    eapply st_ignore_Ok. unfold store_put_shard_chunk. simpl. by rewrite Eput.
  - split; [|done]. simpl. eapply trie_holds_other_row; [exact Ht3|by rewrite Hdb3|exact Hd'|]. intros q Hq.
    symmetry in Hq. by apply node_key_not_shard in Hq.
  - by rewrite lookup_insert_eq.
Qed.

(** Committing a chunk with any other root panics before anything is
    written. *)
Lemma commit_spec_mismatch e S chunk header :
  engine_holds e S -> chunk_header chunk = Some header -> transactions chunk ≠ [] ->
  NoDup (chunk_hashes chunk) -> valid_keys L (S ∪ list_to_set (chunk_hashes chunk)) ->
  shard_root header ≠ spec_root blake3 L (S ∪ list_to_set (chunk_hashes chunk)) ->
  exists e', commit_shard_chunk blake3 depth chunk e = (Panic, e') /\ trie_db (trie e') = trie_db (trie e).
Proof.
  intros [Ht HS] Eh Htx Hnd Hv Hroot. unfold chunk_hashes in *.
  destruct (transactions chunk) as [|tx txs] eqn:Etx; [done|]. set (hashes := map msg_hash (user_messages tx)) in *.
  destruct (insert_spec blake3 blake3_length L depth depth_enough (trie e) _ S hashes Ht Hnd Hv) as (t1 & E1 & Ht1 & Hdb1 & _).
  pose proof (trie_holds_root_hash blake3 L _ _ _ Ht HS) as Hr0.
  pose proof (trie_holds_root_hash blake3 L _ _ _ Ht1 (union_nonempty S hashes HS)) as Hr1.
  exists (set_trie t1 e). split; [|done].
  unfold commit_shard_chunk. rewrite Eh, Etx. erewrite st_bind_Ok by reflexivity. erewrite st_bind_Ok by reflexivity.
  erewrite st_bind_Ok by (apply unwrap_root_hash_Ok; exact Hr0).
  erewrite st_bind_Ok by (eapply st_unwrap_Ok, on_trie_Ok; exact E1).
  erewrite st_bind_Ok by (apply unwrap_root_hash_Ok; exact Hr1).
  by rewrite bool_decide_eq_false_2 by congruence.
Qed.

(** Starting an engine on a store that holds no trie yet, or one. *)
Lemma initialize_loaded_spec (d : RocksDB T) m (C : gset bytes) :
  holds d m -> committed blake3 L m (Some C) ->
  exists t, initialize (new_with_db d) = (Ok tt, t) /\ trie_holds blake3 L t (Some C) C.
Proof using Type.
  intros Hd (b & n & Hb & Hdes & Hrr). unfold initialize, st_bind, st_get. cbn [db_owned new_with_db st_ret].
  unfold load_root, st_ret. change (make_primary_key [] None) with (node_key []).
  change (trie_db (new_with_db d)) with d. rewrite (RocksDB_get_holds d m) by done. simpl. rewrite Hb, Hdes. simpl.
  eexists. split; [done|]. exists m, n. simpl. rewrite apply_batch_new. split_and!; [done|done|done|]. exists b, n. done.
Qed.

Lemma engine_new_spec (d : RocksDB T) m (C : option (gset bytes)) shard :
  holds d m -> committed blake3 L m C ->
  let S := default ∅ C ∪ list_to_set [sentinel] in
  valid_keys L S ->
  exists e, ShardEngine_new blake3 depth shard d = Ok e /\ engine_holds e S /\ engine_shard_id e = shard.
Proof.
  intros Hd HC S Hv.
  assert (Hinit : exists t, initialize (new_with_db d) = (Ok tt, t) /\ trie_holds blake3 L t C (default ∅ C)).
  { destruct C as [C|]; simpl.
    - by eapply initialize_loaded_spec.
    - destruct (initialize_new_spec blake3 L d m Hd HC) as (t & E & Ht & _). eauto. }
  destruct Hinit as (t0 & E0 & Ht0).
  destruct (insert_spec blake3 blake3_length L depth depth_enough t0 C _ [sentinel] Ht0) as (t1 & E1 & Ht1 & _); [by apply NoDup_singleton|done|].
  destruct (MerkleTrie.commit_spec blake3 L t1 _ _ Ht1) as (t2 & E2 & _ & _ & m2 & Hd2 & HC2 & _).
  destruct (reload_spec blake3 L t2 m2 _ Hd2 HC2) as (t3 & E3 & Ht3 & _).
  exists (mkShardEngine shard [] t3). split_and!; [|split; [done|]|done].
  - unfold ShardEngine_new. erewrite st_bind_Ok by (eapply st_unwrap_Ok; exact E0).
    erewrite st_bind_Ok by (eapply st_unwrap_Ok; exact E1). erewrite st_bind_Ok by (eapply st_unwrap_Ok; exact E2).
    erewrite st_unwrap_Ok by exact E3. done.
  - unfold S. intros E. apply (not_elem_of_empty (C := gset bytes) sentinel). rewrite <- E.
    apply elem_of_union_r, elem_of_list_to_set. by left.
Qed.

End EngineSpec.

(** ** Properties *)
Section Properties.
Context {T T' : Type} `{TransactionDBLaws T} `{TransactionDBLaws T'}
  `{!Codec DbTrieNode, !Codec ShardChunk} {node_law : CodecLaw DbTrieNode} {chunk_law : CodecLaw ShardChunk}.
Variable blake3 : bytes -> bytes.
Variable L depth : nat.

(** C1. Replicas agree: two engines, over any two stores, that committed the
    same keys. One proposes its pending messages, whose hashes are distinct,
    long enough for keys and none the prefix of another key; when the chunk made
    of the proposed root and transactions is committed, both the other engine
    and the proposer accept it, end with the same keys and the same root, and
    have the chunk stored at its height. *)
Theorem replicas_agree (proposer : ShardEngine T) (follower : ShardEngine T') (S : gset bytes)
    (shard si n : Z) (hash parent : bytes) (time : Z)
    (Hblake : forall l, length (blake3 l) = 32) (Hdepth : L + 1 <= depth)
    (Hp : engine_holds blake3 L proposer S) (Hf : engine_holds blake3 L follower S)
    (Hnd : NoDup (map msg_hash (messages_rx proposer)))
    (Hv : valid_keys L (S ∪ list_to_set (map msg_hash (messages_rx proposer)))) :
  exists change proposer1 proposer2 follower2,
    propose_state_change blake3 depth shard proposer = (Ok change, proposer1) /\
    let header := mkShardHeader (Some (mkHeight si n)) time parent (new_state_root change) in
    let chunk := mkShardChunk (Some header) hash (state_transactions change) None in
    commit_shard_chunk blake3 depth chunk proposer1 = (Ok tt, proposer2) /\
    commit_shard_chunk blake3 depth chunk follower = (Ok tt, follower2) /\
    engine_holds blake3 L proposer2 (S ∪ list_to_set (map msg_hash (messages_rx proposer))) /\
    engine_holds blake3 L follower2 (S ∪ list_to_set (map msg_hash (messages_rx proposer))) /\
    root_hash (trie proposer2) = Ok (new_state_root change) /\
    root_hash (trie follower2) = Ok (new_state_root change) /\
    RocksDB_get (trie_db (trie proposer2)) (make_shard_key n) = Ok (Some (encode_to_vec chunk)) /\
    RocksDB_get (trie_db (trie follower2)) (make_shard_key n) = Ok (Some (encode_to_vec chunk)).
Proof.
  destruct (propose_spec blake3 Hblake L depth Hdepth proposer S shard Hp Hnd Hv) as (p1 & E1 & Hp1 & Hm1 & _).
  set (root := spec_root blake3 L (S ∪ list_to_set (map msg_hash (messages_rx proposer)))) in *.
  set (txs := [mkTransaction 1234 (messages_rx proposer) [] [5; 5; 6; 6]%Z]) in *.
  set (header := mkShardHeader (Some (mkHeight si n)) time parent root).
  set (chunk := mkShardChunk (Some header) hash txs None).
  destruct (commit_spec_ok blake3 Hblake L depth Hdepth p1 S chunk header n si Hp1) as (p2 & m2 & E2 & Hp2 & Hd2 & Hrow2 & _); try done.
  destruct (commit_spec_ok blake3 Hblake L depth Hdepth follower S chunk header n si Hf) as (f2 & mf & Ef & Hf2 & Hdf & Hrow & _); try done.
  exists (mkShardStateChange shard root txs), p1, p2, f2. split; [exact E1|].
  cbv zeta. split_and!; [exact E2|exact Ef|exact Hp2|exact Hf2| | | |].
  - exact (trie_holds_root_hash _ _ _ _ _ (proj1 Hp2) (proj2 Hp2)).
  - exact (trie_holds_root_hash _ _ _ _ _ (proj1 Hf2) (proj2 Hf2)).
  - rewrite (RocksDB_get_holds _ m2 _ Hd2). f_equal. exact Hrow2.
  - rewrite (RocksDB_get_holds _ mf _ Hdf). f_equal. exact Hrow.
Qed.

(** C24. Proposing changes nothing that is committed: the store is the one
    before, the trie stands for the committed keys again with its root hash,
    only the mempool is emptied. *)
Theorem propose_leaves_committed_state (e : ShardEngine T) (S : gset bytes) (shard : Z)
    (Hblake : forall l, length (blake3 l) = 32) (Hdepth : L + 1 <= depth)
    (He : engine_holds blake3 L e S) (Hnd : NoDup (map msg_hash (messages_rx e)))
    (Hv : valid_keys L (S ∪ list_to_set (map msg_hash (messages_rx e)))) :
  exists change e',
    propose_state_change blake3 depth shard e = (Ok change, e') /\
    new_state_root change = spec_root blake3 L (S ∪ list_to_set (map msg_hash (messages_rx e))) /\
    engine_holds blake3 L e' S /\ trie_db (trie e') = trie_db (trie e) /\
    root_hash (trie e') = root_hash (trie e) /\ messages_rx e' = [].
Proof.
  destruct (propose_spec blake3 Hblake L depth Hdepth e S shard He Hnd Hv) as (e1 & E1 & He1 & Hm1 & Hdb & _).
  eexists _, e1. split_and!; try done.
  by rewrite (trie_holds_root_hash _ _ _ _ _ (proj1 He1) (proj2 He1)), (trie_holds_root_hash _ _ _ _ _ (proj1 He) (proj2 He)).
Qed.

(** A chunk whose root is not the root of its messages is never
    committed: the engine panics and its store is unchanged. *)
Theorem commit_rejects_wrong_root (e : ShardEngine T) (S : gset bytes) (chunk : ShardChunk) (header : ShardHeader)
    (Hblake : forall l, length (blake3 l) = 32) (Hdepth : L + 1 <= depth)
    (He : engine_holds blake3 L e S) (Hh : chunk_header chunk = Some header) (Htx : transactions chunk ≠ [])
    (Hnd : NoDup (chunk_hashes chunk)) (Hv : valid_keys L (S ∪ list_to_set (chunk_hashes chunk)))
    (Hroot : shard_root header ≠ spec_root blake3 L (S ∪ list_to_set (chunk_hashes chunk))) :
  exists e', commit_shard_chunk blake3 depth chunk e = (Panic, e') /\ trie_db (trie e') = trie_db (trie e).
Proof. by eapply commit_spec_mismatch. Qed.

(** C23. A restart keeps the state: an engine created on the store of an
    engine that committed the keys [S], the sentinel among them, stands for
    [S] again and has the same root. *)
Theorem restart_keeps_state (e : ShardEngine T) (S : gset bytes) (shard : Z)
    (Hblake : forall l, length (blake3 l) = 32) (Hdepth : L + 1 <= depth)
    (He : engine_holds blake3 L e S) (Hs : sentinel ∈ S) (Hv : valid_keys L S) :
  exists e', ShardEngine_new blake3 depth shard (trie_db (trie e)) = Ok e' /\
    engine_holds blake3 L e' S /\ root_hash (trie e') = root_hash (trie e).
Proof.
  destruct He as [(m & r & Hd & Hr & Hrr & HC) HS].
  assert (HSs : default ∅ (Some S) ∪ list_to_set [sentinel] = S).
  { simpl. rewrite (right_id_L ∅ (∪)), (comm_L (∪)). by apply subseteq_union_1_L, singleton_subseteq_l. }
  destruct (engine_new_spec blake3 Hblake L depth Hdepth (trie_db (trie e)) m (Some S) shard Hd HC) as (e' & E & He' & _).
  { by rewrite HSs. }
  rewrite HSs in He'. exists e'. split_and!; [done|done|].
  rewrite (trie_holds_root_hash _ _ _ _ _ (proj1 He') (proj2 He')). symmetry.
  eapply (trie_holds_root_hash blake3 L); [|exact HS]. by exists m, r.
Qed.

End Properties.

(** The height of a shard store is not read from its chunks: it is read
    from the last row of the whole store, and rows of the trie, which share
    the store, come after those of all chunks. When rows after the chunks do
    not decode as chunks, the engine reports height 0 whatever was
    committed. *)
Theorem confirmed_height_reads_other_rows `{TransactionDBLaws T} `{!Codec ShardChunk}
    (e : ShardEngine T) (m : gmap bytes bytes) (k b : bytes)
    (Hd : holds (trie_db (trie e)) m) (Hk : m !! k = Some b)
    (Hlo : bytes_lt (make_shard_key (2 ^ 64 - 1)) k) (Hhi : bytes_lt k (replicate 32 255%Z))
    (Hdec : forall k' b', m !! k' = Some b' -> bytes_lt (make_shard_key (2 ^ 64 - 1)) k' ->
      exists err, decode (A := ShardChunk) b' = Err err) :
  shard_get_confirmed_height e = Ok (mkHeight (engine_shard_id e) 0).
Proof.
  unfold shard_get_confirmed_height, shard_max_block_number, shard_get_current_height, get_shard_page_by_prefix, get_page_by_prefix.
  rewrite (for_each_paged_holds _ m) by done. unfold height_page_options. rewrite visited_reverse.
  set (items := range_of m (make_shard_key 0) (replicate 32 255%Z)).
  change (range_of m (default [] (Some (make_shard_key 0))) (replicate 32 255%Z)) with items.
  assert (Hlow : bytes_lt (make_shard_key 0) (make_shard_key (2 ^ 64 - 1))) by (vm_compute; done).
  assert (Hin : (k, b) ∈ items).
  { apply elem_of_range_of. split; [done|]. split; [|done]. eauto with snap. }
  assert (Hlast : exists k1 b1 l, items = l ++ [(k1, b1)]).
  { destruct (exists_last (l := items)) as (l & [k1 b1] & E); [intros E; rewrite E in Hin; by apply elem_of_nil in Hin|]. eauto. }
  destruct Hlast as (k1 & b1 & l & E).
  assert (Hk1 : bytes_lt (make_shard_key (2 ^ 64 - 1)) k1 /\ m !! k1 = Some b1).
  { assert (Hin1 : (k1, b1) ∈ items) by (rewrite E; apply elem_of_app; right; by left).
    apply elem_of_range_of in Hin1 as [Hm1 _]. split; [|done].
    pose proof (range_of_sorted m (make_shard_key 0) (replicate 32 255%Z)) as Hs. fold items in Hs. rewrite E in Hs, Hin.
    apply elem_of_app in Hin as [Hin|Hin]; [|apply list_elem_of_singleton in Hin; by simplify_eq].
    apply (bytes_lt_trans _ k); [done|]. clear -Hs Hin. induction l as [|x l IH]; [by apply elem_of_nil in Hin|].
    apply StronglySorted_inv in Hs as [Hs Hx]. apply elem_of_cons in Hin as [<-|Hin]; [|by apply IH].
    rewrite Forall_forall in Hx. apply (Hx (k1, b1)), elem_of_app. right. by left. }
  destruct Hk1 as [Hgt Hm1]. destruct (Hdec k1 b1 Hm1 Hgt) as [err Eerr].
  rewrite E, reverse_snoc. cbn [iter_loop]. unfold page_callback at 1. by rewrite Eerr.
Qed.

Import MerkleTrie.Sample Block.BlockSample.

(** Concrete engines. *)
Module EngineSample.
(** Nodes and chunks have encodings that differ in a tag. *)
#[export] Instance chunk_codec : Codec ShardChunk := {|
  encode_to_vec c := [0%Z; Zpos (countable.encode c)];
  decode b := match b with
              | [0%Z; Zpos p] => match countable.decode p with Some c => Ok c | None => Err "malformed" end
              | _ => Err "malformed"
              end;
|}.
#[export] Instance chunk_codec_law : CodecLaw ShardChunk.
Proof. intros a. simpl. by rewrite countable.decode_encode. Qed.

Definition msg (a : Z) : Message :=
  mkMessage None [1; 2; 3; 4; 5; 6; 7; 8; 9; 10; a; 12; 13; 14; 15; 16; 17; 18; 19; 20]%Z 1 [] 1 [] None.

Definition new_engine : ShardEngine (gmap bytes bytes) :=
  match ShardEngine_new sample_blake3 21 1 (mkRocksDB (Some ∅) "x") with
  | Ok e => e
  | _ => mkShardEngine 1 [] sample_trie
  end.

Definition engine_keys : gset bytes := default ∅ None ∪ list_to_set [sentinel].

Lemma new_engine_holds : engine_holds sample_blake3 20 new_engine engine_keys.
Proof.
  destruct (engine_new_spec sample_blake3 sample_blake3_length 20 21 ltac:(lia) (mkRocksDB (Some (∅ : gmap bytes bytes)) "x") ∅ None 1)
    as (e & E & He & _); [apply holds_gmap|done|decide_now|]. unfold new_engine. by rewrite E.
Qed.

Definition proposing : ShardEngine (gmap bytes bytes) := send_message (msg 2) (send_message (msg 1) new_engine).

Lemma proposing_holds : engine_holds sample_blake3 20 proposing engine_keys.
Proof. unfold proposing, engine_holds. rewrite !send_message_trie. exact new_engine_holds. Qed.
End EngineSample.
Import EngineSample.

Lemma replicas_agree_witness :
  exists change proposer1 follower2,
    propose_state_change sample_blake3 21 1 proposing = (Ok change, proposer1) /\
    commit_shard_chunk sample_blake3 21
      (mkShardChunk (Some (mkShardHeader (Some (mkHeight 1 1)) 0 [] (new_state_root change))) [] (state_transactions change) None)
      new_engine = (Ok tt, follower2) /\
    root_hash (trie follower2) = Ok (new_state_root change).
Proof.
  destruct (replicas_agree sample_blake3 20 21 proposing new_engine engine_keys 1 1 1 [] [] 0 sample_blake3_length ltac:(lia)
    proposing_holds new_engine_holds) as (change & p1 & p2 & f2 & E1 & _ & E2 & _ & _ & _ & E3 & _ & _); [decide_now|decide_now|].
  exists change, p1, f2. split_and!; [exact E1|exact E2|exact E3].
Defined.

Lemma propose_leaves_committed_state_witness :
  exists change e', propose_state_change sample_blake3 21 1 proposing = (Ok change, e') /\ messages_rx e' = [].
Proof.
  destruct (propose_leaves_committed_state sample_blake3 20 21 proposing engine_keys 1 sample_blake3_length ltac:(lia)
    proposing_holds) as (change & e' & E & _ & _ & _ & _ & Hm); [decide_now|decide_now|].
  exists change, e'. split; [exact E|exact Hm].
Defined.

Definition wrong_chunk : ShardChunk :=
  mkShardChunk (Some (mkShardHeader None 0 [] [])) [] [mkTransaction 1234 [msg 1] [] []] None.

Lemma commit_rejects_wrong_root_witness :
  exists e', commit_shard_chunk sample_blake3 21 wrong_chunk new_engine = (Panic, e').
Proof.
  destruct (commit_rejects_wrong_root sample_blake3 20 21 new_engine engine_keys wrong_chunk (mkShardHeader None 0 [] [])
    sample_blake3_length ltac:(lia) new_engine_holds) as (e' & E & _);
    [reflexivity|discriminate|decide_now|decide_now|vm_compute; discriminate|].
  exists e'. exact E.
Defined.

Lemma restart_keeps_state_witness :
  exists e', ShardEngine_new sample_blake3 21 1 (trie_db (trie new_engine)) = Ok e' /\
    root_hash (trie e') = root_hash (trie new_engine).
Proof.
  destruct (restart_keeps_state sample_blake3 20 21 new_engine engine_keys 1 sample_blake3_length ltac:(lia)
    new_engine_holds) as (e' & E & _ & Hr); [decide_now|decide_now|].
  exists e'. split; [exact E|exact Hr].
Defined.

Definition chunk_at (n : Z) : ShardChunk := mkShardChunk (Some (mkShardHeader (Some (mkHeight 1 n)) 0 [] [])) [] [] None.
Definition root_row : bytes := encode_to_vec (mkDbTrieNode [] [1%Z] 1 []).
Definition shared_rows : gmap bytes bytes :=
  {[ make_shard_key 5 := encode_to_vec (chunk_at 5); [11%Z] := root_row ]}.

Lemma confirmed_height_reads_other_rows_witness :
  shard_get_confirmed_height (mkShardEngine 1 [] (new_with_db (mkRocksDB (Some shared_rows) "x"))) = Ok (mkHeight 1 0).
Proof.
  apply (confirmed_height_reads_other_rows (mkShardEngine 1 [] (new_with_db (mkRocksDB (Some shared_rows) "x")))
    shared_rows [11%Z] root_row).
  - apply holds_gmap.
  - vm_compute. reflexivity.
  - vm_compute. reflexivity.
  - vm_compute. reflexivity.
  - intros k b Hk Hlt. unfold shared_rows in Hk. apply lookup_insert_Some in Hk as [[<- <-]|[_ Hk]].
    + exfalso. revert Hlt. vm_compute. discriminate.
    + apply lookup_singleton_Some in Hk as [_ <-]. exists "malformed"%string. vm_compute. reflexivity.
Defined.

(** A message whose hash extends the ten bytes that an engine inserts at
    start makes proposing panic: the leaf of the sentinel is split at a
    position it does not have. *)
Theorem sentinel_prefix_panics :
  (propose_state_change sample_blake3 21 1
    (send_message (mkMessage None (sentinel ++ [1; 2; 3; 4; 5; 6; 7; 8; 9; 10]%Z) 1 [] 1 [] None) new_engine)).1 = Panic.
Proof. vm_compute. done. Qed.

(** After a chunk at height 5 was committed and is in the store, the
    confirmed height of the engine is still 0, while a block engine that
    committed the block of height 5 reports 5. *)
Theorem confirmed_height_after_commit :
  match propose_state_change sample_blake3 21 1 proposing with
  | (Ok change, p) =>
      let chunk := mkShardChunk (Some (mkShardHeader (Some (mkHeight 1 5)) 0 [] (new_state_root change))) []
                     (state_transactions change) None in
      match commit_shard_chunk sample_blake3 21 chunk p with
      | (Ok _, e2) =>
          match RocksDB_get (trie_db (trie e2)) (make_shard_key 5) with
          | Ok (Some b) => bool_decide (b = encode_to_vec chunk) = true
          | _ => False
          end /\
          shard_get_confirmed_height e2 = Ok (mkHeight 1 0)
      | _ => False
      end
  | _ => False
  end /\
  block_get_confirmed_height (commit_block (sample_block 5) (mkBlockEngine empty_store)).2 = Ok (mkHeight 0 5).
Proof. vm_compute. done. Qed.
