(* ===== verification/Timers.v ===== *)
(** * Consensus timers

    [src/consensus/timers.rs]. Each timer has a key and a generation; a timer
    that elapses sends a message with both, and the actor asks the scheduler
    whether the message is still current. The scheduler is composed here with
    the tasks that have not elapsed and with the mailbox of the actor, as a
    step relation, so that stale messages in the mailbox are possible. *)

From S2P Require Import Prelude.

(** [TimeoutElapsed] *)
Record TimeoutElapsed (Key : Type) := mkTimeoutElapsed { elapsed_key : Key; elapsed_generation : Z }.
Arguments mkTimeoutElapsed {Key} _ _.
Arguments elapsed_key {Key} _.
Arguments elapsed_generation {Key} _.

Section Timers.
Context {Key : Type} `{Countable Key}.

(** [Timer]; its task is known by the generation. *)
Record Timer := mkTimer { timer_key : Key; generation : Z }.

(** [TimerScheduler], with the tasks that [send_after] started and that
    neither elapsed nor were aborted: the message they will send, and when. *)
Record TimerScheduler := mkTimerScheduler {
  timers : gmap Key Timer;
  generations : Z;
  tasks : gmap Z (TimeoutElapsed Key * Z);
}.

Definition TimerScheduler_new : TimerScheduler := mkTimerScheduler ∅ 1 ∅.

(** [timer.task.abort()] *)
Definition abort (t : Timer) (s : TimerScheduler) : TimerScheduler :=
  mkTimerScheduler (timers s) (generations s) (delete (generation t) (tasks s)).

Definition cancel (key : Key) (s : TimerScheduler) : TimerScheduler :=
  match timers s !! key with
  | Some timer => abort timer (mkTimerScheduler (delete key (timers s)) (generations s) (tasks s))
  | None => s
  end.

(** [generations.next().expect(..)]: the counter panics at its maximum. *)
Definition start_timer (key : Key) (timeout : Z) (s : TimerScheduler) : result unit TimerScheduler :=
  let s := cancel key s in
  let gen := generations s in
  next ← add_u 64 gen 1;
  Ok (mkTimerScheduler (<[key := mkTimer key gen]> (timers s)) next
        (<[gen := (mkTimeoutElapsed key gen, timeout)]> (tasks s))).

Definition is_timer_active (key : Key) (s : TimerScheduler) : bool := bool_decide (is_Some (timers s !! key)).

Definition cancel_all (s : TimerScheduler) : TimerScheduler :=
  foldl (fun s kt => abort kt.2 s) (mkTimerScheduler ∅ (generations s) (tasks s)) (map_to_list (timers s)).

Definition intercept_timer_msg (timer_msg : TimeoutElapsed Key) (s : TimerScheduler) :
    option Key * TimerScheduler :=
  match timers s !! elapsed_key timer_msg with
  | None => (None, s)
  | Some timer =>
      if bool_decide (elapsed_generation timer_msg ≠ generation timer) then (None, s)
      else (Some (timer_key timer),
            mkTimerScheduler (delete (elapsed_key timer_msg) (timers s)) (generations s) (tasks s))
  end.

(** ** The scheduler with the mailbox *)
Record System := mkSystem { scheduler : TimerScheduler; mailbox : list (TimeoutElapsed Key) }.

Inductive event :=
| Start (key : Key) (timeout : Z)
| Cancel (key : Key)
| CancelAll
| Elapse (gen : Z)
| Receive (accepted : option Key).

Inductive step : System -> event -> System -> Prop :=
| step_start s mb k d s' : start_timer k d s = Ok s' -> step (mkSystem s mb) (Start k d) (mkSystem s' mb)
| step_cancel s mb k : step (mkSystem s mb) (Cancel k) (mkSystem (cancel k s) mb)
| step_cancel_all s mb : step (mkSystem s mb) CancelAll (mkSystem (cancel_all s) mb)
| step_elapse s mb g msg d :
    tasks s !! g = Some (msg, d) ->
    step (mkSystem s mb) (Elapse g)
      (mkSystem (mkTimerScheduler (timers s) (generations s) (delete g (tasks s))) (mb ++ [msg]))
| step_receive s mb msg r s' :
    intercept_timer_msg msg s = (r, s') -> step (mkSystem s (msg :: mb)) (Receive r) (mkSystem s' mb).

Inductive steps : System -> list event -> System -> Prop :=
| steps_nil s : steps s [] s
| steps_cons s e s1 es s2 : step s e s1 -> steps s1 es s2 -> steps s (e :: es) s2.

Definition initial : System := mkSystem TimerScheduler_new [].

(** ** Lemmas *)

Lemma abort_timers t s : timers (abort t s) = timers s.
Proof. done. Qed.

Lemma cancel_timers k s : timers (cancel k s) = delete k (timers s).
Proof. unfold cancel. destruct (timers s !! k) eqn:E; [done|]. by rewrite delete_id. Qed.

Lemma cancel_generations k s : generations (cancel k s) = generations s.
Proof. unfold cancel. by destruct (timers s !! k). Qed.

Lemma abort_all_keeps (l : list (Key * Timer)) s0 :
  timers (foldl (fun s kt => abort kt.2 s) s0 l) = timers s0 /\
  generations (foldl (fun s kt => abort kt.2 s) s0 l) = generations s0.
Proof. revert s0. induction l as [|x l IH]; intros s0; simpl; [done|]. by destruct (IH (abort x.2 s0)) as [-> ->]. Qed.

Lemma cancel_all_timers s : timers (cancel_all s) = ∅.
Proof. unfold cancel_all. by rewrite (proj1 (abort_all_keeps _ _)). Qed.

Lemma cancel_all_generations s : generations (cancel_all s) = generations s.
Proof. unfold cancel_all. by rewrite (proj2 (abort_all_keeps _ _)). Qed.

Lemma start_timer_inv k d s s' :
  start_timer k d s = Ok s' ->
  timers s' = <[k := mkTimer k (generations s)]> (timers s) /\ generations s' = (generations s + 1)%Z /\
  tasks s' = <[generations s := (mkTimeoutElapsed k (generations s), d)]> (tasks (cancel k s)).
Proof.
  unfold start_timer. rewrite cancel_generations. unfold add_u. case_match; [|done]. simpl. intros [= <-]. simpl.
  by rewrite cancel_timers, insert_delete_eq.
Qed.

Lemma intercept_None_timers msg s s' : intercept_timer_msg msg s = (None, s') -> s' = s.
Proof. unfold intercept_timer_msg. repeat case_match; naive_solver. Qed.

Lemma intercept_Some_inv msg s k s' :
  intercept_timer_msg msg s = (Some k, s') ->
  exists t, timers s !! elapsed_key msg = Some t /\ generation t = elapsed_generation msg /\ timer_key t = k /\
    timers s' = delete (elapsed_key msg) (timers s) /\ generations s' = generations s /\ tasks s' = tasks s.
Proof.
  unfold intercept_timer_msg. case_match eqn:E; [|done]. case_bool_decide as Hg; [done|].
  intros [= <- <-]. exists t. split_and!; try done.
Qed.

(** What every reachable state satisfies. *)
Record inv (s : System) : Prop := {
  inv_key : forall k t, timers (scheduler s) !! k = Some t -> timer_key t = k;
  inv_gen : forall k t, timers (scheduler s) !! k = Some t -> (generation t < generations (scheduler s))%Z;
  inv_task : forall g msg d, tasks (scheduler s) !! g = Some (msg, d) -> elapsed_generation msg = g;
}.

Lemma inv_initial : inv initial.
Proof. by split; intros *; simpl; rewrite lookup_empty. Qed.

Lemma tasks_cancel_subset k s : tasks (cancel k s) ⊆ tasks s.
Proof. unfold cancel. case_match; [|done]. simpl. apply delete_subseteq. Qed.

Lemma tasks_abort_all_subset (l : list (Key * Timer)) s0 :
  tasks (foldl (fun s kt => abort kt.2 s) s0 l) ⊆ tasks s0.
Proof.
  revert s0. induction l as [|x l IH]; intros s0; simpl; [done|]. etrans; [apply IH|]. simpl. apply delete_subseteq.
Qed.

Lemma tasks_cancel_all_subset s : tasks (cancel_all s) ⊆ tasks s.
Proof. unfold cancel_all. etrans; [apply tasks_abort_all_subset|]. done. Qed.

Lemma step_inv s e s' : step s e s' -> inv s -> inv s'.
Proof.
  intros Hs [Hkey Hgen Htask]. inversion Hs as [sc mb k d sc' E|sc mb k|sc mb|sc mb g msg d Eg|sc mb msg r sc' E]; subst; simpl in *.
  - apply start_timer_inv in E as (Et & Eg & Ek). split; simpl; rewrite ?Et, ?Eg, ?Ek.
    + intros k' t. rewrite lookup_insert_Some. naive_solver.
    + intros k' t. rewrite lookup_insert_Some. intros [[<- <-]|[_ Ht]]; [simpl; lia|]. specialize (Hgen k' t Ht). lia.
    + intros g msg d'. rewrite lookup_insert_Some. intros [[<- [= <- <-]]|[_ Ht]]; [done|].
      eapply Htask, lookup_weaken; [exact Ht|apply tasks_cancel_subset].
  - split; simpl; rewrite ?cancel_timers, ?cancel_generations.
    + intros k' t [_ Ht]%lookup_delete_Some. eauto.
    + intros k' t [_ Ht]%lookup_delete_Some. eauto.
    + intros g msg d Ht. eapply Htask, lookup_weaken; [exact Ht|apply tasks_cancel_subset].
  - split; simpl; rewrite ?cancel_all_timers, ?cancel_all_generations.
    + intros k' t. by rewrite lookup_empty.
    + intros k' t. by rewrite lookup_empty.
    + intros g msg d Ht. eapply Htask, lookup_weaken; [exact Ht|]. apply tasks_cancel_all_subset.
  - split; simpl; [done|done|]. intros g' msg' d' [_ Ht]%lookup_delete_Some. eauto.
  - destruct r as [k|]; [|apply intercept_None_timers in E; by subst].
    apply intercept_Some_inv in E as (t & _ & _ & _ & Et & Eg & Ek). split; simpl; rewrite ?Et, ?Eg, ?Ek; [..|done].
    + intros k' t' [_ Ht]%lookup_delete_Some. eauto.
    + intros k' t' [_ Ht]%lookup_delete_Some. eauto.
Qed.

(** Generation [g] of key [k] is over: the key has no timer, or a later one. *)
Definition over (k : Key) (g : Z) (s : TimerScheduler) : Prop :=
  (g < generations s)%Z /\ forall t, timers s !! k = Some t -> (g < generation t)%Z.

Lemma over_rejected k g s : over k g s -> intercept_timer_msg (mkTimeoutElapsed k g) s = (None, s).
Proof.
  intros [_ Ho]. unfold intercept_timer_msg. simpl. destruct (timers s !! k) as [t|] eqn:E; [|done].
  specialize (Ho t eq_refl). rewrite bool_decide_eq_true_2; [done|]. lia.
Qed.

Lemma step_over k g s e s' : step s e s' -> over k g (scheduler s) -> over k g (scheduler s').
Proof.
  intros Hs [Hlt Ho]. inversion Hs as [sc mb k' d sc' E|sc mb k'|sc mb|sc mb g' msg d Eg|sc mb msg r sc' E]; subst; simpl in *.
  - apply start_timer_inv in E as (Et & Eg & _). split; [lia|]. intros t. rewrite Et, lookup_insert_Some.
    intros [[<- <-]|[_ Ht]]; [done|auto].
  - split; [by rewrite cancel_generations|]. intros t. rewrite cancel_timers, lookup_delete_Some. naive_solver.
  - split; [by rewrite cancel_all_generations|]. intros t. by rewrite cancel_all_timers, lookup_empty.
  - done.
  - destruct r as [k'|]; [|apply intercept_None_timers in E; by subst].
    apply intercept_Some_inv in E as (t & _ & _ & _ & Et & Eg & _). split; [by rewrite Eg|].
    intros t'. rewrite Et, lookup_delete_Some. naive_solver.
Qed.

Lemma steps_over k g s es s' : steps s es s' -> over k g (scheduler s) -> over k g (scheduler s').
Proof. induction 1; [done|]. intros Ho. apply IHsteps. by eapply step_over. Qed.

Lemma steps_inv s es s' : steps s es s' -> inv s -> inv s'.
Proof. induction 1; [done|]. intros Hi. apply IHsteps. by eapply step_inv. Qed.

(** An event that ends the current timer of [k]. *)
Definition ends (k : Key) (e : event) : Prop :=
  match e with
  | Start k' _ => k' = k
  | Cancel k' => k' = k
  | CancelAll => True
  | Elapse _ => False
  | Receive r => r = Some k
  end.

Lemma ends_over k g s e s' :
  inv s -> step s e s' -> ends k e -> (g < generations (scheduler s))%Z -> over k g (scheduler s').
Proof.
  intros Hi Hs He Hg. destruct (steps_inv s [e] s') as [Hkey' _ _]; [by eapply steps_cons; [|constructor]|done|].
  inversion Hs as [sc mb k' d sc' E|sc mb k'|sc mb|sc mb g' msg d Eg|sc mb msg r sc' E]; subst; simpl in *; subst.
  - apply start_timer_inv in E as (Et & Eg & _). split; [lia|]. intros t. rewrite Et, lookup_insert_eq. by intros [= <-].
  - split; [by rewrite cancel_generations|]. intros t. by rewrite cancel_timers, lookup_delete_eq.
  - split; [by rewrite cancel_all_generations|]. intros t. by rewrite cancel_all_timers, lookup_empty.
  - done.
  - apply intercept_Some_inv in E as (t & Ht & _ & Hkt & Et & Eg & _). split; [by rewrite Eg|].
    destruct Hi as [Hkey _ _]. simpl in Hkey. rewrite (Hkey _ _ Ht) in Hkt. subst k. intros t'. by rewrite Et, lookup_delete_eq.
Qed.

(** An event that leaves the timer of [k] alone. *)
Lemma step_other k s e s' :
  inv s -> step s e s' -> ~ ends k e -> timers (scheduler s') !! k = timers (scheduler s) !! k.
Proof.
  intros Hi Hs He. inversion Hs as [sc mb k' d sc' E|sc mb k'|sc mb|sc mb g' msg d Eg|sc mb msg r sc' E]; subst; simpl in *.
  - apply start_timer_inv in E as (Et & _ & _). rewrite Et. by apply lookup_insert_ne.
  - rewrite cancel_timers. by apply lookup_delete_ne.
  - done.
  - done.
  - destruct r as [k'|]; [|apply intercept_None_timers in E; by subst].
    apply intercept_Some_inv in E as (t & Ht & _ & Hkt & Et & _ & _). rewrite Et. apply lookup_delete_ne.
    destruct Hi as [Hkey _ _]. simpl in Hkey. rewrite (Hkey _ _ Ht) in Hkt. intros E'. apply He. congruence.
Qed.

Lemma steps_other k s es s' :
  inv s -> steps s es s' -> Forall (fun e => ~ ends k e) es ->
  timers (scheduler s') !! k = timers (scheduler s) !! k.
Proof.
  intros Hi Hs. induction Hs as [s|s e s1 es s2 H1 H2 IH]; intros Hf; [done|].
  apply Forall_cons in Hf as [He Hf]. rewrite IH; [|by eapply step_inv|done]. by eapply step_other.
Qed.

End Timers.

Arguments System Key {_ _}.
Arguments TimerScheduler Key {_ _}.
Arguments event Key : clear implicits.

(** ** Properties *)
Section Properties.
Context {Key : Type} `{Countable Key}.
Implicit Types (s : System Key) (k : Key) (g : Z).

(** C34. No stale timeout: in every execution from the start, once the timer
    of a key was restarted, cancelled or has elapsed and was accepted, a
    message of any earlier generation of that key is discarded whenever it
    is received later, whatever happens in between. In particular a timeout
    is accepted at most once. *)
Theorem stale_timeouts_discarded (es es' : list (event Key)) (e : event Key) s s1 s2 k g
    (H1 : steps initial es s) (He : step s e s1) (Hk : ends k e)
    (Hg : (g < generations (scheduler s))%Z) (H2 : steps s1 es' s2) :
  intercept_timer_msg (mkTimeoutElapsed k g) (scheduler s2) = (None, scheduler s2).
Proof.
  apply over_rejected. eapply steps_over; [exact H2|]. eapply ends_over; [|exact He|exact Hk|exact Hg].
  eapply steps_inv; [exact H1|]. apply inv_initial.
Qed.

(** C35. A current timeout is accepted: after a timer was started, as long as
    its key is not restarted or cancelled and no message of it was accepted,
    the message of its generation is answered with its key, and the timer is
    then inactive. *)
Theorem current_timeout_accepted (es es' : list (event Key)) s s1 s2 k (d : Z)
    (H1 : steps initial es s) (He : step s (Start k d) s1) (H2 : steps s1 es' s2)
    (Hk : Forall (fun e => ~ ends k e) es') :
  is_timer_active k (scheduler s2) = true /\
  exists sc, intercept_timer_msg (mkTimeoutElapsed k (generations (scheduler s))) (scheduler s2) = (Some k, sc) /\
    is_timer_active k sc = false.
Proof.
  assert (Hi : inv s) by (eapply steps_inv; [exact H1|apply inv_initial]).
  assert (Hi1 : inv s1) by (by eapply step_inv).
  pose proof (steps_other k s1 es' s2 Hi1 H2 Hk) as E2.
  inversion He as [sc mb k' d' sc' E| | | |]; subst; simpl in *.
  apply start_timer_inv in E as (Et & _ & _). rewrite Et, lookup_insert_eq in E2.
  unfold is_timer_active, intercept_timer_msg. simpl. rewrite E2. split; [done|]. simpl.
  rewrite bool_decide_eq_false_2 by (intros Hn; by apply Hn). eexists. split; [done|]. simpl.
  rewrite lookup_delete_eq. apply bool_decide_eq_false_2. by intros [? ?].
Qed.

End Properties.

Definition timers_run1 : System Z := mkSystem (mkTimerScheduler {[ 7%Z := mkTimer 7%Z 1 ]} 2 {[ 1%Z := (mkTimeoutElapsed 7%Z 1, 50%Z) ]}) [].

Lemma stale_timeouts_discarded_witness :
  intercept_timer_msg (mkTimeoutElapsed 7%Z 1) (cancel 7%Z (scheduler timers_run1)) = (None, cancel 7%Z (scheduler timers_run1)).
Proof.
  apply (stale_timeouts_discarded [Start 7%Z 50%Z] [] (Cancel 7%Z) timers_run1 (mkSystem (cancel 7%Z (scheduler timers_run1)) [])
    (mkSystem (cancel 7%Z (scheduler timers_run1)) []) 7%Z 1).
  - eapply steps_cons; [|apply steps_nil]. apply step_start. vm_compute. reflexivity.
  - apply step_cancel.
  - reflexivity.
  - reflexivity.
  - apply steps_nil.
Defined.

Lemma current_timeout_accepted_witness : is_timer_active 7%Z (scheduler timers_run1) = true.
Proof.
  apply (current_timeout_accepted (Key := Z) [] [] initial timers_run1 timers_run1 7%Z 50%Z).
  - apply steps_nil.
  - apply step_start. vm_compute. reflexivity.
  - apply steps_nil.
  - constructor.
Defined.
