(* ===== verification/Types.v ===== *)
(** * Consensus types

    [src/core/types.rs]: heights, validators and the validator set, votes and
    proposals with their wire forms, and the context that the consensus
    library calls back for proposer selection, signing and verification.

    Rounds, signatures and keys belong to third-party libraries: [RoundOps]
    and [SigningOps] are what the code uses of them and [RoundLaws] and
    [SigningLaws] their documented behaviour. *)

From S2P Require Import Prelude Proto.

(** ** Comparisons *)

(** A comparison that decides a total order with equality as [Eq]. *)
Class Compare (A : Type) := compare : A -> A -> comparison.
Class CompareLaws (A : Type) `{Compare A} : Prop := {
  compare_eq (a b : A) : compare a b = Eq <-> a = b;
  compare_antisym (a b : A) : compare b a = CompOpp (compare a b);
  compare_lt_trans (a b c : A) : compare a b = Lt -> compare b c = Lt -> compare a c = Lt;
}.

#[export] Instance Z_compare : Compare Z := Z.compare.
#[export] Instance Z_compare_laws : CompareLaws Z.
Proof.
  split; unfold compare, Z_compare.
  - apply Z.compare_eq_iff.
  - intros a b. apply Z.compare_antisym.
  - intros a b c. rewrite !Z.compare_lt_iff. apply Z.lt_trans.
Qed.

#[export] Instance bytes_Compare : Compare bytes := lex_compare.
#[export] Instance bytes_compare_laws : CompareLaws bytes.
Proof. split; [apply lex_compare_eq|apply lex_compare_antisym|apply bytes_lt_trans]. Qed.

(** A [String] is compared by its bytes. *)
#[export] Instance string_Compare : Compare string := fun a b => lex_compare (string_bytes a) (string_bytes b).
#[export] Instance string_compare_laws : CompareLaws string.
Proof.
  split; unfold compare, string_Compare.
  - intros a b. rewrite lex_compare_eq. split; [apply string_bytes_inj|congruence].
  - intros a b. apply lex_compare_antisym.
  - intros a b c. apply bytes_lt_trans.
Qed.

(** [Option]: [None] comes first. *)
#[export] Instance option_Compare `{Compare A} : Compare (option A) := fun a b =>
  match a, b with
  | None, None => Eq
  | None, Some _ => Lt
  | Some _, None => Gt
  | Some a, Some b => compare a b
  end.
#[export] Instance option_compare_laws `{CompareLaws A} : CompareLaws (option A).
Proof.
  split; unfold compare, option_Compare.
  - intros [a|] [b|]; rewrite ?compare_eq; naive_solver.
  - intros [a|] [b|]; [apply compare_antisym|done..].
  - intros [a|] [b|] [c|]; try done. apply compare_lt_trans.
Qed.

(** Derived [Ord]: the fields in order. *)
#[export] Instance pair_Compare `{Compare A, Compare B} : Compare (A * B) := fun x y =>
  match compare x.1 y.1 with Eq => compare x.2 y.2 | c => c end.
#[export] Instance pair_compare_laws `{CompareLaws A, CompareLaws B} : CompareLaws (A * B).
Proof.
  split; unfold compare, pair_Compare.
  - intros [a b] [a' b']. simpl. destruct (compare a a') eqn:E; [rewrite compare_eq; apply compare_eq in E|..]; split; intros; try done.
    + by subst.
    + congruence.
    + simplify_eq. assert (E' : compare a' a' = Eq) by (by apply compare_eq). congruence.
    + simplify_eq. assert (E' : compare a' a' = Eq) by (by apply compare_eq). congruence.
  - intros [a b] [a' b']. simpl. rewrite (compare_antisym a a'). destruct (compare a a'); simpl; [apply compare_antisym|done..].
  - intros [a1 b1] [a2 b2] [a3 b3]. simpl. destruct (compare a1 a2) eqn:E1; [apply compare_eq in E1; subst| |done].
    + destruct (compare a2 a3); [apply compare_lt_trans|done..].
    + intros _. destruct (compare a2 a3) eqn:E2; [apply compare_eq in E2; subst| |done].
      * by rewrite E1.
      * by rewrite (compare_lt_trans a1 a2 a3).
Qed.

(** The order of a comparison through an injective key. *)
Section KeyOrder.
Context {A K : Type} `{CompareLaws K} (key : A -> K) (key_inj : forall a b, key a = key b -> a = b).

Definition key_le (a b : A) : Prop := compare (key a) (key b) ≠ Gt.

#[export] Instance key_le_dec a b : Decision (key_le a b).
Proof. unfold key_le. apply _. Defined.

Lemma key_le_total : Total key_le.
Proof. intros a b. unfold key_le. rewrite (compare_antisym (key a) (key b)). destruct (compare _ _); simpl; naive_solver. Qed.

Lemma key_le_trans : Transitive key_le.
Proof.
  intros a b c H1 H2. unfold key_le in *. destruct (compare (key a) (key b)) eqn:E1; [|clear H1|done].
  - apply compare_eq in E1. by rewrite E1.
  - destruct (compare (key b) (key c)) eqn:E2; [apply compare_eq in E2; rewrite <- E2, E1; done|clear H2|done].
    by rewrite (compare_lt_trans (key a) (key b) (key c)).
Qed.

Lemma key_le_antisym : AntiSymm eq key_le.
Proof.
  intros a b H1 H2. unfold key_le in *. rewrite (compare_antisym (key a) (key b)) in H2.
  destruct (compare (key a) (key b)) eqn:E; try done. apply key_inj. by apply compare_eq.
Qed.
End KeyOrder.

(** ** Heights *)
Definition Height_new (shard_index block_number : Z) : Height := mkHeight shard_index block_number.
Definition as_u64 (h : Height) : Z := block_number h.

(** Addition of [u64]s panics on overflow. *)
Definition increment_by (h : Height) (n : Z) : result unit Height :=
  b ← add_u 64 (block_number h) n; Ok (mkHeight (shard_index h) b).
Definition increment (h : Height) : result unit Height := increment_by h 1.

(** [checked_sub] *)
Definition decrement (h : Height) : option Height :=
  if (block_number h <? 1)%Z then None else Some (mkHeight (shard_index h) (block_number h - 1)).

Definition height_key (h : Height) : Z * Z := (shard_index h, block_number h).
Definition height_compare (a b : Height) : comparison := compare (height_key a) (height_key b).

(** ** Addresses *)

(** [Address([u8; 32])]; [from_vec] panics on any other length. *)
Definition Address_from_vec {E} (vec : bytes) : result E bytes := if length vec =? 32 then Ok vec else Panic.

Definition is_address (a : bytes) : Prop := length a = 32.

(** ** Full proposals *)
Definition fp_get_height {E} (p : FullProposal) : result E Height := unwrap (fp_height p).

Definition FullProposal_shard_hash {E} (p : FullProposal) : result E ShardHash :=
  match proposed_value p with
  | Some (PV_Block block) => h ← fp_get_height p; Ok (mkShardHash (shard_index h) (block_hash_ block))
  | Some (PV_Shard shard_chunk) => h ← fp_get_height p; Ok (mkShardHash (shard_index h) (chunk_hash shard_chunk))
  | None => Panic
  end.

Definition FullProposal_block (p : FullProposal) : option Block :=
  match proposed_value p with Some (PV_Block block) => Some block | _ => None end.
Definition FullProposal_shard_chunk (p : FullProposal) : option ShardChunk :=
  match proposed_value p with Some (PV_Shard chunk) => Some chunk | _ => None end.
Definition proposer_address {E} (p : FullProposal) : result E bytes := Address_from_vec (fp_proposer p).

(** ** Validators *)

(** [SnapchainValidator]; a public key is its bytes. *)
Record SnapchainValidator := mkSnapchainValidator {
  v_shard_index : Z;
  address : bytes;
  public_key : bytes;
  rpc_address : option string;
  current_height : Z;
}.

Definition SnapchainValidator_new (shard_index : Z) (public_key : bytes) (rpc_address : option string)
    (current_height : Z) : SnapchainValidator :=
  mkSnapchainValidator shard_index public_key public_key rpc_address current_height.

Definition voting_power (v : SnapchainValidator) : Z := 1.

(** The derived order. *)
Definition validator_key (v : SnapchainValidator) : Z * (bytes * (bytes * (option string * Z))) :=
  (v_shard_index v, (address v, (public_key v, (rpc_address v, current_height v)))).

Lemma validator_key_inj a b : validator_key a = validator_key b -> a = b.
Proof. destruct a, b. unfold validator_key. simpl. congruence. Qed.

Abbreviation validator_le := (key_le validator_key).

(** [SnapchainValidatorSet] is its vector of validators. *)
Definition SnapchainValidatorSet : Type := list SnapchainValidator.

Definition set_exists (set : SnapchainValidatorSet) (a : bytes) : bool :=
  existsb (fun v => bool_decide (address v = a)) set.

(** [add] *)
Definition set_add (set : SnapchainValidatorSet) (validator : SnapchainValidator) : bool * SnapchainValidatorSet :=
  if set_exists set (address validator) then (false, set)
  else if match set with [] => true | v0 :: _ => (v_shard_index v0 =? v_shard_index validator)%Z end
  then (true, merge_sort validator_le (set ++ [validator]))
  else (false, set).

Definition set_new (validators : list SnapchainValidator) : SnapchainValidatorSet :=
  foldl (fun set v => (set_add set v).2) [] validators.

Definition set_shard_id (set : SnapchainValidatorSet) : Z :=
  match set with [] => 0%Z | v0 :: _ => v_shard_index v0 end.

Definition set_count (set : SnapchainValidatorSet) : nat := length set.

Definition total_voting_power (set : SnapchainValidatorSet) : Z := foldl (fun s v => (s + voting_power v)%Z) 0%Z set.

Definition get_by_address (set : SnapchainValidatorSet) (a : bytes) : option SnapchainValidator :=
  List.find (fun v => bool_decide (address v = a)) set.

Definition get_by_index (set : SnapchainValidatorSet) (i : nat) : option SnapchainValidator := set !! i.

(** ** Rounds *)
Class RoundOps (Round : Type) := {
  Round_new : Z -> Round;
  as_i64 : Round -> Z;
  Round_Nil : Round;
  Round_eq_dec :: EqDecision Round;
}.

Class RoundLaws (Round : Type) `{RoundOps Round} : Prop := {
  Round_new_as_i64 (r : Round) : Round_new (as_i64 r) = r;
  as_i64_Round_new (z : Z) : (0 <= z)%Z -> as_i64 (Round_new z) = z;
  as_i64_Nil : as_i64 Round_Nil = (-1)%Z;
}.

(** A concrete type of rounds. *)
Definition sample_round_new (z : Z) : option N := if (z <? 0)%Z then None else Some (Z.to_N z).
#[export] Instance sample_rounds : RoundOps (option N) := {|
  Round_new := sample_round_new;
  as_i64 r := match r with None => (-1)%Z | Some n => Z.of_N n end;
  Round_Nil := None;
|}.
#[export] Instance sample_rounds_laws : RoundLaws (option N).
Proof.
  split; simpl; unfold sample_round_new.
  - intros [n|]; [|done]. destruct (Z.ltb_spec (Z.of_N n) 0); [lia|]. by rewrite N2Z.id.
  - intros z Hz. destruct (Z.ltb_spec z 0); [lia|]. lia.
  - done.
Qed.

(** ** Votes and proposals *)
Inductive VoteType := Prevote | Precommit.
Inductive NilOrVal (A : Type) := Nil_ | Val (a : A).
Arguments Nil_ {A}.
Arguments Val {A} a.

Section Votes.
Context {Round Extension : Type} `{RoundOps Round}.

Record Vote := mkVote {
  vote_type : VoteType;
  vote_height : Height;
  vote_round : Round;
  vote_shard_hash : NilOrVal ShardHash;
  voter : bytes;
  vote_extension : option Extension;
}.

Definition new_prevote (height : Height) (round : Round) (block_hash : NilOrVal ShardHash) (voter : bytes) : Vote :=
  mkVote Prevote height round block_hash voter None.
Definition new_precommit (height : Height) (round : Round) (value : NilOrVal ShardHash) (address : bytes) : Vote :=
  mkVote Precommit height round value address None.
Definition new_precommit_with_extension (height : Height) (round : Round) (value : NilOrVal ShardHash)
    (address : bytes) (extension : Extension) : Vote :=
  mkVote Precommit height round value address (Some extension).

(** [extend], and [extension], which always answers [None]. *)
Definition vote_extend (v : Vote) (extension : Extension) : Vote :=
  mkVote (vote_type v) (vote_height v) (vote_round v) (vote_shard_hash v) (voter v) (Some extension).
Definition extension (v : Vote) : option Extension := None.

Definition Vote_to_proto (v : Vote) : ProtoVote :=
  mkProtoVote (match vote_type v with Prevote => 0 | Precommit => 1 end)%Z (Some (vote_height v))
    (as_i64 (vote_round v))
    (match vote_shard_hash v with Nil_ => None | Val shard_hash => Some shard_hash end)
    (voter v).

Definition Vote_from_proto (proto : ProtoVote) : result unit Vote :=
  vote_type ← match pv_type proto with 0%Z => Ok Prevote | 1%Z => Ok Precommit | _ => Panic end;
  let shard_hash := match pv_value proto with None => Nil_ | Some value => Val value end in
  height ← unwrap (pv_height proto);
  voter ← Address_from_vec (pv_voter proto);
  Ok (mkVote vote_type height (Round_new (pv_round proto)) shard_hash voter None).

Definition Vote_to_sign_bytes `{!Codec ProtoVote} (v : Vote) : bytes := encode_to_vec (Vote_to_proto v).

Record Proposal := mkProposal {
  prop_height : Height;
  prop_round : Round;
  prop_shard_hash : ShardHash;
  prop_pol_round : Round;
  prop_proposer : bytes;
}.

Definition new_proposal (height : Height) (round : Round) (shard_hash : ShardHash) (pol_round : Round)
    (address : bytes) : Proposal := mkProposal height round shard_hash pol_round address.

Definition Proposal_to_proto (p : Proposal) : ProtoProposal :=
  mkProtoProposal (Some (prop_height p)) (as_i64 (prop_round p)) (as_i64 (prop_pol_round p))
    (prop_proposer p) (Some (prop_shard_hash p)).

Definition Proposal_from_proto (proto : ProtoProposal) : result unit Proposal :=
  height ← unwrap (pp_height proto);
  shard_hash ← unwrap (pp_value proto);
  proposer ← Address_from_vec (pp_proposer proto);
  Ok (mkProposal height (Round_new (pp_round proto)) shard_hash (Round_new (pp_pol_round proto)) proposer).

Definition Proposal_to_sign_bytes `{!Codec ProtoProposal} (p : Proposal) : bytes := encode_to_vec (Proposal_to_proto p).

(** ** The context *)

(** [select_proposer], with the checks of its assertions and the subtraction
    on [usize]. *)
Definition select_proposer (validator_set : SnapchainValidatorSet) (height : Height) (round : Round) :
    result unit SnapchainValidator :=
  if negb (0 <? length validator_set) then Panic
  else if negb (bool_decide (round ≠ Round_Nil) && (0 <=? as_i64 round)%Z) then Panic
  else
    h ← sub_u (as_u64 height) 1;
    s ← add_u 64 h (as_i64 round);
    let proposer_index := Z.to_nat (s mod Z.of_nat (length validator_set)) in
    unwrap (validator_set !! proposer_index).

End Votes.

Arguments Vote Round Extension : clear implicits.
Arguments Proposal Round : clear implicits.

(** Signatures: a key pair signs, a public key verifies. *)
Class SigningOps := {
  Keypair : Type;
  keypair_public : Keypair -> bytes;
  keypair_sign : Keypair -> bytes -> bytes;
  pk_verify : bytes -> bytes -> bytes -> bool;
}.
Class SigningLaws `{SigningOps} : Prop :=
  verify_sign (k : Keypair) (data : bytes) : pk_verify (keypair_public k) data (keypair_sign k data) = true.

Section Context_.
Context {Round Extension : Type} `{RoundOps Round} `{SigningOps} `{!Codec ProtoVote, !Codec ProtoProposal}.

Definition sign_vote (keypair : Keypair) (vote : Vote Round Extension) : Vote Round Extension * bytes :=
  (vote, keypair_sign keypair (Vote_to_sign_bytes vote)).

(** An invalid signature is a panic. *)
Definition verify_signed_vote (vote : Vote Round Extension) (signature public_key : bytes) : result unit bool :=
  let valid := pk_verify public_key (Vote_to_sign_bytes vote) signature in
  if negb valid then Panic else Ok valid.

Definition sign_proposal (keypair : Keypair) (proposal : Proposal Round) : Proposal Round * bytes :=
  (proposal, keypair_sign keypair (Proposal_to_sign_bytes proposal)).

Definition verify_signed_proposal (proposal : Proposal Round) (signature public_key : bytes) : result unit bool :=
  let valid := pk_verify public_key (Proposal_to_sign_bytes proposal) signature in
  if negb valid then Panic else Ok valid.

End Context_.

(** ** The validator set *)

#[export] Instance validator_le_total : Total validator_le.
Proof. apply key_le_total. Qed.
#[export] Instance validator_le_trans : Transitive validator_le.
Proof. apply key_le_trans. Qed.
#[export] Instance validator_le_antisym : AntiSymm eq validator_le.
Proof. apply key_le_antisym, validator_key_inj. Qed.

Lemma set_exists_spec set a : set_exists set a = true <-> a ∈ map address set.
Proof.
  unfold set_exists. rewrite existsb_exists. change (map ?f ?l) with (f <$> l). rewrite list_elem_of_fmap. split.
  - intros (v & Hv%list_elem_of_In & Ha%bool_decide_eq_true). eauto.
  - intros (v & -> & Hv). exists v. rewrite bool_decide_eq_true. by rewrite <- list_elem_of_In.
Qed.

(** The invariant: sorted, no address twice, one shard. *)
Definition set_wf (set : SnapchainValidatorSet) : Prop :=
  StronglySorted validator_le set /\ NoDup (map address set) /\
  (forall v w, v ∈ set -> w ∈ set -> v_shard_index v = v_shard_index w).

Lemma set_wf_nil : set_wf [].
Proof. split_and!; [constructor|constructor|]. by intros v w ?%elem_of_nil. Qed.

Lemma set_add_wf set v : set_wf set -> set_wf (set_add set v).2.
Proof.
  intros (Hs & Hnd & Hsh). unfold set_add. destruct (set_exists set (address v)) eqn:Ee; [done|].
  assert (Hnin : address v ∉ map address set) by (rewrite <- set_exists_spec, Ee; done).
  destruct (match set with [] => true | v0 :: _ => _ end) eqn:Esh; [|done]. simpl.
  assert (Hp : merge_sort validator_le (set ++ [v]) ≡ₚ set ++ [v]) by apply merge_sort_Permutation.
  assert (Hsame : forall w, w ∈ set -> v_shard_index w = v_shard_index v).
  { intros w Hw. destruct set as [|v0 set]; [by apply elem_of_nil in Hw|]. apply Z.eqb_eq in Esh. rewrite <- Esh.
    apply Hsh; [done|by left]. }
  split_and!.
  - apply StronglySorted_merge_sort; apply _.
  - change (map ?f ?l) with (f <$> l) in *. rewrite Hp, fmap_app. apply NoDup_app. split_and!; [done| |apply NoDup_singleton].
    intros a Ha ->%list_elem_of_singleton. done.
  - intros x y. rewrite !Hp, !elem_of_app, !list_elem_of_singleton.
    intros [Hx| ->] [Hy| ->]; [by apply Hsh|by apply Hsame|symmetry; by apply Hsame|done].
Qed.

Lemma set_new_wf l : set_wf (set_new l).
Proof.
  unfold set_new. assert (Hg : forall set, set_wf set -> set_wf (foldl (fun set v => (set_add set v).2) set l)).
  { induction l as [|v l IH]; intros set Hset; simpl; [done|]. by apply IH, set_add_wf. }
  apply Hg, set_wf_nil.
Qed.

Lemma set_add_fresh set v s :
  (forall w, w ∈ set -> v_shard_index w = s) -> v_shard_index v = s -> address v ∉ map address set ->
  set_add set v = (true, merge_sort validator_le (set ++ [v])).
Proof.
  intros Hs Hv Hnin. unfold set_add. destruct (set_exists set (address v)) eqn:E; [by apply set_exists_spec in E|].
  destruct set as [|v0 set]; [done|]. rewrite (proj2 (Z.eqb_eq _ _)); [done|]. rewrite Hv. apply Hs. by left.
Qed.

(** Registering validators of one shard with distinct addresses sorts them. *)
Lemma set_new_sorted l s :
  NoDup (map address l) -> (forall v, v ∈ l -> v_shard_index v = s) ->
  set_new l ≡ₚ l /\ StronglySorted validator_le (set_new l).
Proof.
  intros Hnd Hs. split; [|apply set_new_wf]. unfold set_new.
  assert (Hg : forall set, NoDup (map address (set ++ l)) -> (forall v, v ∈ set ++ l -> v_shard_index v = s) ->
    foldl (fun set v => (set_add set v).2) set l ≡ₚ set ++ l).
  { clear Hnd Hs. induction l as [|v l IH]; intros set Hnd Hs; simpl; [by rewrite app_nil_r|].
    rewrite (set_add_fresh set v s); simpl.
    - assert (Hp : merge_sort validator_le (set ++ [v]) ++ l ≡ₚ set ++ v :: l).
      { rewrite (merge_sort_Permutation validator_le). by rewrite <- app_assoc. }
      rewrite IH; [done| |].
      + change (map ?f ?l) with (f <$> l) in *. by rewrite Hp.
      + intros w. rewrite Hp. apply Hs.
    - intros w Hw. apply Hs, elem_of_app. by left.
    - apply Hs, elem_of_app. right. by left.
    - change (map ?f ?l) with (f <$> l) in *. rewrite fmap_app in Hnd. apply NoDup_app in Hnd as (_ & Hd & _).
      intros Hin. apply (Hd _ Hin). simpl. by left. }
  by apply Hg.
Qed.

Lemma get_by_address_In set v : NoDup (map address set) -> v ∈ set -> get_by_address set (address v) = Some v.
Proof.
  induction set as [|w set IH]; intros Hnd Hv; [by apply elem_of_nil in Hv|]. simpl.
  change (map ?f ?l) with (f <$> l) in Hnd. apply NoDup_cons in Hnd as [Hnin Hnd].
  case_bool_decide as Hw.
  - apply elem_of_cons in Hv as [->|Hv]; [done|]. destruct Hnin. rewrite Hw. by apply list_elem_of_fmap_2.
  - apply elem_of_cons in Hv as [->|Hv]; [done|]. by apply IH.
Qed.

(** ** Rotation *)

Lemma seq_mod_shift (n a : nat) : n ≠ 0 -> map (fun i => (a + i) mod n) (seq 0 n) ≡ₚ seq 0 n.
Proof.
  intros Hn. apply Permutation_sym, submseteq_length_Permutation.
  - apply NoDup_submseteq; [apply NoDup_seq|]. intros i Hi. apply elem_of_seq in Hi.
    change (map ?f ?l) with (f <$> l). apply list_elem_of_fmap.
    exists ((i + (n - a mod n)) mod n). split.
    + rewrite Nat.Div0.add_mod_idemp_r. rewrite <- (Nat.Div0.add_mod_idemp_l a).
      pose proof (Nat.mod_upper_bound a n Hn).
      replace (a mod n + (i + (n - a mod n))) with (i + 1 * n) by lia.
      rewrite Nat.Div0.mod_add. symmetry. apply Nat.mod_small. lia.
    + apply elem_of_seq. pose proof (Nat.mod_upper_bound (i + (n - a mod n)) n Hn). lia.
  - by rewrite length_map.
Qed.

Lemma lookup_all {A} (l : list A) : omap (fun i => l !! i) (seq 0 (length l)) = l.
Proof.
  assert (Hg : forall (k p : list A), omap (fun i => (p ++ k) !! i) (seq (length p) (length k)) = k).
  { induction k as [|x k IH]; intros p; csimpl; [done|].
    rewrite lookup_app_r, Nat.sub_diag by lia. simpl. f_equal.
    specialize (IH (p ++ [x])). rewrite <- app_assoc in IH. simpl in IH. rewrite length_app in IH. simpl in IH.
    replace (length p + 1) with (S (length p)) in IH by lia. exact IH. }
  apply (Hg l []).
Qed.

Section Select.
Context {Round : Type} `{RoundLaws Round}.

Lemma select_proposer_index (set : SnapchainValidatorSet) (s b r : Z) :
  set ≠ [] -> (1 <= b)%Z -> (0 <= r)%Z -> (b - 1 + r < 2 ^ 64)%Z ->
  select_proposer set (mkHeight s b) (Round_new r) =
  unwrap (set !! Z.to_nat ((b - 1 + r) mod Z.of_nat (length set))).
Proof.
  intros Hne Hb Hr Hsz. unfold select_proposer, as_u64. simpl block_number. rewrite as_i64_Round_new by done.
  destruct set as [|v set]; [done|]. simpl negb at 1. cbv iota.
  rewrite (proj2 (Z.leb_le 0 r)) by done. rewrite bool_decide_eq_true_2.
  2:{ intros E. apply (f_equal as_i64) in E. rewrite as_i64_Round_new, as_i64_Nil in E by done. lia. }
  simpl negb. cbv iota. unfold sub_u. rewrite (proj2 (Z.ltb_ge b 1)) by lia. simpl mbind.
  unfold add_u. rewrite (proj2 (Z.ltb_lt _ _)) by lia. done.
Qed.

End Select.

(** ** The wire *)
Section Wire.
Context {Round Extension : Type} `{RoundLaws Round}.

Lemma Vote_roundtrip (v : Vote Round Extension) :
  is_address (voter v) ->
  Vote_from_proto (Extension := Extension) (Vote_to_proto v) =
    Ok (mkVote (vote_type v) (vote_height v) (vote_round v) (vote_shard_hash v) (voter v) None).
Proof.
  unfold is_address, Vote_from_proto, Vote_to_proto, Address_from_vec. intros Hv. destruct v as [ty h r sh a ext]. simpl in *.
  rewrite Hv. simpl. rewrite Round_new_as_i64. by destruct ty, sh.
Qed.

Lemma Proposal_roundtrip (p : Proposal Round) :
  is_address (prop_proposer p) -> Proposal_from_proto (Proposal_to_proto p) = Ok p.
Proof.
  unfold is_address, Proposal_from_proto, Proposal_to_proto, Address_from_vec. intros Hp. destruct p. simpl in *.
  rewrite Hp. simpl. by rewrite !Round_new_as_i64.
Qed.
End Wire.

(** ** Properties *)

(** C38. The validator set is the same on every node whatever the order of
    registration: for validators of one shard with distinct addresses, any
    two orders give the same sorted list, which has every validator. *)
Theorem validator_set_order_independent (l1 l2 : list SnapchainValidator) (s : Z)
    (Hp : l1 ≡ₚ l2) (Hnd : NoDup (map address l1)) (Hs : forall v, v ∈ l1 -> v_shard_index v = s) :
  set_new l1 = set_new l2 /\ set_new l1 ≡ₚ l1.
Proof.
  destruct (set_new_sorted l1 s Hnd Hs) as [Hp1 Hs1]. split; [|done].
  destruct (set_new_sorted l2 s) as [Hp2 Hs2].
  - change (map ?f ?l) with (f <$> l) in *. by rewrite <- Hp.
  - intros v. rewrite <- Hp. apply Hs.
  - eapply (StronglySorted_unique validator_le); [done|done|]. by rewrite Hp1, Hp2.
Qed.

(** Whatever validators are added in whatever order, the set stays sorted,
    has no address twice and is of one shard; every member is found by its
    address and the total voting power is the number of members. *)
Theorem validator_set_invariant (l : list SnapchainValidator) :
  let set := set_new l in
  StronglySorted validator_le set /\ NoDup (map address set) /\
  (forall v, v ∈ set -> v_shard_index v = set_shard_id set) /\
  (forall v, v ∈ set -> get_by_address set (address v) = Some v) /\
  total_voting_power set = Z.of_nat (set_count set).
Proof.
  destruct (set_new_wf l) as (H1 & H2 & H3). intros set. split_and!; [done|done| | |].
  - intros v Hv. unfold set_shard_id. destruct set as [|v0 set'] eqn:E; [by apply elem_of_nil in Hv|].
    apply H3; fold set; rewrite E; [done|by left].
  - intros v Hv. by apply get_by_address_In.
  - unfold total_voting_power, set_count, voting_power. clearbody set. clear.
    assert (Hg : forall s, foldl (fun s (v : SnapchainValidator) => (s + 1)%Z) s set = (s + Z.of_nat (length set))%Z).
    { induction set as [|v set IH]; intros s; simpl; [lia|]. rewrite IH. lia. }
    rewrite Hg. lia.
Qed.

(** C37. Proposer selection rotates: in any window of as many consecutive
    rounds as there are validators, at any height from 1 on, every round has
    a proposer and the proposers are the validators, each exactly once. *)
Theorem select_proposer_rotates {Round : Type} `{RoundLaws Round} (set : SnapchainValidatorSet) (s b r : Z)
    (Hne : set ≠ []) (Hb : (1 <= b)%Z) (Hr : (0 <= r)%Z)
    (Hsz : (b - 1 + r + Z.of_nat (length set) <= 2 ^ 64)%Z) :
  exists proposers : list SnapchainValidator,
    map (fun i => select_proposer set (mkHeight s b) (Round_new (r + Z.of_nat i))) (seq 0 (length set)) = map Ok proposers /\
    proposers ≡ₚ set.
Proof.
  set (n := length set). set (a := Z.to_nat (b - 1 + r)).
  assert (Hn : n ≠ 0) by (unfold n; by destruct set).
  exists (omap (fun i => set !! i) (map (fun i => (a + i) mod n) (seq 0 n))). split.
  - set (g := fun i => (a + i) mod n). assert (Hsel : forall i, i < n -> select_proposer set (mkHeight s b) (Round_new (r + Z.of_nat i)) =
      unwrap (set !! g i)).
    { intros i Hi. unfold g. rewrite select_proposer_index; [|done|done|lia|unfold n in *; lia]. fold n. do 2 f_equal.
      apply Nat2Z.inj. rewrite Nat2Z.inj_mod, Z2Nat.id by (apply Z.mod_pos_bound; lia).
      unfold a. rewrite Nat2Z.inj_add, Z2Nat.id by lia. f_equal. lia. }
    assert (Hmod : forall i, g i < n) by (intros i; by apply Nat.mod_upper_bound).
    assert (Hseq : Forall (fun i => i < n) (seq 0 n)) by (apply Forall_forall; intros i Hi%elem_of_seq; lia).
    clearbody g. revert Hseq. generalize (seq 0 n) as l.
    induction l as [|i l IH]; intros Hl; csimpl; [done|]. apply Forall_cons in Hl as [Hi Hl].
    rewrite Hsel by done. destruct (lookup_lt_is_Some_2 (set : list SnapchainValidator) (g i)) as [v Hv]; [by apply Hmod|].
    unfold SnapchainValidatorSet in *. rewrite Hv.
    simpl. f_equal. by apply IH.
  - rewrite seq_mod_shift by done. unfold n, SnapchainValidatorSet in *. by rewrite (lookup_all set).
Qed.

(** C40. A vote survives its wire form up to the extension, and a proposal
    survives it entirely: decoding what was encoded gives it back. *)
Theorem wire_roundtrip {Round Extension : Type} `{RoundLaws Round} (v : Vote Round Extension) (p : Proposal Round)
    (Hv : is_address (voter v)) (Hp : is_address (prop_proposer p)) :
  Vote_from_proto (Extension := Extension) (Vote_to_proto v) =
    Ok (mkVote (vote_type v) (vote_height v) (vote_round v) (vote_shard_hash v) (voter v) None) /\
  Proposal_from_proto (Proposal_to_proto p) = Ok p.
Proof.
  split; [by apply Vote_roundtrip|by apply Proposal_roundtrip].
Qed.

(** What is signed determines the vote: two votes with the same bytes to
    sign differ at most in their extension, and the signature a key pair makes
    verifies; proposals with the same bytes to sign are equal. *)
Theorem signed_bytes_bind {Round Extension : Type} `{RoundLaws Round} `{SigningLaws}
    `{!Codec ProtoVote, !Codec ProtoProposal} {vote_law : CodecLaw ProtoVote} {proposal_law : CodecLaw ProtoProposal}
    (k : Keypair) (v1 v2 : Vote Round Extension) (p1 p2 : Proposal Round) :
  (Vote_to_sign_bytes v1 = Vote_to_sign_bytes v2 ->
    vote_type v1 = vote_type v2 /\ vote_height v1 = vote_height v2 /\ vote_round v1 = vote_round v2 /\
    vote_shard_hash v1 = vote_shard_hash v2 /\ voter v1 = voter v2) /\
  (Proposal_to_sign_bytes p1 = Proposal_to_sign_bytes p2 -> p1 = p2) /\
  verify_signed_vote v1 (sign_vote k v1).2 (keypair_public k) = Ok true /\
  verify_signed_proposal p1 (sign_proposal k p1).2 (keypair_public k) = Ok true.
Proof.
  assert (Hround : forall r r' : Round, as_i64 r = as_i64 r' -> r = r').
  { intros r r' E. rewrite <- (Round_new_as_i64 r), <- (Round_new_as_i64 r'). congruence. }
  split_and!.
  - intros E%(f_equal (decode (A := ProtoVote))). unfold Vote_to_sign_bytes in E. rewrite !decode_encode in E.
    destruct v1 as [ty1 h1 r1 sh1 a1 e1], v2 as [ty2 h2 r2 sh2 a2 e2]. unfold Vote_to_proto in E. simpl in E.
    injection E as E1 E2 E3 E4 E5. simpl. split_and!; [by destruct ty1, ty2|done|by apply Hround|by destruct sh1, sh2; simplify_eq|done].
  - intros E%(f_equal (decode (A := ProtoProposal))). unfold Proposal_to_sign_bytes in E. rewrite !decode_encode in E.
    destruct p1, p2. unfold Proposal_to_proto in E. simpl in E. injection E as E1 E2 E3 E4 E5.
    apply Hround in E2, E3. congruence.
  - unfold verify_signed_vote, sign_vote. simpl. by rewrite verify_sign.
  - unfold verify_signed_proposal, sign_proposal. simpl. by rewrite verify_sign.
Qed.

Module TypesSample.
#[export] Instance vote_codec : Codec ProtoVote := countable_codec ProtoVote.
#[export] Instance vote_codec_law : CodecLaw ProtoVote := countable_codec_law ProtoVote.
#[export] Instance proposal_codec : Codec ProtoProposal := countable_codec ProtoProposal.
#[export] Instance proposal_codec_law : CodecLaw ProtoProposal := countable_codec_law ProtoProposal.

#[export] Instance sample_signing : SigningOps := {|
  Keypair := bytes;
  keypair_public k := k;
  keypair_sign k data := k ++ data;
  pk_verify pk data sig := bool_decide (sig = pk ++ data);
|}.
#[export] Instance sample_signing_laws : SigningLaws.
Proof. intros k data. simpl. by apply bool_decide_eq_true_2. Qed.

Definition sample_address (a : Z) : bytes := be_bytes 32 a.
Definition sample_keypair : Keypair := sample_address 5.
Definition sample_validator (a : Z) : SnapchainValidator := SnapchainValidator_new 1 (sample_address a) None 0.
Definition sample_vote : Vote (option N) unit :=
  new_prevote (mkHeight 1 2) (Some 3%N) (Val (mkShardHash 1 [4]%Z)) (sample_address 5).
Definition sample_proposal : Proposal (option N) :=
  new_proposal (mkHeight 1 2) (Some 3%N) (mkShardHash 1 [4]%Z) None (sample_address 5).
End TypesSample.
Import TypesSample.

Lemma validator_set_order_independent_witness :
  set_new [sample_validator 2; sample_validator 1] = set_new [sample_validator 1; sample_validator 2].
Proof.
  apply (validator_set_order_independent [sample_validator 2; sample_validator 1] [sample_validator 1; sample_validator 2] 1).
  - apply Permutation_swap.
  - decide_now.
  - intros v Hv. apply elem_of_cons in Hv as [->|Hv]; [reflexivity|].
    apply list_elem_of_singleton in Hv as ->. reflexivity.
Defined.

Lemma select_proposer_rotates_witness :
  exists proposers : list SnapchainValidator,
    map (fun i => select_proposer (Round := option N) [sample_validator 1; sample_validator 2] (mkHeight 1 1) (Round_new (0 + Z.of_nat i)))
      (seq 0 2) = map Ok proposers.
Proof.
  destruct (select_proposer_rotates (Round := option N) [sample_validator 1; sample_validator 2] 1 1 0) as (ps & E & _).
  - discriminate.
  - lia.
  - lia.
  - simpl. lia.
  - exists ps. exact E.
Defined.

Lemma wire_roundtrip_witness :
  Vote_from_proto (Round := option N) (Extension := unit) (Vote_to_proto sample_vote) = Ok sample_vote /\
  Proposal_from_proto (Proposal_to_proto sample_proposal) = Ok sample_proposal.
Proof. apply (wire_roundtrip sample_vote sample_proposal); reflexivity. Defined.

Lemma signed_bytes_bind_witness :
  verify_signed_vote sample_vote (sign_vote sample_keypair sample_vote).2 (keypair_public sample_keypair) = Ok true.
Proof. apply (signed_bytes_bind sample_keypair sample_vote sample_vote sample_proposal sample_proposal). Defined.
