(* ===== verification/Identity.v ===== *)
(** * Names, traits and the rest of the core types

    What [src/core/types.rs] has besides [Types.v]: the printed forms of
    addresses, hashes and heights, which name nodes and actors in
    [src/node/snapchain_node.rs] and [src/consensus/consensus.rs], and the
    traits of the consensus library ([malachite_common]) that votes, proposals
    and parts of proposals implement. [hex] is [hex::encode]. *)

From S2P Require Import Prelude Text Util Db Proto Types.

(** ** Shards *)
Definition SnapchainShard : Type := Z.
Definition SnapchainShard_new (id : Z) : SnapchainShard := id.
Definition SnapchainShard_shard_id (s : SnapchainShard) : Z := s.

(** ** Printed forms *)
Lemma length_substring n s : n <= String.length s -> String.length (String.substring 0 n s) = n.
Proof. revert s. induction n as [|n IH]; intros [|c s] Hn; simpl in *; try lia; auto with lia. Qed.

Section Names.
Context (hex : bytes -> string).

Definition Address_to_hex (a : bytes) : string := hex a.
Definition Address_to_vec (a : bytes) : bytes := a.

(** [&s[0..n]]: a string that is shorter panics. *)
Definition str_prefix {E} (s : string) (n : nat) : result E string :=
  if n <=? String.length s then Ok (String.substring 0 n s) else Panic.

Definition Address_prefix {E} (a : bytes) : result E string := p ← str_prefix (Address_to_hex a) 4; Ok ("0x" +:+ p).

(** [Display] and [Debug] *)
Definition Address_display (a : bytes) : string := Address_to_hex a.
Definition Address_debug (a : bytes) : string := "Address(" +:+ Address_display a +:+ ")".
Definition Hash_display (hash : bytes) : string := "Hash(" +:+ hex hash +:+ ")".
Definition InvalidSignatureError_display : string := "Invalid signature".
Definition Height_display (h : Height) : string := "[" +:+ print_uint (shard_index h) +:+ "] " +:+ print_uint (block_number h).

(** [{:?}] of a string of hexadecimal digits puts it into quotation marks. *)
Definition quote : string := String (Ascii.ascii_of_N 34) "".
Definition ShardHash_display (h : ShardHash) : string :=
  "[" +:+ print_uint (sh_shard_index h) +:+ "] " +:+ quote +:+ hex (sh_hash h) +:+ quote.

(** [SnapchainNode::id], and the name of an actor in [pre_start]. *)
Definition node_id {E} (address : bytes) : result E string := Address_prefix address.

Definition actor_name {E} (address : bytes) (shard : SnapchainShard) : result E string :=
  address_prefix ← Address_prefix address;
  Ok (if (SnapchainShard_shard_id shard =? 0)%Z then address_prefix +:+ " Block"
      else address_prefix +:+ " Shard " +:+ print_uint (SnapchainShard_shard_id shard)).

(** Two digits for each byte, as documented. *)
Context (hex_length : forall b, String.length (hex b) = 2 * length b).

(** The names of a node with an address of 32 bytes exist: no start panics on
    the way to them. *)
Theorem node_names_exist (address : bytes) (shard : SnapchainShard) (Ha : is_address address) :
  exists p, String.length p = 6 /\ node_id (E := string) address = Ok p /\ exists n, actor_name (E := string) address shard = Ok n.
Proof using hex_length.
  unfold node_id, actor_name, Address_prefix, str_prefix, Address_to_hex.
  assert (Hl : 4 <= String.length (hex address)) by (rewrite hex_length, Ha; lia).
  rewrite (proj2 (Nat.leb_le _ _) Hl). exists ("0x" +:+ String.substring 0 4 (hex address)).
  split_and!; [|done|by eexists]. change (2 + String.length (String.substring 0 4 (hex address)) = 6).
  by rewrite length_substring.
Qed.
End Names.

(** ** Traits of the consensus library *)
Section Traits.
Context {Round Extension : Type} `{RoundOps Round}.

(** [malachite_common::Proposal] *)
Class ProposalTrait (P : Type) := {
  proposal_height : P -> Height;
  proposal_round : P -> Round;
  proposal_value : P -> ShardHash;
  proposal_take_value : P -> ShardHash;
  proposal_pol_round : P -> Round;
  proposal_validator_address : P -> bytes;
}.

#[export] Instance Proposal_trait : ProposalTrait (Proposal Round) := {|
  proposal_height := prop_height;
  proposal_round := prop_round;
  proposal_value := prop_shard_hash;
  proposal_take_value := prop_shard_hash;
  proposal_pol_round := prop_pol_round;
  proposal_validator_address := prop_proposer;
|}.

(** [malachite_common::Vote] *)
Class VoteTrait (W : Type) := {
  trait_height : W -> Height;
  trait_round : W -> Round;
  trait_value : W -> NilOrVal ShardHash;
  trait_take_value : W -> NilOrVal ShardHash;
  trait_vote_type : W -> VoteType;
  trait_validator_address : W -> bytes;
  trait_extension : W -> option Extension;
  trait_extend : W -> Extension -> W;
}.

#[export] Instance Vote_trait : VoteTrait (Vote Round Extension) := {|
  trait_height := vote_height;
  trait_round := vote_round;
  trait_value := vote_shard_hash;
  trait_take_value := vote_shard_hash;
  trait_vote_type := vote_type;
  trait_validator_address := voter;
  trait_extension := extension;
  trait_extend := vote_extend;
|}.

(** Parts of proposals: there is one part, the whole proposal. *)
Record SinglePartProposal := mkSinglePartProposal { spp_height : Height; spp_proposal_round : Round; spp_proposer : bytes }.
Inductive ProposalPart := FullProposal_ (p : SinglePartProposal).
Definition is_first (p : ProposalPart) : bool := true.
Definition is_last (p : ProposalPart) : bool := true.

Definition FullProposal_round (p : FullProposal) : Round := Round_new (fp_round p).

(** [todo!()] *)
Definition decode_signature (b : bytes) : result unit bytes := Panic.
Definition encode_signature (signature : bytes) : result unit bytes := Panic.
Definition verify_signed_proposal_part (p : ProposalPart) (signature public_key : bytes) : result unit bool := Panic.

Definition sign_proposal_part (p : ProposalPart) : ProposalPart * bytes := (p, []).

(** The context of a validator is its key pair. *)
Definition SnapchainValidatorContext `{SigningOps} : Type := Keypair.
Definition context_public_key `{SigningOps} (c : SnapchainValidatorContext) : bytes := keypair_public c.

(** The trait gives back what a vote was made of, except the extension: the
    accessor answers none, also after [extend]. *)
Theorem vote_accessors (v : Vote Round Extension) (e : Extension) :
  let v' := trait_extend v e in
  trait_height v' = trait_height v /\ trait_round v' = trait_round v /\ trait_value v' = trait_value v /\
  trait_vote_type v' = trait_vote_type v /\ trait_validator_address v' = trait_validator_address v /\
  Vote_to_proto v' = Vote_to_proto v /\ vote_extension v' = Some e /\ trait_extension v' = None.
Proof using Type. done. Qed.
End Traits.
