(* ===== verification/Proposer.v ===== *)
(** * Proposers

    [src/consensus/proposer.rs]. The shard proposer makes chunks from the
    pending messages of its engine and commits the decided ones; the block
    proposer collects the chunks of a height from the shards, makes blocks and
    publishes the decided ones. Channels are the lists of what was sent and
    not received; the passing of time is a schedule of events. *)

From S2P Require Import Prelude Util Db Proto TrieNode TrieSpec TrieInsert MerkleTrie Block Engine Types.

Definition FARCASTER_EPOCH : Z := 1609459200.

(** [current_time], from the seconds since the Unix epoch. *)
Definition current_time {E} (unix_seconds : Z) : result E Z := sub_u unix_seconds FARCASTER_EPOCH.

Inductive Validity := Valid | Invalid.

(** The parent hash of a first chunk or block, as written. *)
Definition no_parent : bytes := [0; 32]%Z.

(** [BlockProposerError]; transport and response errors are texts. *)
Inductive BlockProposerError :=
| BPE_BlockMissingHeader
| BPE_BlockMissingHeight
| BPE_NoPeers
| BPE_RpcTransportError (e : string)
| BPE_RpcResponseError (e : string)
| BPE_BlockStorageError (e : BlockStorageError).

Section Proposers.
Context {T Round : Type} `{TransactionDB T} `{RoundOps Round}
  `{!Codec DbTrieNode, !Codec ShardChunk, !Codec Block, !Codec ShardHeader, !Codec BlockHeader}.
Variable blake3 : bytes -> bytes.
Variable depth : nat.

(** ** The shard proposer *)
Record ShardProposer := mkShardProposer {
  sp_shard_id : Z;
  sp_address : bytes;
  chunks : list ShardChunk;
  proposed_chunks : gmap ShardHash FullProposal;
  tx_decision : option (list FullProposal);
  sp_engine : ShardEngine T;
}.

Definition ShardProposer_new (address : bytes) (shard_id : Z) (engine : ShardEngine T)
    (tx_decision : option (list FullProposal)) : ShardProposer :=
  mkShardProposer shard_id address [] ∅ tx_decision engine.

Definition on_engine {A} (m : ST (ShardEngine T) HubError A) : ST ShardProposer HubError A := fun s =>
  let (r, e) := m (sp_engine s) in
  (r, mkShardProposer (sp_shard_id s) (sp_address s) (chunks s) (proposed_chunks s) (tx_decision s) e).

Definition put_proposed_chunk (k : ShardHash) (p : FullProposal) (s : ShardProposer) : ShardProposer :=
  mkShardProposer (sp_shard_id s) (sp_address s) (chunks s) (<[k := p]> (proposed_chunks s)) (tx_decision s) (sp_engine s).

(** [propose_value]; the delay before it has no effect on the state. *)
Definition shard_propose_value (height : Height) (round : Round) (now : Z) : ST ShardProposer HubError FullProposal :=
  (let! s := st_get in
   let parent_hash := match last (chunks s) with Some chunk => chunk_hash chunk | None => no_parent end in
   let! state_change := on_engine (propose_state_change blake3 depth (sp_shard_id s)) in
   let! timestamp := st_lift (current_time now) in
   let shard_header := mkShardHeader (Some height) timestamp parent_hash (new_state_root state_change) in
   let hash := blake3 (encode_to_vec shard_header) in
   let chunk := mkShardChunk (Some shard_header) hash (state_transactions state_change) None in
   let shard_hash := mkShardHash (shard_index height) hash in
   let proposal := mkFullProposal (Some height) (as_i64 round) (sp_address s) (Some (PV_Shard chunk)) in
   st_modify (put_proposed_chunk shard_hash proposal) ;;;
   st_ret proposal)%st.

Definition shard_add_proposed_value (full_proposal : FullProposal) : ST ShardProposer HubError Validity :=
  match proposed_value full_proposal with
  | Some (PV_Shard chunk) =>
      (let! shard_hash := st_lift (FullProposal_shard_hash full_proposal) in
       st_modify (put_proposed_chunk shard_hash full_proposal) ;;;
       let! header := st_lift (unwrap (chunk_header chunk)) in
       let! height := st_lift (unwrap (shard_height header)) in
       let state := mkShardStateChange (shard_index height) (shard_root header) (transactions chunk) in
       let! s := st_get in
       st_ret (if validate_state_change state (sp_engine s) then Valid else Invalid))%st
  | _ => st_ret Invalid
  end.

Definition send_decision (p : FullProposal) (s : ShardProposer) : ShardProposer :=
  mkShardProposer (sp_shard_id s) (sp_address s) (chunks s) (proposed_chunks s)
    ((fun sent => sent ++ [p]) <$> tx_decision s) (sp_engine s).
Definition push_chunk (c : ShardChunk) (s : ShardProposer) : ShardProposer :=
  mkShardProposer (sp_shard_id s) (sp_address s) (chunks s ++ [c]) (proposed_chunks s) (tx_decision s) (sp_engine s).
Definition remove_proposed_chunk (k : ShardHash) (s : ShardProposer) : ShardProposer :=
  mkShardProposer (sp_shard_id s) (sp_address s) (chunks s) (base.delete k (proposed_chunks s)) (tx_decision s) (sp_engine s).

Definition shard_decide (height : Height) (round : Round) (value : ShardHash) : ST ShardProposer HubError unit :=
  (let! s := st_get in
   match proposed_chunks s !! value with
   | Some proposal =>
       st_modify (send_decision proposal) ;;;
       let! chunk := st_lift (unwrap (FullProposal_shard_chunk proposal)) in
       st_modify (push_chunk chunk) ;;;
       on_engine (commit_shard_chunk blake3 depth chunk) ;;;
       st_modify (remove_proposed_chunk value)
   | None => st_ret tt
   end)%st.

Definition shard_proposer_confirmed_height (s : ShardProposer) : result HubError Height :=
  shard_get_confirmed_height (sp_engine s).

(** ** The block proposer *)
Record BlockProposer := mkBlockProposer {
  bp_shard_id : Z;
  bp_address : bytes;
  blocks : list Block;
  proposed_blocks : gmap ShardHash FullProposal;
  pending_chunks : gmap Z (list ShardChunk);
  shard_decision_rx : list FullProposal;
  num_shards : Z;
  block_tx : list Block;
  bp_engine : BlockEngine T;
}.

Definition BlockProposer_new (address : bytes) (shard_id : Z) (shard_decision_rx : list FullProposal)
    (num_shards : Z) (engine : BlockEngine T) : BlockProposer :=
  mkBlockProposer shard_id address [] ∅ ∅ shard_decision_rx num_shards [] engine.

Definition set_pending (pending : gmap Z (list ShardChunk)) (rx : list FullProposal) (s : BlockProposer) : BlockProposer :=
  mkBlockProposer (bp_shard_id s) (bp_address s) (blocks s) (proposed_blocks s) pending rx (num_shards s) (block_tx s) (bp_engine s).

(** What wakes the loop that collects chunks: a tick of the poll interval,
    before which decisions may have arrived, or the deadline. *)
Inductive poll_event :=
| Tick (arrived : list FullProposal)
| Deadline.

(** One tick: at most one decision is received. *)
Definition poll_tick (s : BlockProposer) : result HubError BlockProposer :=
  match shard_decision_rx s with
  | decision :: rx =>
      match proposed_value decision with
      | Some (PV_Shard chunk) =>
          header ← unwrap (chunk_header chunk);
          chunk_height ← unwrap (shard_height header);
          let chunk_block_number := block_number chunk_height in
          match pending_chunks s !! chunk_block_number with
          | Some cs => Ok (set_pending (<[chunk_block_number := cs ++ [chunk]]> (pending_chunks s)) rx s)
          | None => Ok (set_pending (<[chunk_block_number := [chunk]]> (pending_chunks s)) rx s)
          end
      | _ => Ok (set_pending (pending_chunks s) rx s)
      end
  | [] => Ok s
  end.

(** The loop of [collect_confirmed_shard_chunks] along a schedule; the boolean
    tells whether all chunks were there. A schedule that ends while the loop
    waits leaves it waiting. *)
Fixpoint collect_loop (requested_height : Z) (schedule : list poll_event) : ST BlockProposer HubError bool := fun s =>
  match schedule with
  | [] => (OutOfFuel, s)
  | Deadline :: _ => (Ok false, s)
  | Tick arrived :: schedule' =>
      let s := set_pending (pending_chunks s) (shard_decision_rx s ++ arrived) s in
      match poll_tick s with
      | Ok s' =>
          match pending_chunks s' !! requested_height with
          | Some cs =>
              if (Z.of_nat (length cs) =? num_shards s')%Z then (Ok true, s')
              else collect_loop requested_height schedule' s'
          | None => collect_loop requested_height schedule' s'
          end
      | Err e => (Err e, s)
      | Panic => (Panic, s)
      | OutOfFuel => (OutOfFuel, s)
      end
  end.

Definition collect_confirmed_shard_chunks (height : Height) (schedule : list poll_event) :
    ST BlockProposer HubError (list ShardChunk) :=
  (let requested_height := block_number height in
   let! _ := collect_loop requested_height schedule in
   let! s := st_get in
   st_ret (default [] (pending_chunks s !! requested_height)))%st.

Definition publish_new_block (block : Block) (s : BlockProposer) : BlockProposer :=
  mkBlockProposer (bp_shard_id s) (bp_address s) (blocks s) (proposed_blocks s) (pending_chunks s)
    (shard_decision_rx s) (num_shards s) (block_tx s ++ [block]) (bp_engine s).
Definition push_block (block : Block) (s : BlockProposer) : BlockProposer :=
  mkBlockProposer (bp_shard_id s) (bp_address s) (blocks s ++ [block]) (proposed_blocks s) (pending_chunks s)
    (shard_decision_rx s) (num_shards s) (block_tx s) (bp_engine s).
Definition put_proposed_block (k : ShardHash) (p : FullProposal) (s : BlockProposer) : BlockProposer :=
  mkBlockProposer (bp_shard_id s) (bp_address s) (blocks s) (<[k := p]> (proposed_blocks s)) (pending_chunks s)
    (shard_decision_rx s) (num_shards s) (block_tx s) (bp_engine s).
Definition remove_decided (k : ShardHash) (n : Z) (s : BlockProposer) : BlockProposer :=
  mkBlockProposer (bp_shard_id s) (bp_address s) (blocks s) (base.delete k (proposed_blocks s)) (base.delete n (pending_chunks s))
    (shard_decision_rx s) (num_shards s) (block_tx s) (bp_engine s).

(** [register_validator]. [get_blocks_rpc] is the remote call: the address,
    the shard and the first block number. *)
Definition register_validator (get_blocks_rpc : string -> Z -> Z -> result BlockProposerError (list Block))
    (validator : SnapchainValidator) : ST BlockProposer BlockProposerError unit :=
  (let! s := st_get in
   let! prev_block_number :=
     st_lift match last (blocks s) with
             | None => Ok 0%Z
             | Some prev_block =>
                 header ← ok_or (block_header prev_block) BPE_BlockMissingHeader;
                 height ← ok_or (block_height header) BPE_BlockMissingHeight;
                 Ok (block_number height)
             end in
   if (prev_block_number <? current_height validator)%Z then
     match rpc_address validator with
     | None => st_ret tt
     | Some rpc_address =>
         let! start_block_number := st_lift (add_u 64 prev_block_number 1) in
         let! missing_blocks := st_lift (get_blocks_rpc ("http://" +:+ rpc_address) (bp_shard_id s) start_block_number) in
         st_modify (fun s => foldl (fun s block => publish_new_block block (push_block block s)) s missing_blocks)
     end
   else st_ret tt)%st.

Definition block_propose_value (height : Height) (round : Round) (now : Z) (schedule : list poll_event) :
    ST BlockProposer HubError FullProposal :=
  (let! shard_chunks := collect_confirmed_shard_chunks height schedule in
   let! s := st_get in
   let parent_hash := match last (blocks s) with Some block => block_hash_ block | None => no_parent end in
   let! timestamp := st_lift (current_time now) in
   let block_header := mkBlockHeader (Some height) timestamp 0 0 [] [] parent_hash in
   let hash := blake3 (encode_to_vec block_header) in
   let block := mkBlock (Some block_header) hash shard_chunks None None in
   let shard_hash := mkShardHash (shard_index height) hash in
   let proposal := mkFullProposal (Some height) (as_i64 round) (bp_address s) (Some (PV_Block block)) in
   st_modify (put_proposed_block shard_hash proposal) ;;;
   st_ret proposal)%st.

Definition block_add_proposed_value (full_proposal : FullProposal) : ST BlockProposer HubError Validity :=
  (match proposed_value full_proposal with
   | Some (PV_Block _) =>
       let! shard_hash := st_lift (FullProposal_shard_hash full_proposal) in
       st_modify (put_proposed_block shard_hash full_proposal)
   | _ => st_ret tt
   end ;;;
   st_ret Valid)%st.

Definition on_block_engine {A} (m : ST (BlockEngine T) HubError A) : ST BlockProposer HubError A := fun s =>
  let (r, e) := m (bp_engine s) in
  (r, mkBlockProposer (bp_shard_id s) (bp_address s) (blocks s) (proposed_blocks s) (pending_chunks s)
        (shard_decision_rx s) (num_shards s) (block_tx s) e).

Definition block_decide (height : Height) (round : Round) (value : ShardHash) : ST BlockProposer HubError unit :=
  (let! s := st_get in
   match proposed_blocks s !! value with
   | Some proposal =>
       let! block := st_lift (unwrap (FullProposal_block proposal)) in
       on_block_engine (commit_block block) ;;;
       st_modify (publish_new_block block) ;;;
       st_modify (push_block block) ;;;
       st_modify (remove_decided value (block_number height))
   | None => st_ret tt
   end)%st.

Definition block_proposer_confirmed_height (s : BlockProposer) : result HubError Height :=
  block_get_confirmed_height (bp_engine s).

End Proposers.

Arguments ShardProposer T : clear implicits.
Arguments BlockProposer T : clear implicits.

(** ** Collecting chunks *)

Definition chunk_at_height (n : Z) (c : ShardChunk) : Prop :=
  exists header height, chunk_header c = Some header /\ shard_height header = Some height /\ block_number height = n.

Section Collect.
Context {T : Type}.
Implicit Types (s : BlockProposer T).

(** Pending chunks are filed under their height. *)
Definition pending_wf s : Prop :=
  forall n cs, pending_chunks s !! n = Some cs -> Forall (chunk_at_height n) cs.

Lemma poll_tick_wf s s' : poll_tick s = Ok s' -> pending_wf s -> pending_wf s' /\ num_shards s' = num_shards s.
Proof.
  unfold poll_tick. intros E Hwf. destruct (shard_decision_rx s) as [|decision rx]; [by simplify_eq|].
  destruct (proposed_value decision) as [[b|c]|]; [by simplify_eq| |by simplify_eq].
  destruct (chunk_header c) as [header|] eqn:Eh; [|done]. simpl in E.
  destruct (shard_height header) as [height|] eqn:Ehh; [|done]. simpl in E.
  assert (Hc : chunk_at_height (block_number height) c) by (by exists header, height).
  destruct (pending_chunks s !! block_number height) as [cs|] eqn:Ep; simplify_eq/=; (split; [|done]);
    intros n cs'; simpl; rewrite lookup_insert_Some; intros [[<- <-]|[_ Hn]]; try by apply Hwf.
  - apply Forall_app. split; [by apply Hwf|by constructor].
  - by constructor.
Qed.

Lemma collect_loop_spec n schedule s b s' :
  collect_loop n schedule s = (Ok b, s') -> pending_wf s ->
  pending_wf s' /\ num_shards s' = num_shards s /\
  (b = true -> exists cs, pending_chunks s' !! n = Some cs /\ Z.of_nat (length cs) = num_shards s).
Proof.
  revert s. induction schedule as [|[arrived|] schedule IH]; intros s E Hwf; simpl in E; [done| |by simplify_eq].
  set (s1 := set_pending (pending_chunks s) (shard_decision_rx s ++ arrived) s) in *.
  destruct (poll_tick s1) as [s2| | |] eqn:Et; try done.
  destruct (poll_tick_wf s1 s2 Et) as [Hwf2 Hn2]; [done|]. simpl in Hn2.
  destruct (pending_chunks s2 !! n) as [cs|] eqn:Ep.
  - destruct (Z.eqb_spec (Z.of_nat (length cs)) (num_shards s2)) as [Hl|Hl].
    + simplify_eq. split_and!; [done|done|]. intros _. exists cs. split; [done|]. congruence.
    + rewrite <- Hn2. by apply IH.
  - rewrite <- Hn2. by apply IH.
Qed.

(** A schedule with a deadline ends the loop. *)
Lemma collect_loop_ends n schedule s : Deadline ∈ schedule -> (collect_loop n schedule s).1 ≠ OutOfFuel.
Proof.
  revert s. induction schedule as [|[arrived|] schedule IH]; intros s Hin; simpl; [by apply elem_of_nil in Hin| |done].
  apply elem_of_cons in Hin as [?|Hin]; [done|].
  destruct (poll_tick _) as [s2| | |] eqn:Et; try done.
  - destruct (pending_chunks s2 !! n); [destruct (_ =? _)%Z; [done|]|]; by apply IH.
  - exfalso. revert Et. unfold poll_tick. simpl. clear. repeat (case_match; try done; simpl).
    destruct (chunk_header _); [|done]. simpl. destruct (shard_height _); [|done]. simpl. by case_match.
Qed.

End Collect.

(** The two branches of [block_decide]. *)
Section Decide.
Context {T Round : Type} `{TransactionDBLaws T} `{RoundOps Round} `{!Codec Block, !CodecLaw Block}.

Lemma block_decide_unknown (s : BlockProposer T) (height : Height) (r : Round) (value : ShardHash) :
  proposed_blocks s !! value = None -> block_decide height r value s = (Ok tt, s).
Proof. intros E. unfold block_decide, st_bind, st_get. by rewrite E. Qed.

Lemma block_decide_known (s : BlockProposer T) (height : Height) (r : Round) (value : ShardHash) m f sh proposal b hd n :
  holds (block_store (bp_engine s)) m -> block_rows sh m f ->
  proposed_blocks s !! value = Some proposal -> proposed_value proposal = Some (PV_Block b) ->
  block_header b = Some hd -> block_height hd = Some (mkHeight sh n) -> is_u64 n ->
  exists s', block_decide height r value s = (Ok tt, s') /\
    (exists m', holds (block_store (bp_engine s')) m' /\ block_rows sh m' (<[n := b]> f)) /\
    block_tx s' = block_tx s ++ [b] /\ blocks s' = blocks s ++ [b] /\
    pending_chunks s' !! block_number height = None /\ proposed_blocks s' !! value = None.
Proof.
  intros Hd Hf Ep Eb Ehd Eh Hn.
  destruct (put_block_spec (block_store (bp_engine s)) sh m f b n Hd Hf) as (d' & m' & E & Hd' & Hf'); [by rewrite Ehd|done|].
  eexists. split_and!.
  - unfold block_decide, st_bind at 1, st_get. rewrite Ep. unfold FullProposal_block. rewrite Eb.
    unfold st_bind, st_lift, st_modify, on_block_engine, commit_block. simpl. rewrite E. done.
  - exists m'. done.
  - done.
  - done.
  - simpl. apply lookup_delete_eq.
  - simpl. apply lookup_delete_eq.
Qed.
End Decide.

(** ** Properties *)
Section Properties.
Context {T T' Round : Type} `{TransactionDBLaws T} `{TransactionDBLaws T'} `{RoundOps Round}
  `{!Codec DbTrieNode, !Codec ShardChunk, !Codec ShardHeader, !Codec Block} {node_law : CodecLaw DbTrieNode} {chunk_law : CodecLaw ShardChunk}
  {block_law : CodecLaw Block}.
Variable blake3 : bytes -> bytes.
Variable L depth : nat.

(** C2. One height of a shard from end to end, at two nodes with the same
    committed keys: the proposal the one makes is valid at the other; when
    its hash is decided both commit the chunk, whose parent is the last chunk
    of the proposer, and hold the same keys; the decision is passed on once
    and the proposal is forgotten, so deciding it again does nothing. *)
Theorem shard_height_end_to_end (s : ShardProposer T) (f : ShardProposer T') (S : gset bytes)
    (h : Height) (r : Round) (now : Z)
    (Hblake : forall l, length (blake3 l) = 32) (Hdepth : L + 1 <= depth) (Hnow : (FARCASTER_EPOCH <= now)%Z)
    (Hs : engine_holds blake3 L (sp_engine s) S) (Hf : engine_holds blake3 L (sp_engine f) S)
    (Hnd : NoDup (map msg_hash (messages_rx (sp_engine s))))
    (Hv : valid_keys L (S ∪ list_to_set (map msg_hash (messages_rx (sp_engine s))))) :
  exists proposal value chunk s1 s2 f1 f2,
    shard_propose_value blake3 depth h r now s = (Ok proposal, s1) /\
    FullProposal_shard_hash (E := HubError) proposal = Ok value /\
    shard_add_proposed_value proposal f = (Ok Valid, f1) /\
    shard_decide blake3 depth h r value s1 = (Ok tt, s2) /\
    shard_decide blake3 depth h r value f1 = (Ok tt, f2) /\
    engine_holds blake3 L (sp_engine s2) (S ∪ list_to_set (map msg_hash (messages_rx (sp_engine s)))) /\
    engine_holds blake3 L (sp_engine f2) (S ∪ list_to_set (map msg_hash (messages_rx (sp_engine s)))) /\
    chunks s2 = chunks s ++ [chunk] /\ chunks f2 = chunks f ++ [chunk] /\
    (shard_parent_hash <$> chunk_header chunk) =
      Some (match last (chunks s) with Some c => chunk_hash c | None => no_parent end) /\
    tx_decision s2 = (fun sent => sent ++ [proposal]) <$> tx_decision s /\
    shard_decide blake3 depth h r value s2 = (Ok tt, s2) /\
    shard_decide blake3 depth h r value f2 = (Ok tt, f2).
Proof.
  destruct (propose_spec blake3 Hblake L depth Hdepth (sp_engine s) S (sp_shard_id s) Hs Hnd Hv) as (e1 & E1 & He1 & _).
  set (hashes := map msg_hash (messages_rx (sp_engine s))) in *.
  set (root := spec_root blake3 L (S ∪ list_to_set hashes)) in *.
  set (txs := [mkTransaction 1234 (messages_rx (sp_engine s)) [] [5; 5; 6; 6]%Z]) in *.
  set (header := mkShardHeader (Some h) (now - FARCASTER_EPOCH)
    (match last (chunks s) with Some c => chunk_hash c | None => no_parent end) root).
  set (hash := blake3 (encode_to_vec header)). set (chunk := mkShardChunk (Some header) hash txs None).
  set (value := mkShardHash (shard_index h) hash).
  set (proposal := mkFullProposal (Some h) (as_i64 r) (sp_address s) (Some (PV_Shard chunk))).
  assert (Hhd : shard_height header = Some (mkHeight (shard_index h) (block_number h))) by (by destruct h).
  destruct (commit_spec_ok blake3 Hblake L depth Hdepth e1 S chunk header (block_number h) (shard_index h) He1)
    as (e2 & m2 & E2 & He2 & _); try done.
  destruct (commit_spec_ok blake3 Hblake L depth Hdepth (sp_engine f) S chunk header (block_number h) (shard_index h) Hf)
    as (f2 & mf & Ef & Hf2 & _); try done.
  exists proposal, value, chunk.
  exists (put_proposed_chunk value proposal (mkShardProposer (sp_shard_id s) (sp_address s) (chunks s) (proposed_chunks s) (tx_decision s) e1)).
  eexists. exists (put_proposed_chunk value proposal f). eexists.
  assert (Hdec : forall (X : Type) `{TransactionDB X} (p : ShardProposer X) e,
    commit_shard_chunk blake3 depth chunk (sp_engine p) = (Ok tt, e) ->
    shard_decide blake3 depth h r value (put_proposed_chunk value proposal p) =
    (Ok tt, mkShardProposer (sp_shard_id p) (sp_address p) (chunks p ++ [chunk])
              (base.delete value (<[value := proposal]> (proposed_chunks p)))
              ((fun sent => sent ++ [proposal]) <$> tx_decision p) e)).
  { intros X HX p e E. unfold shard_decide, st_bind at 1, st_get. simpl. rewrite lookup_insert_eq.
    unfold st_bind, st_modify, st_lift, on_engine. simpl. by rewrite E. }
  split_and!; [|done| |by apply Hdec|by apply Hdec|exact He2|exact Hf2|done|done|done|done| |].
  - unfold shard_propose_value. erewrite st_bind_Ok by reflexivity.
    unfold st_bind at 1, on_engine. rewrite E1. simpl.
    unfold st_bind, st_lift, st_modify, st_ret, current_time, sub_u. rewrite (proj2 (Z.ltb_ge _ _)) by done. done.
  - done.
  - unfold shard_decide, st_bind, st_get. simpl. by rewrite lookup_delete_eq.
  - unfold shard_decide, st_bind, st_get. simpl. by rewrite lookup_delete_eq.
Qed.

(** Collecting the chunks of a height: with a deadline in the schedule
    the loop ends; the chunks it yields are all of the requested height, and
    when it ends before the deadline there is one per shard in number. *)
Theorem collected_chunks (s : BlockProposer T) (height : Height) (schedule : list poll_event)
    (Hwf : pending_wf s) (Hd : Deadline ∈ schedule) :
  (collect_loop (block_number height) schedule s).1 ≠ OutOfFuel /\
  forall cs s', collect_confirmed_shard_chunks height schedule s = (Ok cs, s') ->
    pending_wf s' /\ Forall (chunk_at_height (block_number height)) cs /\
    ((collect_loop (block_number height) schedule s).1 = Ok true -> Z.of_nat (length cs) = num_shards s).
Proof.
  split; [by apply collect_loop_ends|]. intros cs s' E. unfold collect_confirmed_shard_chunks in E.
  apply st_bind_Ok_inv in E as (b & s1 & E1 & E2). unfold st_bind, st_get, st_ret in E2. simplify_eq.
  destruct (collect_loop_spec _ _ _ _ _ E1 Hwf) as (Hwf' & Hn & Hb). split_and!; [done| |].
  - destruct (pending_chunks s' !! block_number height) as [cs|] eqn:Ep; [by apply Hwf'|constructor].
  - rewrite E1. simpl. intros [= ->]. destruct Hb as (cs & Ecs & Hl); [done|]. by rewrite Ecs.
Qed.

(** Deciding a block: the block of the decided proposal is stored, handed
    on and appended to the blocks exactly once, the pending chunks of its
    height are dropped, and deciding the same value again changes nothing; a
    value that was not proposed changes nothing. *)
Theorem block_decide_once (s : BlockProposer T) (height : Height) (r : Round) (value : ShardHash)
    (m : gmap bytes bytes) (f : gmap Z Block) (sh : Z)
    (Hd : holds (block_store (bp_engine s)) m) (Hf : block_rows sh m f) :
  (proposed_blocks s !! value = None -> block_decide height r value s = (Ok tt, s)) /\
  (forall proposal b hd n, proposed_blocks s !! value = Some proposal -> proposed_value proposal = Some (PV_Block b) ->
    block_header b = Some hd -> block_height hd = Some (mkHeight sh n) -> is_u64 n ->
    exists s', block_decide height r value s = (Ok tt, s') /\
      (exists m', holds (block_store (bp_engine s')) m' /\ block_rows sh m' (<[n := b]> f)) /\
      block_tx s' = block_tx s ++ [b] /\ blocks s' = blocks s ++ [b] /\
      pending_chunks s' !! block_number height = None /\
      block_decide height r value s' = (Ok tt, s')).
Proof.
  split; [apply block_decide_unknown|]. intros proposal b hd n Ep Eb Ehd Eh Hn.
  destruct (block_decide_known s height r value m f sh proposal b hd n Hd Hf Ep Eb Ehd Eh Hn)
    as (s' & E & Hm & Ht & Hb & Hp & Hv). exists s'. split_and!; try done. by apply block_decide_unknown.
Qed.

End Properties.

Module ProposerSample.
Export MerkleTrie.Sample Block.BlockSample Engine.EngineSample.
#[export] Instance header_codec : Codec ShardHeader := countable_codec ShardHeader.
#[export] Instance block_header_codec : Codec BlockHeader := countable_codec BlockHeader.

Definition sample_proposer : ShardProposer (gmap bytes bytes) := ShardProposer_new (be_bytes 32 1) 1 proposing (Some []).
Definition sample_follower : ShardProposer (gmap bytes bytes) := ShardProposer_new (be_bytes 32 2) 1 new_engine None.

Definition decision_at (n : Z) : FullProposal := mkFullProposal None 0 [] (Some (PV_Shard (chunk_at n))).
Definition sample_block_proposer : BlockProposer (gmap bytes bytes) :=
  BlockProposer_new (be_bytes 32 1) 0 [] 1 (mkBlockEngine empty_store).
Definition block_proposal : FullProposal := mkFullProposal (Some (mkHeight 0 7)) 0 [] (Some (PV_Block (sample_block 7))).
Definition deciding : BlockProposer (gmap bytes bytes) :=
  put_proposed_block (mkShardHash 0 [1; 2; 3]%Z) block_proposal sample_block_proposer.
End ProposerSample.
Import ProposerSample.

Lemma shard_height_end_to_end_witness :
  exists proposal value s1 s2,
    shard_propose_value (Round := option N) sample_blake3 21 (mkHeight 1 1) (Round_new 0) 1609459201 sample_proposer = (Ok proposal, s1) /\
    FullProposal_shard_hash (E := HubError) proposal = Ok value /\
    shard_decide (Round := option N) sample_blake3 21 (mkHeight 1 1) (Round_new 0) value s1 = (Ok tt, s2) /\
    tx_decision s2 = Some [proposal].
Proof.
  destruct (shard_height_end_to_end (Round := option N) sample_blake3 20 21 sample_proposer sample_follower engine_keys
    (mkHeight 1 1) (Round_new 0) 1609459201 sample_blake3_length ltac:(lia) ltac:(unfold FARCASTER_EPOCH; lia) proposing_holds new_engine_holds)
    as (p & v & c & s1 & s2 & f1 & f2 & E1 & E2 & _ & E3 & _ & _ & _ & _ & _ & _ & E4 & _);
    [decide_now|decide_now|].
  exists p, v, s1, s2. split_and!; [exact E1|exact E2|exact E3|exact E4].
Defined.

Lemma collected_chunks_witness :
  (collect_loop 5 [Tick []; Tick [decision_at 5]; Deadline] sample_block_proposer).1 ≠ OutOfFuel.
Proof.
  apply (collected_chunks sample_block_proposer (mkHeight 0 5) [Tick []; Tick [decision_at 5]; Deadline]).
  - intros n cs Hn. vm_compute in Hn. discriminate Hn.
  - right. right. left.
Defined.

Lemma block_decide_once_witness :
  exists s', block_decide (Round := option N) (mkHeight 0 7) (Round_new 0) (mkShardHash 0 [1; 2; 3]%Z) deciding = (Ok tt, s') /\
    block_tx s' = [sample_block 7].
Proof.
  destruct (block_decide_once (Round := option N) deciding (mkHeight 0 7) (Round_new 0) (mkShardHash 0 [1; 2; 3]%Z) ∅ ∅ 0
    (holds_gmap ∅ "x") empty_rows) as [_ H].
  destruct (H block_proposal (sample_block 7) (sample_header 7) 7%Z) as (s' & E & _ & Ht & _);
    [vm_compute; reflexivity|reflexivity|reflexivity|reflexivity|decide_now|].
  exists s'. split; [exact E|exact Ht].
Defined.
