(* ===== verification/Validator.v ===== *)
(** * The shard validator

    [src/consensus/validator.rs]: the state a consensus actor keeps of its
    shard, and the calls it passes on to the proposer of blocks or of shard
    chunks. *)

From S2P Require Import Prelude Util Db Proto TrieNode TrieSpec TrieInsert MerkleTrie Block Engine Types Proposer.

Section Validator.
Context {T Round : Type} `{TransactionDB T} `{RoundOps Round}
  `{!Codec DbTrieNode, !Codec ShardChunk, !Codec Block, !Codec ShardHeader, !Codec BlockHeader}.
Variable blake3 : bytes -> bytes.
Variable depth : nat.

Record ShardValidator := mkShardValidator {
  sv_shard_id : Z;
  sv_address : bytes;
  validator_set : SnapchainValidatorSet;
  confirmed_height : option Height;
  current_round : Round;
  sv_current_height : option Height;
  current_proposer : option bytes;
  block_proposer : option (BlockProposer T);
  shard_proposer : option (ShardProposer T);
  started : bool;
}.

(** [ProposedValue] of the consensus library. *)
Record ProposedValueMsg := mkProposedValueMsg {
  pvm_height : Height;
  pvm_round : Round;
  pvm_validator_address : bytes;
  pvm_value : ShardHash;
  pvm_validity : Validity;
}.

Definition ShardValidator_new (address : bytes) (shard : Z) (block_proposer : option (BlockProposer T))
    (shard_proposer : option (ShardProposer T)) : ShardValidator :=
  mkShardValidator shard address (set_new []) None (Round_new 0) None None block_proposer shard_proposer false.

Definition get_validator_set (s : ShardValidator) : SnapchainValidatorSet := validator_set s.
Definition validator_count (s : ShardValidator) : nat := set_count (validator_set s).

Definition get_current_height (s : ShardValidator) : result HubError Z :=
  match block_proposer s with
  | Some p => h ← block_proposer_confirmed_height p; Ok (block_number h)
  | None =>
      match shard_proposer s with
      | Some p => h ← shard_proposer_confirmed_height p; Ok (block_number h)
      | None => Panic
      end
  end.

Definition add_validator (validator : SnapchainValidator) (s : ShardValidator) : bool * ShardValidator :=
  let (added, set) := set_add (validator_set s) validator in
  (added, mkShardValidator (sv_shard_id s) (sv_address s) set (confirmed_height s) (current_round s)
            (sv_current_height s) (current_proposer s) (block_proposer s) (shard_proposer s) (started s)).

Definition start (s : ShardValidator) : ShardValidator :=
  mkShardValidator (sv_shard_id s) (sv_address s) (validator_set s) (confirmed_height s) (current_round s)
    (sv_current_height s) (current_proposer s) (block_proposer s) (shard_proposer s) true.

Definition set_block_proposer (p : BlockProposer T) (s : ShardValidator) : ShardValidator :=
  mkShardValidator (sv_shard_id s) (sv_address s) (validator_set s) (confirmed_height s) (current_round s)
    (sv_current_height s) (current_proposer s) (Some p) (shard_proposer s) (started s).
Definition set_shard_proposer (p : ShardProposer T) (s : ShardValidator) : ShardValidator :=
  mkShardValidator (sv_shard_id s) (sv_address s) (validator_set s) (confirmed_height s) (current_round s)
    (sv_current_height s) (current_proposer s) (block_proposer s) (Some p) (started s).

(** The common dispatch: the block proposer if there is one, else the shard
    proposer; without either a panic. *)
Definition on_proposer {A} (mb : ST (BlockProposer T) HubError A) (ms : ST (ShardProposer T) HubError A) :
    ST ShardValidator HubError A := fun s =>
  match block_proposer s with
  | Some p => let (r, p') := mb p in (r, set_block_proposer p' s)
  | None =>
      match shard_proposer s with
      | Some p => let (r, p') := ms p in (r, set_shard_proposer p' s)
      | None => (Panic, s)
      end
  end.

(** [sync_with_new_validator]: an error of the registration is logged. *)
Definition sync_with_new_validator (get_blocks_rpc : string -> Z -> Z -> result BlockProposerError (list Block))
    (validator : SnapchainValidator) : ST ShardValidator HubError unit := fun s =>
  match block_proposer s with
  | None => (Ok tt, s)
  | Some p =>
      let (r, p') := register_validator get_blocks_rpc validator p in
      (match r with Ok _ => Ok tt | Err _ => Ok tt | Panic => Panic | OutOfFuel => OutOfFuel end, set_block_proposer p' s)
  end.

Definition start_round (height : Height) (round : Round) (proposer : bytes) (s : ShardValidator) : ShardValidator :=
  mkShardValidator (sv_shard_id s) (sv_address s) (validator_set s) (confirmed_height s) round
    (Some height) (Some proposer) (block_proposer s) (shard_proposer s) (started s).

(** The end of [decide]. *)
Definition mark_decided (height : Height) (s : ShardValidator) : ShardValidator :=
  mkShardValidator (sv_shard_id s) (sv_address s) (validator_set s) (Some height) Round_Nil
    (sv_current_height s) (current_proposer s) (block_proposer s) (shard_proposer s) (started s).

Definition decide_ (height : Height) (value : ShardHash) : ST ShardValidator HubError unit :=
  (let! s := st_get in
   on_proposer (block_decide height (current_round s) value)
     (shard_decide blake3 depth height (current_round s) value) ;;;
   st_modify (mark_decided height))%st.

Definition add_proposed_value (full_proposal : FullProposal) : ST ShardValidator HubError ProposedValueMsg :=
  (let! value := st_lift (FullProposal_shard_hash full_proposal) in
   let! validity := on_proposer (block_add_proposed_value full_proposal) (shard_add_proposed_value full_proposal) in
   let! height := st_lift (fp_get_height full_proposal) in
   let! address := st_lift (proposer_address full_proposal) in
   st_ret (mkProposedValueMsg height (Round_new (fp_round full_proposal)) address value validity))%st.

Definition propose_value (height : Height) (round : Round) (now : Z) (schedule : list poll_event) :
    ST ShardValidator HubError FullProposal :=
  on_proposer (block_propose_value blake3 height round now schedule)
    (shard_propose_value blake3 depth height round now).

End Validator.

Arguments ShardValidator T Round : clear implicits.
Arguments ProposedValueMsg Round : clear implicits.
