(* ===== verification/Consensus.v ===== *)
(** * The consensus actor

    [src/consensus/consensus.rs]. The state machine of consensus is the
    third-party [malachite_consensus]: [process] is its step on an input, a
    process that performs effects and resumes with their answers. The actor
    around it, modelled here, handles the messages of its mailbox and carries
    the effects out on the validator, the timers, the timeouts and the gossip
    channel. *)

From S2P Require Import Prelude Util Db Proto TrieNode TrieSpec TrieInsert MerkleTrie Block Engine Timers Types Proposer Validator.

(** ** Timeouts *)
Inductive TimeoutStep := Step_Propose | Step_Prevote | Step_Precommit | Step_Commit.

#[export] Instance TimeoutStep_eq_dec : EqDecision TimeoutStep.
Proof. solve_decision. Defined.
#[export] Instance TimeoutStep_countable : Countable TimeoutStep.
Proof.
  apply (inj_countable' (fun s => match s with Step_Propose => 0 | Step_Prevote => 1 | Step_Precommit => 2 | Step_Commit => 3 end)
    (fun n => match n with 0 => Step_Propose | 1 => Step_Prevote | 2 => Step_Precommit | _ => Step_Commit end)). by intros [].
Defined.

(** [TimeoutConfig], durations in nanoseconds. *)
Record TimeoutConfig := mkTimeoutConfig {
  timeout_propose : Z;
  timeout_propose_delta : Z;
  timeout_prevote : Z;
  timeout_prevote_delta : Z;
  timeout_precommit : Z;
  timeout_precommit_delta : Z;
  timeout_commit : Z;
}.

(** [Timeouts] *)
Record Timeouts := mkTimeouts { config : TimeoutConfig }.

Definition Timeouts_new (config : TimeoutConfig) : Timeouts := mkTimeouts config.
Definition timeouts_reset (config : TimeoutConfig) (t : Timeouts) : Timeouts := mkTimeouts config.

Definition duration_for (t : Timeouts) (step : TimeoutStep) : Z :=
  match step with
  | Step_Propose => timeout_propose (config t)
  | Step_Prevote => timeout_prevote (config t)
  | Step_Precommit => timeout_precommit (config t)
  | Step_Commit => timeout_commit (config t)
  end.

(** [+=] on [Duration] panics when the seconds overflow. *)
Definition duration_max : Z := (2 ^ 64 * 10 ^ 9)%Z.
Definition add_duration {E} (a b : Z) : result E Z := if (a + b <? duration_max)%Z then Ok (a + b)%Z else Panic.

Definition increase_timeout {E} (step : TimeoutStep) (t : Timeouts) : result E Timeouts :=
  let c := config t in
  match step with
  | Step_Propose =>
      d ← add_duration (timeout_propose c) (timeout_propose_delta c);
      Ok (mkTimeouts (mkTimeoutConfig d (timeout_propose_delta c) (timeout_prevote c) (timeout_prevote_delta c)
                        (timeout_precommit c) (timeout_precommit_delta c) (timeout_commit c)))
  | Step_Prevote =>
      d ← add_duration (timeout_prevote c) (timeout_prevote_delta c);
      Ok (mkTimeouts (mkTimeoutConfig (timeout_propose c) (timeout_propose_delta c) d (timeout_prevote_delta c)
                        (timeout_precommit c) (timeout_precommit_delta c) (timeout_commit c)))
  | Step_Precommit =>
      d ← add_duration (timeout_precommit c) (timeout_precommit_delta c);
      Ok (mkTimeouts (mkTimeoutConfig (timeout_propose c) (timeout_propose_delta c) (timeout_prevote c) (timeout_prevote_delta c)
                        d (timeout_precommit_delta c) (timeout_commit c)))
  | Step_Commit => Ok t
  end.

Section Consensus.
Context {T Round Extension : Type} `{TransactionDB T} `{RoundOps Round} `{!Countable Round} `{SigningOps}
  `{!Codec DbTrieNode, !Codec ShardChunk, !Codec Block, !Codec ShardHeader, !Codec BlockHeader,
    !Codec ProtoVote, !Codec ProtoProposal}.

(** [Timeout] of the consensus library, the key of a timer. *)
Record Timeout := mkTimeout { timeout_round : Round; timeout_step : TimeoutStep }.

#[export] Instance Timeout_eq_dec : EqDecision Timeout.
Proof using H0. solve_decision. Defined.
#[export] Instance Timeout_countable : Countable Timeout.
Proof.
  apply (inj_countable' (fun t => (timeout_round t, timeout_step t)) (fun '(r, s) => mkTimeout r s)). by intros [].
Defined.

(** A vote or proposal with its signature. *)
Definition SignedVote : Type := Vote Round Extension * bytes.
Definition SignedProposal : Type := Proposal Round * bytes.

Inductive SignedConsensusMsg :=
| SCM_Vote (v : SignedVote)
| SCM_Proposal (p : SignedProposal).

(** [Effect], [Resume] and [Input] of the consensus library. *)
Inductive Effect :=
| ResetTimeouts
| CancelAllTimeouts
| CancelTimeout (t : Timeout)
| ScheduleTimeout (t : Timeout)
| StartRound (h : Height) (r : Round) (proposer : bytes)
| VerifySignature (msg : SignedConsensusMsg) (pk : bytes)
| Broadcast (msg : SignedConsensusMsg)
| GetValue (h : Height) (r : Round) (t : Timeout)
| GetValidatorSet (h : Height)
| Decide (h : Height) (r : Round) (value : ShardHash) (commits : list SignedVote).

Inductive Resume :=
| Continue
| SignatureValidity (valid : bool)
| ResumeValidatorSet (h : Height) (set : option SnapchainValidatorSet).

Inductive Input :=
| In_StartHeight (h : Height) (set : SnapchainValidatorSet)
| In_ProposeValue (h : Height) (r : Round) (value : ShardHash) (ext : option Extension)
| In_Vote (v : SignedVote)
| In_Proposal (p : SignedProposal)
| In_ReceivedProposedValue (v : ProposedValueMsg Round)
| In_TimeoutElapsed (t : Timeout).

(** The mailbox. *)
Inductive ConsensusMsg :=
| StartHeight (h : Height)
| ProposeValue (h : Height) (r : Round) (value : ShardHash) (ext : option Extension)
| ReceivedProposedValue (v : ProposedValueMsg Round)
| ReceivedSignedVote (v : SignedVote)
| ReceivedSignedProposal (p : SignedProposal)
| ReceivedProposalPart
| ReceivedFullProposal (p : FullProposal)
| RegisterValidator (v : SnapchainValidator)
| TimeoutElapsedMsg (t : TimeoutElapsed Timeout).

Definition msg_shard_id (m : ConsensusMsg) : result HubError Z :=
  match m with
  | StartHeight height => Ok (shard_index height)
  | ProposeValue height _ _ _ => Ok (shard_index height)
  | ReceivedProposedValue proposed => Ok (shard_index (pvm_height proposed))
  | ReceivedSignedVote vote => Ok (shard_index (vote_height vote.1))
  | ReceivedSignedProposal proposal => Ok (shard_index (prop_height proposal.1))
  | ReceivedFullProposal full_proposal => h ← fp_get_height full_proposal; Ok (shard_index h)
  | RegisterValidator validator => Ok (v_shard_index validator)
  | ReceivedProposalPart => Panic
  | TimeoutElapsedMsg _ => Panic
  end.

(** [GossipEvent] of [src/network/gossip.rs], what a node asks to broadcast. *)
Inductive GossipEvent :=
| BroadcastSignedVote (v : SignedVote)
| BroadcastSignedProposal (p : SignedProposal)
| BroadcastFullProposal (p : FullProposal)
| GossipRegisterValidator (v : ProtoRegisterValidator).

(** The third-party state machine: its state, the height of its driver and a
    step. A step performs effects; [interrupted] is the state it leaves when
    an effect fails. *)
Variable CState : Type.
Inductive Process :=
| Finished (r : result string unit) (cs : CState)
| Perform (e : Effect) (interrupted : CState) (k : Resume -> Process).
Variable driver_height : CState -> Height.
Variable process : CState -> Input -> Process.

Variable blake3 : bytes -> bytes.
Variable depth : nat.

(** [Consensus]: the configured timeouts. *)
Variable timeout_config : TimeoutConfig.

(** What the handling of one message meets outside: the clock, the schedule
    of a collection of chunks, the answers of other nodes. *)
Record Env := mkEnv {
  now : Z;
  schedule : list poll_event;
  get_blocks_rpc : string -> Z -> Z -> result BlockProposerError (list Block);
}.
Variable env : Env.

(** [State], with the messages it sent to itself, at once or with a delay,
    and what it sent to gossip; a closed gossip channel is [None]. *)
Record State := mkState {
  st_timers : TimerScheduler Timeout;
  st_timeouts : Timeouts;
  consensus : CState;
  shard_validator : ShardValidator T Round;
  gossip_tx : option (list GossipEvent);
  self_messages : list ConsensusMsg;
  delayed_messages : list (Z * ConsensusMsg);
}.

Definition set_timers (x : TimerScheduler Timeout) (s : State) : State :=
  mkState x (st_timeouts s) (consensus s) (shard_validator s) (gossip_tx s) (self_messages s) (delayed_messages s).
Definition set_timeouts (x : Timeouts) (s : State) : State :=
  mkState (st_timers s) x (consensus s) (shard_validator s) (gossip_tx s) (self_messages s) (delayed_messages s).
Definition set_consensus (x : CState) (s : State) : State :=
  mkState (st_timers s) (st_timeouts s) x (shard_validator s) (gossip_tx s) (self_messages s) (delayed_messages s).
Definition set_validator (x : ShardValidator T Round) (s : State) : State :=
  mkState (st_timers s) (st_timeouts s) (consensus s) x (gossip_tx s) (self_messages s) (delayed_messages s).
Definition set_gossip (x : option (list GossipEvent)) (s : State) : State :=
  mkState (st_timers s) (st_timeouts s) (consensus s) (shard_validator s) x (self_messages s) (delayed_messages s).

(** [myself.cast(msg)] and [send_after]. *)
Definition cast (m : ConsensusMsg) (s : State) : State :=
  mkState (st_timers s) (st_timeouts s) (consensus s) (shard_validator s) (gossip_tx s) (self_messages s ++ [m]) (delayed_messages s).
Definition send_after (delay : Z) (m : ConsensusMsg) (s : State) : State :=
  mkState (st_timers s) (st_timeouts s) (consensus s) (shard_validator s) (gossip_tx s) (self_messages s) (delayed_messages s ++ [(delay, m)]).

(** [gossip_tx.send(..).await?] *)
Definition gossip (e : GossipEvent) : ST State string unit := fun s =>
  match gossip_tx s with
  | Some sent => (Ok tt, set_gossip (Some (sent ++ [e])) s)
  | None => (Err "channel closed", s)
  end.

(** A call on the validator; its errors are panics or do not occur. *)
Definition on_validator {A} (m : ST (ShardValidator T Round) HubError A) : ST State string A := fun s =>
  let (r, v) := m (shard_validator s) in (map_err message r, set_validator v s).

Definition handle_effect (effect : Effect) : ST State string Resume :=
  match effect with
  | ResetTimeouts =>
      (st_modify (fun s => set_timeouts (timeouts_reset timeout_config (st_timeouts s)) s) ;;; st_ret Continue)%st
  | CancelAllTimeouts =>
      (st_modify (fun s => set_timers (cancel_all (st_timers s)) s) ;;; st_ret Continue)%st
  | CancelTimeout timeout =>
      (st_modify (fun s => set_timers (cancel timeout (st_timers s)) s) ;;; st_ret Continue)%st
  | ScheduleTimeout timeout =>
      (let! s := st_get in
       let duration := duration_for (st_timeouts s) (timeout_step timeout) in
       let! timers := st_lift (unwrap_result (start_timer timeout duration (st_timers s))) in
       st_modify (set_timers timers) ;;;
       st_ret Continue)%st
  | StartRound height round proposer =>
      (st_modify (fun s => set_validator (start_round height round proposer (shard_validator s)) s) ;;;
       st_ret Continue)%st
  | VerifySignature msg pk =>
      (let! valid := st_lift (unwrap_result (match msg with
                       | SCM_Vote (v, signature) => verify_signed_vote v signature pk
                       | SCM_Proposal (p, signature) => verify_signed_proposal p signature pk
                       end)) in
       st_ret (SignatureValidity valid))%st
  | Broadcast gossip_msg =>
      (match gossip_msg with
       | SCM_Proposal proposal => gossip (BroadcastSignedProposal proposal)
       | SCM_Vote vote => gossip (BroadcastSignedVote vote)
       end ;;;
       st_ret Continue)%st
  | GetValue height round timeout =>
      (let! full_proposal := on_validator (propose_value blake3 depth height round (now env) (schedule env)) in
       let! value := st_lift (FullProposal_shard_hash full_proposal) in
       st_modify (cast (ProposeValue height round value None)) ;;;
       gossip (BroadcastFullProposal full_proposal) ;;;
       st_ret Continue)%st
  | GetValidatorSet height =>
      (let! s := st_get in
       st_ret (ResumeValidatorSet height (Some (get_validator_set (shard_validator s)))))%st
  | Decide height round value commits =>
      (on_validator (decide_ blake3 depth height value) ;;;
       let! next := st_lift (unwrap_result (increment height)) in
       st_modify (cast (StartHeight next)) ;;;
       st_ret Continue)%st
  end.

(** [process!]: an effect that fails ends the step with its error. *)
Fixpoint run_process (p : Process) : ST State string unit := fun s =>
  match p with
  | Finished r cs => (r, set_consensus cs s)
  | Perform e interrupted k =>
      match handle_effect e s with
      | (Ok resume, s') => run_process (k resume) s'
      | (Err err, s') => (Err err, set_consensus interrupted s')
      | (Panic, s') => (Panic, s')
      | (OutOfFuel, s') => (OutOfFuel, s')
      end
  end.

Definition process_input (input : Input) : ST State string unit := fun s =>
  run_process (process (consensus s) input) s.

(** A result whose error is logged. *)
Definition log_error {A} (m : ST State string A) : ST State string unit := fun s =>
  let (r, s') := m s in
  (match r with Ok _ => Ok tt | Err _ => Ok tt | Panic => Panic | OutOfFuel => OutOfFuel end, s').

Definition height_ge (a b : Height) : bool := match height_compare a b with Lt => false | _ => true end.

Definition start_height (height : Height) : ST State string unit :=
  (let! s := st_get in
   if started (shard_validator s) && height_ge (driver_height (consensus s)) height then st_ret tt
   else
     let validator_set := get_validator_set (shard_validator s) in
     log_error (process_input (In_StartHeight height validator_set)) ;;;
     st_modify (fun s => set_validator (start (shard_validator s)) s))%st.

(** The delay before consensus starts, and the number of peers it takes. *)
Definition start_delay : Z := (10 * 10 ^ 9)%Z.
Definition start_peers : nat := 3.

Definition handle_msg (msg : ConsensusMsg) : ST State string unit :=
  match msg with
  | StartHeight height => start_height height
  | ProposeValue height round value _ => log_error (process_input (In_ProposeValue height round value None))
  | ReceivedSignedVote vote =>
      (let! s := st_get in
       (if negb (started (shard_validator s)) then start_height (vote_height vote.1) else st_ret tt) ;;;
       log_error (process_input (In_Vote vote)))%st
  | ReceivedSignedProposal proposal =>
      (let! s := st_get in
       (if negb (started (shard_validator s)) then start_height (prop_height proposal.1) else st_ret tt) ;;;
       log_error (process_input (In_Proposal proposal)))%st
  | RegisterValidator validator =>
      (let! s := st_get in
       let (added, v) := add_validator validator (shard_validator s) in
       st_modify (set_validator v) ;;;
       if negb added then st_ret tt
       else
         let connected_peers := validator_count v in
         on_validator (sync_with_new_validator (get_blocks_rpc env) validator) ;;;
         if connected_peers =? start_peers then
           let! s := st_get in
           st_modify (send_after start_delay (StartHeight (driver_height (consensus s))))
         else st_ret tt)%st
  | ReceivedProposalPart => st_ret tt
  | ReceivedFullProposal full_proposal =>
      (let! height := st_lift (unwrap (fp_height full_proposal)) in
       let! proposed_value := on_validator (add_proposed_value full_proposal) in
       log_error (process_input (In_ReceivedProposedValue proposed_value)))%st
  | TimeoutElapsedMsg elapsed =>
      (let! s := st_get in
       let (o, timers) := intercept_timer_msg elapsed (st_timers s) in
       st_modify (set_timers timers) ;;;
       match o with
       | None => st_ret tt
       | Some timeout =>
           let! s := st_get in
           let! timeouts := st_lift (increase_timeout (timeout_step timeout) (st_timeouts s)) in
           st_modify (set_timeouts timeouts) ;;;
           log_error (process_input (In_TimeoutElapsed timeout))
       end)%st
  | ReceivedProposedValue value => log_error (process_input (In_ReceivedProposedValue value))
  end.

(** [pre_start], given the name for the log, and [post_start]: all timers are
    cancelled and the node's own key is added to the validators. *)
Definition pre_start (cs : CState) (validator : ShardValidator T Round) (tx : option (list GossipEvent)) : State :=
  mkState TimerScheduler_new (Timeouts_new timeout_config) cs validator tx [] [].

Definition post_start (shard_id : Z) (public_key : bytes) : ST State string unit :=
  (st_modify (fun s => set_timers (cancel_all (st_timers s)) s) ;;;
   let! s := st_get in
   let! height := st_lift (map_err message (get_current_height (shard_validator s))) in
   st_modify (set_validator (add_validator (SnapchainValidator_new shard_id public_key None height) (shard_validator s)).2))%st.

Definition post_stop : ST State string unit := st_modify (fun s => set_timers (cancel_all (st_timers s)) s).

(** The messages of the mailbox, one after another. *)
Fixpoint handle_all (msgs : list ConsensusMsg) : ST State string unit :=
  match msgs with
  | [] => st_ret tt
  | msg :: msgs => (handle_msg msg ;;; handle_all msgs)%st
  end.

(** ** Lemmas *)

Definition delta_for (t : Timeouts) (step : TimeoutStep) : Z :=
  match step with
  | Step_Propose => timeout_propose_delta (config t)
  | Step_Prevote => timeout_prevote_delta (config t)
  | Step_Precommit => timeout_precommit_delta (config t)
  | Step_Commit => 0
  end.

Lemma increase_timeout_spec (t : Timeouts) (st : TimeoutStep) :
  (duration_for t st + delta_for t st < duration_max)%Z ->
  exists t', increase_timeout (E := string) st t = Ok t' /\
    duration_for t' st = (duration_for t st + delta_for t st)%Z /\
    (forall st', st' ≠ st -> duration_for t' st' = duration_for t st') /\
    (forall st', delta_for t' st' = delta_for t st').
Proof using Type.
  intros Hd. destruct st; simpl in *; unfold add_duration; try (rewrite (proj2 (Z.ltb_lt _ _) Hd)); simpl.
  all: eexists; split; [reflexivity|]; simpl; rewrite ?Z.add_0_r.
  all: split_and!; [done|intros []; done|intros []; done].
Qed.

(** Registration on the validator. *)
Definition count (s : State) : nat := validator_count (shard_validator s).

Lemma set_add_count (set : SnapchainValidatorSet) (v : SnapchainValidator) :
  set_count (set_add set v).2 = set_count set + if (set_add set v).1 then 1 else 0.
Proof using Type.
  unfold set_add, set_count. destruct (set_exists set (address v)); [simpl; lia|].
  destruct (match set with [] => true | _ => _ end); [|simpl; lia].
  change (length (merge_sort validator_le (set ++ [v])) = length set + 1).
  by rewrite (Permutation_length (merge_sort_Permutation validator_le (set ++ [v]))), length_app.
Qed.

Lemma sync_keeps rpc (v : SnapchainValidator) (sv : ShardValidator T Round) r sv' :
  sync_with_new_validator rpc v sv = (r, sv') ->
  validator_set sv' = validator_set sv /\ started sv' = started sv /\
  (block_proposer sv = None -> r = Ok tt /\ sv' = sv).
Proof using Type.
  unfold sync_with_new_validator. destruct (block_proposer sv) as [p|] eqn:Ep; [|naive_solver].
  destruct (register_validator rpc v p) as [r0 p']. intros [= _ <-]. done.
Qed.

(** The message that is scheduled when the number of validators is reached. *)
Definition start_message (s : State) : Z * ConsensusMsg := (start_delay, StartHeight (driver_height (consensus s))).

Lemma register_spec (v : SnapchainValidator) s s' :
  handle_msg (RegisterValidator v) s = (Ok tt, s') ->
  validator_set (shard_validator s') = (set_add (validator_set (shard_validator s)) v).2 /\
  consensus s' = consensus s /\ self_messages s' = self_messages s /\
  (block_proposer (shard_validator s) = None -> block_proposer (shard_validator s') = None) /\
  delayed_messages s' = delayed_messages s ++
    (if (set_add (validator_set (shard_validator s)) v).1 && (count s' =? start_peers) then [start_message s] else []).
Proof using Type.
  unfold handle_msg, st_bind, st_get, st_modify, st_ret, add_validator.
  destruct (set_add (validator_set (shard_validator s)) v) as [added set] eqn:Ea. simpl.
  destruct added; simpl.
  2: { intros [= <-]. simpl. by rewrite app_nil_r. }
  unfold on_validator. simpl.
  match goal with |- context [sync_with_new_validator ?a ?b ?c] => destruct (sync_with_new_validator a b c) as [r sv] eqn:Es end.
  destruct (sync_keeps _ _ _ _ _ Es) as (Hv & _ & Hn). simpl in Hv, Hn.
  destruct r; simpl; try done.
  unfold validator_count at 1. simpl. destruct (set_count set =? start_peers) eqn:Ec; intros [= <-]; simpl;
    unfold count, validator_count; simpl; rewrite Hv, ?Ec, ?app_nil_r; split_and!; try done; intros Hb; by destruct (Hn Hb) as [_ ->].
Qed.

Lemma register_total (v : SnapchainValidator) s :
  block_proposer (shard_validator s) = None -> exists s', handle_msg (RegisterValidator v) s = (Ok tt, s').
Proof using Type.
  intros Hb. unfold handle_msg, st_bind, st_get, st_modify, st_ret, add_validator.
  destruct (set_add (validator_set (shard_validator s)) v) as [added set]. simpl.
  destruct added; simpl; [|by eexists]. unfold on_validator, sync_with_new_validator. simpl. rewrite Hb. simpl.
  case_match; by eexists.
Qed.

Lemma handle_all_cons msg msgs s s' :
  handle_all (msg :: msgs) s = (Ok tt, s') ->
  exists s1, handle_msg msg s = (Ok tt, s1) /\ handle_all msgs s1 = (Ok tt, s').
Proof using Type. simpl. intros ([] & s1 & Hm1 & Hm2)%st_bind_Ok_inv. eauto. Qed.

Lemma register_count (v : SnapchainValidator) s s' :
  handle_msg (RegisterValidator v) s = (Ok tt, s') ->
  count s' = count s + if (set_add (validator_set (shard_validator s)) v).1 then 1 else 0.
Proof using Type.
  intros H'. destruct (register_spec v s s' H') as (Ev & _). unfold count, validator_count. by rewrite Ev, set_add_count.
Qed.

Lemma count_mono (vs : list SnapchainValidator) s s' :
  handle_all (map RegisterValidator vs) s = (Ok tt, s') -> count s <= count s'.
Proof using Type.
  revert s. induction vs as [|v vs IH]; intros s Hs; [simpl in Hs; by injection Hs as <-|].
  apply handle_all_cons in Hs as (s1 & Hr1 & Hr2). apply register_count in Hr1. apply IH in Hr2. lia.
Qed.

(** The effect of [Decide] on a validator whose proposer decides. *)
Lemma decide_effect s height r value commits (p p' : BlockProposer T) :
  block_proposer (shard_validator s) = Some p ->
  block_decide height (current_round (shard_validator s)) value p = (Ok tt, p') ->
  is_u64 (block_number height + 1) ->
  exists s', handle_effect (Decide height r value commits) s = (Ok Continue, s') /\
    self_messages s' = self_messages s ++ [StartHeight (mkHeight (shard_index height) (block_number height + 1))] /\
    shard_validator s' = mark_decided height (set_block_proposer p' (shard_validator s)).
Proof using Type.
  intros Hp E Hn. eexists. split.
  - unfold handle_effect, st_bind at 1, on_validator, decide_, st_bind at 1, st_get, st_bind at 1, on_proposer. rewrite Hp, E.
    unfold increment, increment_by, add_u. rewrite (proj2 (Z.ltb_lt _ _)) by apply Hn. reflexivity.
  - done.
Qed.

(** ** Properties *)

(** A timeout message: one that the scheduler rejects changes nothing. One
    that it accepts lengthens the timeout of its own step by the configured
    delta, leaves the timeouts of the other steps, consumes the timer and is
    given to the state machine, whose error does not stop the actor. *)
Theorem timeout_elapsed_handled (elapsed : TimeoutElapsed Timeout) (s : State) :
  ((intercept_timer_msg elapsed (st_timers s)).1 = None -> handle_msg (TimeoutElapsedMsg elapsed) s = (Ok tt, s)) /\
  (forall t ts, intercept_timer_msg elapsed (st_timers s) = (Some t, ts) ->
    (duration_for (st_timeouts s) (timeout_step t) + delta_for (st_timeouts s) (timeout_step t) < duration_max)%Z ->
    exists touts,
      duration_for touts (timeout_step t) =
        (duration_for (st_timeouts s) (timeout_step t) + delta_for (st_timeouts s) (timeout_step t))%Z /\
      (forall st, st ≠ timeout_step t -> duration_for touts st = duration_for (st_timeouts s) st) /\
      (forall st, delta_for touts st = delta_for (st_timeouts s) st) /\
      handle_msg (TimeoutElapsedMsg elapsed) s =
        log_error (process_input (In_TimeoutElapsed t)) (set_timeouts touts (set_timers ts s)) /\
      forall e, (handle_msg (TimeoutElapsedMsg elapsed) s).1 ≠ Err e).
Proof using Type.
  unfold handle_msg, st_bind, st_get, st_modify, st_ret. split.
  - destruct (intercept_timer_msg elapsed (st_timers s)) as [[t|] ts] eqn:E; [done|]. intros _.
    apply intercept_None_timers in E as ->. by destruct s.
  - intros t ts E Hd. rewrite E. destruct (increase_timeout_spec _ _ Hd) as (touts & Et & Ht1 & Ht2 & Ht3).
    exists touts. split_and!; [done..| |]; simpl; unfold st_lift; rewrite Et; [done|].
    unfold log_error. by destruct (process_input _ _) as [[] ?].
Qed.

(** C36. Registering validators, in any order and with repetitions: consensus is
    scheduled, ten seconds later and at the height of the state machine,
    exactly once, by the registration that brings the set to three
    validators; the state machine and the actor's other messages are not
    touched. Without a block proposer every registration succeeds. *)
Theorem consensus_scheduled_once (vs : list SnapchainValidator) (s : State) :
  (block_proposer (shard_validator s) = None ->
    exists s', handle_all (map RegisterValidator vs) s = (Ok tt, s')) /\
  (forall s', handle_all (map RegisterValidator vs) s = (Ok tt, s') ->
    validator_set (shard_validator s') = foldl (fun set v => (set_add set v).2) (validator_set (shard_validator s)) vs /\
    consensus s' = consensus s /\ self_messages s' = self_messages s /\
    delayed_messages s' = delayed_messages s ++
      (if (count s <? start_peers) && (start_peers <=? count s') then [start_message s] else [])).
Proof using Type.
  revert s. induction vs as [|v vs IH]; intros s; (split; [intros Hb|intros s' Hs]).
  - by exists s.
  - simpl in Hs. injection Hs as <-. split_and!; [done..|]. destruct (count s <? start_peers) eqn:E1, (start_peers <=? count s) eqn:E2; simpl;
      rewrite ?app_nil_r; try done. apply Nat.ltb_lt in E1. apply Nat.leb_le in E2. lia.
  - destruct (register_total v s Hb) as (s1 & E1). destruct (register_spec v s s1 E1) as (_ & _ & _ & Hb1 & _).
    destruct (proj1 (IH s1) (Hb1 Hb)) as (s' & E2). exists s'. simpl. by rewrite (st_bind_Ok _ _ _ _ _ E1).
  - apply handle_all_cons in Hs as (s1 & E1 & E2). pose proof (register_count v s s1 E1) as Hc.
    destruct (register_spec v s s1 E1) as (Hv & Hk & Hm & _ & Hd). destruct (proj2 (IH s1) s' E2) as (Hv' & Hk' & Hm' & Hd').
    split_and!; [by rewrite Hv', Hv|congruence|congruence|]. rewrite Hd', Hd, <- app_assoc. f_equal.
    unfold start_message. rewrite Hk. unfold start_peers in *.
    assert (Hle : count s1 <= count s') by (eapply count_mono; exact E2).
    destruct (set_add _ v).1; simpl; repeat case_match; simpl; try done; exfalso;
      repeat match goal with H : _ && _ = _ |- _ => apply andb_true_iff in H as [? ?] || apply andb_false_iff in H as [?|?] end;
      rewrite ?Nat.ltb_lt, ?Nat.leb_le, ?Nat.eqb_eq, ?Nat.ltb_ge, ?Nat.leb_gt, ?Nat.eqb_neq in *; lia.
Qed.

Context `{!TransactionDBLaws T}.

(** A decision on a block: the actor confirms the height, forgets the round
    and asks itself for the next height. The block of a value that was
    proposed here is stored and appended; for a value never proposed here
    nothing is stored, and the next height is started all the same. *)
Theorem decision_starts_next_height (s : State) (height : Height) (r : Round) (value : ShardHash)
    (commits : list SignedVote) (p : BlockProposer T) (m : gmap bytes bytes) (f : gmap Z Block) (sh : Z)
    (Hp : block_proposer (shard_validator s) = Some p) (Hn : is_u64 (block_number height + 1))
    (Hd : holds (block_store (bp_engine p)) m) (Hf : block_rows sh m f)
    (Hb : forall proposal, proposed_blocks p !! value = Some proposal ->
      exists b hd n, proposed_value proposal = Some (PV_Block b) /\ block_header b = Some hd /\
        block_height hd = Some (mkHeight sh n) /\ is_u64 n) :
  exists s' p', handle_effect (Decide height r value commits) s = (Ok Continue, s') /\
    self_messages s' = self_messages s ++ [StartHeight (mkHeight (shard_index height) (block_number height + 1))] /\
    confirmed_height (shard_validator s') = Some height /\ current_round (shard_validator s') = Round_Nil /\
    block_proposer (shard_validator s') = Some p' /\
    match proposed_blocks p !! value with
    | None => p' = p
    | Some proposal => exists b hd n m', proposed_value proposal = Some (PV_Block b) /\ block_header b = Some hd /\
        block_height hd = Some (mkHeight sh n) /\ holds (block_store (bp_engine p')) m' /\
        block_rows sh m' (<[n := b]> f) /\ blocks p' = blocks p ++ [b] /\ proposed_blocks p' !! value = None
    end.
Proof.
  destruct (proposed_blocks p !! value) as [proposal|] eqn:Ep.
  - destruct (Hb proposal eq_refl) as (b & hd & n & Eb & Ehd & Eh & Hn').
    destruct (block_decide_known p height (current_round (shard_validator s)) value m f sh proposal b hd n Hd Hf Ep Eb Ehd Eh Hn')
      as (p' & E & (m' & Hm' & Hf') & _ & Hbl & _ & Hv).
    destruct (decide_effect s height r value commits p p' Hp E Hn) as (s' & E' & Hs & Hsv).
    exists s', p'. rewrite Hsv. split_and!; try done. by exists b, hd, n, m'.
  - destruct (decide_effect s height r value commits p p Hp (block_decide_unknown p height _ value Ep) Hn) as (s' & E' & Hs & Hsv).
    exists s', p. rewrite Hsv. by split_and!.
Qed.

End Consensus.

(** ** Witnesses

    A state machine that keeps the height it was started at, and schedules a
    timeout again when it elapses. *)
Module ConsensusSample.
Export ProposerSample TypesSample.

Definition sample_config : TimeoutConfig := mkTimeoutConfig 3000 500 1000 500 1000 500 1000.
Definition sample_process (cs : Height) (input : Input (Round := option N) (Extension := unit)) :
    Process (Round := option N) (Extension := unit) Height :=
  match input with
  | In_StartHeight h _ => Finished Height (Ok tt) h
  | In_TimeoutElapsed t => Perform Height (ScheduleTimeout t) cs (fun _ => Finished Height (Ok tt) cs)
  | _ => Finished Height (Err "not handled"%string) cs
  end.
Definition sample_env : Env := mkEnv 1609459201 [Deadline] (fun _ _ _ => Ok []).

Definition block_validator : ShardValidator (gmap bytes bytes) (option N) :=
  ShardValidator_new (be_bytes 32 1) 0 (Some deciding) None.
Definition block_state : State (Round := option N) (Extension := unit) Height :=
  pre_start Height sample_config (mkHeight 0 7) block_validator (Some []).

Definition shard_validator_ : ShardValidator (gmap bytes bytes) (option N) :=
  ShardValidator_new (be_bytes 32 1) 1 None (Some sample_proposer).
Definition shard_state : State (Round := option N) (Extension := unit) Height :=
  pre_start Height sample_config (mkHeight 1 7) shard_validator_ (Some []).

Definition prevote_timeout : Timeout (Round := option N) := mkTimeout (Some 0%N) Step_Prevote.
Definition waiting : State (Round := option N) (Extension := unit) Height :=
  (handle_effect Height sample_blake3 21 sample_config sample_env (ScheduleTimeout prevote_timeout) shard_state).2.
End ConsensusSample.
Import ConsensusSample.

Lemma timeout_elapsed_handled_witness :
  exists touts, duration_for touts Step_Prevote = 1500%Z /\ duration_for touts Step_Propose = 3000%Z /\
    handle_msg Height id sample_process sample_blake3 21 sample_config sample_env
      (TimeoutElapsedMsg (mkTimeoutElapsed prevote_timeout 1)) waiting =
    log_error Height (process_input Height sample_process sample_blake3 21 sample_config sample_env (In_TimeoutElapsed prevote_timeout))
      (set_timeouts Height touts (set_timers Height
        (intercept_timer_msg (mkTimeoutElapsed prevote_timeout 1) (st_timers Height waiting)).2 waiting)).
Proof.
  destruct (timeout_elapsed_handled Height id sample_process sample_blake3 21 sample_config sample_env
    (mkTimeoutElapsed prevote_timeout 1) waiting) as [_ H].
  destruct (H prevote_timeout (intercept_timer_msg (mkTimeoutElapsed prevote_timeout 1) (st_timers Height waiting)).2)
    as (touts & H1 & H2 & _ & E & _); [vm_compute; reflexivity|vm_compute; reflexivity|].
  exists touts. split_and!; [exact H1|exact (H2 Step_Propose ltac:(discriminate))|exact E].
Defined.

Lemma consensus_scheduled_once_witness :
  exists s', handle_all Height id sample_process sample_blake3 21 sample_config sample_env
      (map RegisterValidator [sample_validator 2; sample_validator 1; sample_validator 2; sample_validator 5; sample_validator 4]) shard_state
      = (Ok tt, s') /\
    length (validator_set (shard_validator Height s')) = 4 /\
    delayed_messages Height s' = [(start_delay, StartHeight (mkHeight 1 7))].
Proof.
  destruct (consensus_scheduled_once Height id sample_process sample_blake3 21 sample_config sample_env
    [sample_validator 2; sample_validator 1; sample_validator 2; sample_validator 5; sample_validator 4] shard_state) as [H1 H2].
  destruct (H1 eq_refl) as (s' & E). destruct (H2 s' E) as (Hv & _ & _ & Hd). exists s'. split; [exact E|].
  unfold count, validator_count, set_count in Hd. rewrite Hv in Hd |- *. split; [vm_compute; reflexivity|].
  rewrite Hd. vm_compute. reflexivity.
Defined.

Lemma decision_starts_next_height_witness :
  exists s' p', handle_effect Height sample_blake3 21 sample_config sample_env
      (Decide (mkHeight 0 7) (Some 0%N) (mkShardHash 0 [1; 2; 3]%Z) []) block_state = (Ok Continue, s') /\
    self_messages Height s' = [StartHeight (mkHeight 0 8)] /\
    block_proposer (shard_validator Height s') = Some p' /\ blocks p' = [sample_block 7].
Proof.
  destruct (decision_starts_next_height Height sample_blake3 21 sample_config sample_env block_state (mkHeight 0 7) (Some 0%N)
    (mkShardHash 0 [1; 2; 3]%Z) [] deciding ∅ ∅ 0) as (s' & p' & E & Hm & _ & _ & Hp & Hv).
  - reflexivity.
  - decide_now.
  - apply holds_gmap.
  - exact empty_rows.
  - intros proposal Hp. exists (sample_block 7), (sample_header 7), 7%Z. vm_compute in Hp. injection Hp as <-.
    split_and!; [reflexivity|reflexivity|reflexivity|decide_now].
  - exists s', p'. split_and!; [exact E|exact Hm|exact Hp|].
    assert (Ev : proposed_blocks deciding !! mkShardHash 0 [1; 2; 3]%Z = Some block_proposal) by (vm_compute; reflexivity).
    rewrite Ev in Hv. destruct Hv as (b & hd & n & m' & Eb & _ & _ & _ & _ & Hb & _). injection Eb as <-. exact Hb.
Defined.
