(* ===== verification/Gossip.v ===== *)
(** * Gossip

    [src/network/gossip.rs]: the task that broadcasts what the actors of a node
    ask for and hands the node what other nodes broadcast. The swarm of libp2p
    is the interface [SwarmOps]; the channels to the task and from it to the
    node are the lists of what was sent and not received. *)

From S2P Require Import Prelude Text Util Db Proto TrieNode MerkleTrie Block Engine Timers Types Proposer Validator Consensus.

(** ** Third-party libp2p *)
Class SwarmOps (Swarm : Type) := {
  Multiaddr : Type;
  parse_multiaddr : string -> result string Multiaddr;
  (** the builder, with the behaviour [gossipsub] *)
  swarm_build : bytes -> result string Swarm;
  swarm_dial : Multiaddr -> Swarm -> result string unit * Swarm;
  swarm_subscribe : string -> Swarm -> result string unit * Swarm;
  swarm_listen_on : Multiaddr -> Swarm -> result string unit * Swarm;
  swarm_publish : string -> bytes -> Swarm -> result string unit * Swarm;
}.

(** [ed25519::PublicKey::try_from_bytes]; the bytes of a public key are
    accepted and no others. *)
Class PublicKeyOps := public_key_try_from_bytes : bytes -> option bytes.
Class PublicKeyLaws `{SigningOps} `{PublicKeyOps} : Prop := {
  public_key_bytes (k : Keypair) : public_key_try_from_bytes (keypair_public k) = Some (keypair_public k);
  public_key_same (b pk : bytes) : public_key_try_from_bytes b = Some pk -> pk = b;
}.

(** ** Configuration *)
Record GossipConfig := mkGossipConfig { gossip_address : string; bootstrap_peers : string }.

Definition DEFAULT_GOSSIP_PORT : Z := 3382.
Definition DEFAULT_GOSSIP_HOST : string := "127.0.0.1".

Definition GossipConfig_default : GossipConfig :=
  mkGossipConfig ("/ip4/" +:+ DEFAULT_GOSSIP_HOST +:+ "/udp/" +:+ print_uint DEFAULT_GOSSIP_PORT +:+ "/quic-v1") "".

Definition bootstrap_addrs (c : GossipConfig) : list string := split_char comma (bootstrap_peers c).

(** The topic, for subscribing and publishing. *)
Definition topic : string := "test-net".

Section Gossip.
Context {Round Extension : Type} `{RoundOps Round} `{SwarmOps Swarm} `{PublicKeyOps} `{!Codec GossipMessage}.

Inductive SystemMessage := SM_Consensus (m : ConsensusMsg (Round := Round) (Extension := Extension)).

(** [SnapchainGossip]; [gossip_rx] is what the channel holds. A closed
    [system_tx] is [None]. *)
Record SnapchainGossip := mkSnapchainGossip {
  swarm : Swarm;
  gossip_rx : list (GossipEvent (Round := Round) (Extension := Extension));
  system_tx : option (list SystemMessage);
}.

(** An address that does not parse is an error, a dial that fails is logged. *)
Fixpoint dial_all (addrs : list string) (s : Swarm) : result string Swarm :=
  match addrs with
  | [] => Ok s
  | addr :: addrs =>
      parsed_addr ← parse_multiaddr addr;
      dial_all addrs (swarm_dial parsed_addr s).2
  end.

Definition gossip_create (keypair : bytes) (config : GossipConfig) (system_tx : option (list SystemMessage)) :
    result string SnapchainGossip :=
  s ← swarm_build keypair;
  s ← dial_all (bootstrap_addrs config) s;
  let (r, s) := swarm_subscribe topic s in
  _ ← r;
  addr ← parse_multiaddr (gossip_address config);
  let (r, s) := swarm_listen_on addr s in
  _ ← r;
  Ok (mkSnapchainGossip s [] system_tx).

Definition set_swarm (s : Swarm) (g : SnapchainGossip) : SnapchainGossip :=
  mkSnapchainGossip s (gossip_rx g) (system_tx g).
Definition set_gossip_rx (l : list GossipEvent) (g : SnapchainGossip) : SnapchainGossip :=
  mkSnapchainGossip (swarm g) l (system_tx g).
Definition set_system_tx (tx : option (list SystemMessage)) (g : SnapchainGossip) : SnapchainGossip :=
  mkSnapchainGossip (swarm g) (gossip_rx g) tx.

(** [publish]: an error is logged. *)
Definition publish (message : bytes) (g : SnapchainGossip) : SnapchainGossip :=
  set_swarm (swarm_publish topic message (swarm g)).2 g.

(** [self.system_tx.send(SystemMessage::Consensus(..))]: an error is logged. *)
Definition send_system (m : ConsensusMsg) (g : SnapchainGossip) : SnapchainGossip :=
  set_system_tx ((fun sent => sent ++ [SM_Consensus m]) <$> system_tx g) g.

(** The message of a broadcast. *)
Definition gossip_message (e : GossipEvent (Round := Round) (Extension := Extension)) : GossipMessage :=
  mkGossipMessage (Some match e with
  | BroadcastSignedVote (vote, signature) => GP_Consensus (mkConsensusMessage (Some (PC_Vote (Vote_to_proto vote))) signature)
  | BroadcastSignedProposal (proposal, signature) =>
      GP_Consensus (mkConsensusMessage (Some (PC_Proposal (Proposal_to_proto proposal))) signature)
  | BroadcastFullProposal full_proposal => GP_FullProposal full_proposal
  | GossipRegisterValidator register_validator => GP_Validator register_validator
  end).

(** What [start] does with an event of its channel. *)
Definition handle_gossip_event (event : option GossipEvent) (g : SnapchainGossip) : SnapchainGossip :=
  match event with
  | Some e => publish (encode_to_vec (gossip_message e)) g
  | None => g
  end.

(** What it does with the data of a message of the swarm. *)
Definition handle_gossip_data (data : bytes) : ST SnapchainGossip string unit :=
  match decode data with
  | Ok message =>
      match gm_message message with
      | Some (GP_FullProposal full_proposal) =>
          (let! _ := st_lift (fp_get_height full_proposal) in
           st_modify (send_system (ReceivedFullProposal full_proposal)))%st
      | Some (GP_Validator validator) =>
          match rv_validator validator with
          | Some validator =>
              match public_key_try_from_bytes (pval_signer validator) with
              | None => st_ret tt
              | Some public_key =>
                  st_modify (send_system (RegisterValidator (SnapchainValidator_new (pval_shard_index validator)
                    public_key (Some (pval_rpc_address validator)) (pval_current_height validator))))
              end
          | None => st_ret tt
          end
      | Some (GP_Consensus signed_consensus_msg) =>
          match cm_message signed_consensus_msg with
          | Some (PC_Vote vote) =>
              (let! vote := st_lift (unwrap_result (Vote_from_proto vote)) in
               st_modify (send_system (ReceivedSignedVote (vote, cm_signature signed_consensus_msg))))%st
          | Some (PC_Proposal proposal) =>
              (let! proposal := st_lift (unwrap_result (Proposal_from_proto proposal)) in
               st_modify (send_system (ReceivedSignedProposal (proposal, cm_signature signed_consensus_msg))))%st
          | None => st_ret tt
          end
      | None => st_ret tt
      end
  | Err _ => st_ret tt
  | Panic => st_lift Panic
  | OutOfFuel => st_lift OutOfFuel
  end.

(** The events of the swarm that the loop tells apart. *)
Inductive GossipSwarmEvent :=
| ConnectionEstablished (peer_id : bytes)
| ConnectionClosed (peer_id : bytes)
| Subscribed (peer_id : bytes) (topic : string)
| Unsubscribed (peer_id : bytes) (topic : string)
| NewListenAddr (address : string)
| MessageReceived (peer_id : bytes) (data : bytes)
| OtherSwarmEvent.

Definition handle_swarm_event (e : GossipSwarmEvent) : ST SnapchainGossip string unit :=
  match e with
  | MessageReceived _ data => handle_gossip_data data
  | _ => st_ret tt
  end.

(** One turn of the loop of [start]: the branch that [select!] takes. *)
Inductive GossipTurn :=
| FromSwarm (e : GossipSwarmEvent)
| FromChannel.

Definition gossip_turn (turn : GossipTurn) : ST SnapchainGossip string unit :=
  match turn with
  | FromSwarm e => handle_swarm_event e
  | FromChannel => fun g =>
      match gossip_rx g with
      | e :: rx => (Ok tt, handle_gossip_event (Some e) (set_gossip_rx rx g))
      | [] => (Ok tt, g)
      end
  end.

Fixpoint gossip_start (turns : list GossipTurn) : ST SnapchainGossip string unit :=
  match turns with
  | [] => st_ret tt
  | turn :: turns => (gossip_turn turn ;;; gossip_start turns)%st
  end.

End Gossip.

Arguments SystemMessage Round Extension : clear implicits.
Arguments SnapchainGossip Round Extension Swarm : clear implicits.

(** ** Messages that stop the task

    The conversion of a vote panics without a known type, a height and a voter
    of 32 bytes, that of a proposal without a height, a value and a proposer of
    32 bytes. Of a full proposal only the height is read. *)
Definition vote_well_formed (v : ProtoVote) : bool :=
  ((pv_type v =? 0) || (pv_type v =? 1))%Z && bool_decide (is_Some (pv_height v)) && (length (pv_voter v) =? 32).
Definition proposal_well_formed (p : ProtoProposal) : bool :=
  bool_decide (is_Some (pp_height p)) && bool_decide (is_Some (pp_value p)) && (length (pp_proposer p) =? 32).

(** Specification: a message has the fields that its handling reads. *)
Definition needed_fields (m : GossipMessage) : bool :=
  match gm_message m with
  | Some (GP_FullProposal p) => bool_decide (is_Some (fp_height p))
  | Some (GP_Consensus m) =>
      match cm_message m with
      | Some (PC_Vote v) => vote_well_formed v
      | Some (PC_Proposal p) => proposal_well_formed p
      | None => true
      end
  | _ => true
  end.

Section GossipSpec.
Context {Round Extension : Type} `{RoundLaws Round} `{SwarmOps Swarm} `{PublicKeyOps} `{!Codec GossipMessage}.
Implicit Types (g : SnapchainGossip Round Extension Swarm) (e : GossipEvent (Round := Round) (Extension := Extension)).

(** What the wire form of a vote or a proposal says. *)
Definition says_vote (pv : ProtoVote) (v : Vote Round Extension) : Prop :=
  pv_type pv = match vote_type v with Prevote => 0 | Precommit => 1 end%Z /\ pv_height pv = Some (vote_height v) /\
  Round_new (pv_round pv) = vote_round v /\ pv_value pv = match vote_shard_hash v with Nil_ => None | Val h => Some h end /\
  pv_voter pv = voter v /\ is_address (voter v) /\ vote_extension v = None.
Definition says_proposal (pp : ProtoProposal) (p : Proposal Round) : Prop :=
  pp_height pp = Some (prop_height p) /\ Round_new (pp_round pp) = prop_round p /\ Round_new (pp_pol_round pp) = prop_pol_round p /\
  pp_value pp = Some (prop_shard_hash p) /\ pp_proposer pp = prop_proposer p /\ is_address (prop_proposer p).

Lemma Vote_from_proto_outcome (v : ProtoVote) :
  if vote_well_formed v then exists v', Vote_from_proto (Round := Round) (Extension := Extension) v = Ok v' /\ says_vote v v'
  else Vote_from_proto (Round := Round) (Extension := Extension) v = Panic.
Proof using Type.
  destruct v as [ty [h|] r val voter]; unfold vote_well_formed, Vote_from_proto, Address_from_vec; simpl.
  - rewrite andb_true_r. unfold says_vote, is_address.
    destruct ty as [|[p|p|]|p]; simpl; try done; destruct (Nat.eqb_spec (length voter) 32); try done;
      eexists; (split; [reflexivity|]); simpl; by destruct val.
  - rewrite andb_false_r. simpl.
    by destruct ty as [|[p|p|]|p].
Qed.

Lemma Proposal_from_proto_outcome (p : ProtoProposal) :
  if proposal_well_formed p then exists p', Proposal_from_proto (Round := Round) p = Ok p' /\ says_proposal p p'
  else Proposal_from_proto (Round := Round) p = Panic.
Proof using Type.
  destruct p as [[h|] r pol proposer [val|]]; unfold proposal_well_formed, Proposal_from_proto, Address_from_vec; simpl; try done.
  unfold says_proposal, is_address. destruct (Nat.eqb_spec (length proposer) 32); [|done]. by eexists.
Qed.

(** What a peer hands to its node for a broadcast. *)
Definition drop_extension (v : Vote Round Extension) : Vote Round Extension :=
  mkVote (vote_type v) (vote_height v) (vote_round v) (vote_shard_hash v) (voter v) None.
Definition validator_of (v : ProtoValidator) (public_key : bytes) : SnapchainValidator :=
  SnapchainValidator_new (pval_shard_index v) public_key (Some (pval_rpc_address v)) (pval_current_height v).

Inductive delivered : GossipEvent (Round := Round) (Extension := Extension) -> ConsensusMsg (Round := Round) (Extension := Extension) -> Prop :=
| delivered_vote v sig : is_address (voter v) -> delivered (BroadcastSignedVote (v, sig)) (ReceivedSignedVote (drop_extension v, sig))
| delivered_proposal p sig : is_address (prop_proposer p) -> delivered (BroadcastSignedProposal (p, sig)) (ReceivedSignedProposal (p, sig))
| delivered_full p h : fp_height p = Some h -> delivered (BroadcastFullProposal p) (ReceivedFullProposal p)
| delivered_validator r v pk : rv_validator r = Some v -> public_key_try_from_bytes (pval_signer v) = Some pk ->
    delivered (GossipRegisterValidator r) (RegisterValidator (validator_of v pk)).

Context `{!CodecLaw GossipMessage}.

Lemma handle_data_delivered e m g :
  delivered e m -> handle_gossip_data (encode_to_vec (gossip_message e)) g = (Ok tt, send_system m g).
Proof.
  intros Hd. unfold handle_gossip_data. rewrite decode_encode.
  destruct Hd as [v sig Ha|p sig Ha|p h Hh|r v pk Hv Hk]; cbn [gossip_message gm_message cm_message cm_signature].
  - by rewrite (Vote_roundtrip v Ha).
  - by rewrite (Proposal_roundtrip p Ha).
  - unfold fp_get_height. by rewrite Hh.
  - by rewrite Hv, Hk.
Qed.

End GossipSpec.

Section GossipProperties.
Context {Round Extension : Type} `{RoundLaws Round} `{SwarmOps Swarm} `{PublicKeyOps} `{!Codec GossipMessage}.
Implicit Types (g : SnapchainGossip Round Extension Swarm).

Lemma send_system_swarm m g : swarm (send_system m g) = swarm g /\ gossip_rx (send_system m g) = gossip_rx g.
Proof using Type. done. Qed.

(** A malformed message panics. *)
Lemma handle_data_malformed data message g :
  decode data = Ok message -> needed_fields message = false -> handle_gossip_data data g = (Panic, g).
Proof using Type.
  intros Hd Hw. unfold handle_gossip_data. rewrite Hd. unfold needed_fields in Hw.
  destruct message as [[[[[[v|p]|] sig]|r|p]|]]; try done; cbn [gm_message cm_message cm_signature] in *.
  - pose proof (Vote_from_proto_outcome (Extension := Extension) v) as Hv. rewrite Hw in Hv. by rewrite Hv.
  - pose proof (Proposal_from_proto_outcome p) as Hp. rewrite Hw in Hp. by rewrite Hp.
  - unfold fp_get_height. by destruct (fp_height p).
Qed.

(** The message that data of the wire give the node, and its shard. *)
Inductive received : GossipMessage -> ConsensusMsg (Round := Round) (Extension := Extension) -> Z -> Prop :=
| received_vote pv v sig : says_vote pv v ->
    received (mkGossipMessage (Some (GP_Consensus (mkConsensusMessage (Some (PC_Vote pv)) sig)))) (ReceivedSignedVote (v, sig))
      (shard_index (vote_height v))
| received_proposal pp p sig : says_proposal pp p ->
    received (mkGossipMessage (Some (GP_Consensus (mkConsensusMessage (Some (PC_Proposal pp)) sig)))) (ReceivedSignedProposal (p, sig))
      (shard_index (prop_height p))
| received_full p h : fp_height p = Some h ->
    received (mkGossipMessage (Some (GP_FullProposal p))) (ReceivedFullProposal p) (shard_index h)
| received_validator r v pk : rv_validator r = Some v -> public_key_try_from_bytes (pval_signer v) = Some pk ->
    received (mkGossipMessage (Some (GP_Validator r))) (RegisterValidator (validator_of v pk)) (pval_shard_index v).

(** Messages without an effect: nothing in them, or a registration without a
    validator or with a signer that is no public key. *)
Inductive ignored : GossipMessage -> Prop :=
| ignored_empty : ignored (mkGossipMessage None)
| ignored_consensus sig : ignored (mkGossipMessage (Some (GP_Consensus (mkConsensusMessage None sig))))
| ignored_registration r : rv_validator r = None -> ignored (mkGossipMessage (Some (GP_Validator r)))
| ignored_key r v : rv_validator r = Some v -> public_key_try_from_bytes (pval_signer v) = None ->
    ignored (mkGossipMessage (Some (GP_Validator r))).

(** C29. What a peer can do to a node through gossip. Data that does not decode
    and messages without content, or with a signer that is no public key, do
    nothing. A vote without a known type, a height or a voter of 32 bytes, a
    proposal without a height, a value or a proposer of 32 bytes, and a full
    proposal without a height stop the task, whoever sent them. Every other
    message is handed to the node as exactly one message, which says what was
    on the wire, for the shard named there; a full proposal is handed on with
    whatever value and proposer it has, or none. *)
Theorem gossip_data_outcomes (data : bytes) g :
  match decode data with
  | Ok message =>
      if needed_fields message then
        (ignored message /\ handle_gossip_data data g = (Ok tt, g)) \/
        (exists m shard, received message m shard /\ msg_shard_id m = Ok shard /\
           handle_gossip_data data g = (Ok tt, send_system m g))
      else handle_gossip_data data g = (Panic, g)
  | Err _ => handle_gossip_data data g = (Ok tt, g)
  | Panic => handle_gossip_data data g = (Panic, g)
  | OutOfFuel => handle_gossip_data data g = (OutOfFuel, g)
  end.
Proof using Type.
  destruct (decode data) as [message| | |] eqn:Hd; [|by unfold handle_gossip_data; rewrite Hd..].
  destruct (needed_fields message) eqn:Hw; [|by eapply handle_data_malformed].
  unfold handle_gossip_data. rewrite Hd. unfold needed_fields in Hw.
  destruct message as [[[[[[v|p]|] sig]|[[v|] nonce]|p]|]]; cbn [gm_message cm_message cm_signature rv_validator] in *.
  - pose proof (Vote_from_proto_outcome (Extension := Extension) v) as Hv. rewrite Hw in Hv. destruct Hv as (v' & E & Hs).
    right. do 2 eexists. split; [by constructor|]. by rewrite E.
  - pose proof (Proposal_from_proto_outcome p) as Hp. rewrite Hw in Hp. destruct Hp as (p' & E & Hs).
    right. do 2 eexists. split; [by constructor|]. by rewrite E.
  - left. split; [constructor|done].
  - destruct (public_key_try_from_bytes (pval_signer v)) as [pk|] eqn:Ek.
    + right. do 2 eexists. split; [by econstructor|]. done.
    + left. split; [by eapply ignored_key|done].
  - left. split; [by constructor|done].
  - unfold fp_get_height. destruct (fp_height p) as [h|] eqn:Eh; [|done].
    right. exists (ReceivedFullProposal p), (shard_index h). split; [by constructor|]. unfold msg_shard_id, fp_get_height. by rewrite Eh.
  - left. split; [constructor|done].
Qed.

End GossipProperties.
