(* ===== verification/Node.v ===== *)
(** * The node

    [src/node/snapchain_node.rs] and the configuration of consensus in
    [src/consensus/consensus.rs]: the actors of the shards of a node, one for
    blocks and one for each shard of users, and the routing of messages to
    them. An actor is its state with its mailbox; the runtime of the actors
    ends one whose handler fails. *)

From S2P Require Import Prelude Text Util Db Proto TrieNode TrieSpec MerkleTrie Block Engine Timers Types Proposer Validator Consensus.

(** ** Configuration *)

(** [hex::decode], [hex::encode] and the keys of libp2p. *)
Class SecretKeyOps `{SigningOps} := {
  hex_decode : string -> option bytes;
  hex_encode : bytes -> string;
  secret_key_try_from_bytes : bytes -> option Keypair;
}.

(** [Config] of consensus; the delay is in nanoseconds. *)
Record ConsensusConfig := mkConsensusConfig {
  private_key : string;
  cfg_shard_ids : string;
  propose_value_delay : Z;
}.

Definition config_keypair `{SecretKeyOps} (c : ConsensusConfig) : result string Keypair :=
  b ← unwrap (hex_decode (private_key c));
  unwrap (secret_key_try_from_bytes b).

Definition shard_ids (c : ConsensusConfig) : result string (list Z) :=
  mapM (fun s => unwrap (parse_uint 32 s)) (split_char comma (cfg_shard_ids c)).

Definition config_num_shards (c : ConsensusConfig) : result string Z :=
  ids ← shard_ids c; Ok (wrap 32 (Z.of_nat (length ids))).

Definition with_shard_ids (c : ConsensusConfig) (ids : list Z) : ConsensusConfig :=
  mkConsensusConfig (private_key c) (String.concat "," (map print_uint ids)) (propose_value_delay c).

(** The default, from a generated secret key. *)
Definition ConsensusConfig_default `{SecretKeyOps} (generated : bytes) : ConsensusConfig :=
  mkConsensusConfig (hex_encode generated) "1" (250 * 10 ^ 6).

(** ** Actors *)

(** [ConsensusParams] of the consensus library; the thresholds are its
    defaults. *)
Record ConsensusParams := mkConsensusParams {
  start_height_ : Height;
  initial_validator_set : SnapchainValidatorSet;
  params_address : bytes;
}.

Definition MAX_SHARDS : Z := 3.

Section Node.
Context {T Round Extension : Type} `{TransactionDB T} `{RoundOps Round} `{!Countable Round} `{SigningOps}
  `{!Codec DbTrieNode, !Codec ShardChunk, !Codec Block, !Codec ShardHeader, !Codec BlockHeader,
    !Codec ProtoVote, !Codec ProtoProposal}.

Variable CState : Type.
Variable driver_height : CState -> Height.
Variable process : CState -> Input (Round := Round) (Extension := Extension) -> Process (Round := Round) (Extension := Extension) CState.
(** [ConsensusState::new] *)
Variable new_consensus : Keypair -> ConsensusParams -> CState.
(** [TimeoutConfig::default()] *)
Variable timeout_default : TimeoutConfig.
Variable blake3 : bytes -> bytes.
Variable depth : nat.

Local Abbreviation AState := (State (T := T) (Round := Round) (Extension := Extension) CState).
Local Abbreviation Msg := (ConsensusMsg (Round := Round) (Extension := Extension)).
Local Abbreviation Env := (Consensus.Env).

(** A running actor; [alive] is false once it was stopped or failed. *)
Record Actor := mkActor {
  actor_state : AState;
  mailbox : list Msg;
  alive : bool;
}.

(** [actor.cast(msg)]: a message to a stopped actor is an error, which the
    callers log. *)
Definition actor_cast (m : Msg) (a : Actor) : Actor :=
  if alive a then mkActor (actor_state a) (mailbox a ++ [m]) true else a.

(** The messages an actor sent to itself go to the end of its mailbox. *)
Definition clear_self (s : AState) : AState :=
  mkState CState (st_timers CState s) (st_timeouts CState s) (consensus CState s) (shard_validator CState s)
    (gossip_tx CState s) [] (delayed_messages CState s).

(** The next message of the mailbox. *)
Definition actor_step (env : Env) (a : Actor) : Actor :=
  match alive a, mailbox a with
  | true, m :: ms =>
      let (r, s) := handle_msg CState driver_height process blake3 depth timeout_default env m (actor_state a) in
      mkActor (clear_self s) (ms ++ self_messages CState s) (is_ok r)
  | _, _ => a
  end.

(** [actor.stop(None)]: the actor ends after its current message. *)
Definition actor_stop (a : Actor) : Actor :=
  if alive a then mkActor (post_stop CState (actor_state a)).2 (mailbox a) false else a.

(** [Consensus::spawn] *)
Definition spawn (keypair : Keypair) (shard_id : Z) (params : ConsensusParams) (validator : ShardValidator T Round) : Actor :=
  let (r, s) := post_start CState shard_id (keypair_public keypair)
                  (pre_start CState timeout_default (new_consensus keypair params) validator (Some [])) in
  mkActor s [] (is_ok r).

(** ** The node *)

(** [SnapchainNode]. A sender of [messages_tx_by_shard] is the shard whose
    engine receives. *)
Record SnapchainNode := mkSnapchainNode {
  consensus_actors : gmap Z Actor;
  messages_tx_by_shard : gmap Z Z;
  node_address : bytes;
}.

(** [block_store.max_block_number(..)], with an error as height 0. *)
Definition stored_height (block_store : RocksDB T) (shard_id : Z) : result string Z :=
  match block_max_block_number block_store shard_id with
  | Ok height => Ok height
  | Err _ => Ok 0%Z
  | Panic => Panic
  | OutOfFuel => OutOfFuel
  end.

(** The actor of a shard, from its engine. *)
Definition shard_actor (keypair : Keypair) (rpc_address : option string) (shard_id current_height : Z)
    (engine : ShardEngine T) : Actor :=
  let address := keypair_public keypair in
  let shard_validator := SnapchainValidator_new shard_id (keypair_public keypair) rpc_address current_height in
  let params := mkConsensusParams (Height_new shard_id 1) (set_new [shard_validator]) address in
  let shard_proposer := ShardProposer_new address shard_id engine (Some []) in
  spawn keypair shard_id params (ShardValidator_new address shard_id None (Some shard_proposer)).

Definition shard_path (rocksdb_dir : string) (shard_id : Z) : string := rocksdb_dir +:+ "/shard" +:+ print_uint shard_id.

(** One turn of the loop of [create]. *)
Definition create_shard (keypair : Keypair) (rpc_address : option string) (block_store : RocksDB T)
    (rocksdb_dir : string) (shard_id : Z) : result string Actor :=
  if (shard_id =? 0)%Z then Panic
  else if (MAX_SHARDS <? shard_id)%Z then Panic
  else
    current_height ← stored_height block_store shard_id;
    db ← unwrap_result (RocksDB_open (RocksDB_new (shard_path rocksdb_dir shard_id)));
    engine ← map_err message (ShardEngine_new blake3 depth shard_id db);
    Ok (shard_actor keypair rpc_address shard_id current_height engine).

Fixpoint create_shards (keypair : Keypair) (rpc_address : option string) (block_store : RocksDB T)
    (rocksdb_dir : string) (ids : list Z) (actors : gmap Z Actor) (shard_messages : gmap Z Z) :
    result string (gmap Z Actor * gmap Z Z) :=
  match ids with
  | [] => Ok (actors, shard_messages)
  | shard_id :: ids =>
      actor ← create_shard keypair rpc_address block_store rocksdb_dir shard_id;
      create_shards keypair rpc_address block_store rocksdb_dir ids (<[shard_id := actor]> actors)
        (<[shard_id := shard_id]> shard_messages)
  end.

(** The actor of the blocks. *)
Definition block_actor (keypair : Keypair) (rpc_address : option string) (current_height num_shards : Z)
    (block_store : RocksDB T) : Actor :=
  let address := keypair_public keypair in
  let block_validator := SnapchainValidator_new 0 (keypair_public keypair) rpc_address current_height in
  let params := mkConsensusParams (Height_new 0 1) (set_new [block_validator]) address in
  let block_proposer := BlockProposer_new address 0 [] num_shards (mkBlockEngine block_store) in
  spawn keypair 0 params (ShardValidator_new address 0 (Some block_proposer) None).

(** [SnapchainNode::create] *)
Definition node_create (keypair : Keypair) (config : ConsensusConfig) (rpc_address : option string)
    (block_store : RocksDB T) (rocksdb_dir : string) : result string SnapchainNode :=
  ids ← shard_ids config;
  '(actors, shard_messages) ← create_shards keypair rpc_address block_store rocksdb_dir ids ∅ ∅;
  current_height ← stored_height block_store 0;
  num ← config_num_shards config;
  Ok (mkSnapchainNode (<[0%Z := block_actor keypair rpc_address current_height num block_store]> actors)
        shard_messages (keypair_public keypair)).

Definition set_actors (actors : gmap Z Actor) (n : SnapchainNode) : SnapchainNode :=
  mkSnapchainNode actors (messages_tx_by_shard n) (node_address n).

Definition node_stop (n : SnapchainNode) : SnapchainNode := set_actors (actor_stop <$> consensus_actors n) n.

(** [start_height]: every actor, with its own shard. *)
Definition node_start_height (block_number : Z) (n : SnapchainNode) : SnapchainNode :=
  set_actors (map_imap (fun shard a => Some (actor_cast (StartHeight (Height_new shard block_number)) a)) (consensus_actors n)) n.

(** [dispatch]: a message for a shard without an actor is logged. *)
Definition dispatch (msg : Msg) (n : SnapchainNode) : result string SnapchainNode :=
  shard_id ← map_err message (msg_shard_id msg);
  match consensus_actors n !! shard_id with
  | Some actor => Ok (set_actors (<[shard_id := actor_cast msg actor]> (consensus_actors n)) n)
  | None => Ok n
  end.

(** A turn of the actor of a shard. *)
Definition node_step (env : Env) (shard_id : Z) (n : SnapchainNode) : SnapchainNode :=
  set_actors (alter (actor_step env) shard_id (consensus_actors n)) n.

(** A message sent on [messages_tx_by_shard], to the engine that receives. *)
Definition map_shard_proposer (f : ShardProposer T -> ShardProposer T) (v : ShardValidator T Round) : ShardValidator T Round :=
  match shard_proposer v with Some p => set_shard_proposer (f p) v | None => v end.
Definition submit (msg : Message) (p : ShardProposer T) : ShardProposer T :=
  (on_engine (st_modify (send_message msg)) p).2.
Definition actor_submit (msg : Message) (a : Actor) : Actor :=
  mkActor (set_validator CState (map_shard_proposer (submit msg) (shard_validator CState (actor_state a))) (actor_state a))
    (mailbox a) (alive a).
Definition node_submit (shard_id : Z) (msg : Message) (n : SnapchainNode) : result string SnapchainNode :=
  receiver ← unwrap (messages_tx_by_shard n !! shard_id);
  actor ← ok_or (consensus_actors n !! receiver) "channel closed"%string;
  if alive actor then Ok (set_actors (<[receiver := actor_submit msg actor]> (consensus_actors n)) n)
  else Err "channel closed"%string.

(** ** Lemmas *)

Definition own_validator (keypair : Keypair) (shard_id height : Z) : SnapchainValidator :=
  SnapchainValidator_new shard_id (keypair_public keypair) None height.

(** An actor as it is spawned: its validator, with the node itself in the set
    if the height could be read. *)
Lemma spawn_spec keypair shard_id params v :
  let a := spawn keypair shard_id params v in
  mailbox a = [] /\
  match get_current_height v with
  | Ok h => alive a = true /\ shard_validator CState (actor_state a) = (add_validator (own_validator keypair shard_id h) v).2
  | _ => alive a = false /\ shard_validator CState (actor_state a) = v
  end.
Proof using Type.
  unfold spawn, post_start, st_bind, st_modify, st_get, st_lift. simpl.
  by destruct (get_current_height v) as [h| | |].
Qed.

Lemma create_shard_inv keypair rpc store dir shard_id a :
  create_shard keypair rpc store dir shard_id = Ok a ->
  (1 <= shard_id <= MAX_SHARDS)%Z \/ (shard_id < 0)%Z.
Proof using Type.
  unfold create_shard. destruct (Z.eqb_spec shard_id 0); [done|]. destruct (Z.ltb_spec MAX_SHARDS shard_id); [done|]. lia.
Qed.
End Node.

(** ** Reading heights *)
Section Heights.
Context {T Round : Type} `{TransactionDBLaws T} `{!Codec Block, !CodecTotal Block, !Codec ShardChunk, !CodecTotal ShardChunk}.

Lemma block_height_total (d : RocksDB T) m s :
  holds d m -> (exists h, block_get_current_height d s = Ok h) \/ (exists e, block_get_current_height d s = Err e).
Proof using Type*.
  intros (t & Ht & _). unfold block_get_current_height, get_block_page_by_prefix.
  destruct (get_page_total (A := Block) d t height_page_options (Some (make_block_key s 0)) None Ht) as [[p E]|[e E]]; rewrite E; simpl; [|eauto].
  destruct (1 <? length _); eauto.
Qed.

Lemma shard_height_total (d : RocksDB T) m :
  holds d m -> (exists h, shard_get_current_height d = Ok h) \/ (exists e, shard_get_current_height d = Err e).
Proof using Type*.
  intros (t & Ht & _). unfold shard_get_current_height, get_shard_page_by_prefix.
  destruct (get_page_total (A := ShardChunk) d t height_page_options (Some (make_shard_key 0)) None Ht) as [[p E]|[e E]]; rewrite E; simpl; [|eauto].
  destruct (1 <? length _); eauto.
Qed.

Lemma stored_height_total (d : RocksDB T) m s : holds d m -> exists h, stored_height d s = Ok h.
Proof using Type*.
  intros Hd. unfold stored_height, block_max_block_number.
  destruct (block_height_total d m s Hd) as [[h E]|[e E]]; rewrite E; simpl; eauto.
Qed.

Context `{RoundOps Round}.

Lemma block_validator_height address s (p : BlockProposer T) m :
  holds (block_store (bp_engine p)) m ->
  exists h, get_current_height (ShardValidator_new (Round := Round) address s (Some p) None) = Ok h.
Proof using Type*.
  intros Hd. unfold get_current_height, ShardValidator_new, block_proposer_confirmed_height, block_get_confirmed_height, block_max_block_number. simpl.
  destruct (block_height_total _ m 0 Hd) as [[h E]|[e E]]; rewrite E; simpl; eauto.
Qed.

Lemma shard_validator_height address s (p : ShardProposer T) m :
  holds (trie_db (trie (sp_engine p))) m ->
  exists h, get_current_height (ShardValidator_new (Round := Round) address s None (Some p)) = Ok h.
Proof using Type*.
  intros Hd. unfold get_current_height, ShardValidator_new, shard_proposer_confirmed_height, shard_get_confirmed_height, shard_max_block_number. simpl.
  destruct (shard_height_total _ m Hd) as [[h E]|[e E]]; rewrite E; simpl; eauto.
Qed.
End Heights.

(** ** Booting *)
Section Boot.
Context {T Round Extension : Type} `{TransactionDBLaws T} `{RoundOps Round} `{!Countable Round} `{SigningOps}
  `{!Codec DbTrieNode, !CodecLaw DbTrieNode, !Codec ShardChunk, !CodecTotal ShardChunk, !Codec Block, !CodecTotal Block,
    !Codec ShardHeader, !Codec BlockHeader, !Codec ProtoVote, !Codec ProtoProposal}.
Variable CState : Type.
Variable new_consensus : Keypair -> ConsensusParams -> CState.
Variable timeout_default : TimeoutConfig.
Variable blake3 : bytes -> bytes.
Hypothesis blake3_length : forall l, length (blake3 l) = 32.
Variable L depth : nat.
Hypothesis depth_enough : L + 1 <= depth.

Implicit Types (keypair : Keypair) (rpc : option string) (store : RocksDB T) (m : gmap bytes bytes) (dir : string) (ids : list Z).

Local Abbreviation create := (node_create (Round := Round) (Extension := Extension) CState new_consensus timeout_default blake3 depth).

(** The database of a shard can be opened, and is new or was left by the trie
    with the keys of [S]. *)
Definition bootable (rocksdb_dir : string) (shard_id : Z) (S : gset bytes) : Prop :=
  exists t C, tdb_open (shard_path rocksdb_dir shard_id) = Ok t /\ committed blake3 L (tdb_map t) C /\
    S = default ∅ C ∪ list_to_set [sentinel] /\ valid_keys L S.

(** What the node has for a shard. *)
Definition booted_shard (keypair : Keypair) (shard_id : Z) (S : gset bytes)
    (a : Actor (T := T) (Round := Round) (Extension := Extension) CState) : Prop :=
  exists p h, alive CState a = true /\ mailbox CState a = [] /\
    let v := shard_validator CState (actor_state CState a) in
    shard_proposer v = Some p /\ block_proposer v = None /\ sv_shard_id v = shard_id /\ started v = false /\
    validator_set v = [own_validator keypair shard_id h] /\
    engine_holds blake3 L (sp_engine p) S /\ engine_shard_id (sp_engine p) = shard_id /\ tx_decision p = Some [].

Definition booted_blocks (keypair : Keypair) (num : Z) (store : RocksDB T)
    (a : Actor (T := T) (Round := Round) (Extension := Extension) CState) : Prop :=
  exists p h, alive CState a = true /\ mailbox CState a = [] /\
    let v := shard_validator CState (actor_state CState a) in
    block_proposer v = Some p /\ shard_proposer v = None /\ sv_shard_id v = 0%Z /\ started v = false /\
    validator_set v = [own_validator keypair 0 h] /\ num_shards p = num /\ bp_engine p = mkBlockEngine store.

Lemma shard_actor_boots keypair rpc shard_id h (e : ShardEngine T) S :
  engine_holds blake3 L e S -> engine_shard_id e = shard_id ->
  booted_shard keypair shard_id S (shard_actor CState new_consensus timeout_default keypair rpc shard_id h e).
Proof.
  intros He Hi. unfold shard_actor.
  match goal with |- booted_shard _ _ _ (spawn _ _ _ _ _ ?prm ?v) =>
    pose proof (spawn_spec (Extension := Extension) CState new_consensus timeout_default keypair shard_id prm v) as Hsp end.
  destruct He as [Ht HS]. pose proof Ht as (m & r & Hd & _).
  edestruct (shard_validator_height (Round := Round) (keypair_public keypair) shard_id
    (ShardProposer_new (keypair_public keypair) shard_id e (Some [])) m Hd) as [h' Eh].
  rewrite Eh in Hsp. destruct Hsp as (Hm & Ha & Hv). unfold booted_shard.
  exists (ShardProposer_new (keypair_public keypair) shard_id e (Some [])), h'.
  rewrite Hm, Ha, Hv. by split_and!.
Qed.

Lemma block_actor_boots keypair rpc h num store m :
  holds store m -> booted_blocks keypair num store (block_actor CState new_consensus timeout_default keypair rpc h num store).
Proof.
  intros Hd. unfold block_actor.
  match goal with |- booted_blocks _ _ _ (spawn _ _ _ _ _ ?prm ?v) =>
    pose proof (spawn_spec (Extension := Extension) CState new_consensus timeout_default keypair 0 prm v) as Hsp end.
  edestruct (block_validator_height (Round := Round) (keypair_public keypair) 0
    (BlockProposer_new (keypair_public keypair) 0 [] num (mkBlockEngine store)) m Hd) as [h' Eh].
  rewrite Eh in Hsp. destruct Hsp as (Hm & Ha & Hv). unfold booted_blocks.
  exists (BlockProposer_new (keypair_public keypair) 0 [] num (mkBlockEngine store)), h'.
  rewrite Hm, Ha, Hv. by split_and!.
Qed.

Lemma create_shard_boots keypair rpc store m dir shard_id S :
  holds store m -> (1 <= shard_id <= MAX_SHARDS)%Z -> bootable dir shard_id S ->
  exists a, create_shard CState new_consensus timeout_default blake3 depth keypair rpc store dir shard_id = Ok a /\
    booted_shard keypair shard_id S a.
Proof.
  intros Hs Hid (t & C & Et & HC & -> & Hv). unfold create_shard.
  rewrite (proj2 (Z.eqb_neq shard_id 0)) by lia. rewrite (proj2 (Z.ltb_ge MAX_SHARDS shard_id)) by lia.
  destruct (stored_height_total store m shard_id Hs) as [h ->]. simpl.
  unfold RocksDB_open, RocksDB_new. simpl. rewrite Et. simpl.
  destruct (engine_new_spec blake3 blake3_length L depth depth_enough (mkRocksDB (Some t) (shard_path dir shard_id)) (tdb_map t) C
    shard_id (ex_intro _ t (conj eq_refl eq_refl)) HC Hv) as (e & Ee & He & Hi).
  rewrite Ee. simpl. eexists. split; [reflexivity|]. unfold shard_actor.
  by apply shard_actor_boots.
Qed.

Lemma create_shards_boot keypair rpc store m dir (S : Z -> gset bytes) ids
    (actors : gmap Z (Actor (T := T) (Round := Round) (Extension := Extension) CState)) (txs : gmap Z Z) :
  holds store m -> NoDup ids ->
  (forall id, id ∈ ids -> (1 <= id <= MAX_SHARDS)%Z /\ bootable dir id (S id)) ->
  exists actors' txs', create_shards CState new_consensus timeout_default blake3 depth keypair rpc store dir ids actors txs = Ok (actors', txs') /\
    (forall id, id ∈ ids -> txs' !! id = Some id /\ exists a, actors' !! id = Some a /\ booted_shard keypair id (S id) a) /\
    (forall id, id ∉ ids -> actors' !! id = actors !! id /\ txs' !! id = txs !! id).
Proof.
  intros Hs Hnd. revert actors txs. induction ids as [|id ids IH]; intros actors txs Hb.
  { exists actors, txs. split_and!; [done| |done]. by intros id ?%elem_of_nil. }
  apply NoDup_cons in Hnd as [Hnin Hnd]. destruct (Hb id) as [Hid Hbid]; [by left|].
  destruct (create_shard_boots keypair rpc store m dir id (S id) Hs Hid Hbid) as (a & Ea & Hba). simpl. rewrite Ea. simpl.
  destruct (IH Hnd (<[id:=a]> actors) (<[id:=id]> txs)) as (actors' & txs' & E & Hin & Hout).
  { intros id' Hid'. apply Hb. by right. }
  exists actors', txs'. split_and!; [done| |].
  - intros id' [->|Hid']%elem_of_cons; [|by apply Hin]. destruct (Hout id Hnin) as [-> ->]. rewrite !lookup_insert_eq. eauto.
  - intros id' Hnot. apply not_elem_of_cons in Hnot as [Hne Hnot]. destruct (Hout id' Hnot) as [-> ->].
    by rewrite !lookup_insert_ne.
Qed.

(** C26. A node boots: with shard ids from 1 to 3, each once, and a database
    for each that is new or was left by its trie, [create] gives one running
    actor for the blocks and one for each shard and no others, each with an
    empty mailbox and with the node itself as its only validator; the engine
    of a shard stands for the keys of its last commit and the sentinel, and
    the block proposer waits for as many chunks as there are shards. *)
Theorem node_boots keypair (config : ConsensusConfig) rpc store m dir ids (S : Z -> gset bytes)
    (Hids : shard_ids config = Ok ids) (Hnd : NoDup ids) (Hs : holds store m)
    (Hb : forall id, id ∈ ids -> (1 <= id <= MAX_SHARDS)%Z /\ bootable dir id (S id)) :
  exists n a0, create keypair config rpc store dir = Ok n /\
    consensus_actors CState n !! 0%Z = Some a0 /\ booted_blocks keypair (wrap 32 (Z.of_nat (length ids))) store a0 /\
    (forall id, id ∈ ids -> messages_tx_by_shard CState n !! id = Some id /\
      exists a, consensus_actors CState n !! id = Some a /\ booted_shard keypair id (S id) a) /\
    (forall id, id ∉ ids -> messages_tx_by_shard CState n !! id = None /\ (id ≠ 0%Z -> consensus_actors CState n !! id = None)).
Proof.
  destruct (create_shards_boot keypair rpc store m dir S ids ∅ ∅ Hs Hnd Hb) as (actors & txs & E & Hin & Hout).
  destruct (stored_height_total store m 0 Hs) as [h Eh].
  unfold node_create. rewrite Hids. simpl. rewrite E. simpl. rewrite Eh. simpl. unfold config_num_shards. rewrite Hids. simpl.
  do 2 eexists. split; [reflexivity|]. simpl. rewrite lookup_insert_eq. split_and!; [done|by eapply block_actor_boots| |].
  - intros id Hid. destruct (Hin id Hid) as (Ht & a & Ha & Hba). split; [done|]. exists a. split; [|done].
    rewrite lookup_insert_ne; [done|]. destruct (Hb id Hid). lia.
  - intros id Hid. destruct (Hout id Hid) as [Ha Ht]. split; [by rewrite Ht, lookup_empty|].
    intros Hne. by rewrite lookup_insert_ne, Ha, lookup_empty.
Qed.

Lemma create_shards_ids keypair rpc store dir ids actors txs r :
  create_shards (Round := Round) (Extension := Extension) CState new_consensus timeout_default blake3 depth keypair rpc store dir ids actors txs = Ok r ->
  Forall (fun id => (1 <= id <= MAX_SHARDS)%Z \/ (id < 0)%Z) ids.
Proof using Type.
  revert actors txs. induction ids as [|id ids IH]; intros actors txs; simpl; [constructor|].
  intros (a & Ha & Hr)%bind_Ok_inv. constructor; [by eapply create_shard_inv|by eapply IH].
Qed.

Lemma shard_ids_bounds (config : ConsensusConfig) ids : shard_ids config = Ok ids -> Forall (fun id => (0 <= id < 2 ^ 32)%Z) ids.
Proof using Type.
  unfold shard_ids. generalize (split_char comma (cfg_shard_ids config)) as pieces. intros pieces. revert ids.
  induction pieces as [|s pieces IH]; intros ids; simpl; [intros [= <-]; constructor|].
  intros (id & Hid & Hr)%bind_Ok_inv. apply bind_Ok_inv in Hr as (ids' & Hids & [= <-]).
  constructor; [|by apply IH]. destruct (parse_uint 32 s) eqn:Ep; [|done]. injection Hid as <-. by eapply parse_uint_bounds.
Qed.

(** A node is never created for other shards: if [create] succeeds, the
    configured ids are numbers from 1 to 3. *)
Theorem node_shards_checked keypair (config : ConsensusConfig) rpc store dir n :
  create keypair config rpc store dir = Ok n ->
  exists ids, shard_ids config = Ok ids /\ Forall (fun id => (1 <= id <= MAX_SHARDS)%Z) ids.
Proof using Type.
  clear depth_enough. unfold node_create. intros (ids & Hids & Hr)%bind_Ok_inv. apply bind_Ok_inv in Hr as ([actors txs] & Hc & _).
  exists ids. split; [done|]. apply create_shards_ids in Hc. apply shard_ids_bounds in Hids.
  rewrite Forall_forall in *. intros id Hid. destruct (Hc id Hid); [done|]. specialize (Hids id Hid). lia.
Qed.
End Boot.

(** ** Properties of the configuration and the routing *)

Lemma shard_ids_print ids :
  Forall (fun id => (0 <= id < 2 ^ 32)%Z) ids ->
  mapM (fun s => unwrap (parse_uint 32 s)) (map print_uint ids) = Ok (E := string) ids.
Proof.
  induction ids as [|id ids IH]; [done|]. intros [Hid Hids]%Forall_cons. simpl. rewrite parse_print_uint by lia. simpl.
  unfold mret, result_ret in *. change (map print_uint ids) with (print_uint <$> ids) in *. by rewrite IH.
Qed.

(** The shard ids of a configuration are read back as they were set, and
    counted; an empty list is not read back but panics. *)
Theorem shard_ids_roundtrip (c : ConsensusConfig) (ids : list Z) (Hu : Forall (fun id => (0 <= id < 2 ^ 32)%Z) ids) :
  match ids with
  | [] => shard_ids (with_shard_ids c ids) = Panic
  | _ => shard_ids (with_shard_ids c ids) = Ok ids /\
      config_num_shards (with_shard_ids c ids) = Ok (wrap 32 (Z.of_nat (length ids)))
  end.
Proof.
  assert (Hr : ids ≠ [] -> shard_ids (with_shard_ids c ids) = Ok ids).
  { intros Hne. unfold shard_ids, with_shard_ids. cbn [cfg_shard_ids]. change ","%string with (String comma ""). rewrite (split_concat comma (map print_uint ids)).
    - by apply shard_ids_print.
    - by destruct ids.
    - apply Forall_map. eapply Forall_impl; [exact Hu|]. intros x Hx. simpl in Hx. apply print_uint_free. lia. }
  destruct ids as [|id ids]; [done|]. rewrite Hr by done. split; [done|]. unfold config_num_shards. by rewrite Hr.
Qed.

(** ** Witnesses *)
Module NodeSample.
Export ConsensusSample.

#[export] Instance block_codec_total : CodecTotal Block := countable_codec_total Block.
#[export] Instance chunk_codec_total : CodecTotal ShardChunk.
Proof.
  intros b. destruct b as [|[|p|p] [|[|q|q] [|y b]]]; try (right; by eexists). simpl. destruct (countable.decode q); eauto.
Qed.

Definition sample_consensus_config : ConsensusConfig := mkConsensusConfig "" "1,2" 0.
End NodeSample.
Import NodeSample.

Lemma node_boots_witness :
  exists n a, node_create (Extension := unit) (Round := option N) Height (fun _ p => start_height_ p) sample_config sample_blake3 21 sample_keypair
      sample_consensus_config None empty_store "db" = Ok n /\
    consensus_actors Height n !! 2%Z = Some a /\ alive Height a = true /\ messages_tx_by_shard Height n !! 2%Z = Some 2%Z /\
    messages_tx_by_shard Height n !! 3%Z = None.
Proof.
  destruct (node_boots (Extension := unit) (Round := option N) Height (fun _ p => start_height_ p) sample_config sample_blake3 sample_blake3_length 20 21
    ltac:(lia) sample_keypair sample_consensus_config None empty_store ∅ "db" [1%Z; 2%Z] (fun _ => engine_keys))
    as (n & a0 & E & _ & _ & Hin & Hout).
  - reflexivity.
  - decide_now.
  - apply holds_gmap.
  - intros id Hid. split.
    + apply elem_of_cons in Hid as [->|Hid]; [unfold MAX_SHARDS; lia|]. apply list_elem_of_singleton in Hid as ->. unfold MAX_SHARDS. lia.
    + exists ∅, None. split_and!; [reflexivity|reflexivity|reflexivity|decide_now].
  - destruct (Hin 2%Z) as (Ht & a & Ha & (p & h & Hal & _)); [decide_now|]. destruct (Hout 3%Z) as [Hn _]; [decide_now|].
    exists n, a. split_and!; [exact E|exact Ha|exact Hal|exact Ht|exact Hn].
Defined.

Lemma shard_ids_roundtrip_witness :
  shard_ids (with_shard_ids sample_consensus_config [1%Z; 3%Z]) = Ok [1%Z; 3%Z].
Proof. apply (shard_ids_roundtrip sample_consensus_config [1%Z; 3%Z]). repeat constructor; done. Defined.
