(* ===== verification/Cfg.v ===== *)
(** * Configuration

    [src/cfg.rs] and the checks of the configuration at the start of
    [src/main.rs]. The layers of configuration are third-party ([figment]): the
    interface [FigmentOps] with its laws, and [TomlLaws] for what its reader
    makes of the documents of [Setup.v]. The parsed arguments of the command
    line are an input. *)

From S2P Require Import Prelude Text Util Db Proto FnameFetcher OnchainEvents TrieNode Block Types Consensus Gossip Node.

(** ** Files

    A path is its components, relative to the working directory [[]], without
    links and dots. *)
Abbreviation Path := (list string).
Definition slash : Ascii.ascii := Ascii.ascii_of_N 47.
Definition path (s : string) : Path := split_char slash s.

Record Fs := mkFs { dirs : gset Path; files : gmap Path string }.

Definition is_dir (fs : Fs) (p : Path) : bool := bool_decide (p = [] \/ p ∈ dirs fs).
Definition path_exists (fs : Fs) (p : Path) : bool := is_dir fs p || bool_decide (is_Some (files fs !! p)).
Definition parent (p : Path) : Path := removelast p.

Definition fs_read (fs : Fs) (p : Path) : option string := files fs !! p.

(** [fs::create_dir]: not over an existing path, and in an existing
    directory. *)
Definition create_dir (p : Path) : ST Fs string unit := fun fs =>
  if path_exists fs p then (Err "already exists", fs)
  else if is_dir fs (parent p) then (Ok tt, mkFs ({[p]} ∪ dirs fs) (files fs)) else (Err "not found", fs).

(** [fs::remove_dir_all]: the directory with all below it. *)
Definition below (p q : Path) : Prop := take (length p) q = p.
#[export] Instance below_dec p q : Decision (below p q).
Proof. unfold below. apply _. Defined.
Definition remove_dir_all (p : Path) : ST Fs string unit := fun fs =>
  if is_dir fs p then
    (Ok tt, mkFs (filter (fun q => ~ below p q) (dirs fs)) (filter (fun kv => ~ below p kv.1) (files fs)))
  else (Err "not found", fs).

(** [fs::create_dir_all]: the directories on the way, outermost first. *)
Fixpoint create_dirs (done todo : Path) : ST Fs string unit :=
  match todo with
  | [] => st_ret tt
  | c :: todo =>
      (let! fs := st_get in
       if is_dir fs (done ++ [c]) then create_dirs (done ++ [c]) todo
       else create_dir (done ++ [c]) ;;; create_dirs (done ++ [c]) todo)%st
  end.
Definition create_dir_all (p : Path) : ST Fs string unit := create_dirs [] p.

(** [fs::write] *)
Definition fs_write (p : Path) (content : string) : ST Fs string unit := fun fs =>
  if is_dir fs p then (Err "is a directory", fs)
  else if is_dir fs (parent p) then (Ok tt, mkFs (dirs fs) (<[p := content]> (files fs))) else (Err "not found", fs).

(** [unwrap] and [expect] of an outcome that changes the state *)
Definition st_unwrap {S E F A} (m : ST S E A) : ST S F A := fun s => let (r, s) := m s in (unwrap_result r, s).

(** ** The configuration *)

(** [Config] *)
Record AppConfig := mkAppConfig {
  cfg_id : Z;
  log_format : string;
  fnames : FnameConfig;
  onchain_events : OnchainConfig;
  cfg_consensus : ConsensusConfig;
  cfg_gossip : GossipConfig;
  rpc_address : string;
  rocksdb_dir : string;
  clear_db : bool;
}.

(** The default, with a generated secret key. *)
Definition AppConfig_default `{SecretKeyOps} (generated : bytes) : AppConfig :=
  mkAppConfig 0 "text" FnameConfig_default OnchainConfig_default (ConsensusConfig_default generated) GossipConfig_default
    "0.0.0.0:3383" ".rocks" false.

Record CliArgs := mkCliArgs { cli_id : option Z; cli_log_format : option string; config_path : option string; cli_clear_db : bool }.

(** A value of a layer: [VTable] marks a section. *)
Inductive Value := VString (s : string) | VNum (z : Z) | VBool (b : bool) | VTable.

#[export] Instance value_eq_dec : EqDecision Value.
Proof. solve_decision. Defined.

(** The settings of a configuration with their places. The delay, which is
    written in units of time, is not among them. *)
Definition settings (c : AppConfig) : list (list string * Value) :=
  [(["id"], VNum (cfg_id c)); (["log_format"], VString (log_format c));
   (["fnames"; "start_from"], VNum (start_from (fnames c))); (["fnames"; "stop_at"], VNum (stop_at (fnames c)));
   (["fnames"; "url"], VString (url (fnames c))); (["fnames"; "disable"], VBool (disable (fnames c)));
   (["onchain_events"; "rpc_url"], VString (rpc_url (onchain_events c)));
   (["consensus"; "private_key"], VString (private_key (cfg_consensus c)));
   (["consensus"; "shard_ids"], VString (cfg_shard_ids (cfg_consensus c)));
   (["gossip"; "address"], VString (gossip_address (cfg_gossip c)));
   (["gossip"; "bootstrap_peers"], VString (bootstrap_peers (cfg_gossip c)));
   (["rpc_address"], VString (rpc_address c)); (["rocksdb_dir"], VString (rocksdb_dir c));
   (["clear_db"], VBool (clear_db c))].
Definition sections : list string := ["fnames"; "onchain_events"; "consensus"; "gossip"].
Definition delay_place : list string := ["consensus"; "propose_value_delay"].

(** The value at a place of a list of settings *)
Fixpoint assoc (p : list string) (l : list (list string * Value)) : option Value :=
  match l with [] => None | (q, v) :: l => if decide (q = p) then Some v else assoc p l end.
Definition setting (c : AppConfig) (p : list string) : option Value := assoc p (settings c).

(** The configuration that has given values at the places *)
Definition num_of (o : option Value) : Z := match o with Some (VNum z) => z | _ => 0%Z end.
Definition text_of (o : option Value) : string := match o with Some (VString s) => s | _ => "" end.
Definition bool_of (o : option Value) : bool := match o with Some (VBool b) => b | _ => false end.
Definition of_settings (g : list string -> option Value) (delay : Z) : AppConfig :=
  mkAppConfig (num_of (g ["id"])) (text_of (g ["log_format"]))
    (mkFnameConfig (num_of (g ["fnames"; "start_from"])) (num_of (g ["fnames"; "stop_at"])) (text_of (g ["fnames"; "url"]))
       (bool_of (g ["fnames"; "disable"])))
    (mkOnchainConfig (text_of (g ["onchain_events"; "rpc_url"])))
    (mkConsensusConfig (text_of (g ["consensus"; "private_key"])) (text_of (g ["consensus"; "shard_ids"])) delay)
    (mkGossipConfig (text_of (g ["gossip"; "address"])) (text_of (g ["gossip"; "bootstrap_peers"])))
    (text_of (g ["rpc_address"])) (text_of (g ["rocksdb_dir"])) (bool_of (g ["clear_db"])).

(** Whether a value can be read at a place; [humantime] reads the delay. *)
Definition typed (parse_duration : string -> option Z) (p : list string) (v : Value) : bool :=
  if decide (p = ["id"]) then match v with VNum z => (0 <=? z)%Z && (z <? 2 ^ 32)%Z | _ => false end
  else if decide (p = ["fnames"; "start_from"] \/ p = ["fnames"; "stop_at"]) then
    match v with VNum z => (0 <=? z)%Z && (z <? 2 ^ 64)%Z | _ => false end
  else if decide (p = ["fnames"; "disable"] \/ p = ["clear_db"]) then match v with VBool _ => true | _ => false end
  else if decide (p = delay_place) then match v with VString s => bool_decide (is_Some (parse_duration s)) | _ => false end
  else match v with VString _ => true | _ => false end.

(** The places of all settings *)
Definition places : list (list string) :=
  [["id"]; ["log_format"]; ["fnames"; "start_from"]; ["fnames"; "stop_at"]; ["fnames"; "url"]; ["fnames"; "disable"];
   ["onchain_events"; "rpc_url"]; ["consensus"; "private_key"]; ["consensus"; "shard_ids"]; ["gossip"; "address"];
   ["gossip"; "bootstrap_peers"]; ["rpc_address"]; ["rocksdb_dir"]; ["clear_db"]; delay_place].

(** [figment]: layers of configuration. [fig_valid] tells whether all its
    layers could be read. *)
Class FigmentOps := {
  Figment : Type;
  fig_find : Figment -> list string -> option Value;
  fig_valid : Figment -> bool;
  fig_defaults : AppConfig -> Figment;
  fig_toml : string -> Figment;
  fig_env : string -> string -> list (string * string) -> Figment;
  fig_merge : Figment -> Figment -> Figment;
  fig_extract : Figment -> result string AppConfig;
  parse_duration : string -> option Z;
  format_duration : Z -> string;
}.

(** No section of a layer is a plain value. *)
Definition sections_ok `{FigmentOps} (f : Figment) : Prop :=
  Forall (fun s => fig_find f [s] = None \/ fig_find f [s] = Some VTable) sections.

(** A later layer wins where it has a value; a configuration is read from
    values of the right types, one at each place. *)
Class FigmentLaws `{FigmentOps} : Prop := {
  find_merge (f g : Figment) (p : list string) : sections_ok g -> p ∈ places ->
    fig_find (fig_merge f g) p = match fig_find g p with Some v => Some v | None => fig_find f p end;
  valid_merge (f g : Figment) : fig_valid (fig_merge f g) = fig_valid f && fig_valid g;
  find_defaults (c : AppConfig) (p : list string) (v : Value) : setting c p = Some v -> fig_find (fig_defaults c) p = Some v;
  delay_defaults (c : AppConfig) :
    fig_find (fig_defaults c) delay_place = Some (VString (format_duration (propose_value_delay (cfg_consensus c))));
  valid_defaults (c : AppConfig) : fig_valid (fig_defaults c) = true;
  valid_env (prefix sep : string) (env : list (string * string)) : fig_valid (fig_env prefix sep env) = true;
  extract_reads (f : Figment) :
    match fig_extract f with
    | Ok c =>
        (forall p v, setting c p = Some v -> fig_find f p = Some v) /\
        (exists s, fig_find f delay_place = Some (VString s) /\ parse_duration s = Some (propose_value_delay (cfg_consensus c)))
    | Err _ =>
        fig_valid f = false \/ exists p, p ∈ places /\ forall v, fig_find f p = Some v -> typed parse_duration p v = false
    | _ => False
    end;
  parse_format_duration (d : Z) : (0 <= d < 2 ^ 64 * 10 ^ 9)%Z -> parse_duration (format_duration d) = Some d;
}.

(** ** TOML

    The documents that consist of blank lines, headers of tables, and pairs of
    a bare key with a plain string or a natural number. *)
Definition newline : Ascii.ascii := Ascii.ascii_of_N 10.
Definition quote : Ascii.ascii := Ascii.ascii_of_N 34.
Definition char_string (c : Ascii.ascii) : string := String.String c "".
Definition in_quotes (s : string) : string := char_string quote +:+ s +:+ char_string quote.

(** The flag tells whether there are spaces around the sign. *)
Inductive TomlLine :=
| TomlBlank
| TomlTable (name : string)
| TomlText (key : string) (spaces : bool) (text : string)
| TomlNumber (key : string) (spaces : bool) (n : Z).

Definition toml_equals (spaces : bool) : string := if spaces then " = " else "=".
Definition print_toml_line (l : TomlLine) : string :=
  match l with
  | TomlBlank => ""
  | TomlTable name => "[" +:+ name +:+ "]"
  | TomlText key spaces text => key +:+ toml_equals spaces +:+ in_quotes text
  | TomlNumber key spaces n => key +:+ toml_equals spaces +:+ print_uint n
  end.
Definition print_toml (doc : list TomlLine) : string := String.concat (char_string newline) (map print_toml_line doc) +:+ char_string newline.

(** A bare key has letters, digits, underscores and dashes; a plain string is
    printable and has nothing to escape. *)
Definition bare_char (c : Ascii.ascii) : bool :=
  let n := Ascii.N_of_ascii c in
  ((48 <=? n) && (n <=? 57) || (65 <=? n) && (n <=? 90) || (97 <=? n) && (n <=? 122) || (n =? 95) || (n =? 45))%N.
Definition plain_char (c : Ascii.ascii) : bool :=
  let n := Ascii.N_of_ascii c in ((32 <=? n) && (n <=? 126) && negb (n =? 34) && negb (n =? 92))%N.
Definition bare (s : string) : Prop := s ≠ "" /\ Forall (fun c => bare_char c = true) (String.list_ascii_of_string s).
Definition plain (s : string) : Prop := Forall (fun c => plain_char c = true) (String.list_ascii_of_string s).
#[export] Instance bare_dec s : Decision (bare s).
Proof. unfold bare. apply _. Defined.
#[export] Instance plain_dec s : Decision (plain s).
Proof. unfold plain. apply _. Defined.

Definition toml_line_ok (l : TomlLine) : Prop :=
  match l with
  | TomlBlank => True
  | TomlTable name => bare name
  | TomlText key _ text => bare key /\ plain text
  | TomlNumber key _ n => bare key /\ (0 <= n < 2 ^ 63)%Z
  end.

(** The values of a document with their places, and its tables; a pair belongs
    to the table whose header is the last before it. *)
Fixpoint toml_entries (table : list string) (doc : list TomlLine) : list (list string * Value) :=
  match doc with
  | [] => []
  | TomlBlank :: doc => toml_entries table doc
  | TomlTable name :: doc => ([name], VTable) :: toml_entries [name] doc
  | TomlText key _ text :: doc => (table ++ [key], VString text) :: toml_entries table doc
  | TomlNumber key _ n :: doc => (table ++ [key], VNum n) :: toml_entries table doc
  end.

(** The reader of TOML: such a document, with nothing defined twice, is valid
    and has exactly its entries. *)
Class TomlLaws `{FigmentOps} : Prop := {
  toml_valid (doc : list TomlLine) : Forall toml_line_ok doc -> NoDup (toml_entries [] doc).*1 -> fig_valid (fig_toml (print_toml doc)) = true;
  toml_find (doc : list TomlLine) (p : list string) : Forall toml_line_ok doc -> NoDup (toml_entries [] doc).*1 ->
    fig_find (fig_toml (print_toml doc)) p = assoc p (toml_entries [] doc);
}.

Section Cfg.
Context `{FIG : FigmentOps} `{SecretKeyOps}.

(** The file that is read *)
Definition chosen_path (cli_args : CliArgs) : string :=
  match cli_id cli_args, config_path cli_args with
  | Some id, None => "nodes/" +:+ print_uint id +:+ "/snapchain.toml"
  | _, Some path => path
  | _, None => "snapchain.toml"
  end.

Definition ENV_PREFIX : string := "SNAPCHAIN_".
Definition ENV_SPLIT : string := "__".

(** The layer of the file; a directory in its place is an empty layer. *)
Definition merge_file (fs : Fs) (cli_args : CliArgs) (config_path_ : string) (figment : Figment) : result string Figment :=
  if path_exists fs (path config_path_) then
    match fs_read fs (path config_path_) with
    | Some content => Ok (fig_merge figment (fig_toml content))
    | None => Ok figment
    end
  else if decide (is_Some (config_path cli_args)) then Err ("config file not found: " +:+ config_path_)
  else Ok figment.

(** [load_and_merge_config]; [generated] is the secret key in the default. *)
Definition load_and_merge_config (fs : Fs) (env : list (string * string)) (generated : bytes) (cli_args : CliArgs) : result string AppConfig :=
  let figment := fig_defaults (AppConfig_default generated) in
  let config_path_ := chosen_path cli_args in
  figment ← merge_file fs cli_args config_path_ figment;
  let figment := fig_merge figment (fig_env ENV_PREFIX ENV_SPLIT env) in
  config ← fig_extract figment;
  let config := match cli_id cli_args with
                | Some id => mkAppConfig id (log_format config) (fnames config) (onchain_events config) (cfg_consensus config)
                               (cfg_gossip config) (rpc_address config) (rocksdb_dir config) (clear_db config)
                | None => config
                end in
  let config := match cli_log_format cli_args with
                | Some f => mkAppConfig (cfg_id config) f (fnames config) (onchain_events config) (cfg_consensus config)
                              (cfg_gossip config) (rpc_address config) (rocksdb_dir config) (clear_db config)
                | None => config
                end in
  Ok (mkAppConfig (cfg_id config) (log_format config) (fnames config) (onchain_events config) (cfg_consensus config)
        (cfg_gossip config) (rpc_address config) (rocksdb_dir config) (cli_clear_db cli_args)).

(** The start of [main]: the configuration, its checks, and clearing the
    directory of the database. *)
Definition main_config (env : list (string * string)) (generated : bytes) (cli_args : CliArgs) : ST Fs string AppConfig :=
  (let! fs := st_get in
   let! app_config := st_lift (load_and_merge_config fs env generated cli_args) in
   if decide (log_format app_config ≠ "text" /\ log_format app_config ≠ "json") then
     st_lift (Err ("Invalid log format: " +:+ log_format app_config))
   else if (cfg_id app_config =? 0)%Z then st_lift (Err "node id must be specified greater than 0")
   else if clear_db app_config then
     st_unwrap (remove_dir_all (path (rocksdb_dir app_config))) ;;;
     st_unwrap (create_dir_all (path (rocksdb_dir app_config))) ;;;
     st_ret app_config
   else st_ret app_config)%st.

(** Clearing a database that was never created ends the program: the
    directory to remove is missing. *)
Lemma clear_db_missing_panics fs env generated cli_args c :
  load_and_merge_config fs env generated cli_args = Ok c -> log_format c = "text" \/ log_format c = "json" -> (0 < cfg_id c)%Z ->
  cli_clear_db cli_args = true -> is_dir fs (path (rocksdb_dir c)) = false ->
  main_config env generated cli_args fs = (Panic, fs).
Proof using Type.
  intros E Hlog Hid Hc Hdir. unfold main_config. unfold st_bind at 1, st_get. unfold st_bind at 1, st_lift. rewrite E.
  rewrite decide_False by tauto. destruct (Z.eqb_spec (cfg_id c) 0); [lia|].
  assert (Hclear : clear_db c = true).
  { unfold load_and_merge_config in E. apply bind_Ok_inv in E as (? & _ & E). apply bind_Ok_inv in E as (? & _ & E). by injection E as <-. }
  rewrite Hclear. unfold st_bind, st_unwrap, remove_dir_all. by rewrite Hdir.
Qed.

(** ** Which layer a setting comes from *)

(** What the command line, the chosen file and the defaults say about a
    place. *)
Definition cli_setting (cli_args : CliArgs) (p : list string) : option Value :=
  if decide (p = ["id"]) then VNum <$> cli_id cli_args
  else if decide (p = ["log_format"]) then VString <$> cli_log_format cli_args else None.
Definition file_layer (fs : Fs) (cli_args : CliArgs) : option Figment := fig_toml <$> fs_read fs (path (chosen_path cli_args)).
Definition file_setting (fs : Fs) (cli_args : CliArgs) (p : list string) : option Value :=
  file_layer fs cli_args ≫= fun f => fig_find f p.
Definition default_setting (generated : bytes) (p : list string) : option Value :=
  if decide (p = delay_place) then Some (VString (format_duration (propose_value_delay (ConsensusConfig_default generated))))
  else setting (AppConfig_default generated) p.

(** The first of several sources that has a value *)
Definition first_of (l : list (option Value)) : option Value := head (omap id l).

(** The setting below the command line *)
Definition layered (fs : Fs) (env : list (string * string)) (generated : bytes) (cli_args : CliArgs) (p : list string) : option Value :=
  first_of [fig_find (fig_env ENV_PREFIX ENV_SPLIT env) p; file_setting fs cli_args p; default_setting generated p].

Lemma first_of_cons o l : first_of (o :: l) = match o with Some v => Some v | None => first_of l end.
Proof using Type. unfold first_of. by destruct o. Qed.

Lemma assoc_fst p l v : assoc p l = Some v -> p ∈ l.*1.
Proof using Type. induction l as [|[q w] l IH]; simpl; [done|]. case_decide; [subst; by left|]. intros ?. right. auto. Qed.

Lemma setting_place c p v : setting c p = Some v -> p ∈ places /\ p ≠ delay_place.
Proof using Type.
  intros Hp%assoc_fst. revert p Hp. apply list.Forall_forall. unfold settings. cbn [fmap list_fmap fst].
  repeat (apply Forall_cons_2; [split; decide_now|]). apply Forall_nil_2.
Qed.

Lemma place_setting c p : p ∈ places -> p = delay_place \/ is_Some (setting c p).
Proof using Type.
  revert p. apply list.Forall_forall. unfold places.
  repeat (apply Forall_cons_2; [first [left; reflexivity|right; eexists; reflexivity]|]). apply Forall_nil_2.
Qed.

(** A configuration is made of its settings and its delay. *)
Lemma of_settings_id c : of_settings (setting c) (propose_value_delay (cfg_consensus c)) = c.
Proof using Type. by destruct c as [? ? [] [] [] [] ? ? ?]. Qed.

Lemma settings_inj c c' :
  (forall p v, setting c p = Some v -> setting c' p = Some v) ->
  propose_value_delay (cfg_consensus c) = propose_value_delay (cfg_consensus c') -> c = c'.
Proof using Type.
  intros Hs Hd. assert (HF : forall p, p ∈ places -> p ≠ delay_place -> setting c p = setting c' p).
  { intros p Hp Hn. destruct (place_setting c p Hp) as [->|[v Hv]]; [done|]. by rewrite Hv, (Hs p v Hv). }
  rewrite <- (of_settings_id c), <- (of_settings_id c'), Hd. unfold of_settings. by rewrite !HF by decide_now.
Qed.

(** The settings of a configuration changed by the command line *)
Definition overridden (c : AppConfig) (cli_args : CliArgs) : AppConfig :=
  mkAppConfig (default (cfg_id c) (cli_id cli_args)) (default (log_format c) (cli_log_format cli_args)) (fnames c) (onchain_events c)
    (cfg_consensus c) (cfg_gossip c) (rpc_address c) (rocksdb_dir c) (cli_clear_db cli_args).

Lemma overridden_setting c cli_args p : p ≠ ["clear_db"] ->
  setting (overridden c cli_args) p = match cli_setting cli_args p with Some v => Some v | None => setting c p end.
Proof using Type.
  intros Hp. unfold setting, cli_setting, settings, overridden. simpl.
  destruct (decide (["id"] = p)) as [<-|]; [simpl; by destruct (cli_id cli_args)|]. rewrite (decide_False (P := p = ["id"])) by congruence.
  destruct (decide (["log_format"] = p)) as [<-|]; [simpl; by destruct (cli_log_format cli_args)|].
  rewrite (decide_False (P := p = ["log_format"])) by congruence.
  repeat case_decide; congruence.
Qed.

Lemma load_unfold fs env generated cli_args :
  load_and_merge_config fs env generated cli_args =
  match merge_file fs cli_args (chosen_path cli_args) (fig_defaults (AppConfig_default generated)) with
  | Ok f => (fun c => overridden c cli_args) <$> fig_extract (fig_merge f (fig_env ENV_PREFIX ENV_SPLIT env))
  | Err e => Err e | Panic => Panic | OutOfFuel => OutOfFuel
  end.
Proof using Type.
  unfold load_and_merge_config. destruct (merge_file _ _ _ _) as [f|e| |]; simpl; [|done..].
  destruct (fig_extract _) as [c|e| |]; simpl; [|done..]. unfold overridden.
  by destruct (cli_id cli_args), (cli_log_format cli_args).
Qed.

Context {LAWS : FigmentLaws}.

Lemma find_default_setting generated p :
  p ∈ places -> fig_find (fig_defaults (AppConfig_default generated)) p = default_setting generated p.
Proof using LAWS.
  intros Hp. unfold default_setting. case_decide as Hd; [subst p; apply delay_defaults|].
  destruct (place_setting (AppConfig_default generated) p Hp) as [->|[v Hv]]; [done|]. rewrite Hv. by apply find_defaults.
Qed.

Lemma merge_file_spec fs cli_args generated :
  (forall f, file_layer fs cli_args = Some f -> sections_ok f) ->
  match merge_file fs cli_args (chosen_path cli_args) (fig_defaults (AppConfig_default generated)) with
  | Ok f =>
      (fig_valid f = false -> exists g, file_layer fs cli_args = Some g /\ fig_valid g = false) /\
      forall p, p ∈ places -> fig_find f p = first_of [file_setting fs cli_args p; default_setting generated p]
  | Err e => exists q, config_path cli_args = Some q /\ path_exists fs (path q) = false /\ e = "config file not found: " +:+ q
  | _ => False
  end.
Proof using LAWS.
  intros Hs. unfold merge_file, file_setting, file_layer in *.
  assert (Hdef : forall p, p ∈ places -> fig_find (fig_defaults (AppConfig_default generated)) p = first_of [None; default_setting generated p]).
  { intros p Hp. rewrite (find_default_setting _ _ Hp). unfold first_of. simpl. by destruct (default_setting generated p). }
  destruct (path_exists fs (path (chosen_path cli_args))) eqn:Hex.
  - destruct (fs_read fs (path (chosen_path cli_args))) as [content|] eqn:Hr; simpl in *.
    + specialize (Hs _ eq_refl). rewrite valid_merge, valid_defaults. split; [eauto|]. intros p Hp.
      rewrite (find_merge _ _ _ Hs Hp), !first_of_cons, (find_default_setting _ _ Hp).
      destruct (fig_find (fig_toml content) p); [done|]. by destruct (default_setting generated p).
    + rewrite valid_defaults. split; [done|exact Hdef].
  - assert (Hr : fs_read fs (path (chosen_path cli_args)) = None).
    { unfold path_exists in Hex. apply orb_false_iff in Hex as [_ Hex%bool_decide_eq_false]. by apply eq_None_not_Some. }
    rewrite Hr. case_decide as Hc.
    + destruct Hc as [q Hq]. exists q. unfold chosen_path in *. rewrite Hq in *. by destruct (cli_id cli_args).
    + rewrite valid_defaults. split; [done|exact Hdef].
Qed.

(** What loading gives: every setting from the first source that has it, or
    the reason of a failure. *)
Lemma load_spec fs env generated cli_args :
  (forall f, file_layer fs cli_args = Some f -> sections_ok f) -> sections_ok (fig_env ENV_PREFIX ENV_SPLIT env) ->
  match load_and_merge_config fs env generated cli_args with
  | Ok c =>
      clear_db c = cli_clear_db cli_args /\
      (forall (p : list string) (v : Value), p ≠ ["clear_db"] -> setting c p = Some v ->
         first_of [cli_setting cli_args p; layered fs env generated cli_args p] = Some v) /\
      exists s, layered fs env generated cli_args delay_place = Some (VString s) /\
        parse_duration s = Some (propose_value_delay (cfg_consensus c))
  | Err e =>
      (exists q, config_path cli_args = Some q /\ path_exists fs (path q) = false /\ e = "config file not found: " +:+ q) \/
      (exists f, file_layer fs cli_args = Some f /\ fig_valid f = false) \/
      (exists p, p ∈ places /\ forall v, layered fs env generated cli_args p = Some v -> typed parse_duration p v = false)
  | _ => False
  end.
Proof using LAWS.
  intros Hfile Henv. rewrite load_unfold. pose proof (merge_file_spec fs cli_args generated Hfile) as Hm.
  destruct (merge_file _ _ _ _) as [f|e| |]; [|by left|done..]. destruct Hm as [Hv Hf].
  assert (Hl : forall p, p ∈ places -> fig_find (fig_merge f (fig_env ENV_PREFIX ENV_SPLIT env)) p = layered fs env generated cli_args p).
  { intros p Hp. unfold layered. by rewrite (find_merge _ _ _ Henv Hp), first_of_cons, (Hf p Hp). }
  pose proof (extract_reads (fig_merge f (fig_env ENV_PREFIX ENV_SPLIT env))) as Hx.
  destruct (fig_extract _) as [c|e| |]; simpl; [|right|done..].
  - destruct Hx as [Hs (s & Hd & Hpd)]. split_and!; [done| |exists s; rewrite <- Hl by decide_now; done].
    intros p v Hp Hset. change (setting (overridden c cli_args) p = Some v) in Hset. rewrite overridden_setting in Hset by done.
    rewrite first_of_cons. destruct (cli_setting cli_args p); [done|]. destruct (setting_place _ _ _ Hset) as [Hpl _].
    rewrite <- (Hl p Hpl), (Hs p v Hset). done.
  - rewrite valid_merge, valid_env, andb_true_r in Hx. destruct Hx as [Hx|(p & Hp & Hx)]; [left; auto|right].
    exists p. split; [done|]. rewrite <- (Hl p Hp). exact Hx.
Qed.

End Cfg.

(** ** Samples: layers as maps of places *)
Module CfgSample.
Export NodeSample.

Record SampleFigment := mkSampleFigment { layer : gmap (list string) Value; readable : bool }.

Definition duration_text (d : Z) : string := print_digits 40 d +:+ "ns".
Definition strip_suffix (t s : string) : string := String.substring 0 (String.length s - String.length t) s.
Definition read_duration (s : string) : option Z := parse_digits 100 0 (strip_suffix "ns" s).

(** The variable of a place: its upper-case names, joined. *)
Definition upper (c : Ascii.ascii) : Ascii.ascii :=
  let n := Ascii.N_of_ascii c in if ((97 <=? n) && (n <=? 122))%N then Ascii.ascii_of_N (n - 32) else c.
Definition upper_string (s : string) : string := String.string_of_list_ascii (map upper (String.list_ascii_of_string s)).
Definition read_value (s : string) : Value :=
  match parse_uint 64 s with
  | Some z => VNum z
  | None => if decide (s = "true") then VBool true else if decide (s = "false") then VBool false else VString s
  end.
Fixpoint lookup_env (k : string) (env : list (string * string)) : option string :=
  match env with [] => None | (q, v) :: env => if decide (q = k) then Some v else lookup_env k env end.
Definition env_layer (prefix sep : string) (env : list (string * string)) : gmap (list string) Value :=
  list_to_map (omap (fun p => v ← lookup_env (prefix +:+ upper_string (String.concat sep p)) env; Some (p, read_value v)) places).

(** The parts of a string around the first occurrence of a character *)
Fixpoint cut (c : Ascii.ascii) (s : string) : option (string * string) :=
  match s with
  | String.EmptyString => None
  | String.String d s' =>
      if Ascii.eqb d c then Some ("", s')
      else match cut c s' with Some (before, after) => Some (String.String d before, after) | None => None end
  end.
Definition space : Ascii.ascii := Ascii.ascii_of_N 32.
Definition equals : Ascii.ascii := Ascii.ascii_of_N 61.
Definition until (c : Ascii.ascii) (s : string) : string := match cut c s with Some (before, _) => before | None => s end.
Fixpoint drop_spaces (s : string) : string :=
  match s with String.String c s' => if Ascii.eqb c space then drop_spaces s' else s | _ => s end.

(** A header, or a key and a value; a quoted value is text. *)
Definition toml_value (s : string) : Value :=
  match s with
  | String.String c text => if Ascii.eqb c quote then VString (until quote text) else read_value s
  | _ => read_value s
  end.
Definition toml_line (table : list string) (line : string) : list string * option (list string * Value) :=
  match cut equals line with
  | Some (key, v) => (table, Some (table ++ [until space key], toml_value (drop_spaces v)))
  | None =>
      match line with
      | String.String c name => let name := until (Ascii.ascii_of_N 93) name in ([name], Some ([name], VTable))
      | _ => (table, None)
      end
  end.
Fixpoint toml_lines (table : list string) (lines : list string) : list (list string * Value) :=
  match lines with
  | [] => []
  | line :: lines =>
      let (table, kv) := toml_line table line in
      match kv with Some kv => kv :: toml_lines table lines | None => toml_lines table lines end
  end.
Definition toml_layer (content : string) : gmap (list string) Value := list_to_map (toml_lines [] (split_char newline content)).

Definition place_typed (f : gmap (list string) Value) (p : list string) : bool :=
  match f !! p with Some v => typed read_duration p v | None => false end.

Definition extract_layer (f : gmap (list string) Value) : AppConfig :=
  of_settings (fun p => f !! p) (default 0%Z (read_duration (text_of (f !! delay_place)))).

#[export] Instance sample_figment : FigmentOps := {|
  Figment := SampleFigment;
  fig_find f p := layer f !! p;
  fig_valid := readable;
  fig_defaults c := mkSampleFigment (<[delay_place := VString (duration_text (propose_value_delay (cfg_consensus c)))]> (list_to_map (settings c))) true;
  fig_toml content := mkSampleFigment (toml_layer content) true;
  fig_env prefix sep env := mkSampleFigment (env_layer prefix sep env) true;
  fig_merge f g := mkSampleFigment (layer g ∪ layer f) (readable f && readable g);
  fig_extract f :=
    if readable f then if forallb (place_typed (layer f)) places then Ok (extract_layer (layer f)) else Err "type" else Err "unreadable";
  parse_duration := read_duration;
  format_duration := duration_text;
|}.

Lemma string_length_app s t : String.length (s +:+ t) = String.length s + String.length t.
Proof. induction s as [|c s IH]; [done|]. exact (f_equal S IH). Qed.

Lemma substring_app s t : String.substring 0 (String.length s) (s +:+ t) = s.
Proof. induction s as [|c s IH]; [by destruct t|]. exact (f_equal (String.String c) IH). Qed.

Lemma strip_suffix_app s t : strip_suffix t (s +:+ t) = s.
Proof.
  unfold strip_suffix. rewrite string_length_app.
  replace (String.length s + String.length t - String.length t) with (String.length s) by lia. apply substring_app.
Qed.

(** A typed value has the shape its place needs. *)
Lemma typed_num f p : p ∈ [["id"]; ["fnames"; "start_from"]; ["fnames"; "stop_at"]] -> place_typed f p = true -> f !! p = Some (VNum (num_of (f !! p))).
Proof.
  unfold place_typed, num_of. intros Hp. destruct (f !! p) as [v|]; [|done].
  repeat (apply elem_of_cons in Hp as [->|Hp]; [by destruct v|]). by apply not_elem_of_nil in Hp.
Qed.

Lemma typed_bool f p : p ∈ [["fnames"; "disable"]; ["clear_db"]] -> place_typed f p = true -> f !! p = Some (VBool (bool_of (f !! p))).
Proof.
  unfold place_typed, bool_of. intros Hp. destruct (f !! p) as [v|]; [|done].
  repeat (apply elem_of_cons in Hp as [->|Hp]; [by destruct v|]). by apply not_elem_of_nil in Hp.
Qed.

Lemma typed_text f p :
  p ∈ [["log_format"]; ["fnames"; "url"]; ["onchain_events"; "rpc_url"]; ["consensus"; "private_key"]; ["consensus"; "shard_ids"];
       ["gossip"; "address"]; ["gossip"; "bootstrap_peers"]; ["rpc_address"]; ["rocksdb_dir"]; delay_place] ->
  place_typed f p = true -> f !! p = Some (VString (text_of (f !! p))).
Proof.
  unfold place_typed, text_of. intros Hp. destruct (f !! p) as [v|]; [|done].
  repeat (apply elem_of_cons in Hp as [->|Hp]; [by destruct v|]). by apply not_elem_of_nil in Hp.
Qed.

Lemma extract_layer_settings f p v :
  (forall p, p ∈ places -> place_typed f p = true) -> setting (extract_layer f) p = Some v -> f !! p = Some v.
Proof.
  intros Hty Hs. destruct (setting_place _ _ _ Hs) as [Hp _]. specialize (Hty p Hp). revert Hs Hty.
  unfold setting, settings. simpl.
  repeat (case_decide; [subst p; intros [= <-]; first [apply typed_num|apply typed_bool|apply typed_text]; decide_now|]). done.
Qed.

Lemma assoc_list_to_map p l v : assoc p l = Some v -> (list_to_map l : gmap (list string) Value) !! p = Some v.
Proof.
  induction l as [|[q w] l IH]; [done|]. cbn [assoc]. rewrite list_to_map_cons. case_decide as Hq.
  - intros [= ->]. subst q. by rewrite lookup_insert_eq.
  - rewrite lookup_insert_ne by done. exact IH.
Qed.

#[export] Instance sample_figment_laws : FigmentLaws.
Proof.
  split.
  - intros f g p _ _. simpl. rewrite lookup_union. destruct (layer g !! p), (layer f !! p); done.
  - done.
  - intros c p v Hs. cbn [fig_find fig_defaults sample_figment layer]. destruct (setting_place _ _ _ Hs) as [_ Hd]. rewrite lookup_insert_ne by congruence.
    exact (assoc_list_to_map p (settings c) v Hs).
  - intros c. cbn [fig_find fig_defaults sample_figment layer]. by rewrite lookup_insert_eq.
  - done.
  - done.
  - intros f. cbn [fig_extract fig_valid fig_find parse_duration sample_figment]. destruct (readable f); [|by left]. destruct (forallb (place_typed (layer f)) places) eqn:Hall.
    + assert (Hty : forall p, p ∈ places -> place_typed (layer f) p = true).
      { intros p Hp. rewrite forallb_forall in Hall. apply Hall. by apply list_elem_of_In. }
      cbv iota. split; [intros p v; by apply extract_layer_settings|]. exists (text_of (layer f !! delay_place)).
      assert (Hd := Hty delay_place ltac:(decide_now)). pose proof (typed_text (layer f) delay_place ltac:(decide_now) Hd) as Hf.
      split; [done|]. unfold place_typed in Hd. rewrite Hf in Hd. unfold typed in Hd. simpl in Hd. simpl.
      apply bool_decide_eq_true in Hd as [d Hd]. by rewrite Hd.
    + right. apply not_true_iff_false in Hall. rewrite forallb_forall in Hall.
      destruct (decide (Forall (fun p => place_typed (layer f) p = true) places)) as [Hf|Hf].
      * destruct Hall. intros p Hp. rewrite Forall_forall in Hf. apply Hf. by apply list_elem_of_In.
      * apply not_Forall_Exists in Hf; [|apply _]. apply Exists_exists in Hf as (p & Hp & Hn). exists p. split; [done|].
        intros v Hv. unfold place_typed in Hn. simpl in Hn. rewrite Hv in Hn. by destruct (typed read_duration p v).
  - intros d Hd. cbn [parse_duration format_duration sample_figment]. unfold read_duration, duration_text. rewrite strip_suffix_app. apply parse_print_digits.
    + split; [lia|]. apply Z.lt_trans with (2 ^ 64 * 10 ^ 9)%Z; [lia|reflexivity].
    + apply Z.lt_trans with (2 ^ 64 * 10 ^ 9)%Z; [lia|reflexivity].
Qed.

(** *** The reader of TOML *)
Lemma list_ascii_app s t : String.list_ascii_of_string (s +:+ t) = String.list_ascii_of_string s ++ String.list_ascii_of_string t.
Proof. induction s as [|c s IH]; [done|]. exact (f_equal (cons c) IH). Qed.

Lemma free_of_app c s t : free_of c (s +:+ t) <-> free_of c s /\ free_of c t.
Proof. unfold free_of. by rewrite list_ascii_app, Forall_app. Qed.

Lemma free_of_char c d : c ≠ d -> free_of c (char_string d).
Proof. intros Hc. unfold free_of. simpl. apply Forall_singleton. congruence. Qed.

(** A character outside a class is not in a string of the class. *)
Lemma free_of_class (P : Ascii.ascii -> bool) c s :
  P c = false -> Forall (fun d => P d = true) (String.list_ascii_of_string s) -> free_of c s.
Proof. intros Hc Hs. unfold free_of. eapply Forall_impl; [exact Hs|]. intros d Hd ->. by rewrite Hc in Hd. Qed.

Lemma cut_free c s : free_of c s -> cut c s = None.
Proof.
  unfold free_of. induction s as [|d s IH]; [done|]. simpl. intros [Hd Hs]%Forall_cons.
  destruct (Ascii.eqb_spec d c); [done|]. by rewrite IH.
Qed.

Lemma cut_app c s t : free_of c s -> cut c (s +:+ String.String c t) = Some (s, t).
Proof.
  unfold free_of. induction s as [|d s IH]; intros Hf.
  - simpl. by rewrite Ascii.eqb_refl.
  - apply Forall_cons in Hf as [Hd Hs]. change (String.String d s +:+ String.String c t) with (String.String d (s +:+ String.String c t)).
    simpl. destruct (Ascii.eqb_spec d c); [done|]. by rewrite IH.
Qed.

Lemma append_assoc s t u : (s +:+ t) +:+ u = s +:+ t +:+ u.
Proof. induction s as [|c s IH]; [done|]. exact (f_equal (String.String c) IH). Qed.

Lemma print_uint_class n c : (0 <= n)%Z -> digit_value c = None -> free_of c (print_uint n).
Proof.
  intros Hn Hc. unfold free_of. eapply Forall_impl; [exact (print_digits_all 20 n Hn)|]. intros d Hd ->. by destruct Hd.
Qed.

Lemma toml_value_text s : plain s -> toml_value (in_quotes s) = VString s.
Proof.
  intros Hs. change (in_quotes s) with (String.String quote (s +:+ String.String quote "")). unfold toml_value, until.
  rewrite Ascii.eqb_refl, cut_app; [done|by apply (free_of_class plain_char)].
Qed.

Lemma toml_value_number n : (0 <= n < 2 ^ 63)%Z -> toml_value (drop_spaces (print_uint n)) = VNum n.
Proof.
  intros Hn. pose proof (print_digits_nonempty 19 n) as Hne. fold (print_uint n) in Hne.
  pose proof (parse_print_uint 64 n ltac:(lia) ltac:(lia)) as Hp.
  pose proof (print_uint_class n space ltac:(lia) eq_refl) as H1. pose proof (print_uint_class n quote ltac:(lia) eq_refl) as H2.
  unfold free_of in *. destruct (print_uint n) as [|c s]; [done|]. simpl in H1, H2.
  apply Forall_cons in H1 as [H1 _]. apply Forall_cons in H2 as [H2 _]. unfold toml_value. simpl.
  destruct (Ascii.eqb_spec c space); [done|]. destruct (Ascii.eqb_spec c quote); [done|]. unfold read_value. by rewrite Hp.
Qed.

(** A pair, with or without spaces around the sign *)
Lemma toml_line_pair table key spaces v c s : bare key -> v = String.String c s -> c ≠ space ->
  toml_line table (key +:+ toml_equals spaces +:+ v) = (table, Some (table ++ [key], toml_value v)).
Proof.
  intros [_ Hk] -> Hc.
  assert (He : free_of equals key) by (by apply (free_of_class bare_char)).
  assert (Hs : free_of space key) by (by apply (free_of_class bare_char)).
  unfold toml_line. destruct spaces.
  - change (toml_equals true +:+ String.String c s) with (char_string space +:+ String.String equals (String.String space (String.String c s))).
    rewrite <- append_assoc, cut_app by (apply free_of_app; split; [done|by apply free_of_char]).
    unfold until. change (char_string space) with (String.String space ""). rewrite cut_app by done. simpl.
    destruct (Ascii.eqb_spec c space); [done|]. done.
  - change (toml_equals false +:+ String.String c s) with (String.String equals (String.String c s)).
    rewrite cut_app by done. unfold until. rewrite cut_free by done. simpl. by destruct (Ascii.eqb_spec c space).
Qed.

Lemma toml_lines_print table doc lines : Forall toml_line_ok doc ->
  toml_lines table (map print_toml_line doc ++ lines) = toml_entries table doc ++ toml_lines
    (foldl (fun t l => match l with TomlTable name => [name] | _ => t end) table doc) lines.
Proof.
  intros Hd. revert table. induction Hd as [|l doc Hl _ IH]; intros table; [done|].
  destruct l as [|name|key sp text|key sp n]; cbn [map app toml_lines print_toml_line toml_entries foldl].
  - simpl. apply IH.
  - unfold toml_line. rewrite cut_free.
    + change ("[" +:+ name +:+ "]") with (String.String (Ascii.ascii_of_N 91) (name +:+ String.String (Ascii.ascii_of_N 93) "")).
      unfold until. rewrite cut_app by (by apply (free_of_class bare_char); [|apply Hl]). cbn [app]. f_equal. apply IH.
    + rewrite !free_of_app. split_and!; [by apply free_of_char|by apply (free_of_class bare_char); [|apply Hl]|by apply free_of_char].
  - destruct Hl as [Hk Ht]. rewrite (toml_line_pair _ _ _ (in_quotes text) quote (text +:+ char_string quote) Hk eq_refl) by done.
    rewrite toml_value_text by done. simpl. f_equal. apply IH.
  - destruct Hl as [Hk Hn]. pose proof (toml_value_number n Hn) as Hv. pose proof (print_digits_nonempty 19 n) as Hne. fold (print_uint n) in Hne.
    pose proof (print_uint_class n space ltac:(lia) eq_refl) as Hsp. unfold free_of in Hsp. destruct (print_uint n) as [|c s] eqn:En; [done|].
    simpl in Hsp. apply Forall_cons in Hsp as [Hsp _]. rewrite (toml_line_pair _ _ _ _ c s Hk eq_refl Hsp).
    simpl in Hv. destruct (Ascii.eqb_spec c space); [done|]. rewrite Hv. simpl. f_equal. apply IH.
Qed.

Lemma line_no_newline l : toml_line_ok l -> free_of newline (print_toml_line l).
Proof.
  assert (Hkey : forall key, bare key -> free_of newline key) by (intros key [_ Hk]; by apply (free_of_class bare_char)).
  destruct l as [|name|key sp text|key sp n]; simpl; [constructor|intros Hb|intros [Hk Ht]|intros [Hk Hn]];
    unfold in_quotes; rewrite !free_of_app; split_and!; auto; try by apply free_of_char.
  - destruct sp; repeat constructor; discriminate.
  - by apply (free_of_class plain_char).
  - destruct sp; repeat constructor; discriminate.
  - apply print_uint_class; [lia|done].
Qed.

Lemma concat_snoc sep (l : list string) : l ≠ [] -> String.concat sep l +:+ sep = String.concat sep (l ++ [""]).
Proof.
  induction l as [|s [|t l] IH]; intros Hl; [done| |].
  - change (s +:+ sep = s +:+ sep +:+ ""). f_equal. clear. by induction sep as [|c sep IH]; [|exact (f_equal (String.String c) IH)].
  - change ((s +:+ sep +:+ String.concat sep (t :: l)) +:+ sep = s +:+ sep +:+ String.concat sep ((t :: l) ++ [""])).
    by rewrite !append_assoc, IH.
Qed.

Lemma assoc_lookup p l : (list_to_map l : gmap (list string) Value) !! p = assoc p l.
Proof.
  induction l as [|[q v] l IH]; [done|]. cbn [assoc]. rewrite list_to_map_cons. case_decide as Hq.
  - subst q. by rewrite lookup_insert_eq.
  - by rewrite lookup_insert_ne.
Qed.

Lemma toml_layer_print doc p : Forall toml_line_ok doc -> toml_layer (print_toml doc) !! p = assoc p (toml_entries [] doc).
Proof.
  intros Hd. unfold toml_layer. destruct doc as [|l doc]; [reflexivity|]. set (d := l :: doc) in *.
  unfold print_toml. rewrite concat_snoc by done. rewrite split_concat.
  - rewrite toml_lines_print by done. change (toml_lines _ [""]) with (@nil (list string * Value)). by rewrite app_nil_r, assoc_lookup.
  - by destruct (map print_toml_line d).
  - apply Forall_app. split; [|repeat constructor]. apply Forall_map. eapply Forall_impl; [exact Hd|]. exact line_no_newline.
Qed.

#[export] Instance sample_toml_laws : TomlLaws.
Proof. split; [done|]. intros doc p Hd _. exact (toml_layer_print doc p Hd). Qed.

(** Keys in hexadecimal digits *)
Definition hex_char (d : Z) : Ascii.ascii := Ascii.ascii_of_N (Z.to_N (if (d <? 10)%Z then d + 48 else d + 87)).
Definition hex_value (c : Ascii.ascii) : option Z :=
  let n := Z.of_N (Ascii.N_of_ascii c) in
  if ((48 <=? n) && (n <=? 57))%Z then Some (n - 48)%Z else if ((97 <=? n) && (n <=? 102))%Z then Some (n - 87)%Z else None.
Fixpoint hex_print (b : bytes) : string :=
  match b with [] => "" | x :: b => String.String (hex_char (x / 16)) (String.String (hex_char (x mod 16)) (hex_print b)) end.
Fixpoint hex_parse (s : string) : option bytes :=
  match s with
  | String.EmptyString => Some []
  | String.String c (String.String d s) => x ← hex_value c; y ← hex_value d; b ← hex_parse s; Some (x * 16 + y :: b)%Z
  | _ => None
  end.
#[export] Instance sample_secret_keys : SecretKeyOps := {|
  hex_decode := hex_parse;
  hex_encode := hex_print;
  secret_key_try_from_bytes b := if decide (length b = 32) then Some b else None;
|}.

End CfgSample.

(** ** Properties *)

(** Every setting of a loaded configuration comes from the first of the
    command line, the environment, the chosen file and the defaults that has
    it, except that clearing the database is asked for on the command line
    alone. Loading fails exactly when a file asked for is missing, a file
    cannot be read or a layer below the command line has a value of the wrong
    type, and it always ends. *)
Theorem config_precedence `{FigmentLaws} `{SecretKeyOps} (fs : Fs) (env : list (string * string)) (generated : bytes) (cli_args : CliArgs)
    (Hfile : forall f, file_layer fs cli_args = Some f -> sections_ok f) (Henv : sections_ok (fig_env ENV_PREFIX ENV_SPLIT env)) :
  match load_and_merge_config fs env generated cli_args with
  | Ok c =>
      clear_db c = cli_clear_db cli_args /\
      (forall (p : list string) (v : Value), p ≠ ["clear_db"] -> setting c p = Some v ->
         first_of [cli_setting cli_args p; layered fs env generated cli_args p] = Some v) /\
      exists s, layered fs env generated cli_args delay_place = Some (VString s) /\
        parse_duration s = Some (propose_value_delay (cfg_consensus c))
  | Err e =>
      (exists q, config_path cli_args = Some q /\ path_exists fs (path q) = false /\ e = "config file not found: " +:+ q) \/
      (exists f, file_layer fs cli_args = Some f /\ fig_valid f = false) \/
      (exists p, p ∈ places /\ forall v, layered fs env generated cli_args p = Some v -> typed parse_duration p v = false)
  | _ => False
  end.
Proof. by apply load_spec. Qed.

Import CfgSample.

(** The file of the tests, with a setting of the environment over it and one
    of the command line over both. *)
Definition sample_fs : Fs :=
  mkFs ∅ {[ ["app.toml"] := String.concat (String.String newline "") ["id = 42"; "log_format = xml"; "clear_db = true"; "[fnames]"; "stop_at = 150"] ]}.
Definition sample_env : list (string * string) := [("SNAPCHAIN_ID", "43"); ("SNAPCHAIN_FNAMES__URL", "http://names")].
Definition sample_args : CliArgs := mkCliArgs None (Some "json") (Some "app.toml") false.

Lemma config_precedence_witness :
  exists c, load_and_merge_config sample_fs sample_env (replicate 32 1%Z) sample_args = Ok c /\
    (cfg_id c, log_format c, url (fnames c), stop_at (fnames c), clear_db c) = (43, "json", "http://names", 150, false)%Z.
Proof.
  pose proof (config_precedence sample_fs sample_env (replicate 32 1%Z) sample_args) as Hp.
  destruct (load_and_merge_config sample_fs sample_env (replicate 32 1%Z) sample_args) as [c|e| |] eqn:E.
  2-4: exfalso; vm_compute in E; discriminate E.
  exists c. split; [done|].
  destruct Hp as (Hc & Hs & _).
  - intros f Hf. vm_compute in Hf. injection Hf as <-. decide_now.
  - decide_now.
  - pose proof (Hs ["id"] _ ltac:(done) eq_refl) as H1. pose proof (Hs ["log_format"] _ ltac:(done) eq_refl) as H2.
    pose proof (Hs ["fnames"; "url"] _ ltac:(done) eq_refl) as H3. pose proof (Hs ["fnames"; "stop_at"] _ ltac:(done) eq_refl) as H4.
    change (clear_db c = false) in Hc. destruct c as [? ? [] ? ? ? ? ? ?]. vm_compute in H1, H2, H3, H4, Hc. simpl. congruence.
Defined.
