(* ===== verification/Setup.v ===== *)
(** * The configurations of a local network

    [src/bin/setup.rs]: writes the configurations of four nodes that know each
    other. The directories of the nodes are paths of [Cfg.v]. *)

From S2P Require Import Prelude Text Util Db Proto FnameFetcher OnchainEvents TrieNode Block Types Consensus Gossip Node Cfg.

Section Setup.
Context `{FIG : FigmentOps} `{SecretKeyOps}.

Definition nodes : list Z := [1; 2; 3; 4]%Z.
Definition base_rpc_port : Z := 3382.
Definition base_gossip_port : Z := 50050.

Definition node_name (i : Z) : string := "nodes/" +:+ print_uint i.
Definition db_dir (i : Z) : string := "nodes/" +:+ print_uint i +:+ "/.rocks".
Definition config_file (i : Z) : string := "nodes/" +:+ print_uint i +:+ "/snapchain.toml".
Definition node_rpc_address (i : Z) : string := "127.0.0.1:" +:+ print_uint (base_rpc_port + i).
Definition gossip_multi_addr (i : Z) : string := "/ip4/127.0.0.1/udp/" +:+ print_uint (base_gossip_port + i) +:+ "/quic-v1".
Definition other_nodes_addresses (id : Z) : string :=
  String.concat "," (map gossip_multi_addr (filter (fun x => x ≠ id) nodes)).

(** The lines of the file, trimmed and with a newline at the end. *)
Definition config_file_content (id : Z) (secret_key propose_value_delay : string) : string :=
  String.concat (char_string newline)
    ["id = " +:+ print_uint id;
     "rpc_address=" +:+ in_quotes (node_rpc_address id);
     "rocksdb_dir=" +:+ in_quotes (db_dir id);
     "";
     "[gossip]";
     "address=" +:+ in_quotes (gossip_multi_addr id);
     "bootstrap_peers = " +:+ in_quotes (other_nodes_addresses id);
     "";
     "[consensus]";
     "private_key = " +:+ in_quotes secret_key;
     "propose_value_delay = " +:+ in_quotes propose_value_delay] +:+ char_string newline.

(** One round of the loop, with the key generated in it *)
Definition setup_node (propose_value_delay : Z) (id : Z) (key : bytes) : ST Fs string unit :=
  (let! fs := st_get in
   (if negb (path_exists fs (path (node_name id))) then st_unwrap (create_dir (path (node_name id)))
    else if path_exists fs (path (db_dir id)) then st_unwrap (remove_dir_all (path (db_dir id)))
    else st_ret tt) ;;;
   let secret_key := hex_encode key in
   st_unwrap (fs_write (path (config_file id)) (config_file_content id secret_key (format_duration propose_value_delay))))%st.

(** [for i in 1..=nodes] *)
Fixpoint setup_nodes (propose_value_delay : Z) (keys : Z -> bytes) (ids : list Z) : ST Fs string unit :=
  match ids with
  | [] => st_ret tt
  | id :: ids => (setup_node propose_value_delay id (keys id) ;;; setup_nodes propose_value_delay keys ids)%st
  end.

Definition setup_main (propose_value_delay : Z) (keys : Z -> bytes) : ST Fs string unit :=
  (let! fs := st_get in
   (if negb (path_exists fs ["nodes"]) then st_unwrap (create_dir ["nodes"]) else st_ret tt) ;;;
   setup_nodes propose_value_delay keys nodes)%st.

(** ** The directories *)

(** Every path is in a directory, and none is a directory and a file. *)
Definition fs_wf (fs : Fs) : Prop :=
  (forall p, path_exists fs p = true -> is_dir fs (parent p) = true) /\ (forall p, p ∈ dirs fs -> files fs !! p = None).

(** No file is where [setup] needs a directory, and no directory where it
    writes a file. *)
Definition free_for_setup (fs : Fs) : Prop :=
  fs_wf fs /\ files fs !! ["nodes"] = None /\
  Forall (fun i => files fs !! path (node_name i) = None /\ files fs !! path (db_dir i) = None /\ path (config_file i) ∉ dirs fs) nodes.

(** A node after its round: its configuration is written and it has no
    database. *)
Definition node_ready (delay : Z) (keys : Z -> bytes) (fs : Fs) (i : Z) : Prop :=
  fs_read fs (path (config_file i)) = Some (config_file_content i (hex_encode (keys i)) (format_duration delay)) /\
  path_exists fs (path (db_dir i)) = false.

Lemma node_paths i : i ∈ nodes ->
  path (node_name i) = ["nodes"; print_uint i] /\ path (db_dir i) = ["nodes"; print_uint i; ".rocks"] /\
  path (config_file i) = ["nodes"; print_uint i; "snapchain.toml"].
Proof using Type. revert i. apply list.Forall_forall. unfold nodes. repeat (apply Forall_cons_2; [split_and!; vm_compute; reflexivity|]). apply Forall_nil_2. Qed.

Lemma node_names_inj i j : i ∈ nodes -> j ∈ nodes -> print_uint i = print_uint j -> i = j.
Proof using Type.
  intros Hi Hj E. assert (Hr : forall k, k ∈ nodes -> parse_uint 64 (print_uint k) = Some k).
  { apply list.Forall_forall. unfold nodes. repeat (apply Forall_cons_2; [vm_compute; reflexivity|]). apply Forall_nil_2. }
  pose proof (Hr i Hi) as Hi'. rewrite E, (Hr j Hj) in Hi'. congruence.
Qed.

Lemma is_dir_spec fs p : is_dir fs p = true <-> p = [] \/ p ∈ dirs fs.
Proof using Type. unfold is_dir. apply bool_decide_eq_true. Qed.

Lemma path_exists_spec fs p : path_exists fs p = true <-> p = [] \/ p ∈ dirs fs \/ is_Some (files fs !! p).
Proof using Type. unfold path_exists. rewrite orb_true_iff, is_dir_spec, bool_decide_eq_true. tauto. Qed.

(** What lies below a path lies below its parent's paths. *)
Lemma below_parent p q : below p (parent q) -> below p q.
Proof using Type.
  unfold below, parent. intros E. destruct (decide (q = [])) as [->|Hq]; [done|].
  rewrite (app_removelast_last "" Hq), take_app_le; [done|].
  apply (f_equal length) in E. rewrite length_take in E. lia.
Qed.

Lemma create_dir_wf fs p : fs_wf fs -> path_exists fs p = false -> is_dir fs (parent p) = true ->
  create_dir p fs = (Ok tt, mkFs ({[p]} ∪ dirs fs) (files fs)) /\ fs_wf (mkFs ({[p]} ∪ dirs fs) (files fs)).
Proof using Type.
  intros [Hc Hd] Hp Hpar. unfold create_dir. rewrite Hp, Hpar. split; [done|].
  apply not_true_iff_false in Hp. rewrite path_exists_spec in Hp. split; simpl.
  - intros q. rewrite path_exists_spec. simpl. rewrite is_dir_spec. simpl. rewrite !elem_of_union, !elem_of_singleton.
    rewrite is_dir_spec in Hpar. intros Hq. assert (q = p \/ path_exists fs q = true) as [->|Hq'].
    { rewrite path_exists_spec. tauto. } { tauto. }
    apply Hc in Hq'. rewrite is_dir_spec in Hq'. tauto.
  - intros q [->%elem_of_singleton|Hq]%elem_of_union; [|auto]. apply eq_None_not_Some. tauto.
Qed.

Lemma remove_dir_all_wf fs p : fs_wf fs -> is_dir fs p = true ->
  exists fs', remove_dir_all p fs = (Ok tt, fs') /\ fs_wf fs' /\
    (forall q, q ∈ dirs fs' <-> q ∈ dirs fs /\ ~ below p q) /\
    (forall q, files fs' !! q = if decide (below p q) then None else files fs !! q).
Proof using Type.
  intros [Hc Hd] Hp. unfold remove_dir_all. rewrite Hp. eexists. split; [done|].
  assert (HD : forall q, q ∈ filter (fun q => ~ below p q) (dirs fs) <-> q ∈ dirs fs /\ ~ below p q) by (intros q; rewrite elem_of_filter; tauto).
  assert (HF : forall q, filter (fun kv => ~ below p kv.1) (files fs) !! q = if decide (below p q) then None else files fs !! q).
  { intros q. rewrite map_lookup_filter. destruct (files fs !! q) as [c|]; simpl; [|by case_decide].
    case_decide; case_guard; try done; tauto. }
  split; [|split; [exact HD|exact HF]]. split; simpl.
  - intros q. rewrite path_exists_spec, is_dir_spec. simpl. rewrite !HD, HF. intros Hq.
    assert (path_exists fs q = true /\ (q = [] \/ ~ below p q)) as [Hq' Hb].
    { rewrite path_exists_spec. case_decide; [|tauto]. destruct Hq as [?|[?|[? ?]]]; [tauto|tauto|done]. }
    apply Hc in Hq'. rewrite is_dir_spec in Hq'. destruct Hb as [->|Hb]; [by left|].
    destruct Hq' as [?|?]; [by left|]. right. split; [done|]. by intros ?%below_parent.
  - intros q [Hq _]%HD. rewrite HF. case_decide; auto.
Qed.

Lemma fs_write_wf fs p content : fs_wf fs -> is_dir fs p = false -> is_dir fs (parent p) = true ->
  fs_write p content fs = (Ok tt, mkFs (dirs fs) (<[p := content]> (files fs))) /\ fs_wf (mkFs (dirs fs) (<[p := content]> (files fs))).
Proof using Type.
  intros [Hc Hd] Hp Hpar. unfold fs_write. rewrite Hp, Hpar. split; [done|].
  apply not_true_iff_false in Hp. rewrite is_dir_spec in Hp. split; simpl.
  - intros q. rewrite path_exists_spec. simpl. change (is_dir (mkFs (dirs fs) _) (parent q)) with (is_dir fs (parent q)).
    destruct (decide (q = p)) as [->|Hq]; [done|]. rewrite lookup_insert_ne by done. rewrite <- path_exists_spec. auto.
  - intros q Hq. destruct (decide (q = p)) as [->|]; [tauto|]. rewrite lookup_insert_ne by done. auto.
Qed.

(** The directory of a node is there, without a database; nothing else has
    changed. *)
Definition prepared (i : Z) (fs fs1 : Fs) : Prop :=
  fs_wf fs1 /\ path (node_name i) ∈ dirs fs1 /\ path_exists fs1 (path (db_dir i)) = false /\
  forall q, ~ below (path (db_dir i)) q -> q ≠ path (node_name i) -> (q ∈ dirs fs1 <-> q ∈ dirs fs) /\ files fs1 !! q = files fs !! q.

Lemma prepare_node fs i : i ∈ nodes -> fs_wf fs -> ["nodes"] ∈ dirs fs ->
  files fs !! path (node_name i) = None -> files fs !! path (db_dir i) = None ->
  exists fs1, ((if negb (path_exists fs (path (node_name i))) then st_unwrap (create_dir (path (node_name i)))
     else if path_exists fs (path (db_dir i)) then st_unwrap (remove_dir_all (path (db_dir i))) else st_ret tt) : ST Fs string unit) fs
    = (Ok tt, fs1) /\ prepared i fs fs1.
Proof using Type.
  intros Hi Hwf Hn Hnf Hrf. unfold prepared. destruct (node_paths i Hi) as (-> & -> & _).
  set (nd := ["nodes"; print_uint i]). set (rk := ["nodes"; print_uint i; ".rocks"]).
  assert (nd = path (node_name i) /\ rk = path (db_dir i)) as [En Er] by (destruct (node_paths i Hi) as (-> & -> & _); done).
  rewrite <- En in Hnf. rewrite <- Er in Hrf. unfold st_unwrap. destruct (path_exists fs nd) eqn:Hnd; simpl.
  - assert (Hd : nd ∈ dirs fs) by (rewrite path_exists_spec, Hnf in Hnd; destruct Hnd as [?|[?|[? ?]]]; done).
    destruct (path_exists fs rk) eqn:Hrk.
    + assert (Hrd : is_dir fs rk = true) by (rewrite path_exists_spec, Hrf in Hrk; rewrite is_dir_spec; destruct Hrk as [?|[?|[? ?]]]; auto; done).
      destruct (remove_dir_all_wf fs rk Hwf Hrd) as (fs' & E & Hwf' & HD & HF). exists fs'. rewrite E. split_and!; [done|done|by apply HD| |].
      * apply not_true_iff_false. rewrite path_exists_spec, HD, HF, decide_True by done. intros [?|[[_ []]|[? ?]]]; done.
      * intros q Hb _. rewrite HD, HF, decide_False by done. tauto.
    + exists fs. split_and!; [done|done|done|done|]. intros q _ _. done.
  - destruct (create_dir_wf fs nd Hwf Hnd) as [E Hwf']; [by apply is_dir_spec; right|]. rewrite E. eexists. split_and!; [done|done|set_solver| |].
    + apply not_true_iff_false. rewrite path_exists_spec. simpl. rewrite Hrf, elem_of_union, elem_of_singleton.
      intros [?|[[?|Hin]|[? ?]]]; try done. apply not_true_iff_false in Hnd. apply Hnd.
      destruct Hwf as [Hc _]. assert (Hp : is_dir fs nd = true); [|rewrite path_exists_spec; apply is_dir_spec in Hp; tauto].
      apply (Hc rk). rewrite path_exists_spec. tauto.
    + intros q _ Hq. simpl. rewrite elem_of_union, elem_of_singleton. tauto.
Qed.

(** The paths that a round of node [i] leaves alone *)
Definition outside (i : Z) (q : Path) : Prop :=
  ~ below (path (db_dir i)) q /\ q ≠ path (node_name i) /\ q ≠ path (config_file i).

Lemma outside_nodes i : i ∈ nodes -> outside i ["nodes"].
Proof using Type. intros Hi. unfold outside. destruct (node_paths i Hi) as (-> & -> & ->). split_and!; by intros [=]. Qed.

Lemma outside_node i j : i ∈ nodes -> j ∈ nodes -> j ≠ i ->
  outside i (path (node_name j)) /\ outside i (path (db_dir j)) /\ outside i (path (config_file j)).
Proof using Type.
  intros Hi Hj Hne. assert (print_uint j ≠ print_uint i) by (intros Ej; apply Hne; by apply node_names_inj). unfold outside.
  destruct (node_paths i Hi) as (-> & -> & ->), (node_paths j Hj) as (-> & -> & ->). split_and!; by intros [=].
Qed.

Definition same_outside (i : Z) (fs fs' : Fs) : Prop := forall q, outside i q -> (q ∈ dirs fs' <-> q ∈ dirs fs) /\ files fs' !! q = files fs !! q.

Lemma setup_node_run delay keys fs i : i ∈ nodes -> free_for_setup fs -> ["nodes"] ∈ dirs fs ->
  exists fs', setup_node delay i (keys i) fs = (Ok tt, fs') /\ fs_wf fs' /\ path (node_name i) ∈ dirs fs' /\ node_ready delay keys fs' i /\
    path (config_file i) ∉ dirs fs' /\ same_outside i fs fs'.
Proof using Type.
  intros Hi (Hwf & _ & Hfree) Hn. rewrite list.Forall_forall in Hfree. destruct (Hfree i Hi) as (H1 & H2 & H3).
  destruct (prepare_node fs i Hi Hwf Hn H1 H2) as (fs1 & E1 & Hwf1 & Hnd & Hrk & Hsame).
  unfold setup_node. unfold st_bind at 1, st_get. rewrite (st_bind_Ok _ _ _ _ _ E1). destruct (node_paths i Hi) as (En & Er & Ec).
  assert (Hcd : path (config_file i) ∉ dirs fs1).
  { rewrite (proj1 (Hsame (path (config_file i)) ltac:(rewrite Er, Ec; by intros [=]) ltac:(rewrite En, Ec; by intros [=]))). done. }
  destruct (fs_write_wf fs1 (path (config_file i)) (config_file_content i (hex_encode (keys i)) (format_duration delay)) Hwf1) as [E2 Hwf2].
  { apply not_true_iff_false. rewrite is_dir_spec. intros [?|?]; [by rewrite Ec in *|done]. }
  { apply is_dir_spec. right. rewrite Ec. by rewrite En in Hnd. }
  unfold st_unwrap. rewrite E2. eexists. split_and!; [done|done|done| |done|].
  - split; [unfold fs_read; simpl; by rewrite lookup_insert_eq|]. rewrite <- Hrk. apply eq_bool_prop_intro.
    rewrite !Is_true_true, !path_exists_spec. simpl. rewrite lookup_insert_ne by (rewrite Ec, Er; by intros [=]). tauto.
  - intros q (Hb & Hq & Hc). destruct (Hsame q Hb Hq) as [Hd Hf]. simpl. by rewrite lookup_insert_ne by done.
Qed.

Lemma same_exists i fs fs' q : same_outside i fs fs' -> outside i q -> path_exists fs' q = path_exists fs q.
Proof using Type.
  intros Hs Hq. destruct (Hs q Hq) as [Hd Hf]. apply eq_bool_prop_intro. rewrite !Is_true_true, !path_exists_spec, Hf. tauto.
Qed.

(** A round makes its node ready and keeps the others as they are. *)
Lemma setup_node_spec delay keys fs i : i ∈ nodes -> free_for_setup fs -> ["nodes"] ∈ dirs fs ->
  exists fs', setup_node delay i (keys i) fs = (Ok tt, fs') /\ free_for_setup fs' /\ ["nodes"] ∈ dirs fs' /\
    node_ready delay keys fs' i /\ forall j, j ∈ nodes -> j ≠ i -> node_ready delay keys fs j -> node_ready delay keys fs' j.
Proof using Type.
  intros Hi Hf Hn. destruct (setup_node_run delay keys fs i Hi Hf Hn) as (fs' & E & Hwf & Hnd & Hr & Hcd & Hs).
  destruct Hf as (_ & Hnf & Hfree). rewrite list.Forall_forall in Hfree. destruct (Hs _ (outside_nodes i Hi)) as [Sd Sf].
  exists fs'. split_and!; [done|split_and!; [done|by rewrite Sf|]|by apply Sd|done|].
  - apply list.Forall_forall. intros j Hj. destruct (decide (j = i)) as [->|Hne].
    + split_and!; [by apply Hwf| |done]. destruct Hr as [_ Hr%not_true_iff_false]. rewrite path_exists_spec in Hr.
      apply eq_None_not_Some. tauto.
    + destruct (outside_node i j Hi Hj Hne) as (O1 & O2 & O3). destruct (Hfree j Hj) as (J1 & J2 & J3).
      destruct (Hs _ O1) as [_ ->], (Hs _ O2) as [_ ->], (Hs _ O3) as [-> _]. done.
  - intros j Hj Hne [R1 R2]. destruct (outside_node i j Hi Hj Hne) as (_ & O2 & O3). unfold node_ready, fs_read.
    rewrite (same_exists i fs fs' _ Hs O2). by destruct (Hs _ O3) as [_ ->].
Qed.

Lemma setup_nodes_spec delay keys fs ids done_ : (forall i, i ∈ ids -> i ∈ nodes) -> (forall j, j ∈ done_ -> j ∈ nodes /\ j ∉ ids /\ node_ready delay keys fs j) ->
  NoDup ids -> free_for_setup fs -> ["nodes"] ∈ dirs fs ->
  exists fs', setup_nodes delay keys ids fs = (Ok tt, fs') /\ forall i, i ∈ done_ ++ ids -> node_ready delay keys fs' i.
Proof using Type.
  revert fs done_. induction ids as [|i ids IH]; intros fs done_ Hin Hdone Hnd Hf Hn.
  { exists fs. split; [done|]. intros i. rewrite app_nil_r. intros Hi. by apply Hdone. }
  apply NoDup_cons in Hnd as [Hi Hnd]. destruct (setup_node_spec delay keys fs i) as (fs1 & E & Hf1 & Hn1 & Hr & Hk); [apply Hin; left|done|done|].
  cbn [setup_nodes]. rewrite (st_bind_Ok _ _ _ _ _ E). destruct (IH fs1 (done_ ++ [i])) as (fs' & E' & Hall); [|..|done|done|done|].
  - intros j Hj. apply Hin. by right.
  - intros j [Hj|Hj]%elem_of_app.
    + destruct (Hdone j Hj) as (J1 & [J2 J3]%not_elem_of_cons & J4). split_and!; [done|done|]. apply Hk; [done|done|done].
    + apply list_elem_of_singleton in Hj as ->. split_and!; [apply Hin; left|done|done].
  - exists fs'. split; [done|]. by rewrite <- app_assoc in Hall.
Qed.

Lemma setup_main_spec delay keys fs : free_for_setup fs ->
  exists fs', setup_main delay keys fs = (Ok tt, fs') /\ forall i, i ∈ nodes -> node_ready delay keys fs' i.
Proof using Type.
  intros Hf. unfold setup_main. unfold st_bind at 1, st_get.
  assert (Hstep : exists fs1, ((if negb (path_exists fs ["nodes"]) then st_unwrap (create_dir ["nodes"]) else st_ret tt) : ST Fs string unit) fs = (Ok tt, fs1) /\
    free_for_setup fs1 /\ ["nodes"] ∈ dirs fs1).
  { destruct Hf as (Hwf & Hnf & Hfree). destruct (path_exists fs ["nodes"]) eqn:Hn; simpl.
    - exists fs. split_and!; [done|done|]. rewrite path_exists_spec, Hnf in Hn. destruct Hn as [?|[?|[? ?]]]; done.
    - destruct (create_dir_wf fs ["nodes"] Hwf Hn eq_refl) as [E Hwf']. unfold st_unwrap. rewrite E. eexists. split_and!; [done| |set_solver].
      split_and!; [done|done|]. rewrite list.Forall_forall in *. intros i Hi. destruct (Hfree i Hi) as (H1 & H2 & H3).
      split_and!; [done|done|]. simpl. rewrite elem_of_union, elem_of_singleton. intros [Ec|?]; [|done].
      destruct (node_paths i Hi) as (_ & _ & Ep). rewrite Ep in Ec. by injection Ec. }
  destruct Hstep as (fs1 & E1 & Hf1 & Hn1). rewrite (st_bind_Ok _ _ _ _ _ E1).
  apply (setup_nodes_spec delay keys fs1 nodes []); [done| |decide_now|done|done]. by intros j ?%not_elem_of_nil.
Qed.

(** ** Starting a node from its configuration *)

(** What the written file says *)
Definition node_settings (delay : Z) (keys : Z -> bytes) (i : Z) : list (list string * Value) :=
  [(["id"], VNum i); (["rpc_address"], VString (node_rpc_address i)); (["rocksdb_dir"], VString (db_dir i));
   (["gossip"; "address"], VString (gossip_multi_addr i)); (["gossip"; "bootstrap_peers"], VString (other_nodes_addresses i));
   (["consensus"; "private_key"], VString (hex_encode (keys i))); (delay_place, VString (format_duration delay))].

(** The written file as a TOML document *)
Definition config_doc (id : Z) (secret_key propose_value_delay : string) : list TomlLine :=
  [TomlNumber "id" true id; TomlText "rpc_address" false (node_rpc_address id); TomlText "rocksdb_dir" false (db_dir id); TomlBlank;
   TomlTable "gossip"; TomlText "address" false (gossip_multi_addr id);
   TomlText "bootstrap_peers" true (other_nodes_addresses id); TomlBlank;
   TomlTable "consensus"; TomlText "private_key" true secret_key; TomlText "propose_value_delay" true propose_value_delay].

Lemma config_file_is_toml id secret_key delay : config_file_content id secret_key delay = print_toml (config_doc id secret_key delay).
Proof using Type. reflexivity. Qed.

Lemma config_doc_ok id secret_key delay : id ∈ nodes -> plain secret_key -> plain delay ->
  Forall toml_line_ok (config_doc id secret_key delay) /\ NoDup (toml_entries [] (config_doc id secret_key delay)).*1.
Proof using Type.
  intros Hid Hs Hd. split; [|cbn; decide_now].
  assert (Hn : (0 <= id < 2 ^ 63)%Z /\ plain (node_rpc_address id) /\ plain (db_dir id) /\ plain (gossip_multi_addr id) /\
    plain (other_nodes_addresses id)).
  { revert id Hid. apply list.Forall_forall. unfold nodes at 1. repeat (apply Forall_cons_2; [split_and!; [lia..|decide_now|decide_now|decide_now|decide_now]|]).
    apply Forall_nil_2. }
  destruct Hn as (H1 & H2 & H3 & H4 & H5). unfold config_doc.
  repeat (apply Forall_cons_2; [simpl; try done; first [split; [decide_now|done]|decide_now]|]). apply Forall_nil_2.
Qed.

(** What the reader finds in the file *)
Definition config_reads (delay : Z) (keys : Z -> bytes) (i : Z) : Prop :=
  let f := fig_toml (config_file_content i (hex_encode (keys i)) (format_duration delay)) in
  fig_valid f = true /\ sections_ok f /\ forall p, p ∈ places -> fig_find f p = assoc p (node_settings delay keys i).

Lemma config_file_reads `{!TomlLaws} delay keys i :
  i ∈ nodes -> plain (hex_encode (keys i)) -> plain (format_duration delay) -> config_reads delay keys i.
Proof using Type.
  intros Hid Hs Hd. destruct (config_doc_ok i _ _ Hid Hs Hd) as [Hok Hnd]. unfold config_reads. rewrite config_file_is_toml.
  split; [by apply toml_valid|split].
  - unfold sections_ok, sections. repeat (apply Forall_cons_2; [rewrite (toml_find _ _ Hok Hnd); first [left; reflexivity|right; reflexivity]|]).
    apply Forall_nil_2.
  - apply list.Forall_forall. unfold places.
    repeat (apply Forall_cons_2; [rewrite (toml_find _ _ Hok Hnd); reflexivity|]). apply Forall_nil_2.
Qed.

(** [--id i] *)
Definition id_args (i : Z) : CliArgs := mkCliArgs (Some i) None None false.

Lemma chosen_id i : chosen_path (id_args i) = config_file i.
Proof using Type. done. Qed.

Lemma bootstrap_others i : i ∈ nodes -> split_char comma (other_nodes_addresses i) = map gossip_multi_addr (filter (fun x => x ≠ i) nodes).
Proof using Type. revert i. apply list.Forall_forall. unfold nodes at 2. repeat (apply Forall_cons_2; [vm_compute; reflexivity|]). apply Forall_nil_2. Qed.

Lemma node_layered delay keys generated env fs i :
  node_ready delay keys fs i -> config_reads delay keys i -> (forall p, p ∈ places -> fig_find (fig_env ENV_PREFIX ENV_SPLIT env) p = None) ->
  forall p, p ∈ places -> layered fs env generated (id_args i) p = first_of [assoc p (node_settings delay keys i); default_setting generated p].
Proof using Type.
  intros [Hr _] (_ & _ & Ht) Henv p Hp. unfold layered, file_setting, file_layer. rewrite chosen_id, Hr. simpl.
  rewrite first_of_cons, (Henv p Hp), (Ht p Hp). done.
Qed.

Context {LAWS : FigmentLaws}.

Lemma node_typed delay keys generated i p : i ∈ nodes -> (0 <= delay < 2 ^ 64 * 10 ^ 9)%Z -> p ∈ places ->
  exists v, first_of [assoc p (node_settings delay keys i); default_setting generated p] = Some v /\ typed parse_duration p v = true.
Proof using LAWS.
  intros Hi Hd. assert (Hb : (1 <= i <= 4)%Z).
  { revert i Hi. apply list.Forall_forall. unfold nodes. repeat (apply Forall_cons_2; [lia|]). apply Forall_nil_2. }
  revert p. apply list.Forall_forall. unfold places.
  repeat (apply Forall_cons_2; [eexists; split; [reflexivity|first
    [reflexivity
    |unfold typed; simpl; apply andb_true_iff; split; [apply Z.leb_le|apply Z.ltb_lt]; lia
    |unfold typed; simpl; rewrite (parse_format_duration delay Hd); reflexivity]]|]).
  apply Forall_nil_2.
Qed.

(** The configuration of a node *)
Definition node_config (delay : Z) (keys : Z -> bytes) (i : Z) : AppConfig :=
  mkAppConfig i "text" FnameConfig_default OnchainConfig_default (mkConsensusConfig (hex_encode (keys i)) "1" delay)
    (mkGossipConfig (gossip_multi_addr i) (other_nodes_addresses i)) (node_rpc_address i) (db_dir i) false.

Lemma node_setting delay keys generated i p : p ∈ places -> p ≠ ["clear_db"] -> p ≠ delay_place ->
  first_of [cli_setting (id_args i) p; first_of [assoc p (node_settings delay keys i); default_setting generated p]] =
  setting (node_config delay keys i) p.
Proof using Type.
  intros Hp H1 H2.
  assert (HF : Forall (fun p => p = ["clear_db"] \/ p = delay_place \/
    first_of [cli_setting (id_args i) p; first_of [assoc p (node_settings delay keys i); default_setting generated p]] =
    setting (node_config delay keys i) p) places).
  { unfold places. repeat (apply Forall_cons_2; [first [right; right; reflexivity|left; reflexivity|right; left; reflexivity]|]). apply Forall_nil_2. }
  rewrite list.Forall_forall in HF. destruct (HF p Hp) as [?|[?|E]]; done.
Qed.

Lemma load_node delay keys generated env fs i :
  i ∈ nodes -> (0 <= delay < 2 ^ 64 * 10 ^ 9)%Z -> node_ready delay keys fs i -> config_reads delay keys i ->
  (forall p, p ∈ places -> fig_find (fig_env ENV_PREFIX ENV_SPLIT env) p = None) -> sections_ok (fig_env ENV_PREFIX ENV_SPLIT env) ->
  load_and_merge_config fs env generated (id_args i) = Ok (node_config delay keys i).
Proof using LAWS.
  intros Hi Hd Hr Ht Henv Hse. pose proof (node_layered delay keys generated env fs i Hr Ht Henv) as Hl.
  assert (Hf : forall f, file_layer fs (id_args i) = Some f -> f = fig_toml (config_file_content i (hex_encode (keys i)) (format_duration delay))).
  { intros f Hf. unfold file_layer in Hf. rewrite chosen_id, (proj1 Hr) in Hf. by injection Hf as <-. }
  assert (Hsec : forall f, file_layer fs (id_args i) = Some f -> sections_ok f) by (intros f Hff; rewrite (Hf f Hff); apply Ht).
  pose proof (load_spec fs env generated (id_args i) Hsec Hse) as Hs.
  destruct (load_and_merge_config fs env generated (id_args i)) as [c|e| |]; [|exfalso|done..].
  - destruct Hs as (Hc & Hset & s & Hsd & Hpd). rewrite (Hl delay_place ltac:(decide_now)) in Hsd. injection Hsd as <-.
    rewrite (parse_format_duration delay Hd) in Hpd. injection Hpd as Hpd. f_equal. apply settings_inj; [|done].
    intros p v Hv. destruct (decide (p = ["clear_db"])) as [->|Hp].
    + cbn in Hv. rewrite Hc in Hv. exact Hv.
    + destruct (setting_place _ _ _ Hv) as [Hpl Hpd']. specialize (Hset p v Hp Hv). rewrite first_of_cons, (Hl p Hpl) in Hset.
      rewrite <- (node_setting delay keys generated i p Hpl Hp Hpd'), first_of_cons. exact Hset.
  - destruct Hs as [(q & Hq & _)|[(f & Hff & Hv)|(p & Hp & Hv)]]; [done| |].
    + rewrite (Hf f Hff), (proj1 Ht) in Hv. discriminate Hv.
    + destruct (node_typed delay keys generated i p Hi Hd Hp) as (v & E & Hty). specialize (Hv v). rewrite (Hl p Hp) in Hv. specialize (Hv E). congruence.
Qed.

End Setup.

(** ** Properties *)

(** C25. After [setup], every one of the four nodes starts: the file that it
    writes is a TOML document from which loading with [--id i] and no variables
    in the environment gives the node its id, its own addresses, the gossip
    addresses of exactly the other three to dial, the generated key, the
    requested delay and the one shard of the default; loading passes the checks
    of [main] and leaves the files alone. The database directory of the node is
    not there yet, also when [setup] runs again over the databases of a former
    run. Setting up succeeds on every file system that has no files in the place
    of its directories. The reader of TOML is assumed to read documents of
    tables, plain strings and numbers as they are written; keys in hexadecimal
    digits and the delay in units of time are plain strings that read back. *)
Theorem setup_network `{FigmentLaws} `{!TomlLaws} `{SecretKeyOps} (delay : Z) (keys : Z -> bytes) (generated : bytes) (env : list (string * string)) (fs : Fs)
    (Hhex : forall i, i ∈ nodes -> plain (hex_encode (keys i)) /\ hex_decode (hex_encode (keys i)) = Some (keys i))
    (Hdelay : (0 <= delay < 2 ^ 64 * 10 ^ 9)%Z) (Htext : plain (format_duration delay))
    (Henv : (forall p, p ∈ places -> fig_find (fig_env ENV_PREFIX ENV_SPLIT env) p = None) /\ sections_ok (fig_env ENV_PREFIX ENV_SPLIT env))
    (Hfs : free_for_setup fs) :
  exists fs', setup_main delay keys fs = (Ok tt, fs') /\ forall i, i ∈ nodes -> exists c,
    main_config env generated (id_args i) fs' = (Ok c, fs') /\
    cfg_id c = i /\ rpc_address c = node_rpc_address i /\ gossip_address (cfg_gossip c) = gossip_multi_addr i /\
    bootstrap_addrs (cfg_gossip c) = map gossip_multi_addr (filter (fun j => j ≠ i) nodes) /\
    config_keypair (cfg_consensus c) = unwrap (secret_key_try_from_bytes (keys i)) /\
    propose_value_delay (cfg_consensus c) = delay /\ shard_ids (cfg_consensus c) = Ok [1%Z] /\
    path_exists fs' (path (rocksdb_dir c)) = false.
Proof.
  destruct (setup_main_spec delay keys fs Hfs) as (fs' & E & Hr). exists fs'. split; [done|]. intros i Hi.
  destruct (Hhex i Hi) as [Hplain Hdec]. pose proof (config_file_reads delay keys i Hi Hplain Htext) as Htoml.
  exists (node_config delay keys i). split_and!; try done.
  - unfold main_config. unfold st_bind at 1, st_get. unfold st_bind at 1, st_lift.
    rewrite (load_node delay keys generated env fs' i Hi Hdelay (Hr i Hi) Htoml (proj1 Henv) (proj2 Henv)). simpl.
    destruct (Z.eqb_spec i 0) as [->|]; [|done]. assert (Hz : (0 ∉ nodes)%Z) by decide_now. by destruct Hz.
  - by apply bootstrap_others.
  - unfold config_keypair. simpl. by rewrite Hdec.
  - apply Hr. done.
Qed.

Import CfgSample.

Definition sample_keys (i : Z) : bytes := replicate 32 i.
(** A former run has left a database. *)
Definition setup_fs : Fs := mkFs {[ ["nodes"]; ["nodes"; "1"]; ["nodes"; "1"; ".rocks"] ]} {[ ["nodes"; "1"; ".rocks"; "LOG"] := "" ]}.

Lemma setup_network_witness :
  exists fs' c, setup_main (250 * 10 ^ 6) sample_keys setup_fs = (Ok tt, fs') /\
    main_config [] (replicate 32 7%Z) (id_args 1) fs' = (Ok c, fs') /\
    bootstrap_addrs (cfg_gossip c) =
      ["/ip4/127.0.0.1/udp/50052/quic-v1"; "/ip4/127.0.0.1/udp/50053/quic-v1"; "/ip4/127.0.0.1/udp/50054/quic-v1"] /\
    config_keypair (cfg_consensus c) = Ok (replicate 32 1%Z) /\ path_exists fs' (path (rocksdb_dir c)) = false.
Proof.
  destruct (setup_network (250 * 10 ^ 6) sample_keys (replicate 32 7%Z) [] setup_fs) as (fs' & E & Hn).
  - apply list.Forall_forall. decide_now.
  - lia.
  - decide_now.
  - split; [|decide_now]. intros p _. exact (lookup_empty (M := gmap (list string)) p).
  - split; [split|split; [reflexivity|decide_now]].
    + intros p. rewrite path_exists_spec. intros [->|[Hp|[x Hp]]]; [done| |].
      * revert p Hp. apply (set_Forall_elements (fun p => is_dir setup_fs (parent p) = true)). decide_now.
      * unfold setup_fs in Hp. simpl in Hp. apply lookup_singleton_Some in Hp as [<- _]. decide_now.
    + apply (set_Forall_elements (fun p => files setup_fs !! p = None)). decide_now.
  - destruct (Hn 1%Z ltac:(decide_now)) as (c & E' & _ & _ & _ & Hb & Hk & _ & _ & Hdb).
    exists fs', c. split_and!; [done|done|exact Hb|exact Hk|exact Hdb].
Defined.
