(* ===== verification/Disk.v ===== *)
(** * The store on disk

    What [src/storage/db/rocksdb.rs] does with files: the location of a store,
    [destroy] and [approximate_size], on the file system of [Cfg.v]. Removing
    the files of a database ([rocksdb::DB::destroy]) and walking a directory
    ([walkdir]) are third-party code and parameters. *)

From S2P Require Import Prelude Text Util Db Cfg Setup.

Section Disk.
Context {T : Type} `{TransactionDB T}.
(** [rocksdb::DB::destroy] at a path, and the entries of [WalkDir::new(path)]:
    [None] is an entry that cannot be read. *)
Context (rdb_destroy : Path -> ST Fs string unit) (walk : Fs -> Path -> list (option Path)).

Record Disk := mkDisk { disk_handle : RocksDB T; disk_fs : Fs }.

Definition location (d : RocksDB T) : string := Db.path d.

Definition destroy : ST Disk RocksdbError unit := fun disk =>
  let d := RocksDB_close (disk_handle disk) in
  let path := Cfg.path (location d) in
  let (result, fs) := rdb_destroy path (disk_fs disk) in
  let (_, fs) := remove_dir_all path fs in
  (map_err InternalError result, mkDisk d fs).

(** [fs::metadata]: whether an entry is a file, and its length. *)
Definition metadata (fs : Fs) (p : Path) : option (bool * Z) :=
  match files fs !! p with
  | Some content => Some (true, Z.of_nat (String.length content))
  | None => if is_dir fs p then Some (false, 0%Z) else None
  end.

Definition file_sizes (fs : Fs) (entries : list (option Path)) : list Z :=
  entry ← entries;
  match (p ← entry; metadata fs p) with Some (true, len) => [len] | _ => [] end.

Definition approximate_size {E} (d : RocksDB T) (fs : Fs) : result E Z :=
  sum_u64 (file_sizes fs (walk fs (Cfg.path (location d)))).

(** Destroying a database touches nothing outside its directory, creates
    nothing and leaves the file system in order; a walk stays below its root. *)
Context (destroy_law : forall p fs, fs_wf fs -> let fs' := (rdb_destroy p fs).2 in
  fs_wf fs' /\ dirs fs' ⊆ dirs fs /\
  (forall q, ~ below p q -> files fs' !! q = files fs !! q /\ (q ∈ dirs fs -> q ∈ dirs fs')) /\
  (forall q, files fs' !! q = None \/ files fs' !! q = files fs !! q)).
Context (walk_law : forall fs p, Forall (fun entry => forall q, entry = Some q -> below p q) (walk fs p)).

Lemma split_char_nonempty sep s : split_char sep s ≠ [].
Proof using Type. destruct s as [|c s]; simpl; [done|]. destruct (Ascii.eqb c sep); [done|]. by destruct (split_char sep s). Qed.

Lemma below_nil p : below p [] -> p = [].
Proof using Type. unfold below. by rewrite take_nil. Qed.

Lemma below_snoc p q c : below p (q ++ [c]) -> below p q \/ p = q ++ [c].
Proof using Type.
  unfold below. intros E. destruct (decide (length p <= length q)) as [Hl|Hl].
  - left. by rewrite take_app_le in E.
  - right. rewrite take_ge in E; [done|]. rewrite length_app. simpl. lia.
Qed.

(** Whatever exists strictly below a path makes it a directory. *)
Lemma below_in_dir fs p q : fs_wf fs -> below p q -> path_exists fs q = true -> q = p \/ is_dir fs p = true.
Proof using Type.
  intros [Hwf _]. induction q as [|c q IH] using rev_ind; intros Hb He.
  - left. symmetry. by apply below_nil.
  - apply below_snoc in Hb as [Hb|<-]; [|by left]. right. apply Hwf in He.
    unfold parent in He. rewrite removelast_last in He.
    destruct IH as [->|?]; [done| |done|done]. unfold path_exists. by rewrite He.
Qed.

(** Destroying a store closes it and leaves nothing of its directory, whatever
    [rocksdb] managed to remove, and everything else as it was; its size is 0
    then. *)
Theorem destroy_removes (disk : Disk) :
  let p := Cfg.path (location (disk_handle disk)) in
  fs_wf (disk_fs disk) -> files (disk_fs disk) !! p = None ->
  let disk' := (destroy disk).2 in
  db (disk_handle disk') = None /\
  (forall q, below p q -> path_exists (disk_fs disk') q = false) /\
  (forall q, ~ below p q -> path_exists (disk_fs disk') q = path_exists (disk_fs disk) q /\
                         fs_read (disk_fs disk') q = fs_read (disk_fs disk) q) /\
  approximate_size (E := string) (disk_handle disk') (disk_fs disk') = Ok 0%Z.
Proof using destroy_law walk_law.
  intros p Hwf Hfile disk'. destruct (destroy_law p (disk_fs disk) Hwf) as (Hwf1 & Hdirs & Hout & Hfiles).
  assert (Hp : p ≠ []) by apply split_char_nonempty.
  assert (exists fs', disk' = mkDisk (RocksDB_close (disk_handle disk)) fs' /\
    (forall q, below p q -> path_exists fs' q = false) /\
    (forall q, ~ below p q -> files fs' !! q = files (disk_fs disk) !! q /\ (q ∈ dirs fs' <-> q ∈ dirs (disk_fs disk))))
    as (fs' & -> & Hgone & Hsame).
  { unfold disk', destroy. change (location (RocksDB_close (disk_handle disk))) with (location (disk_handle disk)). fold p.
    destruct (rdb_destroy p (disk_fs disk)) as [r fs1]. simpl in *. destruct (is_dir fs1 p) eqn:Hd.
    - destruct (remove_dir_all_wf fs1 p Hwf1 Hd) as (fs' & -> & _ & HD & HF). exists fs'. split_and!; [done| |].
      + intros q Hq. apply not_true_iff_false. rewrite path_exists_spec, HD, HF, decide_True by done.
        intros [->|[[_ ?]|[? ?]]]; [by apply Hp, below_nil|done..].
      + intros q Hq. rewrite HD, HF, decide_False by done. destruct (Hout q Hq) as [-> ?]. set_solver.
    - unfold remove_dir_all. rewrite Hd. exists fs1. split_and!; [done| |].
      + intros q Hq. apply not_true_iff_false. intros He. destruct (below_in_dir fs1 p q Hwf1 Hq He) as [->|?]; [|congruence].
        rewrite path_exists_spec in He. unfold is_dir in Hd. apply bool_decide_eq_false in Hd.
        destruct He as [?|[?|[? Hf]]]; [tauto..|]. destruct (Hfiles p) as [E|E]; rewrite Hf in E; congruence.
      + intros q Hq. destruct (Hout q Hq) as [-> ?]. set_solver. }
  split_and!; [done|done| |].
  - intros q Hq. destruct (Hsame q Hq) as [HF HD]. split; [|exact HF]. simpl.
    apply eq_true_iff_eq. rewrite !path_exists_spec, HF, HD. done.
  - assert (Hsum : forall l, Forall (fun entry => forall q, entry = Some q -> below p q) l -> file_sizes fs' l = []).
    { induction 1 as [|entry l He _ IH]; [done|]. unfold file_sizes in *. rewrite bind_cons, IH, app_nil_r.
      destruct entry as [q|]; [|done]. simpl. specialize (Hgone q (He q eq_refl)).
      unfold metadata. apply not_true_iff_false in Hgone. rewrite path_exists_spec in Hgone.
      destruct (files fs' !! q) as [content|]; [destruct Hgone; right; right; by eexists|]. simpl. by destruct (is_dir fs' q). }
    change (sum_u64 (E := string) (file_sizes fs' (walk fs' p)) = Ok 0%Z). by rewrite (Hsum _ (walk_law fs' p)).
Qed.
End Disk.
