(* ===== verification/Server.v ===== *)
(** * The server and its clients

    [src/network/server.rs], the service of a node for messages and blocks,
    and [src/utils/cli.rs], a client that composes messages and one that
    follows the blocks of a node. The transport of requests and responses is
    third-party: a client is given the server as a function. *)

From S2P Require Import Prelude Text Util Db Proto TrieNode MerkleTrie Block Engine Timers Types Proposer Validator Consensus Node.

(** ** The service *)

(** [Status::from_error] *)
Inductive Status := Status_from_error (e : BlockStorageError).

Section Server.
Context {T : Type} `{TransactionDB T} `{!Codec Block}.

(** [get_blocks] of the service, on the block store of the node. *)
Definition service_get_blocks (block_store : RocksDB T) (request : BlocksRequest) : result Status BlocksResponse :=
  let shard_index := br_shard_id request in
  match get_blocks block_store (br_start_block_number request) (br_stop_block_number request) shard_index with
  | Err err => Err (Status_from_error err)
  | Ok blocks => Ok (mkBlocksResponse blocks)
  | Panic => Panic
  | OutOfFuel => OutOfFuel
  end.

End Server.

(** ** The clients *)

(** [FETCH_SIZE] of [follow_blocks]. *)
Definition FETCH_SIZE : Z := 100.

(** The client of [follow_blocks]: the next block number and the blocks it has
    sent on. *)
Record Follower := mkFollower { next_block : Z; followed : list Block }.

Definition Follower_new : Follower := mkFollower 1 [].

(** [for block in &inner.blocks] *)
Fixpoint follow_all (blocks : list Block) : ST Follower string unit :=
  match blocks with
  | [] => st_ret tt
  | block :: blocks =>
      (let! s := st_get in
       st_put (mkFollower (next_block s) (followed s ++ [block])) ;;;
       let! i := st_lift (add_u 64 (next_block s) 1) in
       st_modify (fun s => mkFollower i (followed s)) ;;;
       follow_all blocks)%st
  end.

(** One turn of the loop; a turn without blocks waits. *)
Definition follow_turn (server : BlocksRequest -> result string BlocksResponse) : ST Follower string unit :=
  (let! s := st_get in
   let! stop := st_lift (add_u 64 (next_block s) FETCH_SIZE) in
   let msg := mkBlocksRequest 0 (next_block s) (Some stop) in
   let! inner := st_lift (server msg) in
   match response_blocks inner with
   | [] => st_ret tt
   | blocks => follow_all blocks
   end)%st.

(** The loop, along the servers of its turns: the node's store may change from
    one to the next. *)
Fixpoint follow_blocks (servers : list (BlocksRequest -> result string BlocksResponse)) : ST Follower string unit :=
  match servers with
  | [] => st_ret tt
  | server :: servers => (follow_turn server ;;; follow_blocks servers)%st
  end.

(** [compose_message], up to the request: the time in seconds since the Unix
    epoch, the key that signs and its public key. *)
Definition compose_message `{!Codec MessageData} (blake3 : bytes -> bytes) (sign : bytes -> bytes) (verifying_key : bytes)
    (now fid : Z) (text : string) : result string Message :=
  seconds ← sub_u now FARCASTER_EPOCH;
  let timestamp := wrap 32 seconds in
  let cast_add := mkCastAddBody [] [] None text [] [] 0 in
  let msg_data := mkMessageData (message_type_i32 MT_CastAdd) fid timestamp 1 (Some (CastAddBody_ cast_add)) in
  let msg_data_bytes := encode_to_vec msg_data in
  hash ← slice_to (blake3 msg_data_bytes) 20;
  Ok (mkMessage None hash 1 (sign hash) 1 verifying_key (Some msg_data_bytes)).

(** ** Following *)
Section Follow.
Context {T : Type} `{TransactionDBLaws T} `{!Codec Block, !CodecLaw Block}.
Implicit Types (f : gmap Z Block) (d : RocksDB T) (n i : Z).

(** The store has the blocks from 1 to [n] and no others. *)
Definition contiguous f n : Prop := forall k, is_Some (f !! k) <-> (1 <= k <= n)%Z.

Lemma contiguous_empty : contiguous ∅ 0.
Proof using Type. intros k. split; [intros [b ?]; done|lia]. Qed.

Lemma contiguous_next f n b : (0 <= n)%Z -> contiguous f n -> contiguous (<[(n + 1)%Z := b]> f) (n + 1).
Proof using Type.
  intros Hn Hc k. destruct (decide (k = n + 1)%Z) as [->|Hne].
  - rewrite lookup_insert_eq. split; [lia|by eexists].
  - rewrite lookup_insert_ne by done. rewrite (Hc k). lia.
Qed.

(** The blocks of [len] heights from [i] on. *)
Definition blocks_from f i (len : Z) : list Block := omap (fun k => f !! k) (seqZ i len).

Lemma seqZ_sorted i len : StronglySorted Z.le (seqZ i len).
Proof using Type.
  assert (Hg : forall k j, StronglySorted Z.le (seqZ j (Z.of_nat k))).
  { induction k as [|k IH]; intros j; [constructor|]. rewrite seqZ_cons by lia. replace (Z.pred (Z.of_nat (S k))) with (Z.of_nat k) by lia.
    constructor; [apply IH|]. apply Forall_forall. intros x Hx%elem_of_seqZ. lia. }
  destruct (Z.leb_spec 0 len) as [Hl|Hl]; [rewrite <- (Z2Nat.id len) by done; apply Hg|].
  rewrite seqZ_nil by lia. constructor.
Qed.

Lemma entries_snd f lo hi : (entries f lo hi).*2 = omap (fun k => f !! k) (entries f lo hi).*1.
Proof using Type.
  assert (Hf : forall nb, nb ∈ entries f lo hi -> f !! nb.1 = Some nb.2).
  { intros [k b] Hk. by apply elem_of_entries in Hk as [Hk _]. }
  revert Hf. induction (entries f lo hi) as [|[k b] l IH]; intros Hf; [done|]. csimpl.
  pose proof (Hf (k, b) ltac:(left)) as E. simpl in E. rewrite E. f_equal. apply IH. intros nb Hnb. apply Hf. by right.
Qed.

Lemma entries_fst f n lo hi :
  contiguous f n -> (1 <= lo)%Z ->
  (entries f lo (Some hi)).*1 = seqZ lo (Z.min hi (n + 1) - lo).
Proof using Type.
  intros Hc Hlo. apply (StronglySorted_unique Z.le).
  - pose proof (entries_sorted f lo (Some hi)) as Hs.
    induction Hs as [|x l Hs IH Hx]; csimpl; constructor; [done|]. apply Forall_fmap. done.
  - apply seqZ_sorted.
  - apply NoDup_Permutation.
    + unfold entries. rewrite (merge_sort_Permutation height_le).
      eapply sublist_NoDup; [apply (NoDup_fst_map_to_list f)|apply fmap_sublist, sublist_filter].
    + apply NoDup_seqZ.
    + intros k. rewrite elem_of_seqZ, list_elem_of_fmap. split.
      * intros ([k' b] & -> & [Hk [H1 H2]]%elem_of_entries). simpl in *.
        assert (1 <= k' <= n)%Z by (apply Hc; eauto). lia.
      * intros Hk. destruct (proj2 (Hc k)) as [b Hb]; [lia|]. exists (k, b). split; [done|].
        apply elem_of_entries. split; [done|]. split; simpl; lia.
Qed.

(** The blocks of a range that the store covers. *)
Lemma omap_ext {A B} (g h : A -> option B) (l : list A) : (forall x, x ∈ l -> g x = h x) -> omap g l = omap h l.
Proof using Type.
  induction l as [|x l IH]; intros Hl; [done|]. csimpl. rewrite (Hl x) by left.
  rewrite IH; [done|]. intros y Hy. apply Hl. by right.
Qed.

Lemma omap_length {A B} (g : A -> option B) (l : list A) : (forall x, x ∈ l -> is_Some (g x)) -> length (omap g l) = length l.
Proof using Type.
  induction l as [|x l IH]; intros Hl; [done|]. csimpl. destruct (Hl x) as [b ->]; [left|]. simpl. f_equal.
  apply IH. intros y Hy. apply Hl. by right.
Qed.

Lemma blocks_from_app f i a b : (0 <= a)%Z -> (0 <= b)%Z -> blocks_from f i (a + b) = blocks_from f i a ++ blocks_from f (i + a) b.
Proof using Type. intros Ha Hb. unfold blocks_from. by rewrite seqZ_app, omap_app. Qed.

Lemma blocks_from_length f n i len :
  contiguous f n -> (1 <= i)%Z -> (0 <= len)%Z -> (i + len <= n + 1)%Z -> Z.of_nat (length (blocks_from f i len)) = len.
Proof using Type.
  intros Hc Hi Hl Hn. unfold blocks_from. rewrite omap_length; [rewrite length_seqZ; lia|].
  intros k Hk%elem_of_seqZ. apply Hc. lia.
Qed.

Lemma blocks_from_mono f f' n i len :
  contiguous f n -> f ⊆ f' -> (1 <= i)%Z -> (i + len <= n + 1)%Z -> blocks_from f i len = blocks_from f' i len.
Proof using Type.
  intros Hc Hf Hi Hn. unfold blocks_from. apply omap_ext. intros k Hk%elem_of_seqZ.
  destruct (proj2 (Hc k)) as [b Hb]; [lia|]. rewrite Hb. symmetry. by eapply lookup_weaken.
Qed.

Lemma follow_all_spec (bs : list Block) i sent :
  (0 <= i)%Z -> (i + Z.of_nat (length bs) < 2 ^ 64)%Z ->
  follow_all bs (mkFollower i sent) = (Ok tt, mkFollower (i + Z.of_nat (length bs)) (sent ++ bs)).
Proof using Type.
  revert i sent. induction bs as [|b bs IH]; intros i sent Hi Hn; [simpl; by rewrite Z.add_0_r, app_nil_r|].
  cbn [length] in Hn. rewrite Nat2Z.inj_succ in Hn.
  cbn [follow_all]. unfold st_bind at 1 2 3 4, st_get, st_put, st_lift, st_modify. cbn [next_block followed].
  unfold add_u. rewrite (proj2 (Z.ltb_lt _ _)) by lia. cbn [followed]. rewrite IH by lia. rewrite <- app_assoc.
  cbn [length]. by replace (i + 1 + Z.of_nat (length bs))%Z with (i + Z.of_nat (S (length bs)))%Z by lia.
Qed.

(** A node of which the client is given a turn: its store, with the blocks up
    to a height. *)
Record Snapshot := mkSnapshot { sn_db : RocksDB T; sn_blocks : gmap Z Block; sn_height : Z }.

Definition snapshot_ok (sn : Snapshot) : Prop :=
  (exists m, holds (sn_db sn) m /\ block_rows 0 m (sn_blocks sn)) /\ contiguous (sn_blocks sn) (sn_height sn) /\
  (0 <= sn_height sn)%Z /\ (sn_height sn + 1 + FETCH_SIZE < 2 ^ 64)%Z.

(** The service over a transport that delivers. *)
Definition serve (sn : Snapshot) (request : BlocksRequest) : result string BlocksResponse :=
  map_err (fun _ => "status"%string) (service_get_blocks (sn_db sn) request).

Lemma serve_spec sn i :
  snapshot_ok sn -> (1 <= i <= sn_height sn + 1)%Z ->
  serve sn (mkBlocksRequest 0 i (Some (i + FETCH_SIZE)%Z)) =
    Ok (mkBlocksResponse (blocks_from (sn_blocks sn) i (Z.min FETCH_SIZE (sn_height sn + 1 - i)))).
Proof.
  intros ((m & Hd & Hm) & Hc & Hpos & Hn) Hi. unfold serve, service_get_blocks, FETCH_SIZE in *. cbn [br_shard_id br_start_block_number br_stop_block_number].
  rewrite (get_blocks_spec (sn_db sn) 0 m (sn_blocks sn)); [|done|done|unfold is_u64; lia|intros h [= <-]; unfold is_u64; lia].
  rewrite entries_snd, (entries_fst _ (sn_height sn)) by (done || lia).
  replace (Z.min (i + 100) (sn_height sn + 1) - i)%Z with (Z.min 100 (sn_height sn + 1 - i)) by lia.
  change (omap _ (seqZ i ?len)) with (blocks_from (sn_blocks sn) i len). rewrite take_ge; [done|].
  apply Nat2Z.inj_le. rewrite (blocks_from_length _ (sn_height sn)) by (done || lia). unfold PAGE_SIZE. lia.
Qed.

Lemma follow_turn_spec sn i sent :
  snapshot_ok sn -> (1 <= i <= sn_height sn + 1)%Z ->
  let k := Z.min FETCH_SIZE (sn_height sn + 1 - i) in
  follow_turn (serve sn) (mkFollower i sent) = (Ok tt, mkFollower (i + k) (sent ++ blocks_from (sn_blocks sn) i k)).
Proof.
  intros Hok Hi k. pose proof Hok as (_ & Hc & Hpos & Hn). unfold follow_turn, st_bind at 1, st_get. cbn [next_block].
  unfold add_u at 1. rewrite (proj2 (Z.ltb_lt _ _)) by (unfold FETCH_SIZE in *; lia).
  unfold st_bind at 1, st_lift at 1. unfold st_bind at 1, st_lift. rewrite serve_spec by done. fold k. cbn [response_blocks].
  assert (Hlen : Z.of_nat (length (blocks_from (sn_blocks sn) i k)) = k).
  { apply (blocks_from_length _ (sn_height sn)); unfold k, FETCH_SIZE in *; first [done|lia]. }
  assert (Hk : (k <= FETCH_SIZE)%Z) by (unfold k; lia). clearbody k.
  destruct (blocks_from (sn_blocks sn) i k) as [|b bs].
  - cbn [length] in Hlen. replace (i + k)%Z with i by lia. by rewrite app_nil_r.
  - rewrite follow_all_spec by (unfold FETCH_SIZE in *; lia). by rewrite Hlen.
Qed.

Lemma follow_blocks_from sns sn0 i :
  snapshot_ok sn0 -> Forall snapshot_ok sns ->
  StronglySorted (fun a b => sn_blocks a ⊆ sn_blocks b /\ (sn_height a <= sn_height b)%Z) (sn0 :: sns) ->
  (1 <= i <= sn_height sn0 + 1)%Z ->
  exists i', let sn := default sn0 (last sns) in
    follow_blocks (map serve sns) (mkFollower i (blocks_from (sn_blocks sn0) 1 (i - 1))) =
      (Ok tt, mkFollower i' (blocks_from (sn_blocks sn) 1 (i' - 1))) /\ (i <= i' <= sn_height sn + 1)%Z /\
    forall n, Forall (fun sn => n <= sn_height sn)%Z sns -> (Z.min n (i - 1 + FETCH_SIZE * Z.of_nat (length sns)) <= i' - 1)%Z.
Proof.
  revert sn0 i. induction sns as [|sn sns IH]; intros sn0 i Hok0 Hall Hs Hi.
  { exists i. simpl. split_and!; [done|lia|lia|]. intros n _. lia. }
  apply Forall_cons in Hall as [Hsn Hall]. apply StronglySorted_inv in Hs as [Hs H0s].
  apply Forall_cons in H0s as [[Hsub Hle] _].
  pose proof Hok0 as (_ & Hc0 & Hp0 & _). pose proof Hsn as (_ & Hc & Hp & Hn).
  cbn [map follow_blocks]. erewrite st_bind_Ok by (apply follow_turn_spec; [done|lia]).
  set (k := Z.min FETCH_SIZE (sn_height sn + 1 - i)). assert (Hk : (0 <= k)%Z) by (unfold k, FETCH_SIZE; lia).
  rewrite (blocks_from_mono _ (sn_blocks sn) (sn_height sn0)) by (done || lia).
  replace (blocks_from (sn_blocks sn) 1 (i - 1) ++ blocks_from (sn_blocks sn) i k) with (blocks_from (sn_blocks sn) 1 (i + k - 1)).
  2:{ replace (i + k - 1)%Z with (i - 1 + k)%Z by lia. rewrite blocks_from_app by lia. by replace (1 + (i - 1))%Z with i by lia. }
  destruct (IH sn (i + k)%Z Hsn Hall Hs) as (i' & E & Hi' & Hlive); [unfold k, FETCH_SIZE; lia|].
  exists i'. replace (default sn0 (last (sn :: sns))) with (default sn (last sns)) by (rewrite last_cons; by destruct (last sns)).
  split; [exact E|]. split; [lia|]. intros n [Hnn Hall']%Forall_cons. specialize (Hlive n Hall'). cbn [length].
  rewrite Nat2Z.inj_succ. unfold k, FETCH_SIZE in *. lia.
Qed.

End Follow.

Section ServerProperties.
Context {T : Type} `{TransactionDBLaws T} `{!Codec Block, !CodecLaw Block}.

(** C27. A follower receives every block, in order and once: while the store
    of the node grows without gaps from block 1, what the client has sent on
    after any number of turns is the blocks from 1 up to the one before the
    number it asks for next, which is at most one above the height of the
    node; and if the node had [n] blocks during all turns, the client has them
    all after one turn for every hundred. *)
Theorem follower_receives_blocks (sn : Snapshot) (sns : list Snapshot)
    (Hok : Forall snapshot_ok (sn :: sns))
    (Hs : StronglySorted (fun a b => sn_blocks a ⊆ sn_blocks b /\ (sn_height a <= sn_height b)%Z) (sn :: sns)) :
  exists i, let final := default sn (last sns) in
    follow_blocks (map serve (sn :: sns)) Follower_new = (Ok tt, mkFollower i (blocks_from (sn_blocks final) 1 (i - 1))) /\
    (1 <= i <= sn_height final + 1)%Z /\
    forall n, Forall (fun sn => n <= sn_height sn)%Z (sn :: sns) ->
      (Z.min n (FETCH_SIZE * Z.of_nat (length (sn :: sns))) <= i - 1)%Z.
Proof.
  pose proof Hok as [Hsn _]%Forall_cons. pose proof Hsn as (_ & _ & Hp & _).
  destruct (follow_blocks_from (sn :: sns) sn 1 Hsn Hok) as (i & E & Hi & Hlive); [|lia|].
  - constructor; [done|]. apply StronglySorted_inv in Hs as [_ Hs]. constructor; [split; [done|lia]|done].
  - exists i. replace (default sn (last (sn :: sns))) with (default sn (last sns)) in * by (rewrite last_cons; by destruct (last sns)).
    split_and!; [exact E|lia|lia|]. intros n Hn. specialize (Hlive n Hn). lia.
Qed.

End ServerProperties.

(** ** Witnesses *)
Module ServerSample.
Export BlockSample.

Definition rows1 : gmap bytes bytes := <[make_block_key 0 1 := encode_to_vec (sample_block 1)]> ∅.
Definition blocks1 : gmap Z Block := <[1%Z := sample_block 1]> ∅.
Definition rows2 : gmap bytes bytes := <[make_block_key 0 2 := encode_to_vec (sample_block 2)]> rows1.
Definition blocks2 : gmap Z Block := <[2%Z := sample_block 2]> blocks1.

Lemma rows1_ok : block_rows 0 rows1 blocks1.
Proof. apply block_rows_insert; [exact empty_rows|reflexivity|decide_now]. Qed.
Lemma rows2_ok : block_rows 0 rows2 blocks2.
Proof. apply block_rows_insert; [exact rows1_ok|reflexivity|decide_now]. Qed.

Definition snapshot1 : Snapshot := mkSnapshot (mkRocksDB (Some rows1) "x") blocks1 1.
Definition snapshot2 : Snapshot := mkSnapshot (mkRocksDB (Some rows2) "x") blocks2 2.

Lemma snapshots_ok : Forall snapshot_ok [snapshot1; snapshot2].
Proof.
  assert (H1 : contiguous blocks1 1) by (apply (contiguous_next ∅ 0); [done|apply contiguous_empty]).
  assert (H2 : contiguous blocks2 2) by (by apply (contiguous_next blocks1 1)).
  constructor; [|constructor; [|constructor]]; split_and!; try done.
  - exists rows1. split; [apply holds_gmap|exact rows1_ok].
  - exists rows2. split; [apply holds_gmap|exact rows2_ok].
Qed.
End ServerSample.
Import ServerSample.

Lemma follower_receives_blocks_witness :
  follow_blocks (map serve [snapshot1; snapshot2]) Follower_new = (Ok tt, mkFollower 3 [sample_block 1; sample_block 2]) \/
  follow_blocks (map serve [snapshot1; snapshot2]) Follower_new = (Ok tt, mkFollower 2 [sample_block 1]).
Proof.
  destruct (follower_receives_blocks snapshot1 [snapshot2] snapshots_ok) as (i & E & Hi & Hl).
  - constructor; [constructor; constructor|]. constructor; [|constructor]. split; [|done]. simpl.
    apply insert_subseteq. reflexivity.
  - specialize (Hl 1%Z). simpl in Hi, Hl. assert (i = 3 \/ i = 2)%Z as [-> | ->].
    + assert (1 <= i - 1)%Z by (apply Hl; repeat constructor; done). lia.
    + left. exact E.
    + right. exact E.
Defined.
