(* ===== verification/App.v ===== *)
(** * The application

    [src/main.rs]: the loop of a node, between its tasks. The gossip task, the
    actors, the writer of blocks, the server and the main loop run
    concurrently; an execution is a list of the turns they take. The channels
    between them are queues in the state; the block store, which the tasks
    share, is the one the block engine has. *)

From S2P Require Import Prelude Text Util Db Proto TrieNode TrieSpec MerkleTrie Block Engine Timers Types Proposer Validator Consensus Gossip Node Server.

Section App.
Context {T Round Extension : Type} `{TransactionDB T} `{RoundOps Round} `{!Countable Round} `{SigningOps}
  `{!Codec DbTrieNode, !Codec ShardChunk, !Codec Block, !Codec ShardHeader, !Codec BlockHeader,
    !Codec ProtoVote, !Codec ProtoProposal} `{SwarmOps Swarm} `{PublicKeyOps} `{!Codec GossipMessage}.

Variable CState : Type.
Variable driver_height : CState -> Height.
Variable process : CState -> Input (Round := Round) (Extension := Extension) -> Process (Round := Round) (Extension := Extension) CState.
Variable new_consensus : Keypair -> ConsensusParams -> CState.
Variable timeout_default : TimeoutConfig.
Variable blake3 : bytes -> bytes.
Variable depth : nat.

(** What [main] keeps of its configuration: the keys, the configuration of
    consensus and the address of the server. *)
Variable keypair : Keypair.
Variable consensus_config : ConsensusConfig.
Variable rpc_addr : string.

Local Abbreviation Actor := (Actor (T := T) (Round := Round) (Extension := Extension) CState).
Local Abbreviation Node := (SnapchainNode (T := T) (Round := Round) (Extension := Extension) CState).
Local Abbreviation Msg := (ConsensusMsg (Round := Round) (Extension := Extension)).

(** The state of the process. The gossip task ends when it panics, which
    closes the channels it receives from. *)
Record App := mkApp {
  app_node : Node;
  app_gossip : SnapchainGossip Round Extension Swarm;
  gossip_alive : bool;
  tick_count : Z;
}.

Definition set_node (n : Node) (s : App) : App := mkApp n (app_gossip s) (gossip_alive s) (tick_count s).
Definition set_app_gossip (g : SnapchainGossip Round Extension Swarm) (s : App) : App :=
  mkApp (app_node s) g (gossip_alive s) (tick_count s).
Definition set_tick_count (n : Z) (s : App) : App := mkApp (app_node s) (app_gossip s) (gossip_alive s) n.

Definition on_actor (shard : Z) (f : Actor -> Actor) (s : App) : App :=
  set_node (set_actors CState (alter f shard (consensus_actors CState (app_node s))) (app_node s)) s.

Definition set_actor_state (f : State (T := T) (Round := Round) (Extension := Extension) CState -> State CState) (a : Actor) : Actor :=
  mkActor CState (f (actor_state CState a)) (mailbox CState a) (alive CState a).

(** ** Channels *)

(** [gossip_tx.send(..)] *)
Definition gossip_send (e : GossipEvent (Round := Round) (Extension := Extension)) : ST App string unit := fun s =>
  if gossip_alive s then (Ok tt, set_app_gossip (set_gossip_rx (gossip_rx (app_gossip s) ++ [e]) (app_gossip s)) s)
  else (Err "channel closed"%string, s).

(** What an actor sent to gossip moves to the queue of the gossip task. *)
Definition collect_gossip (shard : Z) (s : App) : App :=
  match consensus_actors CState (app_node s) !! shard with
  | Some a =>
      match gossip_tx CState (actor_state CState a) with
      | Some sent =>
          on_actor shard (set_actor_state (set_gossip CState (Some [])))
            (set_app_gossip (set_gossip_rx (gossip_rx (app_gossip s) ++ sent) (app_gossip s)) s)
      | None => s
      end
  | None => s
  end.

(** The decisions of a shard go to the block proposer. *)
Definition take_decisions (v : ShardValidator T Round) : list FullProposal * ShardValidator T Round :=
  match shard_proposer v with
  | Some p =>
      match tx_decision p with
      | Some sent =>
          (sent, set_shard_proposer (mkShardProposer (sp_shard_id p) (sp_address p) (chunks p) (proposed_chunks p) (Some []) (sp_engine p)) v)
      | None => ([], v)
      end
  | None => ([], v)
  end.
Definition receive_decisions (sent : list FullProposal) (v : ShardValidator T Round) : ShardValidator T Round :=
  match block_proposer v with
  | Some p => set_block_proposer (set_pending (pending_chunks p) (shard_decision_rx p ++ sent) p) v
  | None => v
  end.
Definition route_decisions (shard : Z) (s : App) : App :=
  match consensus_actors CState (app_node s) !! shard with
  | Some a =>
      let (sent, v) := take_decisions (shard_validator CState (actor_state CState a)) in
      on_actor 0 (set_actor_state (fun st => set_validator CState (receive_decisions sent (shard_validator CState st)) st))
        (on_actor shard (set_actor_state (set_validator CState v)) s)
  | None => s
  end.

(** The end of the gossip task. *)
Definition gossip_panic (s : App) : App :=
  mkApp (set_actors CState (set_actor_state (set_gossip CState None) <$> consensus_actors CState (app_node s)) (app_node s))
    (app_gossip s) false (tick_count s).

(** ** The block store *)
Definition app_proposer (s : App) : option (BlockProposer T) :=
  consensus_actors CState (app_node s) !! 0%Z ≫= fun a => block_proposer (shard_validator CState (actor_state CState a)).

Definition app_store (s : App) : result string (RocksDB T) :=
  p ← unwrap (app_proposer s); Ok (block_store (bp_engine p)).

(** The task that writes the blocks of [block_tx]: an error is logged. *)
Definition write_block : ST App string unit := fun s =>
  match app_proposer s with
  | Some p =>
      match block_tx p with
      | block :: rest =>
          let store := match put_block (block_store (bp_engine p)) block with Ok d => d | _ => block_store (bp_engine p) end in
          let p' := mkBlockProposer (bp_shard_id p) (bp_address p) (blocks p) (proposed_blocks p) (pending_chunks p)
                      (shard_decision_rx p) (num_shards p) rest (mkBlockEngine store) in
          (Ok tt, on_actor 0 (set_actor_state (fun st => set_validator CState (set_block_proposer p' (shard_validator CState st)) st)) s)
      | [] => (Ok tt, s)
      end
  | None => (Ok tt, s)
  end.

(** ** The main loop *)

(** The registration of the node for a shard. *)
Definition registration (shard nonce height : Z) : ProtoRegisterValidator :=
  mkProtoRegisterValidator (Some (mkProtoValidator 0 (keypair_public keypair) rpc_addr shard height)) nonce.

Definition register_shard (nonce shard : Z) : ST App string unit :=
  (let! s := st_get in
   let! store := st_lift (app_store s) in
   let! current_height := st_lift (stored_height store shard) in
   gossip_send (GossipRegisterValidator (registration shard nonce current_height)))%st.

Fixpoint register_shards (nonce : Z) (shards : list Z) : ST App string unit :=
  match shards with
  | [] => st_ret tt
  | shard :: shards => (register_shard nonce shard ;;; register_shards nonce shards)%st
  end.

(** A tick of the interval, every fifth of which registers the node for the
    block shard and all shards. [tick_count] is an [i32]. *)
Definition tick : ST App string unit :=
  (let! s := st_get in
   let! count := st_lift (add_u 31 (tick_count s) 1) in
   st_modify (set_tick_count count) ;;;
   if (count mod 5 =? 0)%Z then
     let nonce := count in
     let! num_shards := st_lift (config_num_shards consensus_config) in
     register_shards nonce (seqZ 0 (num_shards + 1))
   else st_ret tt)%st.

(** A message of [system_rx]. *)
Definition receive_system : ST App string unit := fun s =>
  match system_tx (app_gossip s) with
  | Some (SM_Consensus msg :: rest) =>
      let s := set_app_gossip (set_system_tx (Some rest) (app_gossip s)) s in
      match dispatch CState msg (app_node s) with
      | Ok n => (Ok tt, set_node n s)
      | Err e => (Err e, s)
      | Panic => (Panic, s)
      | OutOfFuel => (OutOfFuel, s)
      end
  | _ => (Ok tt, s)
  end.

(** ** The server *)

(** [submit_message]: the message goes to the engine of shard 1, whose sender
    [main] gave the service. *)
Definition submit_message (msg : Message) : ST App string Message := fun s =>
  match node_submit CState 1 msg (app_node s) with
  | Ok n => (Ok msg, set_node n s)
  | _ => (Panic, s)
  end.

(** ** Turns *)
Inductive AppEvent :=
| Ev_Tick
| Ev_System
| Ev_Gossip (turn : GossipTurn)
| Ev_Actor (shard : Z) (env : Env)
| Ev_WriteBlock
| Ev_Submit (msg : Message)
| Ev_Shutdown.

(** A panic of the gossip task, of an actor or of a request does not end the
    process; an error or a panic of the main loop does. *)
Definition app_step (ev : AppEvent) : ST App string unit := fun s =>
  match ev with
  | Ev_Tick => tick s
  | Ev_System => receive_system s
  | Ev_Gossip turn =>
      if gossip_alive s then
        match gossip_turn turn (app_gossip s) with
        | (Ok _, g) => (Ok tt, set_app_gossip g s)
        | (_, g) => (Ok tt, gossip_panic (set_app_gossip g s))
        end
      else (Ok tt, s)
  | Ev_Actor shard env =>
      let n := node_step CState driver_height process timeout_default blake3 depth env shard (app_node s) in
      (Ok tt, route_decisions shard (collect_gossip shard (set_node n s)))
  | Ev_WriteBlock => write_block s
  | Ev_Submit msg => (Ok tt, (submit_message msg s).2)
  | Ev_Shutdown => (Ok tt, set_node (node_stop CState (app_node s)) s)
  end.

Fixpoint app_run (evs : list AppEvent) : ST App string unit :=
  match evs with
  | [] => st_ret tt
  | ev :: evs => (app_step ev ;;; app_run evs)%st
  end.

(** The start: the node on an open block store, with the sender for shard 1
    that the server needs, and the gossip task. *)
Definition app_start (gossip_config : GossipConfig) (block_store : RocksDB T) (rocksdb_dir : string) : result string App :=
  g ← gossip_create (keypair_public keypair) gossip_config (Some []);
  n ← node_create CState new_consensus timeout_default blake3 depth keypair consensus_config (Some rpc_addr) block_store rocksdb_dir;
  _ ← unwrap (messages_tx_by_shard CState n !! 1%Z);
  Ok (mkApp n g true 0).

(** ** Dispatching in order *)

Definition routable (m : Msg) : Prop := exists s, msg_shard_id m = Ok s.

Definition system_msg (m : SystemMessage Round Extension) : Msg := match m with SM_Consensus m => m end.

#[local] Instance msg_shard_dec (shard : Z) (m : Msg) : Decision (msg_shard_id m = Ok shard).
Proof. destruct (msg_shard_id m) as [s| | |]; [destruct (decide (s = shard)); [left|right]|right..]; congruence. Defined.

(** The messages of a queue for a shard, in order. *)
Definition for_shard (shard : Z) (q : list (SystemMessage Round Extension)) : list Msg :=
  filter (fun m => msg_shard_id m = Ok shard) (map system_msg q).

(** An actor that receives messages. *)
Definition receives (a : Actor) (ms : list Msg) : Actor :=
  if alive CState a then mkActor CState (actor_state CState a) (mailbox CState a ++ ms) true else a.

Lemma receives_nil (a : Actor) : receives a [] = a.
Proof using Type. unfold receives. destruct a as [st mb []]; simpl; [by rewrite app_nil_r|done]. Qed.

Lemma receives_app (a : Actor) ms ms' : receives (receives a ms) ms' = receives a (ms ++ ms').
Proof using Type. unfold receives. destruct a as [st mb []]; simpl; [by rewrite app_assoc|done]. Qed.

Lemma dispatch_spec (m : Msg) (n : Node) s :
  msg_shard_id m = Ok s ->
  exists n', dispatch CState m n = Ok n' /\ messages_tx_by_shard CState n' = messages_tx_by_shard CState n /\
    forall shard, consensus_actors CState n' !! shard =
      (fun a => receives a (if decide (shard = s) then [m] else [])) <$> consensus_actors CState n !! shard.
Proof using Type.
  intros Hm. unfold dispatch. rewrite Hm. simpl.
  destruct (consensus_actors CState n !! s) as [a|] eqn:Ea.
  - eexists. split_and!; [reflexivity|done|]. intros shard. simpl. destruct (decide (shard = s)) as [->|Hne].
    + rewrite lookup_insert_eq, Ea. simpl. by f_equal.
    + rewrite lookup_insert_ne by congruence. destruct (consensus_actors CState n !! shard) as [b|]; simpl; [by rewrite receives_nil|done].
  - exists n. split_and!; [done..|]. intros shard. destruct (decide (shard = s)) as [->|Hne]; [by rewrite Ea|].
    destruct (consensus_actors CState n !! shard) as [b|]; simpl; [by rewrite receives_nil|done].
Qed.

(** The main loop empties the queue of the system: every actor receives the
    messages of its shard in order. *)
Lemma run_system_spec (q : list (SystemMessage Round Extension)) (s : App) :
  system_tx (app_gossip s) = Some q -> Forall (fun m => routable (system_msg m)) q ->
  exists s', app_run (repeat Ev_System (length q)) s = (Ok tt, s') /\ system_tx (app_gossip s') = Some [] /\
    gossip_rx (app_gossip s') = gossip_rx (app_gossip s) /\ gossip_alive s' = gossip_alive s /\ tick_count s' = tick_count s /\
    messages_tx_by_shard CState (app_node s') = messages_tx_by_shard CState (app_node s) /\
    forall shard, consensus_actors CState (app_node s') !! shard =
      (fun a => receives a (for_shard shard q)) <$> consensus_actors CState (app_node s) !! shard.
Proof using Type.
  revert s. induction q as [|[m] q IH]; intros s Hq Hr.
  { exists s. split_and!; try done. intros shard. destruct (_ !! shard); simpl; [|done]. by rewrite receives_nil. }
  apply Forall_cons in Hr as [[sh Hm] Hr]. simpl in Hm.
  destruct (dispatch_spec m (app_node s) sh Hm) as (n & En & Ht & Ha).
  destruct (IH (set_node n (set_app_gossip (set_system_tx (Some q) (app_gossip s)) s)) eq_refl Hr) as (s' & E & H1' & H2' & H3' & H4' & H5' & H6').
  exists s'. split_and!; try done.
  - cbn [length repeat app_run]. erewrite st_bind_Ok; [exact E|]. unfold app_step, receive_system. rewrite Hq.
    cbn [app_node set_app_gossip]. by rewrite En.
  - rewrite H5'. exact Ht.
  - intros shard. rewrite H6'. cbn [app_node set_node]. rewrite Ha. destruct (_ !! shard) as [a|]; simpl; [|done]. f_equal.
    rewrite receives_app. unfold for_shard. cbn [map system_msg]. rewrite filter_cons.
    destruct (decide (shard = sh)) as [->|Hne]; [by rewrite decide_True|]. rewrite decide_False; [done|congruence].
Qed.

End App.

(** ** Properties *)
Section AppProperties.
Context {T Round Extension : Type} `{TransactionDB T} `{RoundLaws Round} `{!Countable Round} `{SigningOps}
  `{!Codec DbTrieNode, !Codec ShardChunk, !Codec Block, !Codec ShardHeader, !Codec BlockHeader,
    !Codec ProtoVote, !Codec ProtoProposal} `{SwarmOps Swarm} `{PublicKeyOps} `{!Codec GossipMessage, !CodecLaw GossipMessage}.
Variable CState : Type.
Variable driver_height : CState -> Height.
Variable process : CState -> Input (Round := Round) (Extension := Extension) -> Process (Round := Round) (Extension := Extension) CState.
Variable timeout_default : TimeoutConfig.
Variable blake3 : bytes -> bytes.
Variable depth : nat.

Local Abbreviation Actor := (Actor (T := T) (Round := Round) (Extension := Extension) CState).
Local Abbreviation App := (App (T := T) (Round := Round) (Extension := Extension) (Swarm := Swarm) CState).
Local Abbreviation step := (app_step (T := T) (Swarm := Swarm) CState driver_height process timeout_default blake3 depth).
Local Abbreviation run := (app_run (T := T) (Swarm := Swarm) CState driver_height process timeout_default blake3 depth).
Local Abbreviation actors s := (consensus_actors CState (app_node CState s)).

(** The signature of a vote does not cover its extension. *)
Lemma drop_extension_signed (v : Vote Round Extension) : Vote_to_sign_bytes (drop_extension v) = Vote_to_sign_bytes v.
Proof using Type. done. Qed.

(** C3. A broadcast reaches the actor of its shard on every node: when the
    gossip task of one node takes an event of its actors from the channel, it
    publishes data which, received by any other running node, is dispatched in
    turn: every actor of that node receives the messages of its shard that
    were waiting, in order, and the actor of the event's shard receives the
    event last. A vote that was signed arrives with a signature that verifies
    under the key of the signer. *)
Theorem broadcast_reaches_actor (k1 k2 : Keypair) (c1 c2 : ConsensusConfig) (r1 r2 : string) (peer : bytes)
    (e : GossipEvent (Round := Round) (Extension := Extension)) rest m shard (s1 s2 : App) q a
    (He : delivered e m) (Hm : msg_shard_id m = Ok shard)
    (Hrx : gossip_rx (app_gossip CState s1) = e :: rest) (Ha1 : gossip_alive CState s1 = true)
    (Ha2 : gossip_alive CState s2 = true) (Hq : system_tx (app_gossip CState s2) = Some q)
    (Hr : Forall (fun m => routable (system_msg m)) q)
    (Ha : actors s2 !! shard = Some a) (Hal : alive CState a = true) :
  exists data s1' s2',
    step k1 c1 r1 (Ev_Gossip FromChannel) s1 = (Ok tt, s1') /\
    gossip_rx (app_gossip CState s1') = rest /\
    swarm (app_gossip CState s1') = (swarm_publish topic data (swarm (app_gossip CState s1))).2 /\
    run k2 c2 r2 (Ev_Gossip (FromSwarm (MessageReceived peer data)) :: repeat Ev_System (S (length q))) s2 = (Ok tt, s2') /\
    actors s2' !! shard = Some (mkActor CState (actor_state CState a) (mailbox CState a ++ for_shard shard q ++ [m]) true) /\
    (forall other, other ≠ shard -> actors s2' !! other = (fun b => receives CState b (for_shard other q)) <$> actors s2 !! other) /\
    system_tx (app_gossip CState s2') = Some [] /\
    (forall (_ : SigningLaws) (k : Keypair) (v : Vote Round Extension), e = BroadcastSignedVote (sign_vote k v) ->
      exists v' sig, m = ReceivedSignedVote (v', sig) /\ verify_signed_vote v' sig (keypair_public k) = Ok true).
Proof.
  set (data := encode_to_vec (gossip_message e)).
  destruct (run_system_spec CState driver_height process timeout_default blake3 depth k2 c2 r2 (q ++ [SM_Consensus m])
    (set_app_gossip CState (send_system m (app_gossip CState s2)) s2)) as (s2' & E & Hs & _ & _ & _ & _ & Hact).
  { simpl. by rewrite Hq. }
  { apply Forall_app. split; [done|]. repeat constructor. by exists shard. }
  rewrite length_app, Nat.add_1_r in E.
  assert (Hfor : forall sh, for_shard sh (q ++ [SM_Consensus m]) = for_shard sh q ++ (if decide (sh = shard) then [m] else [])).
  { intros sh. unfold for_shard. change (map ?f ?l) with (f <$> l). rewrite fmap_app, filter_app. f_equal. csimpl.
    rewrite filter_cons. destruct (decide (sh = shard)) as [->|Hne]; [by rewrite decide_True|]. rewrite decide_False; [done|congruence]. }
  eexists data, _, s2'. split_and!.
  - unfold app_step. rewrite Ha1. cbn [gossip_turn]. rewrite Hrx. reflexivity.
  - done.
  - done.
  - cbn [app_run]. erewrite st_bind_Ok; [exact E|]. unfold app_step. rewrite Ha2. cbn [gossip_turn handle_swarm_event].
    unfold data. by rewrite (handle_data_delivered e m _ He).
  - rewrite Hact, Hfor. cbn [app_node set_app_gossip]. rewrite Ha, decide_True by done. simpl. unfold receives. by rewrite Hal.
  - intros other Hne. rewrite Hact, Hfor. cbn [app_node set_app_gossip]. rewrite decide_False, app_nil_r by done. done.
  - done.
  - intros HL k v ->. inversion He; subst. do 2 eexists. split; [reflexivity|]. unfold verify_signed_vote.
    rewrite drop_extension_signed. by rewrite verify_sign.
Qed.

(** ** Registration *)

(** The registrations of a tick, with the heights of the store. *)
Definition registrations (k : Keypair) (addr : string) (store : RocksDB T) (nonce : Z) (shards : list Z) :
    list (GossipEvent (Round := Round) (Extension := Extension)) :=
  omap (fun shard => match stored_height store shard with
                     | Ok h => Some (GossipRegisterValidator (registration k addr shard nonce h))
                     | _ => None
                     end) shards.

Lemma register_shards_alive k addr store nonce shards (s : App) :
  gossip_alive CState s = true -> app_store CState s = Ok store -> (forall shard, exists h, stored_height store shard = Ok h) ->
  register_shards CState k addr nonce shards s =
    (Ok tt, set_app_gossip CState (set_gossip_rx (gossip_rx (app_gossip CState s) ++ registrations k addr store nonce shards) (app_gossip CState s)) s).
Proof using Type.
  intros Hal Hst Hh. revert s Hal Hst. induction shards as [|shard shards IH]; intros s Hal Hst; simpl.
  { unfold st_ret. rewrite app_nil_r. by destruct s as [n [sw rx tx] al t]. }
  destruct (Hh shard) as [h Eh]. erewrite st_bind_Ok.
  2:{ unfold register_shard, st_bind at 1, st_get, st_bind, st_lift. rewrite Hst, Eh. unfold gossip_send. by rewrite Hal. }
  rewrite IH; [|done|done]. simpl. rewrite Eh. simpl. unfold set_app_gossip, set_gossip_rx. simpl. by rewrite <- app_assoc.
Qed.

Lemma tick_count_step k c addr (s : App) :
  (0 <= tick_count CState s)%Z -> (tick_count CState s + 1 < 2 ^ 31)%Z -> ((tick_count CState s + 1) mod 5 ≠ 0)%Z ->
  tick CState k c addr s = (Ok tt, set_tick_count CState (tick_count CState s + 1) s).
Proof using Type.
  intros H0' Hc Hm. unfold tick, st_bind at 1, st_get, st_bind at 1, st_lift, add_u. rewrite (proj2 (Z.ltb_lt _ _)) by done.
  unfold st_bind at 1, st_modify. by rewrite (proj2 (Z.eqb_neq _ _)).
Qed.

(** Every fifth tick registers the node once for the block shard and once
    for each of its shards, with the height in its store; the other ticks only
    count. No two registrations for different shards or of different ticks are
    the same data, so the network does not drop one as a duplicate. *)
Theorem ticks_register (k : Keypair) (c : ConsensusConfig) (addr : string) (s : App) (store : RocksDB T) (num : Z)
    (Hal : gossip_alive CState s = true) (Hst : app_store CState s = Ok store)
    (Hh : forall shard, exists h, stored_height store shard = Ok h)
    (Hnum : config_num_shards c = Ok num) (Hc : (0 <= tick_count CState s < 2 ^ 31 - 1)%Z) :
  let count := (tick_count CState s + 1)%Z in
  step k c addr Ev_Tick s = (Ok tt, set_tick_count CState count
    (if (count mod 5 =? 0)%Z
     then set_app_gossip CState (set_gossip_rx (gossip_rx (app_gossip CState s) ++ registrations k addr store count (seqZ 0 (num + 1)))
            (app_gossip CState s)) s
     else s)) /\
  (forall shard nonce h shard' nonce' h',
    encode_to_vec (gossip_message (Round := Round) (Extension := Extension) (GossipRegisterValidator (registration k addr shard nonce h))) =
    encode_to_vec (gossip_message (Round := Round) (Extension := Extension) (GossipRegisterValidator (registration k addr shard' nonce' h'))) ->
    shard = shard' /\ nonce = nonce').
Proof.
  intros count. split.
  - cbn [app_step]. destruct (Z.eqb_spec (count mod 5) 0) as [Hm|Hm].
    + unfold tick, st_bind at 1, st_get, st_bind at 1, st_lift, add_u. rewrite (proj2 (Z.ltb_lt _ _)) by lia.
      unfold st_bind at 1, st_modify. fold count. rewrite (proj2 (Z.eqb_eq _ _) Hm). unfold st_bind, st_lift. rewrite Hnum.
      rewrite (register_shards_alive k addr store); done.
    + apply tick_count_step; [lia|lia|done].
  - intros shard nonce h shard' nonce' h' E. apply (f_equal decode) in E. rewrite !decode_encode in E. by injection E as <- _ <-.
Qed.

(** ** A message that stops the gossip task *)

Lemma tick_dead k c addr (s : App) store num :
  gossip_alive CState s = false -> app_store CState s = Ok store -> (forall shard, exists h, stored_height store shard = Ok h) ->
  config_num_shards c = Ok num -> (0 <= num)%Z -> (0 <= tick_count CState s)%Z -> (tick_count CState s + 1 < 2 ^ 31)%Z ->
  ((tick_count CState s + 1) mod 5 = 0)%Z ->
  tick CState k c addr s = (Err "channel closed"%string, set_tick_count CState (tick_count CState s + 1) s).
Proof using Type.
  intros Hal Hst Hh Hnum Hn H0' Hc Hm. unfold tick, st_bind at 1, st_get, st_bind at 1, st_lift, add_u.
  rewrite (proj2 (Z.ltb_lt _ _)) by done. unfold st_bind at 1, st_modify. rewrite (proj2 (Z.eqb_eq _ _) Hm).
  unfold st_bind at 1, st_lift. rewrite Hnum. rewrite seqZ_cons by lia. simpl. destruct (Hh 0%Z) as [h Eh].
  unfold register_shard, st_bind, st_get, st_lift. rewrite (Hst : app_store CState (set_tick_count CState _ s) = _), Eh.
  unfold gossip_send. by rewrite (Hal : gossip_alive CState (set_tick_count CState _ s) = _).
Qed.

(** Ticks after the gossip task ended lead to one that registers. *)
Lemma ticks_dead k c addr (s : App) store num (n : nat) :
  gossip_alive CState s = false -> app_store CState s = Ok store -> (forall shard, exists h, stored_height store shard = Ok h) ->
  config_num_shards c = Ok num -> (0 <= num)%Z -> (0 <= tick_count CState s)%Z -> (tick_count CState s + Z.of_nat n < 2 ^ 31)%Z ->
  (5 - tick_count CState s mod 5 <= Z.of_nat n)%Z ->
  exists s', run k c addr (repeat Ev_Tick n) s = (Err "channel closed"%string, s').
Proof using Type.
  intros Hal Hst Hh Hnum Hn. revert s Hal Hst. induction n as [|n IH]; intros s Hal Hst H0' Hc Hm.
  { pose proof (Z.mod_pos_bound (tick_count CState s) 5). lia. }
  rewrite Nat2Z.inj_succ in Hc, Hm. cbn [repeat app_run].
  destruct (decide ((tick_count CState s + 1) mod 5 = 0)%Z) as [Hz|Hz].
  - pose proof (tick_dead k c addr s store num Hal Hst Hh Hnum Hn H0' ltac:(lia) Hz) as E.
    unfold st_bind. change (step k c addr Ev_Tick s) with (tick CState k c addr s). rewrite E. by eexists.
  - erewrite st_bind_Ok by (apply tick_count_step; [lia|lia|done]). apply IH; simpl; [done|done|lia|lia|].
    pose proof (Z.mod_pos_bound (tick_count CState s) 5). pose proof (Z.mod_pos_bound (tick_count CState s + 1) 5).
    pose proof (Z.div_mod (tick_count CState s) 5). pose proof (Z.div_mod (tick_count CState s + 1) 5). lia.
Qed.

Lemma app_store_panic (s : App) : app_store CState (gossip_panic CState s) = app_store CState s.
Proof using Type.
  unfold app_store, app_proposer, gossip_panic. simpl. rewrite lookup_fmap. by destruct (actors s !! 0%Z).
Qed.

(** One malformed message ends a node: after data that decodes to a vote,
    proposal or full proposal with a missing or malformed field, sent by any
    peer, the gossip task is gone, and within five ticks the main loop returns
    with an error, ending the process. *)
Theorem malformed_message_ends_node (k : Keypair) (c : ConsensusConfig) (addr : string) (peer data : bytes) (message : GossipMessage)
    (s : App) (store : RocksDB T) (num : Z)
    (Hd : decode data = Ok message) (Hw : needed_fields message = false)
    (Hal : gossip_alive CState s = true) (Hst : app_store CState s = Ok store)
    (Hh : forall shard, exists h, stored_height store shard = Ok h)
    (Hnum : config_num_shards c = Ok num) (Hn : (0 <= num)%Z) (Hc : (0 <= tick_count CState s < 2 ^ 31 - 5)%Z) :
  exists s', run k c addr (Ev_Gossip (FromSwarm (MessageReceived peer data)) :: repeat Ev_Tick 5) s =
    (Err "channel closed"%string, s').
Proof.
  cbn [app_run]. erewrite st_bind_Ok.
  2:{ unfold app_step. rewrite Hal. cbn [gossip_turn handle_swarm_event].
      rewrite (handle_data_malformed data message (app_gossip CState s) Hd Hw). reflexivity. }
  apply (ticks_dead k c addr _ store num 5); simpl; [done| |done|done|done|lia|lia|].
  - rewrite app_store_panic. exact Hst.
  - pose proof (Z.mod_pos_bound (tick_count CState s) 5). lia.
Qed.

(** ** Discovery *)

Lemma set_add_present (set : SnapchainValidatorSet) (v : SnapchainValidator) :
  (forall w, w ∈ set -> v_shard_index w = v_shard_index v) -> address v ∈ map address (set_add set v).2.
Proof using Type.
  intros Hs. destruct (decide (address v ∈ map address set)) as [Hin|Hnin].
  - unfold set_add. by rewrite (proj2 (set_exists_spec set (address v)) Hin).
  - rewrite (set_add_fresh set v (v_shard_index v)) by done. simpl. change (map ?f ?l) with (f <$> l).
    rewrite (merge_sort_Permutation validator_le), fmap_app. apply elem_of_app. right. by left.
Qed.

(** The channels do not carry validators. *)
Definition actor_validators (a : Actor) : SnapchainValidatorSet := validator_set (shard_validator CState (actor_state CState a)).

Lemma on_actor_lookup shard (f : Actor -> Actor) (s : App) k :
  actors (on_actor CState shard f s) !! k = (if decide (k = shard) then f <$> actors s !! k else actors s !! k).
Proof using Type.
  unfold on_actor. simpl. destruct (decide (k = shard)) as [->|Hne]; [by rewrite lookup_alter_eq|by rewrite lookup_alter_ne].
Qed.

Lemma collect_gossip_actor shard (s : App) (a : Actor) :
  actors s !! shard = Some a ->
  exists a', actors (collect_gossip CState shard s) !! shard = Some a' /\ alive CState a' = alive CState a /\
    shard_validator CState (actor_state CState a') = shard_validator CState (actor_state CState a).
Proof using Type.
  intros Ha. unfold collect_gossip. rewrite Ha. destruct (gossip_tx CState (actor_state CState a)); [|eauto].
  rewrite on_actor_lookup, decide_True by done. cbn [app_node set_app_gossip]. rewrite Ha. by eexists.
Qed.

Lemma take_decisions_validators (v : ShardValidator T Round) : validator_set (take_decisions v).2 = validator_set v.
Proof using Type. unfold take_decisions. destruct (shard_proposer v) as [p|]; [|done]. by destruct (tx_decision p). Qed.

Lemma route_decisions_actor shard (s : App) (a : Actor) :
  shard ≠ 0%Z -> actors s !! shard = Some a ->
  exists a', actors (route_decisions CState shard s) !! shard = Some a' /\ alive CState a' = alive CState a /\
    actor_validators a' = actor_validators a.
Proof using Type.
  intros Hne Ha. unfold route_decisions. rewrite Ha.
  pose proof (take_decisions_validators (shard_validator CState (actor_state CState a))) as Hv.
  destruct (take_decisions _) as [sent v]. rewrite on_actor_lookup, decide_False by done.
  rewrite on_actor_lookup, decide_True, Ha by done. eexists. split_and!; [reflexivity|done|]. exact Hv.
Qed.

Context `{!PublicKeyLaws}.

(** Nodes discover each other: the registration of a node for a shard,
    broadcast and received by a node with that shard, makes its actor add the
    node to its validators, under its public key and with the address of its
    server; the actor goes on. *)
Theorem registration_joins (k k2 : Keypair) (c2 : ConsensusConfig) (addr r2 : string) (peer : bytes) (env : Env)
    (shard nonce height : Z) (s : App) (a : Actor)
    (Hal : gossip_alive CState s = true) (Hq : system_tx (app_gossip CState s) = Some [])
    (Hne : shard ≠ 0%Z) (Ha : actors s !! shard = Some a) (Haa : alive CState a = true) (Hmb : mailbox CState a = [])
    (Hb : block_proposer (shard_validator CState (actor_state CState a)) = None)
    (Hsh : forall w, w ∈ actor_validators a -> v_shard_index w = shard) :
  let data := encode_to_vec (gossip_message (Round := Round) (Extension := Extension)
                (GossipRegisterValidator (registration k addr shard nonce height))) in
  let v := SnapchainValidator_new shard (keypair_public k) (Some addr) height in
  exists s' a', run k2 c2 r2 [Ev_Gossip (FromSwarm (MessageReceived peer data)); Ev_System; Ev_Actor shard env] s = (Ok tt, s') /\
    actors s' !! shard = Some a' /\ alive CState a' = true /\
    actor_validators a' = (set_add (actor_validators a) v).2 /\ keypair_public k ∈ map address (actor_validators a').
Proof.
  intros data v.
  assert (Hdel : delivered (Round := Round) (Extension := Extension) (GossipRegisterValidator (registration k addr shard nonce height)) (RegisterValidator v)).
  { apply (delivered_validator _ (mkProtoValidator 0 (keypair_public k) addr shard height) (keypair_public k)); [done|apply public_key_bytes]. }
  set (s1 := set_app_gossip CState (send_system (RegisterValidator v) (app_gossip CState s)) s).
  assert (E1 : step k2 c2 r2 (Ev_Gossip (FromSwarm (MessageReceived peer data))) s = (Ok tt, s1)).
  { unfold app_step. rewrite Hal. cbn [gossip_turn handle_swarm_event]. unfold data. by rewrite (handle_data_delivered _ _ _ Hdel). }
  destruct (run_system_spec CState driver_height process timeout_default blake3 depth k2 c2 r2 [SM_Consensus (RegisterValidator v)] s1)
    as (s2 & E2 & _ & _ & _ & _ & _ & Hact).
  { simpl. by rewrite Hq. }
  { repeat constructor. by exists shard. }
  cbn [length repeat app_run] in E2. apply st_bind_Ok_inv in E2 as (u & s2' & E2 & [= ->]).
  assert (Ha2 : actors s2 !! shard = Some (mkActor CState (actor_state CState a) [RegisterValidator v] true)).
  { rewrite Hact. unfold s1. cbn [app_node set_app_gossip]. rewrite Ha. simpl. unfold receives. rewrite Haa, Hmb.
    unfold for_shard. cbn [map system_msg]. by rewrite filter_cons, decide_True. }
  destruct (register_total CState driver_height process blake3 depth timeout_default env v (actor_state CState a) Hb) as (st & Est).
  pose proof (register_spec CState driver_height process blake3 depth timeout_default env v (actor_state CState a) st Est) as (Hset & _).
  set (s3 := set_node CState (node_step CState driver_height process timeout_default blake3 depth env shard (app_node CState s2)) s2).
  assert (Ha3 : exists a3, actors s3 !! shard = Some a3 /\ alive CState a3 = true /\
    shard_validator CState (actor_state CState a3) = shard_validator CState st).
  { unfold s3. cbn [app_node set_node node_step set_actors consensus_actors]. rewrite lookup_alter_eq, Ha2. simpl.
    unfold actor_step. cbn [alive mailbox actor_state]. rewrite Est. eexists. split; [reflexivity|]. done. }
  destruct Ha3 as (a3 & Ha3 & Hal3 & Hv3). destruct (collect_gossip_actor shard s3 a3 Ha3) as (a4 & Ha4 & Hal4 & Hv4).
  destruct (route_decisions_actor shard _ a4 Hne Ha4) as (a5 & Ha5 & Hal5 & Hv5).
  assert (Hfin : actor_validators a5 = (set_add (actor_validators a) v).2).
  { rewrite Hv5. unfold actor_validators. by rewrite Hv4, Hv3, Hset. }
  eexists _, a5. split_and!; [|exact Ha5|congruence|exact Hfin|].
  - cbn [app_run]. erewrite st_bind_Ok by exact E1. erewrite st_bind_Ok by exact E2. reflexivity.
  - rewrite Hfin. apply (set_add_present _ v). exact Hsh.
Qed.

End AppProperties.

(** ** From the server to a chunk *)
Section Submission.
Context {T Round Extension : Type} `{TransactionDBLaws T} `{RoundOps Round} `{!Countable Round} `{SigningOps}
  `{!Codec DbTrieNode, !CodecLaw DbTrieNode, !Codec ShardChunk, !Codec Block, !Codec ShardHeader, !Codec BlockHeader,
    !Codec ProtoVote, !Codec ProtoProposal} `{SwarmOps Swarm} `{PublicKeyOps} `{!Codec GossipMessage}.
Variable CState : Type.
Variable blake3 : bytes -> bytes.
Hypothesis blake3_length : forall l, length (blake3 l) = 32.
Variable L depth : nat.
Hypothesis depth_enough : L + 1 <= depth.

Local Abbreviation App := (App (T := T) (Round := Round) (Extension := Extension) (Swarm := Swarm) CState).

Lemma shard_propose_spec (p : ShardProposer T) S (h : Height) (r : Round) now :
  engine_holds blake3 L (sp_engine p) S -> (FARCASTER_EPOCH <= now)%Z ->
  let hashes := map msg_hash (messages_rx (sp_engine p)) in
  NoDup hashes -> valid_keys L (S ∪ list_to_set hashes) ->
  exists chunk header p', shard_propose_value blake3 depth h r now p =
      (Ok (mkFullProposal (Some h) (as_i64 r) (sp_address p) (Some (PV_Shard chunk))), p') /\
    chunk_header chunk = Some header /\ shard_height header = Some h /\
    shard_root header = spec_root blake3 L (S ∪ list_to_set hashes) /\
    transactions chunk = [mkTransaction 1234 (messages_rx (sp_engine p)) [] [5; 5; 6; 6]%Z] /\
    messages_rx (sp_engine p') = [].
Proof.
  intros He Hnow hashes Hnd Hv.
  destruct (propose_spec blake3 blake3_length L depth depth_enough (sp_engine p) S (sp_shard_id p) He Hnd Hv) as (e1 & E1 & _ & Hrx & _).
  do 3 eexists. split.
  - unfold shard_propose_value. erewrite st_bind_Ok by reflexivity.
    unfold st_bind at 1, on_engine. rewrite E1. simpl.
    unfold st_bind, st_lift, st_modify, st_ret, current_time, sub_u. rewrite (proj2 (Z.ltb_ge _ _)) by done. reflexivity.
  - split_and!; [reflexivity..|exact Hrx].
Qed.

(** C28. A submitted message gets into the next chunk: a message given to the
    server of a node whose shard 1 runs and whose channel of messages has room
    is answered with itself, and when the actor of that shard next proposes, the
    chunk has the messages that were waiting, then this one, and its root is
    that of the committed keys with the hashes of all of them; nothing is left
    waiting. The hash of the message has to be a valid key and none of those
    that wait: a message that is submitted again while it waits is not
    covered. *)
Theorem submitted_message_proposed (s : App) (msg : Message) (a : Actor (T := T) (Round := Round) (Extension := Extension) CState) (p : ShardProposer T) (S : gset bytes)
    (h : Height) (r : Round) (now : Z) (schedule : list poll_event)
    (Htx : messages_tx_by_shard CState (app_node CState s) !! 1%Z = Some 1%Z)
    (Ha : consensus_actors CState (app_node CState s) !! 1%Z = Some a) (Hal : alive CState a = true)
    (Hb : block_proposer (shard_validator CState (actor_state CState a)) = None)
    (Hp : shard_proposer (shard_validator CState (actor_state CState a)) = Some p)
    (He : engine_holds blake3 L (sp_engine p) S) (Hroom : length (messages_rx (sp_engine p)) < messages_capacity)
    (Hnow : (FARCASTER_EPOCH <= now)%Z)
    (Hnd : NoDup (map msg_hash (messages_rx (sp_engine p) ++ [msg])))
    (Hv : valid_keys L (S ∪ list_to_set (map msg_hash (messages_rx (sp_engine p) ++ [msg])))) :
  exists s' a' chunk header v' p',
    submit_message CState msg s = (Ok msg, s') /\
    consensus_actors CState (app_node CState s') !! 1%Z = Some a' /\ mailbox CState a' = mailbox CState a /\
    propose_value blake3 depth h r now schedule (shard_validator CState (actor_state CState a')) =
      (Ok (mkFullProposal (Some h) (as_i64 r) (sp_address p) (Some (PV_Shard chunk))), v') /\
    transactions chunk = [mkTransaction 1234 (messages_rx (sp_engine p) ++ [msg]) [] [5; 5; 6; 6]%Z] /\
    chunk_header chunk = Some header /\
    shard_root header = spec_root blake3 L (S ∪ list_to_set (map msg_hash (messages_rx (sp_engine p) ++ [msg]))) /\
    shard_proposer v' = Some p' /\ messages_rx (sp_engine p') = [].
Proof.
  assert (Esend : send_message msg (sp_engine p) = set_messages_rx (messages_rx (sp_engine p) ++ [msg]) (sp_engine p)).
  { unfold send_message. by rewrite (proj2 (Nat.ltb_lt _ _)). }
  destruct (shard_propose_spec (submit msg p) S h r now) as (chunk & header & p' & E & Eh & _ & Er & Et & Erx).
  - unfold submit, on_engine, st_modify. cbn [fst snd sp_engine]. rewrite Esend. exact He.
  - done.
  - unfold submit, on_engine, st_modify. cbn [fst snd sp_engine]. by rewrite Esend.
  - unfold submit, on_engine, st_modify. cbn [fst snd sp_engine]. by rewrite Esend.
  - assert (Hrx : messages_rx (sp_engine (submit msg p)) = messages_rx (sp_engine p) ++ [msg]).
    { unfold submit, on_engine, st_modify. cbn [fst snd sp_engine]. by rewrite Esend. }
    rewrite Hrx in Er, Et.
    do 6 eexists. split; [|split; [|split; [|split; [|split_and!; [exact Et|exact Eh|exact Er| |exact Erx]]]]].
    + unfold submit_message, node_submit. rewrite Htx. simpl. rewrite Ha. simpl. rewrite Hal. reflexivity.
    + cbn [app_node set_node consensus_actors set_actors]. apply lookup_insert_eq.
    + done.
    + unfold actor_submit, map_shard_proposer. cbn [actor_state shard_validator set_validator]. rewrite Hp.
      unfold propose_value, on_proposer. cbn [block_proposer shard_proposer set_shard_proposer]. rewrite Hb, E. reflexivity.
    + done.
Qed.

End Submission.

(** ** Witnesses

    A swarm that keeps what was published, and a node with the block shard and
    shard 1. *)
Module AppSample.
Export ConsensusSample ServerSample NodeSample.

#[export] Instance sample_swarm : SwarmOps (list bytes) := {|
  Multiaddr := string;
  parse_multiaddr s := Ok s;
  swarm_build _ := Ok [];
  swarm_dial _ s := (Ok tt, s);
  swarm_subscribe _ s := (Ok tt, s);
  swarm_listen_on _ s := (Ok tt, s);
  swarm_publish _ data s := (Ok tt, s ++ [data]);
|}.

(** Keys of every length, to have the laws. *)
#[export] Instance sample_public_keys : PublicKeyOps := fun b => Some b.
#[export] Instance sample_public_keys_laws : PublicKeyLaws.
Proof. split; [done|]. by intros b pk [= ->]. Qed.

#[export] Instance gossip_codec : Codec GossipMessage := countable_codec GossipMessage.
#[export] Instance gossip_codec_law : CodecLaw GossipMessage := countable_codec_law GossipMessage.

Definition sample_actor : Actor (T := gmap bytes bytes) (Round := option N) (Extension := unit) Height :=
  mkActor Height shard_state [] true.
Definition sample_block_actor : Actor (T := gmap bytes bytes) (Round := option N) (Extension := unit) Height :=
  mkActor Height block_state [] true.
Definition sample_node : SnapchainNode (T := gmap bytes bytes) (Round := option N) (Extension := unit) Height :=
  mkSnapchainNode Height (<[0%Z := sample_block_actor]> (<[1%Z := sample_actor]> ∅)) (<[1%Z := 1%Z]> ∅) (sample_address 5).

Definition sample_event : GossipEvent (Round := option N) (Extension := unit) := BroadcastSignedVote (sign_vote sample_keypair sample_vote).
Definition SampleApp : Type := App (T := gmap bytes bytes) (Round := option N) (Extension := unit) (Swarm := list bytes) Height.
Definition sample_app : SampleApp :=
  mkApp Height sample_node (mkSnapchainGossip [] [sample_event] (Some [])) true 0.
Definition one_shard_config : ConsensusConfig := mkConsensusConfig "" "1" 0.

Definition other_keypair : Keypair := sample_address 7.

Definition malformed : GossipMessage :=
  mkGossipMessage (Some (GP_Consensus (mkConsensusMessage (Some (PC_Vote (mkProtoVote 2 None 0 None []))) []))).
End AppSample.
Import AppSample.

Lemma broadcast_reaches_actor_witness :
  exists (data : bytes) (s1 s2 : SampleApp),
    app_step Height id sample_process sample_config sample_blake3 21 sample_keypair one_shard_config "a"
      (Ev_Gossip FromChannel) sample_app = (Ok tt, s1) /\
    swarm (app_gossip Height s1) = [data] /\
    app_run Height id sample_process sample_config sample_blake3 21 (sample_address 6) one_shard_config "b"
      [Ev_Gossip (FromSwarm (MessageReceived [] data)); Ev_System] sample_app = (Ok tt, s2) /\
    mailbox Height <$> consensus_actors Height (app_node Height s2) !! 1%Z =
      Some [ReceivedSignedVote (sample_vote, (sign_vote sample_keypair sample_vote).2)].
Proof.
  destruct (broadcast_reaches_actor Height id sample_process sample_config sample_blake3 21 sample_keypair (sample_address 6)
    one_shard_config one_shard_config "a" "b" [] sample_event [] _ 1 sample_app sample_app [] sample_actor
    (delivered_vote sample_vote _ eq_refl) eq_refl eq_refl eq_refl eq_refl eq_refl (Forall_nil_2 _) eq_refl eq_refl)
    as (data & s1 & s2 & E1 & _ & Es & E2 & Ea & _).
  exists data, s1, s2. split_and!; [exact E1|exact Es|exact E2|]. rewrite Ea. reflexivity.
Defined.

Lemma ticks_register_witness :
  exists store,
    app_step Height id sample_process sample_config sample_blake3 21 sample_keypair one_shard_config "a" Ev_Tick
      (set_tick_count Height 4 sample_app) =
    (Ok tt, set_tick_count Height 5
      (set_app_gossip Height (set_gossip_rx ([sample_event] ++ registrations sample_keypair "a" store 5 [0%Z; 1%Z])
        (app_gossip Height sample_app)) (set_tick_count Height 4 sample_app))).
Proof.
  exists empty_store.
  destruct (ticks_register Height id sample_process sample_config sample_blake3 21 sample_keypair one_shard_config "a"
    (set_tick_count Height 4 sample_app) empty_store 1) as [E _].
  - reflexivity.
  - reflexivity.
  - intros shard. apply (stored_height_total empty_store ∅ shard). apply holds_gmap.
  - reflexivity.
  - simpl. lia.
  - exact E.
Defined.

Lemma malformed_message_ends_node_witness :
  exists s : SampleApp, app_run Height id sample_process sample_config sample_blake3 21 sample_keypair one_shard_config "a"
    (Ev_Gossip (FromSwarm (MessageReceived [] (encode_to_vec malformed))) :: repeat Ev_Tick 5) sample_app =
    (Err "channel closed"%string, s).
Proof.
  apply (malformed_message_ends_node Height id sample_process sample_config sample_blake3 21 sample_keypair one_shard_config "a"
    [] (encode_to_vec malformed) malformed sample_app empty_store 1).
  - apply decode_encode.
  - reflexivity.
  - reflexivity.
  - reflexivity.
  - intros shard. apply (stored_height_total empty_store ∅ shard). apply holds_gmap.
  - reflexivity.
  - lia.
  - simpl. lia.
Defined.

Lemma registration_joins_witness :
  exists (s : SampleApp) (a : Actor Height), app_run Height id sample_process sample_config sample_blake3 21 sample_keypair one_shard_config "b"
      [Ev_Gossip (FromSwarm (MessageReceived [] (encode_to_vec (gossip_message (Round := option N) (Extension := unit)
          (GossipRegisterValidator (registration other_keypair "a" 1 5 0)))))); Ev_System; Ev_Actor 1 sample_env] sample_app = (Ok tt, s) /\
    consensus_actors Height (app_node Height s) !! 1%Z = Some a /\ sample_address 7 ∈ map address (actor_validators Height a).
Proof.
  destruct (registration_joins Height id sample_process sample_config sample_blake3 21 other_keypair sample_keypair
    one_shard_config "a" "b" [] sample_env 1 5 0 sample_app sample_actor) as (s & a & E & Ha & _ & _ & Hin);
    try reflexivity; [done| |].
  - intros w Hw. by apply elem_of_nil in Hw.
  - exists s, a. split_and!; [exact E|exact Ha|exact Hin].
Defined.

Lemma submitted_message_proposed_witness :
  exists (s : SampleApp) a p v, submit_message Height (msg 3) sample_app = (Ok (msg 3), s) /\
    consensus_actors Height (app_node Height s) !! 1%Z = Some a /\
    propose_value sample_blake3 21 (mkHeight 1 1) (Some 0%N) 1609459201 [] (shard_validator Height (actor_state Height a)) = (Ok p, v).
Proof.
  destruct (submitted_message_proposed Height sample_blake3 sample_blake3_length 20 21 ltac:(lia) sample_app (msg 3) sample_actor
    sample_proposer engine_keys (mkHeight 1 1) (Some 0%N) 1609459201 []) as (s & a & c & h & v & p & E1 & E2 & _ & E3 & _);
    try reflexivity; [exact proposing_holds| |unfold FARCASTER_EPOCH; lia|decide_now|decide_now|].
  - apply Nat.ltb_lt. vm_compute. reflexivity.
  - exists s, a. do 2 eexists. split_and!; [exact E1|exact E2|exact E3].
Defined.
