(* ===== verification/Tools.v ===== *)
(** * The tools

    [src/bin/follow_blocks.rs], [src/bin/submit_message.rs] and
    [src/bin/collect_stats.rs]. What a tool prints is a list of lines. The
    tasks that follow blocks and submit messages are those of [Server.v]; their
    channels give the tools a sequence of events. [hex] is [hex::encode], of a
    crate the sources only call. *)

From S2P Require Import Prelude Text Util F64 Db Proto Block Types Proposer Server.

(** ** Printing the blocks *)
Section FollowBlocks.
Context (hex : bytes -> string).

Definition block_user_messages (block : Block) : list Message :=
  chunk ← shard_chunks block; tx ← transactions chunk; user_messages tx.

(** The lines of one block; a block without header or height panics. *)
Definition print_block {E} (block : Block) : result E (list string) :=
  header ← unwrap (block_header block);
  height ← unwrap (block_height header);
  Ok (("Block " +:+ print_uint (block_number height)) :: map (fun msg => " - " +:+ hex (msg_hash msg)) (block_user_messages block)).

(** [while let Some(block) = block_rx.recv().await] *)
Fixpoint print_blocks {E} (received : list Block) : ST (list string) E unit :=
  match received with
  | [] => st_ret tt
  | block :: received =>
      (let! lines := st_lift (print_block block) in
       st_modify (fun printed => printed ++ lines) ;;;
       print_blocks received)%st
  end.
End FollowBlocks.

(** ** Submitting messages *)
Section Submit.
Context `{!Codec MessageData} (blake3 : bytes -> bytes) (sign : bytes -> bytes) (verifying_key : bytes).

Definition TOOL_FID : Z := 6833.

(** [main] of [submit_message]. *)
Definition submit_welcome (now : Z) : result string Message :=
  unwrap_result (compose_message blake3 sign verifying_key now TOOL_FID "Welcome from Rust!").

(** The loop of a task of [start_submit_messages], for the given readings of
    the clock: the messages it sends on. The counter is an [i32]. *)
Fixpoint submit_loop (i : Z) (clock : list Z) : result string (list Message) :=
  match clock with
  | [] => Ok []
  | now :: clock =>
      message ← unwrap_result (compose_message blake3 sign verifying_key now TOOL_FID ("For benchmarking " +:+ print_uint i));
      i ← add_u 31 i 1;
      messages ← submit_loop i clock;
      Ok (message :: messages)
  end.
Definition submit_messages (clock : list Z) : result string (list Message) := submit_loop 1 clock.
End Submit.

(** ** Statistics *)
Section Stats.
Context (hex : bytes -> string) `{!Codec MessageData}.

(** [n as f64 / d as f64] *)
Definition ratio (n d : Z) : f64 := f64_div (f64_of_Z n) (f64_of_Z d).

Definition STATS_CALCULATION_INTERVAL : Z := 10.
Definition NUM_ITERATIONS : Z := 5.

(** The values of a printed line. *)
Record Report := mkReport {
  time_elapsed : Z;
  blocks_produced : Z;
  submitted_per_sec : f64;
  confirmed_per_sec : f64;
  avg_time_to_confirmation : f64;
  max_time_to_confirmation : Z;
  avg_block_time : f64;
  max_block_time : Z;
}.

(** The variables of the loop; the counters are [i32]s, the times [u64]s. *)
Record Stats := mkStats {
  block_count : Z;
  num_messages_confirmed : Z;
  num_messages_submitted : Z;
  pending_messages : gset string;
  time_to_confirmation : list Z;
  block_times : list Z;
  last_block_time : Z;
  iteration : Z;
  reports : list Report;
}.

Definition Stats_start (start_farcaster_time : Z) : Stats := mkStats 0 0 0 ∅ [] [] start_farcaster_time 0 [].

(** What the channels and the timer bring. *)
Inductive StatsEvent := MessageSent (message : Message) | BlockFollowed (block : Block) | StatsTick (elapsed : Z).

Definition on_submitted (message : Message) : ST Stats string unit :=
  (let! s := st_get in
   let! n := st_lift (add_u 31 (num_messages_submitted s) 1) in
   st_put (mkStats (block_count s) (num_messages_confirmed s) n ({[hex (msg_hash message)]} ∪ pending_messages s)
             (time_to_confirmation s) (block_times s) (last_block_time s) (iteration s) (reports s)))%st.

(** One confirmed message of a block. *)
Definition on_confirmed (block_time : Z) (msg : Message) : ST Stats string unit :=
  (let! s := st_get in
   let! bytes := st_lift (unwrap (data_bytes msg)) in
   let! msg_data := st_lift (unwrap_result (decode (A := MessageData) bytes)) in
   let! delay := st_lift (sub_u block_time (timestamp msg_data)) in
   let! n := st_lift (add_u 31 (num_messages_confirmed s) 1) in
   st_put (mkStats (block_count s) n (num_messages_submitted s) (pending_messages s ∖ {[hex (msg_hash msg)]})
             (time_to_confirmation s ++ [delay]) (block_times s) (last_block_time s) (iteration s) (reports s)))%st.

Fixpoint on_confirmed_all (block_time : Z) (msgs : list Message) : ST Stats string unit :=
  match msgs with
  | [] => st_ret tt
  | msg :: msgs => (on_confirmed block_time msg ;;; on_confirmed_all block_time msgs)%st
  end.

Definition on_block (start_farcaster_time : Z) (block : Block) : ST Stats string unit :=
  (let! header := st_lift (unwrap (block_header block)) in
   let block_time := block_timestamp header in
   if (start_farcaster_time <? block_time)%Z then
     let! s := st_get in
     let! n := st_lift (add_u 31 (block_count s) 1) in
     let! since := st_lift (sub_u block_time (last_block_time s)) in
     st_put (mkStats n (num_messages_confirmed s) (num_messages_submitted s) (pending_messages s) (time_to_confirmation s)
               (block_times s ++ [since]) block_time (iteration s) (reports s)) ;;;
     on_confirmed_all block_time (block_user_messages block)
   else st_ret tt)%st.

Definition average {E} (l : list Z) : result E f64 :=
  if 0 <? length l then total ← sum_u64 l; Ok (ratio total (Z.of_nat (length l))) else Ok (f64_of_Z 0).

Definition maximum (l : list Z) : Z := foldl Z.max 0%Z l.

(** A tick prints and starts over; the answer says whether it was the last. *)
Definition on_tick (elapsed : Z) : ST Stats string bool :=
  (let! s := st_get in
   let! avg_confirmation := st_lift (average (time_to_confirmation s)) in
   let! avg_block := st_lift (average (block_times s)) in
   let report :=
     mkReport elapsed (block_count s) (ratio (num_messages_submitted s) STATS_CALCULATION_INTERVAL)
       (ratio (num_messages_confirmed s) STATS_CALCULATION_INTERVAL) avg_confirmation (maximum (time_to_confirmation s))
       avg_block (maximum (block_times s)) in
   let! i := st_lift (add_u 64 (iteration s) 1) in
   st_put (mkStats 0 0 0 (pending_messages s) [] [] (last_block_time s) i (reports s ++ [report])) ;;;
   st_ret (NUM_ITERATIONS <? i)%Z)%st.

(** The loop, along the events; it waits when there are none left. *)
Fixpoint collect_stats (start_farcaster_time : Z) (events : list StatsEvent) : ST Stats string unit :=
  match events with
  | [] => st_lift OutOfFuel
  | MessageSent message :: events => (on_submitted message ;;; collect_stats start_farcaster_time events)%st
  | BlockFollowed block :: events => (on_block start_farcaster_time block ;;; collect_stats start_farcaster_time events)%st
  | StatsTick elapsed :: events =>
      (let! stop := on_tick elapsed in
       if stop then st_ret tt else collect_stats start_farcaster_time events)%st
  end.

(** ** What the reports add up to *)

(** Blocks, submitted and confirmed messages. *)
Record Tally := mkTally { tally_blocks : Z; tally_submitted : Z; tally_confirmed : Z }.

Definition tally_of (s : Stats) : Tally := mkTally (block_count s) (num_messages_submitted s) (num_messages_confirmed s).

(** A block counts if it is later than the start. *)
Definition tally_block (start : Z) (block : Block) (t : Tally) : Tally :=
  match block_header block with
  | Some header =>
      if (start <? block_timestamp header)%Z
      then mkTally (tally_blocks t + 1) (tally_submitted t) (tally_confirmed t + Z.of_nat (length (block_user_messages block)))
      else t
  | None => t
  end.

(** The counts at each tick, from the tick before. *)
Fixpoint tallies (start : Z) (t : Tally) (events : list StatsEvent) : list Tally :=
  match events with
  | [] => []
  | MessageSent _ :: events => tallies start (mkTally (tally_blocks t) (tally_submitted t + 1) (tally_confirmed t)) events
  | BlockFollowed block :: events => tallies start (tally_block start block t) events
  | StatsTick _ :: events => t :: tallies start (mkTally 0 0 0) events
  end.

Definition report_of (t : Tally) (r : Report) : Prop :=
  blocks_produced r = tally_blocks t /\ submitted_per_sec r = ratio (tally_submitted t) STATS_CALCULATION_INTERVAL /\
  confirmed_per_sec r = ratio (tally_confirmed t) STATS_CALCULATION_INTERVAL.

(** A computation that panics or changes the state as [Q] says. *)
Definition may_panic {A} (m : ST Stats string A) (s : Stats) (Q : A -> Stats -> Prop) : Prop :=
  match m s with (Ok a, s') => Q a s' | (Panic, _) => True | _ => False end.

Lemma may_panic_ret {A} (a : A) s (Q : A -> Stats -> Prop) : Q a s -> may_panic (st_ret a) s Q.
Proof using Type. done. Qed.

Lemma may_panic_bind {A B} (m : ST Stats string A) (k : A -> ST Stats string B) s Q :
  may_panic m s (fun a s' => may_panic (k a) s' Q) -> may_panic (st_bind m k) s Q.
Proof using Type. unfold may_panic, st_bind. destruct (m s) as [[a| | |] s']; done. Qed.

Lemma may_panic_weaken {A} (m : ST Stats string A) s (Q Q' : A -> Stats -> Prop) :
  (forall a s', Q a s' -> Q' a s') -> may_panic m s Q -> may_panic m s Q'.
Proof using Type. intros HQ. unfold may_panic. destruct (m s) as [[a| | |] s']; auto. Qed.

Lemma may_panic_get s (Q : Stats -> Stats -> Prop) : Q s s -> may_panic st_get s Q.
Proof using Type. done. Qed.

Lemma may_panic_put s' s (Q : unit -> Stats -> Prop) : Q tt s' -> may_panic (st_put s') s Q.
Proof using Type. done. Qed.

(** A pure step that is total or panics. *)
Definition total_or_panic {A} (r : result string A) (P : A -> Prop) : Prop :=
  match r with Ok a => P a | Panic => True | _ => False end.

Lemma may_panic_lift {A} (r : result string A) s (P : A -> Prop) (Q : A -> Stats -> Prop) :
  total_or_panic r P -> (forall a, P a -> Q a s) -> may_panic (st_lift r) s Q.
Proof using Type. unfold may_panic, st_lift, total_or_panic. destruct r; auto. Qed.

Lemma add_u_total w a b : total_or_panic (add_u w a b) (fun c => c = a + b)%Z.
Proof using Type. unfold add_u. by case_match. Qed.

Lemma sub_u_total a b : total_or_panic (sub_u a b) (fun _ => True).
Proof using Type. unfold sub_u. by case_match. Qed.

Lemma unwrap_total {A} (o : option A) : total_or_panic (unwrap o) (fun a => o = Some a).
Proof using Type. by destruct o. Qed.

Lemma unwrap_result_total {A E} (r : result E A) : r ≠ OutOfFuel -> total_or_panic (unwrap_result r) (fun _ => True).
Proof using Type. by destruct r. Qed.

(** A step of the loop on a state that has counted [t]. *)
Lemma tally_submitted_step message s :
  may_panic (on_submitted message) s (fun _ s' =>
    reports s' = reports s /\ iteration s' = iteration s /\
    tally_of s' = mkTally (block_count s) (num_messages_submitted s + 1) (num_messages_confirmed s)).
Proof using Type.
  apply may_panic_bind, may_panic_get, may_panic_bind.
  apply (may_panic_lift _ _ _ _ (add_u_total _ _ _)). intros n ->. by apply may_panic_put.
Qed.

Context `{!CodecTotal MessageData}.

Lemma decode_data_total b : decode (A := MessageData) b ≠ (OutOfFuel : result string _).
Proof using All. destruct (decode_total (A := MessageData) b) as [[a ->]|[e ->]]; done. Qed.

Lemma tally_confirmed_step block_time msgs : forall s,
  may_panic (on_confirmed_all block_time msgs) s (fun _ s' =>
    reports s' = reports s /\ iteration s' = iteration s /\
    tally_of s' = mkTally (block_count s) (num_messages_submitted s) (num_messages_confirmed s + Z.of_nat (length msgs))).
Proof using All.
  induction msgs as [|msg msgs IH]; intros s; simpl.
  { apply may_panic_ret. unfold tally_of. rewrite Z.add_0_r. done. }
  apply may_panic_bind. unfold on_confirmed.
  apply may_panic_bind, may_panic_get, may_panic_bind, (may_panic_lift _ _ _ _ (unwrap_total _)). intros bytes _.
  apply may_panic_bind, (may_panic_lift _ _ _ _ (unwrap_result_total _ (decode_data_total _))). intros msg_data _.
  apply may_panic_bind, (may_panic_lift _ _ _ _ (sub_u_total _ _)). intros delay _.
  apply may_panic_bind, (may_panic_lift _ _ _ _ (add_u_total _ _ _)). intros n ->.
  apply may_panic_put. eapply may_panic_weaken, IH. simpl. intros _ s' (-> & -> & ->).
  split_and!; [done..|]. f_equal. lia.
Qed.

Lemma tally_block_step start block s :
  may_panic (on_block start block) s (fun _ s' =>
    reports s' = reports s /\ iteration s' = iteration s /\ tally_of s' = tally_block start block (tally_of s)).
Proof using All.
  apply may_panic_bind, (may_panic_lift _ _ _ _ (unwrap_total _)). intros header Hh.
  unfold tally_block. rewrite Hh. simpl. case_match; [|by apply may_panic_ret].
  apply may_panic_bind, may_panic_get.
  apply may_panic_bind, (may_panic_lift _ _ _ _ (add_u_total _ _ _)). intros n ->.
  apply may_panic_bind, (may_panic_lift _ _ _ _ (sub_u_total _ _)). intros since _.
  apply may_panic_bind, may_panic_put. eapply may_panic_weaken, tally_confirmed_step.
  simpl. by intros _ s' (-> & -> & ->).
Qed.

Lemma sum_u64_total l : forall (acc : result string Z), total_or_panic acc (fun _ => True) ->
  total_or_panic (foldl (fun acc x => acc ← acc; add_u 64 acc x) acc l) (fun _ => True).
Proof using Type.
  induction l as [|x l IH]; intros acc Hacc; [done|]. simpl. apply IH. destruct acc; try done. simpl.
  unfold add_u. by case_match.
Qed.

Lemma average_total l : total_or_panic (average l) (fun _ => True).
Proof using Type.
  unfold average. case_match; [|done].
  pose proof (sum_u64_total l (Ok 0%Z) I) as Hs. unfold sum_u64. by destruct (foldl _ _ _).
Qed.

Lemma tally_tick_step elapsed s :
  may_panic (on_tick elapsed) s (fun stop s' =>
    iteration s' = (iteration s + 1)%Z /\ stop = (NUM_ITERATIONS <? iteration s + 1)%Z /\ tally_of s' = mkTally 0 0 0 /\
    exists r, reports s' = reports s ++ [r] /\ report_of (tally_of s) r).
Proof using Type.
  apply may_panic_bind, may_panic_get.
  apply may_panic_bind, (may_panic_lift _ _ _ _ (average_total _)). intros avg_confirmation _.
  apply may_panic_bind, (may_panic_lift _ _ _ _ (average_total _)). intros avg_block _.
  apply may_panic_bind, (may_panic_lift _ _ _ _ (add_u_total _ _ _)). intros i ->.
  apply may_panic_bind, may_panic_put, may_panic_ret. simpl. split_and!; [done..|]. by eexists.
Qed.

(** The loop from any state that has not printed its last line. *)
Lemma collect_stats_from start events : forall s k,
  iteration s = (NUM_ITERATIONS - Z.of_nat k)%Z -> (S k <= length (tallies start (tally_of s) events)) ->
  may_panic (collect_stats start events) s (fun _ s' =>
    exists rs, reports s' = reports s ++ rs /\ Forall2 report_of (take (S k) (tallies start (tally_of s) events)) rs).
Proof using All.
  induction events as [|[message|block|elapsed] events IH]; intros s k Hk Hlen; simpl in *; [lia|..].
  - apply may_panic_bind. eapply may_panic_weaken, tally_submitted_step. intros _ s' (Hr & Hi & Ht).
    rewrite <- Hr. simpl in *. rewrite <- Ht in Hlen |- *. apply IH; [by rewrite Hi|done].
  - apply may_panic_bind. eapply may_panic_weaken, tally_block_step. intros _ s' (Hr & Hi & Ht).
    rewrite <- Hr, <- Ht. apply IH; [by rewrite Hi|by rewrite Ht].
  - apply may_panic_bind. eapply may_panic_weaken, tally_tick_step.
    intros stop s' (Hi & -> & Ht & r & Hr & Hrep). destruct k as [|k].
    + replace (NUM_ITERATIONS <? iteration s + 1)%Z with true by (symmetry; apply Z.ltb_lt; lia).
      apply may_panic_ret. exists [r]. split; [done|]. by constructor.
    + replace (NUM_ITERATIONS <? iteration s + 1)%Z with false by (symmetry; apply Z.ltb_ge; lia).
      eapply may_panic_weaken, (IH s' k); [|lia|rewrite Ht; lia].
      intros _ s'' (rs & Hrs & Hall). exists (r :: rs). rewrite Hrs, Hr, <- app_assoc. split; [done|].
      constructor; [done|]. by rewrite <- Ht.
Qed.

(** The tool prints one line for each of six ticks and stops, and each line
    reports the blocks later than the start, the submitted and the confirmed
    messages received since the tick before, however blocks, messages and
    ticks interleave (unless a counter overflows, a clock runs backwards or a
    confirmed message does not decode, which panics). *)
Theorem stats_add_up start events :
  S (Z.to_nat NUM_ITERATIONS) <= length (tallies start (mkTally 0 0 0) events) ->
  may_panic (collect_stats start events) (Stats_start start) (fun _ s =>
    Forall2 report_of (take (S (Z.to_nat NUM_ITERATIONS)) (tallies start (mkTally 0 0 0) events)) (reports s)).
Proof using All.
  intros Hlen. eapply may_panic_weaken, (collect_stats_from start events (Stats_start start) (Z.to_nat NUM_ITERATIONS));
    [|done|done].
  by intros _ s (rs & -> & Hall).
Qed.
End Stats.

(** A run: a message before the second tick, two before the third. *)
Example stats_run `{!Codec MessageData} :
  let m := mkMessage None [1%Z] 1 [] 1 [] None in
  let events := [StatsTick 0; MessageSent m; StatsTick 10; MessageSent m; MessageSent m; StatsTick 20; StatsTick 30; StatsTick 40;
                 StatsTick 50; MessageSent m] in
  let (r, s) := collect_stats (fun _ => "01") 100 events (Stats_start 100) in
  r = Ok tt /\ map submitted_per_sec (reports s) = map (fun n => ratio n 10) [0; 1; 2; 0; 0; 0]%Z.
Proof. vm_compute. done. Qed.
