(* ===== verification/AccountMessage.v ===== *)
(** * Messages in the account stores

    [src/storage/store/account/message.rs]: the keys of messages, their
    encoding with and without the original bytes of their data, reading and
    writing them. A primary key is the user's fid, the kind of message, the
    timestamp and the hash, so that the messages of a user and kind are stored
    in the order of time.

    The module calls an iteration over the keys with a prefix that the wrapper
    of [rocksdb.rs] does not have; [PrefixIteration] is that iteration, with
    the items it visits as its documented behaviour. What a page token does to
    it is not documented, and nothing is assumed of it. *)

From S2P Require Import Prelude Util Db Proto.

Definition FID_BYTES : nat := 4.
Definition TS_HASH_LENGTH : nat := 24.
Definition HASH_LENGTH : nat := 20.
Definition TRUE_VALUE : Z := 1.

(** [PAGE_SIZE_MAX] of [store.rs]. *)
Definition ACCOUNT_PAGE_SIZE_MAX : nat := Z.to_nat 10000.

Inductive UserPostfix :=
| CastMessage | LinkMessage | ReactionMessage | VerificationMessage | UserDataMessage | UsernameProofMessage
| CastAdds | CastRemoves | LinkAdds | LinkRemoves | ReactionAdds | ReactionRemoves
| VerificationAdds | VerificationRemoves | UserDataAdds | UserNameProofAdds | LinkCompactStateMessage.

(** [as_u8] *)
Definition user_postfix_u8 (p : UserPostfix) : Z :=
  match p with
  | CastMessage => 1 | LinkMessage => 2 | ReactionMessage => 3 | VerificationMessage => 4
  | UserDataMessage => 6 | UsernameProofMessage => 7
  | CastAdds => 87 | CastRemoves => 88 | LinkAdds => 89 | LinkRemoves => 90
  | ReactionAdds => 91 | ReactionRemoves => 92 | VerificationAdds => 93 | VerificationRemoves => 94
  | UserDataAdds => 97 | UserNameProofAdds => 99 | LinkCompactStateMessage => 100
  end%Z.

(** A page of messages. *)
Record MessagesPage := mkMessagesPage { messages_bytes : list bytes; next_page_token : option bytes }.

(** [MessageType::try_from(i32)] *)
Definition message_type_try_from (n : Z) : option MessageType :=
  List.find (fun t => (message_type_i32 t =? n)%Z)
    [MT_None; MT_CastAdd; MT_CastRemove; MT_ReactionAdd; MT_ReactionRemove; MT_LinkAdd; MT_LinkRemove;
     MT_VerificationAddEthAddress; MT_VerificationRemove; MT_UserDataAdd; MT_UsernameProof; MT_FrameAction;
     MT_LinkCompactState].

(** [type_to_set_postfix] panics on the types that are not stored. *)
Definition type_to_set_postfix {E} (message_type : MessageType) : result E UserPostfix :=
  match message_type with
  | MT_CastAdd | MT_CastRemove => Ok CastMessage
  | MT_ReactionAdd | MT_ReactionRemove => Ok ReactionMessage
  | MT_VerificationAddEthAddress | MT_VerificationRemove => Ok VerificationMessage
  | MT_UserDataAdd => Ok UserDataMessage
  | MT_LinkAdd | MT_LinkRemove => Ok LinkMessage
  | MT_UsernameProof => Ok UsernameProofMessage
  | MT_None | MT_FrameAction | MT_LinkCompactState => Panic
  end.

Definition make_ts_hash (timestamp : Z) (hash : bytes) : result HubError bytes :=
  if negb (length hash =? HASH_LENGTH) then Err (mkHubError "internal_error" "hash length is not 20")
  else Ok (be_bytes 4 timestamp ++ take HASH_LENGTH hash).

Definition unpack_ts_hash (ts_hash : bytes) : Z * bytes :=
  (be_value (take 4 ts_hash), take 20 (drop 4 ts_hash)).

Definition make_fid_key (fid : Z) : bytes := be_bytes 4 fid.

(** [read_fid_key] panics on a key shorter than a fid. *)
Definition read_fid_key {E} (key : bytes) : result E Z := fid_bytes ← slice_to key 4; Ok (be_value fid_bytes).

Definition make_user_key (fid : Z) : bytes := root_prefix_u8 User :: make_fid_key fid.

Definition make_message_primary_key (fid set : Z) (ts_hash : option bytes) : bytes :=
  make_user_key fid ++ [set] ++ match ts_hash with Some t => t | None => [] end.

Definition make_cast_id_key (cast_id : CastId) : bytes := make_fid_key (wrap 32 (cast_fid cast_id)) ++ cast_hash cast_id.

(** The iteration over the keys with a prefix. *)
Class PrefixIteration (T : Type) := prefix_items : T -> bytes -> PageOptions -> list (bytes * bytes).

(** The items of a map whose keys have a prefix, ascending. *)
Definition prefix_range (m : gmap bytes bytes) (prefix : bytes) : list (bytes * bytes) :=
  merge_sort kv_le (filter (fun kv => prefix `prefix_of` kv.1) (map_to_list m)).

(** What [rocksdb.rs] says of the iterations over a prefix: they visit all keys
    with the prefix, until the callback stops them; forwards, without a page
    token. *)
Class PrefixIterationLaws (T : Type) `{TransactionDBLaws T} `{PrefixIteration T} : Prop := {
  prefix_items_forward t prefix size :
    prefix_items t prefix (mkPageOptions size None false) = prefix_range (tdb_map t) prefix;
}.

Lemma elem_of_prefix_range m prefix kv :
  kv ∈ prefix_range m prefix <-> m !! kv.1 = Some kv.2 /\ prefix `prefix_of` kv.1.
Proof.
  unfold prefix_range. rewrite (merge_sort_Permutation kv_le), list_elem_of_filter.
  destruct kv as [k v]. rewrite elem_of_map_to_list. naive_solver.
Qed.

Lemma prefix_range_sorted m prefix : StronglySorted kv_lt (prefix_range m prefix).
Proof.
  apply kv_le_sorted_strict; [apply StronglySorted_merge_sort; apply _|]. unfold prefix_range.
  rewrite (merge_sort_Permutation kv_le). eapply sublist_NoDup; [apply (NoDup_fst_map_to_list m)|].
  apply fmap_sublist, sublist_filter.
Qed.

(** With a token this one visits nothing, like the iterations of
    [rocksdb.rs]. *)
#[export] Instance gmap_PrefixIteration : PrefixIteration (gmap bytes bytes) := fun m prefix po =>
  match page_token po with
  | None => if reverse_ po then reverse (prefix_range m prefix) else prefix_range m prefix
  | Some _ => []
  end.
#[export] Instance gmap_PrefixIterationLaws : PrefixIterationLaws (gmap bytes bytes).
Proof. by split. Qed.

Section Messages.
Context {T : Type} `{TransactionDB T} `{!PrefixIteration T} `{!Codec Message, !Codec MessageData}.

(** The callback stops the iteration with [true]. *)
Fixpoint prefix_loop {A E} (f : bytes -> bytes -> ST A E bool) (items : list (bytes * bytes)) : ST A E unit :=
  match items with
  | [] => st_ret tt
  | (key, value) :: items' => (let! stop := f key value in if stop then st_ret tt else prefix_loop f items')%st
  end.

Definition for_each_prefix {A E} (d : RocksDB T) (prefix : bytes) (page_options : PageOptions)
    (f : bytes -> bytes -> ST A E bool) : ST A E unit :=
  match db d with
  | None => st_lift Panic
  | Some t => prefix_loop f (prefix_items t prefix page_options)
  end.

(** A message with the original bytes of its data is stored without the
    decoded data. *)
Definition has_data_bytes (m : Message) : bool :=
  match data_bytes m with Some b => 0 <? length b | None => false end.

Definition set_data (d : option MessageData) (m : Message) : Message :=
  mkMessage d (msg_hash m) (hash_scheme m) (signature m) (signature_scheme m) (signer m) (data_bytes m).

Definition message_encode (m : Message) : bytes :=
  if has_data_bytes m then encode_to_vec (set_data None m) else encode_to_vec m.

Definition message_decode (b : bytes) : result HubError Message :=
  match decode b with
  | Ok msg =>
      Ok (match data msg, data_bytes msg with
          | None, Some db =>
              if 0 <? length db then
                match decode db with Ok msg_data => set_data (Some msg_data) msg | _ => msg end
              else msg
          | _, _ => msg
          end)
  | _ => Err (internal_db_error "could not decode message")
  end.

Definition get_message (d : RocksDB T) (fid set : Z) (ts_hash : bytes) : result HubError (option Message) :=
  let key := make_message_primary_key fid set (Some ts_hash) in
  o ← map_err rocksdb_to_hub_error (RocksDB_get d key);
  match o with
  | Some b =>
      match message_decode b with
      | Ok message => Ok (Some message)
      | _ => Err (internal_db_error "could not decode message")
      end
  | None => Ok None
  end.

(** [if let Ok(Some(value)) = db.get(&key)]: an error counts as absent, a
    closed database panics. *)
Fixpoint get_many_messages_as_bytes (d : RocksDB T) (primary_keys : list bytes) : result HubError (list bytes) :=
  match primary_keys with
  | [] => Ok []
  | key :: keys =>
      match RocksDB_get d key with
      | Ok (Some value) => values ← get_many_messages_as_bytes d keys; Ok (value :: values)
      | Ok None | Err _ => Err (not_found "could not get message with key: {:?}")
      | Panic => Panic
      | OutOfFuel => OutOfFuel
      end
  end.

(** The callback of [get_messages_page_by_prefix]: the messages and the last
    key so far. *)
Definition messages_page_callback (page_options : PageOptions) (filter : Message -> bool) (key value : bytes) :
    ST (list bytes * bytes) HubError bool := fun s =>
  match message_decode value with
  | Ok message =>
      if filter message then
        let messages_bytes := s.1 ++ [value] in
        if default ACCOUNT_PAGE_SIZE_MAX (page_size page_options) <=? length messages_bytes
        then (Ok true, (messages_bytes, key))
        else (Ok false, (messages_bytes, s.2))
      else (Ok false, s)
  | _ => (Err (internal_db_error "could not decode message: {}"), s)
  end.

Definition get_messages_page_by_prefix (d : RocksDB T) (prefix : bytes) (page_options : PageOptions)
    (filter : Message -> bool) : result HubError MessagesPage :=
  match for_each_prefix d prefix page_options (messages_page_callback page_options filter) ([], []) with
  | (Ok _, (messages_bytes, last_key)) =>
      Ok (mkMessagesPage messages_bytes
            (if 0 <? length last_key then Some (drop (length prefix) last_key) else None))
  | (Err e, _) => Err e
  | (Panic, _) => Panic
  | (OutOfFuel, _) => OutOfFuel
  end.

(** The primary key of a message; a message without data, of an unknown type
    or of a type that is not stored makes it panic. *)
Definition message_key (m : Message) : result HubError bytes :=
  d ← unwrap (data m);
  ts_hash ← make_ts_hash (timestamp d) (msg_hash m);
  t ← unwrap (message_type_try_from (msg_type d));
  postfix ← type_to_set_postfix t;
  Ok (make_message_primary_key (wrap 32 (fid d)) (user_postfix_u8 postfix) (Some ts_hash)).

Definition put_message_transaction (txn : RocksDbTransactionBatch) (m : Message) :
    result HubError RocksDbTransactionBatch :=
  primary_key ← message_key m; Ok (Batch.put txn primary_key (message_encode m)).

Definition delete_message_transaction (txn : RocksDbTransactionBatch) (m : Message) :
    result HubError RocksDbTransactionBatch :=
  primary_key ← message_key m; Ok (Batch.delete txn primary_key).

Definition is_message_in_time_range (start_time stop_time : option Z) (m : Message) : bool :=
  let start_time := default 0%Z start_time in
  let stop_time := default (2 ^ 32 - 1)%Z stop_time in
  match data m with
  | None => false
  | Some data => (start_time <=? timestamp data)%Z && (timestamp data <=? stop_time)%Z
  end.

End Messages.
