(* ===== verification/Events.v ===== *)
(** * The event log of the account stores

    [src/storage/store/account/store_event_handler.rs]: every change of an
    account store puts an event into the same transaction, under an id made of
    the time in milliseconds and a sequence number. The event messages are
    generated code outside the repository's sources: [HubEvent] has what the
    stores put into them, its encoding is a [Codec]. *)

From S2P Require Import Prelude Util Db Proto.

Definition TIMESTAMP_BITS : Z := 41.
Definition SEQUENCE_BITS : Z := 12.

(** [FARCASTER_EPOCH] of this file, in milliseconds. *)
Definition FARCASTER_EPOCH_MS : Z := 1609459200000.

Inductive HubEventType := RevokeMessage | MergeMessage | PruneMessage | MergeUsernameProof.

Inductive HubEventBody :=
| RevokeMessageBody (m : option Message)
| MergeMessageBody (m : option Message) (deleted_messages : list Message)
| PruneMessageBody (m : option Message)
| MergeUsernameProofBody (username_proof deleted_username_proof : option UserNameProof)
    (username_proof_message deleted_username_proof_message : option Message).

Record HubEvent := mkHubEvent { event_type : HubEventType; event_body : option HubEventBody; event_id : Z }.

Definition set_event_id (id : Z) (e : HubEvent) : HubEvent := mkHubEvent (event_type e) (event_body e) id.

(** [<<] on [u64] drops the bits above. *)
Definition make_event_id (timestamp seq : Z) : Z :=
  let shifted_timestamp := wrap 64 (Z.shiftl timestamp SEQUENCE_BITS) in
  let padded_seq := Z.land seq (Z.shiftl 1 SEQUENCE_BITS - 1) in
  Z.lor shifted_timestamp padded_seq.

Record HubEventIdGenerator := mkGenerator { last_timestamp : Z; last_seq : Z; epoch : Z }.

Definition generator_new (epoch last_timestamp last_seq : option Z) : HubEventIdGenerator :=
  mkGenerator (default 0%Z last_timestamp) (default 0%Z last_seq) (default 0%Z epoch).

(** [generate_id]; [now] is the clock in milliseconds. *)
Definition generate_id (now : Z) (current_timestamp : option Z) : ST HubEventIdGenerator HubError Z :=
  (let! g := st_get in
   let! current_timestamp := st_lift (sub_u (default now current_timestamp) (epoch g)) in
   (if (current_timestamp =? last_timestamp g)%Z then
      let! seq := st_lift (add_u 64 (last_seq g) 1) in
      st_put (mkGenerator (last_timestamp g) seq (epoch g))
    else st_put (mkGenerator current_timestamp 0 (epoch g))) ;;;
   let! g := st_get in
   if (2 ^ TIMESTAMP_BITS <=? last_timestamp g)%Z then st_lift (Err (invalid_parameter "timestamp > {} bits"))
   else if (2 ^ SEQUENCE_BITS <=? last_seq g)%Z then st_lift (Err (invalid_parameter "sequence > {} bits"))
   else st_ret (make_event_id (last_timestamp g) (last_seq g)))%st.

(** [StoreEventHandler] is its generator. *)
Definition handler_new (epoch last_timestamp last_seq : option Z) : HubEventIdGenerator :=
  generator_new (Some (default FARCASTER_EPOCH_MS epoch)) last_timestamp last_seq.

Definition make_event_key (event_id : Z) : bytes := root_prefix_u8 HubEvents :: be_bytes 8 event_id.

Section Handler.
Context `{!Codec HubEvent}.

Definition put_event_transaction (txn : RocksDbTransactionBatch) (event : HubEvent) : RocksDbTransactionBatch :=
  Batch.put txn (make_event_key (event_id event)) (encode_to_vec event).

(** [commit_transaction] answers the id and the transaction with the event. *)
Definition commit_transaction (now : Z) (txn : RocksDbTransactionBatch) (raw_event : HubEvent) :
    ST HubEventIdGenerator HubError (Z * RocksDbTransactionBatch) :=
  (let! event_id := generate_id now None in
   let raw_event := set_event_id event_id raw_event in
   st_ret (event_id, put_event_transaction txn raw_event))%st.

End Handler.

(** ** Farcaster time, of [utils.rs]: seconds since the epoch *)
Definition to_farcaster_time (time_ms : Z) : result HubError Z :=
  if (time_ms <? FARCASTER_EPOCH_MS)%Z
  then Err (invalid_parameter "time_ms is before the farcaster epoch: {}")
  else
    let seconds_since_epoch := ((time_ms - FARCASTER_EPOCH_MS) / 1000)%Z in
    if (2 ^ 32 - 1 <? seconds_since_epoch)%Z then Err (invalid_parameter "time too far in future: {}")
    else Ok seconds_since_epoch.

(** The product and the sum panic beyond 64 bits. *)
Definition from_farcaster_time (time : Z) : result HubError Z :=
  if (time * 1000 <? 2 ^ 64)%Z then add_u 64 (time * 1000) FARCASTER_EPOCH_MS else Panic.

(** [now] is the clock in milliseconds, which is cast to 64 bits. *)
Definition get_farcaster_time (now : Z) : result HubError Z := to_farcaster_time (wrap 64 now).

(** ** Lemmas *)

(** The ids of a run of the generator, at the given readings of the clock. *)
Fixpoint generate_all (times : list Z) (g : HubEventIdGenerator) : list (result HubError Z) * HubEventIdGenerator :=
  match times with
  | [] => ([], g)
  | t :: times' =>
      let (r, g') := generate_id t None g in
      let (rs, g'') := generate_all times' g' in (r :: rs, g'')
  end.

Definition ok_ids (rs : list (result HubError Z)) : list Z := omap (fun r => match r with Ok id => Some id | _ => None end) rs.

Lemma make_event_id_value ts seq :
  (0 <= ts < 2 ^ 41)%Z -> (0 <= seq < 2 ^ 12)%Z -> make_event_id ts seq = (ts * 4096 + seq)%Z.
Proof.
  intros Ht Hs. unfold make_event_id, SEQUENCE_BITS, wrap.
  rewrite Z.shiftl_mul_pow2 by lia. change (Z.shiftl 1 12 - 1)%Z with (Z.ones 12). rewrite Z.land_ones by lia.
  rewrite (Z.mod_small seq) by lia. rewrite Z.mod_small by lia. change (2 ^ 12)%Z with 4096%Z in *.
  assert (E : Z.land (ts * 4096) seq = 0%Z).
  { apply Z.bits_inj'. intros n Hn. rewrite Z.land_spec, Z.bits_0. change 4096%Z with (2 ^ 12)%Z.
    destruct (decide (n < 12)%Z) as [Hlt|Hge]; [by rewrite Z.mul_pow2_bits_low|].
    rewrite (Z.bits_above_log2 seq n); [by rewrite andb_false_r|lia|].
    destruct (decide (seq = 0)%Z) as [->|Hne]; [simpl; lia|]. apply Z.log2_lt_pow2; [lia|].
    eapply Z.lt_le_trans; [apply Hs|]. apply (Z.pow_le_mono_r 2 12); lia. }
  pose proof (Z.add_lor_land (ts * 4096) seq) as Ha. lia.
Qed.

(** The sequence number after an event at time [ts]. *)
Definition next_seq (g : HubEventIdGenerator) (ts : Z) : Z := if (ts =? last_timestamp g)%Z then (last_seq g + 1)%Z else 0%Z.

Lemma generate_step t g :
  (epoch g <= t)%Z -> (0 <= last_seq g)%Z -> (last_seq g + 1 < 2 ^ 64)%Z ->
  let ts := (t - epoch g)%Z in
  generate_id t None g =
  ((if (2 ^ 41 <=? ts)%Z then Err (invalid_parameter "timestamp > {} bits")
    else if (2 ^ 12 <=? next_seq g ts)%Z then Err (invalid_parameter "sequence > {} bits")
    else Ok (make_event_id ts (next_seq g ts))),
   mkGenerator ts (next_seq g ts) (epoch g)).
Proof.
  intros Ht Hs Hb ts. unfold generate_id, st_bind, st_get, st_lift, st_put, st_ret, sub_u, default. simpl.
  rewrite (proj2 (Z.ltb_ge _ _)) by done. fold ts. unfold next_seq, add_u, TIMESTAMP_BITS, SEQUENCE_BITS.
  destruct (ts =? last_timestamp g)%Z eqn:E.
  - rewrite (proj2 (Z.ltb_lt _ _)) by done. apply Z.eqb_eq in E. simpl. rewrite E. by repeat case_match.
  - simpl. by repeat case_match.
Qed.

(** Ids that were given out lie below this bound. *)
Definition id_floor (g : HubEventIdGenerator) : Z := (last_timestamp g * 4096 + Z.min (last_seq g) 4095)%Z.

Lemma generate_all_spec times g :
  StronglySorted Z.le times -> Forall (fun t => epoch g + last_timestamp g <= t)%Z times ->
  (0 <= last_timestamp g)%Z -> (0 <= last_seq g)%Z -> (last_seq g + Z.of_nat (length times) < 2 ^ 64)%Z ->
  let rs := (generate_all times g).1 in
  StronglySorted Z.lt (ok_ids rs) /\ Forall (fun id => id_floor g < id < 2 ^ 53)%Z (ok_ids rs) /\
  Forall (fun r => r ≠ Panic /\ r ≠ OutOfFuel) rs /\
  Forall (fun id => exists t, t ∈ times /\ id / 4096 = t - epoch g)%Z (ok_ids rs).
Proof.
  revert g. induction times as [|t times IH]; intros g Hsort Hfa Hts Hseq Hlen.
  { simpl. split_and!; by constructor. }
  apply StronglySorted_cons in Hsort as [Hle Hsort]. apply Forall_cons in Hfa as [Ht Hfa]. simpl length in Hlen.
  simpl generate_all. rewrite generate_step by lia. set (ts := (t - epoch g)%Z).
  set (g' := mkGenerator ts (next_seq g ts) (epoch g)).
  assert (Hn : (0 <= next_seq g ts <= last_seq g + 1)%Z) by (unfold next_seq; case_match; lia).
  destruct (IH g') as (I1 & I2 & I3 & I4); [done| |simpl; lia|simpl; lia|simpl; lia|].
  { simpl. eapply Forall_impl; [exact Hle|]. simpl. intros x Hx. unfold ts. lia. }
  destruct (generate_all times g') as [rs g'']. simpl in I1, I2, I3, I4 |- *.
  assert (Hfl : (id_floor g <= id_floor g')%Z).
  { unfold id_floor, g', next_seq. simpl. destruct (ts =? last_timestamp g)%Z eqn:E; [apply Z.eqb_eq in E; lia|].
    apply Z.eqb_neq in E. unfold ts in *. lia. }
  assert (Hrest : Forall (fun id => id_floor g < id < 2 ^ 53)%Z (ok_ids rs)) by (eapply Forall_impl; [exact I2|]; simpl; lia).
  assert (Hrest4 : Forall (fun id => exists t', t' ∈ t :: times /\ id / 4096 = t' - epoch g)%Z (ok_ids rs)).
  { eapply Forall_impl; [exact I4|]. simpl. intros id (t' & Hin & E). exists t'. split; [by right|done]. }
  destruct (2 ^ 41 <=? ts)%Z eqn:E1; [|destruct (2 ^ 12 <=? next_seq g ts)%Z eqn:E2].
  - split_and!; try done. by constructor.
  - split_and!; try done. by constructor.
  - apply Z.leb_gt in E1, E2. simpl ok_ids. rewrite make_event_id_value by (unfold ts in *; lia).
    change (2 ^ 12)%Z with 4096%Z in E2. change (2 ^ 41)%Z with 2199023255552%Z in E1.
    assert (Hid : (id_floor g < ts * 4096 + next_seq g ts < 2 ^ 53)%Z).
    { unfold id_floor, next_seq in *. destruct (ts =? last_timestamp g)%Z eqn:E; [apply Z.eqb_eq in E; lia|].
      apply Z.eqb_neq in E. unfold ts in *. lia. }
    split_and!.
    + constructor; [done|]. eapply Forall_impl; [exact I2|]. unfold id_floor, g'. simpl. lia.
    + by constructor.
    + by constructor.
    + constructor; [|done]. exists t. split; [by left|]. rewrite Z.div_add_l by lia. rewrite Z.div_small by lia. unfold ts. lia.
Qed.

(** The number of an event of time [t] in its millisecond, after the events of
    the times [before]: those of the same time, and those that the generator
    gave out before. *)
Definition seq_at (g : HubEventIdGenerator) (before : list Z) (t : Z) : Z :=
  (next_seq g (t - epoch g) + Z.of_nat (length (filter (fun x => x = t) before)))%Z.

(** The outcome for that event: an id of the time and the number, unless one of
    them has too many bits. *)
Definition id_at (g : HubEventIdGenerator) (before : list Z) (t : Z) : result HubError Z :=
  if (2 ^ 41 <=? t - epoch g)%Z then Err (invalid_parameter "timestamp > {} bits")
  else if (4096 <=? seq_at g before t)%Z then Err (invalid_parameter "sequence > {} bits")
  else Ok ((t - epoch g) * 4096 + seq_at g before t)%Z.

(** After an event the generator counts on from it. *)
Lemma seq_at_cons g t before t' :
  (epoch g + last_timestamp g <= t)%Z -> (t <= t')%Z ->
  seq_at (mkGenerator (t - epoch g) (next_seq g (t - epoch g)) (epoch g)) before t' = seq_at g (t :: before) t'.
Proof.
  intros Hg Ht. unfold seq_at. rewrite filter_cons. unfold next_seq at 1. simpl.
  destruct (Z.eqb_spec (t' - epoch g) (t - epoch g)) as [E|E]; case_decide; try lia.
  - subst t'. simpl. lia.
  - unfold next_seq. destruct (Z.eqb_spec (t' - epoch g) (last_timestamp g)); lia.
Qed.

Lemma generate_all_lookup times g i t :
  StronglySorted Z.le times -> Forall (fun t => epoch g + last_timestamp g <= t)%Z times ->
  (0 <= last_timestamp g)%Z -> (0 <= last_seq g)%Z -> (last_seq g + Z.of_nat (length times) < 2 ^ 64)%Z ->
  times !! i = Some t -> (generate_all times g).1 !! i = Some (id_at g (take i times) t).
Proof.
  revert g i. induction times as [|t0 times IH]; intros g i Hsort Hfa Hts Hseq Hlen Hi; [done|].
  apply StronglySorted_cons in Hsort as [Hle Hsort]. apply Forall_cons in Hfa as [Ht Hfa]. simpl length in Hlen.
  simpl generate_all. rewrite generate_step by lia. set (ts := (t0 - epoch g)%Z).
  assert (Hn : (0 <= next_seq g ts <= last_seq g + 1)%Z) by (unfold next_seq; case_match; lia).
  specialize (IH (mkGenerator ts (next_seq g ts) (epoch g))).
  destruct (generate_all times (mkGenerator ts (next_seq g ts) (epoch g))) as [rs g'']. simpl in IH |- *.
  destruct i as [|i]; simpl in Hi |- *.
  - injection Hi as ->. unfold id_at, seq_at. simpl. fold ts. rewrite Z.add_0_r. change (2 ^ 12)%Z with 4096%Z.
    destruct (Z.leb_spec (2 ^ 41) ts); [done|]. destruct (Z.leb_spec 4096 (next_seq g ts)); [done|].
    by rewrite make_event_id_value by (unfold ts in *; lia).
  - assert (Hlast : (t0 <= t)%Z) by (rewrite Forall_forall in Hle; by eapply Hle, list_elem_of_lookup_2).
    rewrite (IH i); [|done| |unfold ts; lia|lia|lia|done].
    + unfold id_at, ts. simpl epoch. by rewrite seq_at_cons.
    + eapply Forall_impl; [exact Hle|]. simpl. intros x Hx. unfold ts. lia.
Qed.

Lemma make_event_key_lt id1 id2 :
  (0 <= id1 < 2 ^ 64)%Z -> (0 <= id2 < 2 ^ 64)%Z -> (id1 < id2)%Z -> bytes_lt (make_event_key id1) (make_event_key id2).
Proof.
  intros H1 H2 Hlt. unfold bytes_lt, make_event_key.
  change (lex_compare ([root_prefix_u8 HubEvents] ++ be_bytes 8 id1) ([root_prefix_u8 HubEvents] ++ be_bytes 8 id2) = Lt). rewrite lex_compare_app_l.
  rewrite lex_compare_be_value by (apply be_bytes_is_bytes || by rewrite !length_be_bytes).
  rewrite !be_value_be_bytes by (change (256 ^ Z.of_nat 8)%Z with (2 ^ 64)%Z; lia). by apply Z.compare_lt_iff.
Qed.

Lemma event_keys_sorted ids lo :
  StronglySorted Z.lt ids -> Forall (fun id => lo < id < 2 ^ 53)%Z ids -> (0 <= lo)%Z ->
  StronglySorted bytes_lt (map make_event_key ids).
Proof.
  induction 1 as [|id ids Hs IH Hlt]; intros Hb Hlo; simpl; constructor.
  - apply IH; [by apply Forall_cons in Hb as [_ Hb]|done].
  - apply Forall_cons in Hb as [Hid Hb]. pose proof (proj1 (List.Forall_forall _ _) Hlt) as Hlt2.
    pose proof (proj1 (List.Forall_forall _ _) Hb) as Hb2. apply List.Forall_forall. intros k. rewrite in_map_iff.
    intros (id' & <- & Hin). specialize (Hlt2 id' Hin). specialize (Hb2 id' Hin). simpl in *. apply make_event_key_lt; lia.
Qed.

Lemma to_farcaster_time_ok x t : (0 <= t < 2 ^ 32)%Z -> ((x - FARCASTER_EPOCH_MS) / 1000 = t)%Z -> to_farcaster_time x = Ok t.
Proof.
  intros Ht E. unfold to_farcaster_time. rewrite (proj2 (Z.ltb_ge x _)), E, (proj2 (Z.ltb_ge _ t)); [done|lia|].
  destruct (Z.le_gt_cases FARCASTER_EPOCH_MS x) as [|Hlt]; [done|].
  assert ((x - FARCASTER_EPOCH_MS) / 1000 < 0)%Z by (apply Z.div_lt_upper_bound; lia). lia.
Qed.

Lemma to_farcaster_time_err x :
  (exists e, to_farcaster_time x = Err e) <-> (x < FARCASTER_EPOCH_MS \/ FARCASTER_EPOCH_MS + 2 ^ 32 * 1000 <= x)%Z.
Proof.
  unfold to_farcaster_time. destruct (Z.ltb_spec x FARCASTER_EPOCH_MS); [split; [auto|by eexists]|].
  destruct (Z.ltb_spec (2 ^ 32 - 1) ((x - FARCASTER_EPOCH_MS) / 1000)) as [Hlt|Hge].
  - split; [|by eexists]. intros _. right. apply Z.lt_pred_le in Hlt. change (Z.pred (2 ^ 32))%Z with (2 ^ 32 - 1)%Z in Hlt.
    pose proof (Z.mul_div_le (x - FARCASTER_EPOCH_MS) 1000). lia.
  - split; [by intros [e [=]]|]. intros [?|Hx]; [lia|].
    assert (2 ^ 32 <= (x - FARCASTER_EPOCH_MS) / 1000)%Z by (apply Z.div_le_lower_bound; lia). lia.
Qed.

(** ** Properties *)

(** Farcaster time counts seconds: every 32-bit time survives the way to
    milliseconds and back, every clock reading is rounded down to its second,
    and readings before the epoch or 2^32 seconds after it are errors, never a
    wrapped value. *)
Theorem farcaster_time_roundtrip (t ms : Z) (Ht : (0 <= t < 2 ^ 32)%Z) (Hms : (0 <= ms < 1000)%Z) :
  exists now, from_farcaster_time t = Ok now /\ to_farcaster_time now = Ok t /\ to_farcaster_time (now + ms) = Ok t /\
  forall x, (exists e, to_farcaster_time x = Err e) <->
    (x < FARCASTER_EPOCH_MS \/ FARCASTER_EPOCH_MS + 2 ^ 32 * 1000 <= x)%Z.
Proof.
  exists (t * 1000 + FARCASTER_EPOCH_MS)%Z.
  assert (Hto : forall d, (0 <= d < 1000)%Z -> to_farcaster_time (t * 1000 + FARCASTER_EPOCH_MS + d) = Ok t).
  { intros d Hd. apply to_farcaster_time_ok; [lia|]. rewrite Z.add_shuffle0, Z.add_simpl_r, Z.div_add_l, (Z.div_small d) by lia. lia. }
  split; [|split; [by rewrite <- (Hto 0%Z), Z.add_0_r by lia|split; [by apply Hto|apply to_farcaster_time_err]]].
  unfold from_farcaster_time, add_u. rewrite (proj2 (Z.ltb_lt (t * 1000) _)) by lia.
  rewrite (proj2 (Z.ltb_lt _ _)); [done|]. unfold FARCASTER_EPOCH_MS. lia.
Qed.

Lemma farcaster_time_roundtrip_witness : to_farcaster_time 1609459201999 = Ok 1%Z.
Proof.
  destruct (farcaster_time_roundtrip 1 999) as (now & E & _ & Hto & _); [lia|lia|].
  vm_compute in E. injection E as <-. exact Hto.
Defined.

(** C39. The event log is ordered: while the clock does not go back, the ids of
    the events strictly increase, later than every id before, and the rows of
    the log are in the order of the events; no call panics. The outcome of each
    event is exact: its id is its time and its number among the events of its
    millisecond, which starts again at 0 in every new one, and an event gets
    none only if its time needs more than 41 bits or 4096 events of its
    millisecond came before it. *)
Theorem event_ids_increase (times : list Z) (g : HubEventIdGenerator)
    (Hsort : StronglySorted Z.le times) (Hclock : Forall (fun t => epoch g + last_timestamp g <= t)%Z times)
    (Hts : (0 <= last_timestamp g)%Z) (Hseq : (0 <= last_seq g)%Z)
    (Hlen : (last_seq g + Z.of_nat (length times) < 2 ^ 64)%Z) :
  let ids := ok_ids (generate_all times g).1 in
  StronglySorted Z.lt ids /\ StronglySorted bytes_lt (map make_event_key ids) /\
  Forall (fun id => id_floor g < id)%Z ids /\
  Forall (fun id => exists t, t ∈ times /\ id / 4096 = t - epoch g)%Z ids /\
  Forall (fun r => r ≠ Panic /\ r ≠ OutOfFuel) (generate_all times g).1 /\
  (forall (i : nat) (t : Z), times !! i = Some t -> (generate_all times g).1 !! i = Some (id_at g (take i times) t)).
Proof.
  destruct (generate_all_spec times g Hsort Hclock Hts Hseq Hlen) as (H1 & H2 & H3 & H4). split_and!; try done.
  - eapply event_keys_sorted; [done|exact H2|]. unfold id_floor. lia.
  - eapply Forall_impl; [exact H2|]. simpl. lia.
  - intros i t. by apply generate_all_lookup.
Qed.

(** The third event has a new millisecond and the number 0. *)
Lemma event_ids_increase_witness :
  (generate_all [1609459200005; 1609459200005; 1609459200009]%Z (handler_new None None None)).1 !! 2 = Some (Ok (9 * 4096)%Z).
Proof.
  apply (event_ids_increase [1609459200005; 1609459200005; 1609459200009]%Z (handler_new None None None)) with (i := 2) (t := 1609459200009%Z).
  - repeat constructor; vm_compute; discriminate.
  - repeat constructor; vm_compute; discriminate.
  - vm_compute. discriminate.
  - vm_compute. discriminate.
  - vm_compute. reflexivity.
  - reflexivity.
Defined.
