(* ===== verification/Store.v ===== *)
(** * The generic account store

    [src/storage/store/account/store.rs]: a store of add and remove messages
    of users, the same code for casts, links, reactions, verifications, user
    data and username proofs. [StoreDef] is the trait that makes the
    difference: message types, keys, secondary indices, the order of
    conflicting messages. The functions that Node.js calls are in
    [Bindings.v]. *)

From S2P Require Import Prelude Util Db Proto AccountMessage Events.

(** [v[from..to]] *)
Definition slice {E} (v : bytes) (from to : nat) : result E bytes :=
  if to <=? length v then Ok (take (to - from) (drop from v)) else Panic.

(** The trait, up to [get_merge_conflicts]. *)
Class StoreDefBase (T : Type) := {
  postfix : Z;
  add_message_type : Z;
  remove_message_type : Z;
  compact_state_message_type : Z;
  is_add_type : Message -> bool;
  is_remove_type : Message -> bool;
  remove_type_supported : bool;
  is_compact_state_type : Message -> bool;
  compact_state_type_supported : bool;
  build_secondary_indices : RocksDbTransactionBatch -> bytes -> Message -> result HubError RocksDbTransactionBatch;
  delete_secondary_indices : RocksDbTransactionBatch -> bytes -> Message -> result HubError RocksDbTransactionBatch;
  delete_remove_secondary_indices : RocksDbTransactionBatch -> Message -> result HubError RocksDbTransactionBatch;
  find_merge_add_conflicts : RocksDB T -> Message -> result HubError unit;
  find_merge_remove_conflicts : RocksDB T -> Message -> result HubError unit;
  make_add_key : Message -> result HubError bytes;
  make_remove_key : Message -> result HubError bytes;
  make_compact_state_add_key : Message -> result HubError bytes;
  make_compact_state_prefix : Z -> result HubError bytes;
  get_prune_size_limit : Z;
  message_compare : Z -> bytes -> Z -> bytes -> result HubError Z;
  revoke_event_args : Message -> HubEvent;
  merge_event_args : Message -> list Message -> HubEvent;
  prune_event_args : Message -> HubEvent;
}.

(** ** The default methods *)
Definition default_type_supported (message_type : Z) : bool := negb (message_type =? message_type_i32 MT_None)%Z.

Definition default_message_compare (remove_message_type add_message_type : Z) (a_type : Z) (a_ts_hash : bytes)
    (b_type : Z) (b_ts_hash : bytes) : result HubError Z :=
  ts_a ← slice a_ts_hash 0 4;
  ts_b ← slice b_ts_hash 0 4;
  let ts_compare := bytes_compare ts_a ts_b in
  if negb (ts_compare =? 0)%Z then Ok ts_compare
  else if (a_type =? remove_message_type)%Z && (b_type =? add_message_type)%Z then Ok 1%Z
  else if (a_type =? add_message_type)%Z && (b_type =? remove_message_type)%Z then Ok (-1)%Z
  else
    rest_a ← slice a_ts_hash 4 24;
    rest_b ← slice b_ts_hash 4 24;
    Ok (bytes_compare rest_a rest_b).

Definition default_revoke_event_args (m : Message) : HubEvent :=
  mkHubEvent RevokeMessage (Some (RevokeMessageBody (Some m))) 0.

Definition default_merge_event_args (compact_state_message_type : Z) (m : Message) (merge_conflicts : list Message) :
    HubEvent :=
  mkHubEvent MergeMessage
    (Some (MergeMessageBody (Some m)
             match data m with
             | Some data => if (msg_type data =? compact_state_message_type)%Z then [] else merge_conflicts
             | None => []
             end)) 0.

Definition default_prune_event_args (m : Message) : HubEvent :=
  mkHubEvent PruneMessage (Some (PruneMessageBody (Some m))) 0.

Section Default.
Context {T : Type} `{TransactionDB T} `{!Codec Message, !Codec MessageData} `{!StoreDefBase T}.

(** What [get_default_merge_conflicts] does for a row with the ts_hash of an
    earlier message: a later or equal one is an error, an earlier one is
    loaded to be deleted. *)
Definition existing_conflict (d : RocksDB T) (m : Message) (ts_hash : bytes) (existing_type : Z) (key : bytes)
    (conflict : string) : result HubError (list Message) :=
  existing ← map_err rocksdb_to_hub_error (RocksDB_get d key);
  match existing with
  | None => Ok []
  | Some existing_ts_hash =>
      data ← unwrap (data m);
      compare ← message_compare existing_type existing_ts_hash (wrap 8 (msg_type data)) ts_hash;
      if (0 <? compare)%Z then Err (mkHubError "bad_request.conflict" conflict)
      else if (compare =? 0)%Z then Err (mkHubError "bad_request.duplicate" "message has already been merged")
      else
        h ← vec_to_u8_24 (Some existing_ts_hash);
        maybe_existing ← get_message d (wrap 32 (fid data)) postfix h;
        Ok (match maybe_existing with Some m' => [m'] | None => [] end)
  end.

Definition get_default_merge_conflicts (d : RocksDB T) (m : Message) (ts_hash : bytes) :
    result HubError (list Message) :=
  _ ← (if is_add_type m then find_merge_add_conflicts d m else find_merge_remove_conflicts d m);
  removes ← (if remove_type_supported then
               remove_key ← make_remove_key m;
               existing_conflict d m ts_hash remove_message_type remove_key "message conflicts with a more recent remove"
             else Ok []);
  add_key ← make_add_key m;
  adds ← existing_conflict d m ts_hash add_message_type add_key "message conflicts with a more recent add";
  Ok (removes ++ adds).
End Default.

Class StoreDef (T : Type) := {
  store_def_base :: StoreDefBase T;
  get_merge_conflicts : RocksDB T -> Message -> bytes -> result HubError (list Message);
}.

Section Store.
Context {T : Type} `{TransactionDB T} `{!PrefixIteration T} `{!Codec Message, !Codec MessageData, !Codec HubEvent}
  `{!StoreDef T}.

(** [Store]: the database and the event handler; the locks serialize the
    merges of a user and have no state. *)
Record Store := mkStore { store_db : RocksDB T; store_event_handler : HubEventIdGenerator }.

Definition set_store_db (d : RocksDB T) (s : Store) : Store := mkStore d (store_event_handler s).

Definition new_with_store_def (d : RocksDB T) (handler : HubEventIdGenerator) : Store := mkStore d handler.

Definition fid_required : HubError := invalid_parameter "fid is required".
Definition remove_not_supported : HubError := validation_failure "remove type not supported".

(** The common part of [get_add] and [get_remove]. *)
Definition get_by_set_key (make_key : Message -> result HubError bytes) (partial_message : Message) (s : Store) :
    result HubError (option Message) :=
  match data partial_message with
  | None => Err fid_required
  | Some data =>
      if (fid data =? 0)%Z then Err fid_required
      else
        key ← make_key partial_message;
        message_ts_hash ← map_err rocksdb_to_hub_error (RocksDB_get (store_db s) key);
        match message_ts_hash with
        | None => Ok None
        | Some _ =>
            h ← vec_to_u8_24 message_ts_hash;
            get_message (store_db s) (wrap 32 (fid data)) postfix h
        end
  end.

Definition get_add (partial_message : Message) (s : Store) : result HubError (option Message) :=
  get_by_set_key make_add_key partial_message s.

Definition get_remove (partial_message : Message) (s : Store) : result HubError (option Message) :=
  if negb remove_type_supported then Err remove_not_supported else get_by_set_key make_remove_key partial_message s.

(** The prefix of the messages of a user. *)
Definition fid_prefix (fid : Z) : bytes := make_message_primary_key fid postfix None.

Definition get_adds_by_fid (fid : Z) (page_options : PageOptions) (filter : option (Message -> bool)) (s : Store) :
    result HubError MessagesPage :=
  get_messages_page_by_prefix (store_db s) (fid_prefix fid) page_options
    (fun m => is_add_type m && match filter with Some f => f m | None => true end).

Definition get_removes_by_fid (fid : Z) (page_options : PageOptions) (filter : option (Message -> bool)) (s : Store) :
    result HubError MessagesPage :=
  if negb remove_type_supported then Err remove_not_supported
  else get_messages_page_by_prefix (store_db s) (fid_prefix fid) page_options
         (fun m => is_remove_type m && match filter with Some f => f m | None => true end).

Definition compact_not_supported : HubError := validation_failure "compact state type not supported".

Definition put_add_compact_state_transaction (txn : RocksDbTransactionBatch) (m : Message) :
    result HubError RocksDbTransactionBatch :=
  if negb compact_state_type_supported then Err compact_not_supported
  else
    compact_state_key ← make_compact_state_add_key m;
    Ok (Batch.put txn compact_state_key (message_encode m)).

Definition put_add_transaction (txn : RocksDbTransactionBatch) (ts_hash : bytes) (m : Message) :
    result HubError RocksDbTransactionBatch :=
  txn ← put_message_transaction txn m;
  adds_key ← make_add_key m;
  build_secondary_indices (Batch.put txn adds_key ts_hash) ts_hash m.

Definition delete_compact_state_transaction (txn : RocksDbTransactionBatch) (m : Message) :
    result HubError RocksDbTransactionBatch :=
  if negb compact_state_type_supported then Err compact_not_supported
  else compact_state_key ← make_compact_state_add_key m; Ok (Batch.delete txn compact_state_key).

Definition delete_add_transaction (txn : RocksDbTransactionBatch) (ts_hash : bytes) (m : Message) :
    result HubError RocksDbTransactionBatch :=
  txn ← delete_secondary_indices txn ts_hash m;
  add_key ← make_add_key m;
  delete_message_transaction (Batch.delete txn add_key) m.

Definition put_remove_transaction (txn : RocksDbTransactionBatch) (ts_hash : bytes) (m : Message) :
    result HubError RocksDbTransactionBatch :=
  if negb remove_type_supported then Err remove_not_supported
  else
    txn ← put_message_transaction txn m;
    removes_key ← make_remove_key m;
    Ok (Batch.put txn removes_key ts_hash).

Definition delete_remove_transaction (txn : RocksDbTransactionBatch) (m : Message) :
    result HubError RocksDbTransactionBatch :=
  if negb remove_type_supported then Err remove_not_supported
  else
    txn ← delete_remove_secondary_indices txn m;
    remove_key ← make_remove_key m;
    delete_message_transaction (Batch.delete txn remove_key) m.

(** One round of [delete_many_transaction]. *)
Definition delete_one_transaction (txn : RocksDbTransactionBatch) (m : Message) :
    result HubError RocksDbTransactionBatch :=
  txn ← (if is_compact_state_type m then delete_compact_state_transaction txn m
         else if is_add_type m then
           data ← unwrap (data m);
           ts_hash ← make_ts_hash (timestamp data) (msg_hash m);
           delete_add_transaction txn ts_hash m
         else Ok txn);
  if remove_type_supported && is_remove_type m then delete_remove_transaction txn m else Ok txn.

Fixpoint delete_many_transaction (txn : RocksDbTransactionBatch) (messages : list Message) :
    result HubError RocksDbTransactionBatch :=
  match messages with
  | [] => Ok txn
  | m :: messages => txn ← delete_one_transaction txn m; delete_many_transaction txn messages
  end.

(** The end of every change: the event goes into the transaction, which is
    committed; the answer is the encoded event. *)
Definition commit_with_event (now : Z) (txn : RocksDbTransactionBatch) (hub_event : HubEvent) :
    ST Store HubError bytes := fun s =>
  match commit_transaction now txn hub_event (store_event_handler s) with
  | (Ok (id, txn), g) =>
      match map_err rocksdb_to_hub_error (RocksDB_commit (store_db s) txn) with
      | Ok d => (Ok (encode_to_vec (set_event_id id hub_event)), mkStore d g)
      | Err e => (Err e, mkStore (store_db s) g)
      | Panic => (Panic, mkStore (store_db s) g)
      | OutOfFuel => (OutOfFuel, mkStore (store_db s) g)
      end
  | (Err e, g) => (Err e, mkStore (store_db s) g)
  | (Panic, g) => (Panic, mkStore (store_db s) g)
  | (OutOfFuel, g) => (OutOfFuel, mkStore (store_db s) g)
  end.

Definition read_compact_state_details (m : Message) : result HubError (Z * Z * list Z) :=
  match data m with
  | Some data =>
      match body data with
      | Some (LinkCompactStateBody_ link_compact_body) =>
          Ok (wrap 32 (fid data), timestamp data, target_fids link_compact_body)
      | _ => Err (validation_failure "Invalid compact state message: No link compact state body")
      end
  | None => Err (validation_failure "Invalid compact state message: no data")
  end.

(** The callback of [merge_compact_state]: the older messages that the compact
    state deletes. *)
Definition compact_callback (compact_state_timestamp : Z) (target_fids : list Z) (key value : bytes) :
    ST (list Message) HubError bool :=
  (let! m := st_lift (message_decode value) in
   let! data := st_lift (unwrap (data m)) in
   if (compact_state_timestamp <? timestamp data)%Z then st_ret true
   else
     (if is_remove_type m then st_modify (fun conflicts => conflicts ++ [m])
      else if is_add_type m then
        match body data with
        | Some (LinkBody_ link_body) =>
            match link_target link_body with
            | Some target_fid =>
                if bool_decide (target_fid ∈ target_fids) then st_ret tt
                else st_modify (fun conflicts => conflicts ++ [m])
            | None => st_ret tt
            end
        | _ => st_ret tt
        end
      else st_ret tt) ;;;
     st_ret false)%st.

Definition merge_compact_state (now : Z) (m : Message) : ST Store HubError bytes :=
  (let! s := st_get in
   let! compact_state_key := st_lift (make_compact_state_add_key m) in
   let! existing_compact_state := st_lift (map_err rocksdb_to_hub_error (RocksDB_get (store_db s) compact_state_key)) in
   let! merge_conflicts := st_lift
     match existing_compact_state with
     | None => Ok []
     | Some b =>
         match message_decode b with
         | Ok existing =>
             existing_data ← unwrap (data existing);
             data ← unwrap (data m);
             if (timestamp existing_data <? timestamp data)%Z then Ok [existing]
             else Err (mkHubError "bad_request.conflict" "A newer Compact State message is already merged")
         | _ => Ok []
         end
     end in
   let! (fid, compact_state_timestamp, target_fids) := st_lift (read_compact_state_details m) in
   let (r, merge_conflicts) :=
     for_each_prefix (store_db s) (fid_prefix fid) default_page_options
       (compact_callback compact_state_timestamp target_fids) merge_conflicts in
   let! _ := st_lift r in
   let! txn := st_lift (delete_many_transaction (txn (store_db s)) merge_conflicts) in
   let! txn := st_lift (put_add_compact_state_transaction txn m) in
   commit_with_event now txn (merge_event_args m merge_conflicts))%st.

(** The guard of [merge_add]: a message older than the compact state whose
    target is not among the targets of the compact state. *)
Definition check_add_compact_state (m : Message) (s : Store) : result HubError unit :=
  if compact_state_type_supported then
    compact_state_key ← make_compact_state_add_key m;
    compact_state ← map_err rocksdb_to_hub_error (RocksDB_get (store_db s) compact_state_key);
    match compact_state with
    | None => Ok tt
    | Some b =>
        compact_state_message ← message_decode b;
        details ← read_compact_state_details compact_state_message;
        data ← unwrap (data m);
        match body data with
        | Some (LinkBody_ link_body) =>
            match link_target link_body with
            | Some target_fid =>
                if (timestamp data <? details.1.2)%Z && negb (bool_decide (target_fid ∈ details.2))
                then Err (mkHubError "bad_request.conflict" "Target fid {} not in the compact state target fids")
                else Ok tt
            | None => Ok tt
            end
        | _ => Ok tt
        end
    end
  else Ok tt.

Definition merge_add (now : Z) (ts_hash : bytes) (m : Message) : ST Store HubError bytes :=
  (let! s := st_get in
   let! _ := st_lift (check_add_compact_state m s) in
   let! merge_conflicts := st_lift (get_merge_conflicts (store_db s) m ts_hash) in
   let! txn := st_lift (delete_many_transaction (txn (store_db s)) merge_conflicts) in
   let! txn := st_lift (put_add_transaction txn ts_hash m) in
   commit_with_event now txn (merge_event_args m merge_conflicts))%st.

(** The guard of [merge_remove]. *)
Definition check_remove_compact_state (m : Message) (s : Store) : result HubError unit :=
  if compact_state_type_supported then
    compact_state_key ← make_compact_state_add_key m;
    compact_state ← map_err rocksdb_to_hub_error (RocksDB_get (store_db s) compact_state_key);
    match compact_state with
    | None => Ok tt
    | Some b =>
        compact_state_message ← message_decode b;
        details ← read_compact_state_details compact_state_message;
        data ← unwrap (data m);
        if (timestamp data <? details.1.2)%Z
        then Err (mkHubError "bad_request.prunable"
                    "Remove message earlier than the compact state message will be immediately pruned")
        else Ok tt
    end
  else Ok tt.

Definition merge_remove (now : Z) (ts_hash : bytes) (m : Message) : ST Store HubError bytes :=
  (let! s := st_get in
   let! _ := st_lift (check_remove_compact_state m s) in
   let! merge_conflicts := st_lift (get_merge_conflicts (store_db s) m ts_hash) in
   let! txn := st_lift (delete_many_transaction (txn (store_db s)) merge_conflicts) in
   let! txn := st_lift (put_remove_transaction txn ts_hash m) in
   commit_with_event now txn (merge_event_args m merge_conflicts))%st.

Definition merge (now : Z) (m : Message) : ST Store HubError bytes :=
  (let! data := st_lift (unwrap (data m)) in
   if negb (is_add_type m) && negb (remove_type_supported && is_remove_type m)
        && negb (compact_state_type_supported && is_compact_state_type m)
   then st_lift (Err (validation_failure "invalid message type"))
   else
     let! ts_hash := st_lift (make_ts_hash (timestamp data) (msg_hash m)) in
     if is_compact_state_type m then merge_compact_state now m
     else if is_add_type m then merge_add now ts_hash m
     else merge_remove now ts_hash m)%st.

Definition revoke (now : Z) (m : Message) : ST Store HubError bytes :=
  (let! s := st_get in
   let! data := st_lift (unwrap (data m)) in
   let! ts_hash := st_lift (make_ts_hash (timestamp data) (msg_hash m)) in
   let txn := txn (store_db s) in
   let! txn := st_lift
     (if is_compact_state_type m then delete_compact_state_transaction txn m
      else if is_add_type m then delete_add_transaction txn ts_hash m
      else if remove_type_supported && is_remove_type m then delete_remove_transaction txn m
      else Err (invalid_parameter "invalid message type")) in
   commit_with_event now txn (revoke_event_args m))%st.

(** What the callback of [prune_messages] captures. The clock is read for each
    event: [clock i] is the reading for the event number [i]. *)
Record Pruning := mkPruning {
  prune_txn : RocksDbTransactionBatch;
  prune_count : Z;
  prune_generator : HubEventIdGenerator;
  pruned_events : list HubEvent;
}.

Definition set_prune_txn (t : RocksDbTransactionBatch) (p : Pruning) : Pruning :=
  mkPruning t (prune_count p) (prune_generator p) (pruned_events p).

Definition on_prune_txn (f : RocksDbTransactionBatch -> result HubError RocksDbTransactionBatch) :
    ST Pruning HubError unit :=
  (let! p := st_get in
   let! t := st_lift (f (prune_txn p)) in
   st_modify (set_prune_txn t))%st.

Definition prune_commit_event (clock : nat -> Z) (hub_event : HubEvent) : ST Pruning HubError unit := fun p =>
  match commit_transaction (clock (length (pruned_events p))) (prune_txn p) hub_event (prune_generator p) with
  | (Ok (id, txn), g) => (Ok tt, mkPruning txn (prune_count p - 1) g (pruned_events p ++ [set_event_id id hub_event]))
  | (Err e, g) => (Err e, mkPruning (prune_txn p) (prune_count p) g (pruned_events p))
  | (Panic, g) => (Panic, mkPruning (prune_txn p) (prune_count p) g (pruned_events p))
  | (OutOfFuel, g) => (OutOfFuel, mkPruning (prune_txn p) (prune_count p) g (pruned_events p))
  end.

Definition prune_callback (clock : nat -> Z) (max_message_count : Z) (key value : bytes) : ST Pruning HubError bool :=
  (let! p := st_get in
   if (prune_count p <=? max_message_count)%Z then st_ret true
   else
     let! m := st_lift (message_decode value) in
     if compact_state_type_supported && is_compact_state_type m then st_ret false
     else
       (if is_add_type m then
          let! data := st_lift (unwrap (data m)) in
          let! ts_hash := st_lift (make_ts_hash (timestamp data) (msg_hash m)) in
          on_prune_txn (fun txn => delete_add_transaction txn ts_hash m)
        else if remove_type_supported && is_remove_type m then on_prune_txn (fun txn => delete_remove_transaction txn m)
        else st_ret tt) ;;;
       prune_commit_event clock (prune_event_args m) ;;;
       st_ret false)%st.

Definition prune_messages (clock : nat -> Z) (fid cached_count max_count : Z) : ST Store HubError (list HubEvent) := fun s =>
  let max_message_count := if (0 <? get_prune_size_limit)%Z then get_prune_size_limit else max_count in
  let (r, p) := for_each_prefix (store_db s) (fid_prefix fid) default_page_options
                  (prune_callback clock max_message_count)
                  (mkPruning (txn (store_db s)) cached_count (store_event_handler s) []) in
  let s' := mkStore (store_db s) (prune_generator p) in
  match r with
  | Ok _ =>
      match map_err rocksdb_to_hub_error (RocksDB_commit (store_db s) (prune_txn p)) with
      | Ok d => (Ok (pruned_events p), mkStore d (prune_generator p))
      | Err e => (Err e, s')
      | Panic => (Panic, s')
      | OutOfFuel => (OutOfFuel, s')
      end
  | Err e => (Err e, s')
  | Panic => (Panic, s')
  | OutOfFuel => (OutOfFuel, s')
  end.

Definition get_all_messages_by_fid (fid : Z) (start_time stop_time : option Z) (page_options : PageOptions) (s : Store) :
    result HubError MessagesPage :=
  get_messages_page_by_prefix (store_db s) (fid_prefix fid) page_options
    (fun m => is_message_in_time_range start_time stop_time m
                && (is_add_type m || (remove_type_supported && is_remove_type m))).

Definition get_compact_state_messages_by_fid (fid : Z) (page_options : PageOptions) (s : Store) :
    result HubError MessagesPage :=
  if negb compact_state_type_supported then Err (invalid_parameter "compact state not supported")
  else
    prefix ← make_compact_state_prefix fid;
    get_messages_page_by_prefix (store_db s) prefix page_options
      (fun m => compact_state_type_supported && is_compact_state_type m).

End Store.

Arguments Store T : clear implicits.
