(* ===== verification/StoreSpec.v ===== *)
(** * The generic account store: specification

    A store keeps, for every user and every conflict key (the target of a
    reaction, the hash of a cast, ...), the greatest message merged so far.
    [StoreDefLaws] is what an instance of the trait has to satisfy for that;
    [store_repr] relates the rows of the database to the map from conflict
    keys to messages; [lww_merge] is the specification of a merge. The lemmas
    of this file establish [store_repr] for the transactions of [Store.v]. *)

From S2P Require Import Prelude Util Db Proto AccountMessage Events Store.

(** ** Messages *)
Definition fid_of (m : Message) : Z := match data m with Some d => wrap 32 (fid d) | None => 0 end.
Definition type_of (m : Message) : Z := match data m with Some d => msg_type d | None => 0 end.
Definition ts_hash_of (m : Message) : bytes :=
  match data m with Some d => be_bytes 4 (timestamp d) ++ msg_hash m | None => [] end.

(** Rows of a user and rows of the event log, as opposed to the rows of the
    secondary indices. *)
Definition own_key (k : bytes) : Prop :=
  exists b rest, k = b :: rest /\ (b = root_prefix_u8 User \/ b = root_prefix_u8 HubEvents).

(** Batches that agree on these rows. *)
Definition own_eq (t t' : RocksDbTransactionBatch) : Prop := forall k, own_key k -> batch t !! k = batch t' !! k.

#[export] Instance own_eq_equivalence : Equivalence own_eq.
Proof. split; unfold own_eq; [done|by intros ? ? E k Hk; rewrite E|]. intros ? ? ? E1 E2 k Hk. by rewrite E1, E2. Qed.

#[export] Instance put_own_eq : Proper (own_eq ==> eq ==> eq ==> own_eq) Batch.put.
Proof. intros t t' E k ? <- v ? <- k' Hk. simpl. rewrite !lookup_insert. case_decide; [done|by apply E]. Qed.

#[export] Instance delete_own_eq : Proper (own_eq ==> eq ==> own_eq) Batch.delete.
Proof. intros t t' E k ? <- k' Hk. simpl. rewrite !lookup_insert. case_decide; [done|by apply E]. Qed.

Lemma apply_batch_own_eq m t t' k : own_eq t t' -> own_key k -> apply_batch m t !! k = apply_batch m t' !! k.
Proof. intros E Hk. by rewrite !lookup_apply_batch, (E k Hk). Qed.

(** Transactions with one effect on these rows of [m]. *)
Definition agree (m : gmap bytes bytes) (t t' : RocksDbTransactionBatch) : Prop :=
  forall k, own_key k -> apply_batch m t !! k = apply_batch m t' !! k.

#[export] Instance agree_equivalence m : Equivalence (agree m).
Proof. split; unfold agree; [done|by intros ? ? E k Hk; rewrite E|]. intros ? ? ? E1 E2 k Hk. by rewrite E1, E2. Qed.

#[export] Instance put_agree m : Proper (agree m ==> eq ==> eq ==> agree m) Batch.put.
Proof.
  intros t t' E k ? <- v ? <- k' Hk. rewrite !apply_batch_put, !lookup_insert. case_decide; [done|by apply E].
Qed.

#[export] Instance delete_agree m : Proper (agree m ==> eq ==> agree m) Batch.delete.
Proof. intros t t' E k ? <- k' Hk. rewrite !apply_batch_delete, !lookup_delete. case_decide; [done|by apply E]. Qed.

Lemma own_eq_agree m t t' : own_eq t t' -> agree m t t'.
Proof. intros E k Hk. by apply apply_batch_own_eq. Qed.

(** Deleting a row that is not there. *)
Lemma delete_absent_agree m t k : apply_batch m t !! k = None -> agree m (Batch.delete t k) t.
Proof. intros Hk k' _. rewrite apply_batch_delete, lookup_delete. by case_decide; subst. Qed.

Lemma user_key_own fid l : own_key (make_user_key fid ++ l).
Proof. exists (root_prefix_u8 User), (make_fid_key fid ++ l). eauto. Qed.

Lemma event_key_own id : own_key (make_event_key id).
Proof. exists (root_prefix_u8 HubEvents), (be_bytes 8 id). eauto. Qed.

Definition is_fid (f : Z) : Prop := (0 <= f < 2 ^ 32)%Z.

Lemma fid_of_is_fid m : is_fid (fid_of m).
Proof. unfold fid_of, is_fid, wrap. case_match; [apply Z.mod_pos_bound|]; lia. Qed.

Lemma user_key_inj f1 f2 l1 l2 :
  is_fid f1 -> is_fid f2 -> make_user_key f1 ++ l1 = make_user_key f2 ++ l2 -> f1 = f2 /\ l1 = l2.
Proof.
  intros H1 H2 E. apply app_inj_1 in E as [E ->]; [|done].
  split; [|done]. apply (be_bytes_inj 4); [done|done|]. exact (f_equal (drop 1) E).
Qed.

(** A row of a user: a postfix and a suffix. *)
Definition user_row (p f : Z) (suffix : bytes) : bytes := make_user_key f ++ [p] ++ suffix.

Lemma user_row_inj p1 p2 f1 f2 s1 s2 :
  is_fid f1 -> is_fid f2 -> user_row p1 f1 s1 = user_row p2 f2 s2 -> p1 = p2 /\ f1 = f2 /\ s1 = s2.
Proof. intros H1 H2 E. by apply user_key_inj in E as [-> [= -> ->]]. Qed.

Lemma user_row_own p f s : own_key (user_row p f s).
Proof. apply user_key_own. Qed.

Lemma user_row_event p f s id : user_row p f s ≠ make_event_key id.
Proof. discriminate. Qed.

(** ** The laws of a store definition *)
Section Laws.
Context {T : Type} `{TransactionDB T} `{!Codec Message, !Codec MessageData, !Codec HubEvent}.

(** A message that can be stored: complete, of a hash of 20 bytes, and read
    back as it was written. *)
Definition storable (postfix : Z) (m : Message) : Prop :=
  exists d t p, data m = Some d /\ (0 <= timestamp d < 2 ^ 32)%Z /\ length (msg_hash m) = HASH_LENGTH /\
    message_type_try_from (msg_type d) = Some t /\ type_to_set_postfix (E := HubError) t = Ok p /\
    user_postfix_u8 p = postfix /\ message_decode (message_encode m) = Ok m.

Class StoreDefLaws `{!StoreDef T} := {
  valid : Message -> Prop;
  (** what two messages of a user conflict about, and their order *)
  conflict_suffix : Message -> bytes;
  rank : Message -> list Z;
  adds_postfix : Z;
  removes_postfix : Z;
  (** rows of the two sets that earlier versions wrote and that are only deleted *)
  stale : bytes -> Prop;
  valid_storable m : valid m -> storable postfix m;
  valid_types m : valid m ->
    (is_add_type m = true /\ is_remove_type m = false /\ type_of m = add_message_type) \/
    (is_add_type m = false /\ is_remove_type m = true /\ type_of m = remove_message_type /\ remove_type_supported = true);
  types_u8 : (0 <= add_message_type < 256)%Z /\ (0 <= remove_message_type < 256)%Z;
  valid_not_compact m : valid m -> is_compact_state_type m = false;
  postfixes_distinct : postfix ≠ adds_postfix /\ postfix ≠ removes_postfix /\ adds_postfix ≠ removes_postfix;
  make_add_key_law m : valid m -> make_add_key m = Ok (user_row adds_postfix (fid_of m) (conflict_suffix m));
  make_remove_key_law m : remove_type_supported = true -> valid m ->
    make_remove_key m = Ok (user_row removes_postfix (fid_of m) (conflict_suffix m));
  stale_law k : stale k -> exists p f s, is_fid f /\ (p = adds_postfix \/ p = removes_postfix) /\
    k = user_row p f s /\ forall m, valid m -> conflict_suffix m ≠ s;
  build_indices_law t m : valid m -> is_add_type m = true ->
    exists t', build_secondary_indices t (ts_hash_of m) m = Ok t' /\ own_eq t' t;
  delete_indices_law m t e : (forall k, stale k -> apply_batch m t !! k = None) -> valid e -> is_add_type e = true ->
    exists t', delete_secondary_indices t (ts_hash_of e) e = Ok t' /\ agree m t' t;
  delete_remove_indices_law m t e : (forall k, stale k -> apply_batch m t !! k = None) -> valid e ->
    exists t', delete_remove_secondary_indices t e = Ok t' /\ agree m t' t;
  no_other_conflicts d m : valid m ->
    (if is_add_type m then find_merge_add_conflicts d m else find_merge_remove_conflicts d m) = Ok tt;
  compare_law a b : valid a -> valid b ->
    message_compare (type_of a) (ts_hash_of a) (type_of b) (ts_hash_of b) =
    Ok (comparison_i8 (lex_compare (rank a) (rank b)));
  rank_inj a b : valid a -> valid b -> rank a = rank b -> ts_hash_of a = ts_hash_of b;
}.

(** No rows of earlier versions. *)
Definition tidy `{!StoreDef T, !StoreDefLaws} (m : gmap bytes bytes) : Prop := forall k, stale k -> m !! k = None.

(** A store definition that overrides [get_merge_conflicts] at most for rows
    of earlier versions. *)
Class DefaultConflicts `{!StoreDef T, !StoreDefLaws, !TransactionDBLaws T} : Prop :=
  default_conflicts d m a : holds d m -> tidy m -> valid a ->
    get_merge_conflicts d a (ts_hash_of a) = get_default_merge_conflicts d a (ts_hash_of a).

(** A store definition without compact states. *)
Class NoCompaction `{!StoreDef T} : Prop := no_compact_support : compact_state_type_supported = false.
End Laws.

Section Spec.
Context {T : Type} `{TransactionDBLaws T} `{!PrefixIteration T} `{!Codec Message, !Codec MessageData, !Codec HubEvent}
  `{!StoreDef T, !StoreDefLaws}.
Implicit Types (m : gmap bytes bytes) (a e x : Message).

(** ** The abstract store: a map from conflict keys to messages *)
Definition conflict_key a : Z * bytes := (fid_of a, conflict_suffix a).

Abbreviation live := (gmap (Z * bytes) Message).

(** The last writer wins: a message is accepted if it is greater than the one
    at its key, which it replaces. *)
Definition accepts (A : live) a : bool :=
  match A !! conflict_key a with
  | Some e => match lex_compare (rank e) (rank a) with Lt => true | _ => false end
  | None => true
  end.

Definition lww_merge (A : live) a : live := if accepts A a then <[conflict_key a := a]> A else A.

Definition replaced (A : live) a : list Message := option_list (A !! conflict_key a).

(** The error of a message that is not accepted. *)
Definition refusal (A : live) a : HubError :=
  match A !! conflict_key a with
  | Some e =>
      match lex_compare (rank e) (rank a) with
      | Gt => mkHubError "bad_request.conflict"
                (if is_add_type e then "message conflicts with a more recent add"
                 else "message conflicts with a more recent remove")
      | _ => mkHubError "bad_request.duplicate" "message has already been merged"
      end
  | None => validation_failure ""
  end.

Definition primary_row a : bytes := user_row postfix (fid_of a) (ts_hash_of a).

(** The row of a message in its set. *)
Definition set_row a : bytes :=
  user_row (if is_add_type a then adds_postfix else removes_postfix) (fid_of a) (conflict_suffix a).

(** The rows of the adds and the removes set at a conflict key. *)
Definition adds_value (A : live) (k : Z * bytes) : option bytes :=
  match A !! k with Some e => if is_add_type e then Some (ts_hash_of e) else None | None => None end.
Definition removes_value (A : live) (k : Z * bytes) : option bytes :=
  match A !! k with Some e => if is_add_type e then None else Some (ts_hash_of e) | None => None end.

(** No two messages of a user have one timestamp and hash. *)
Definition no_collision a e : Prop := fid_of a = fid_of e -> ts_hash_of a = ts_hash_of e -> a = e.

Record store_repr m (A : live) : Prop := {
  repr_valid : forall k e, A !! k = Some e -> valid e /\ conflict_key e = k;
  repr_unique : forall k k' e e', A !! k = Some e -> A !! k' = Some e' -> no_collision e e';
  repr_adds : forall f s, is_fid f -> m !! user_row adds_postfix f s = adds_value A (f, s);
  repr_removes : forall f s, is_fid f -> m !! user_row removes_postfix f s = removes_value A (f, s);
  repr_rows : forall k e, A !! k = Some e -> m !! primary_row e = Some (message_encode e);
  repr_only : forall f s v, is_fid f -> m !! user_row postfix f s = Some v ->
    exists k e, A !! k = Some e /\ primary_row e = user_row postfix f s;
}.

(** Only the rows of the messages and of the two sets matter. *)
Lemma store_repr_ext m m' (A : live) :
  store_repr m A ->
  (forall p f r, is_fid f -> p = postfix \/ p = adds_postfix \/ p = removes_postfix -> m' !! user_row p f r = m !! user_row p f r) ->
  store_repr m' A.
Proof using Type.
  intros [R1 R2 R3 R4 R5 R6] Hm. split; [done|done| | | |].
  - intros f r Hf. rewrite Hm by auto. by apply R3.
  - intros f r Hf. rewrite Hm by auto. by apply R4.
  - intros k e He. unfold primary_row. rewrite Hm by (auto using fid_of_is_fid). by apply (R5 k).
  - intros f r v Hf. rewrite Hm by auto. by apply R6.
Qed.

Lemma repr_tidy m (A : live) : store_repr m A -> tidy m.
Proof using Type.
  intros Hr k Hk. destruct (stale_law k Hk) as (p & f & s & Hf & Hp & -> & Hs).
  assert (HA : A !! (f, s) = None).
  { destruct (A !! (f, s)) as [e|] eqn:E; [|done]. destruct (repr_valid _ _ Hr _ _ E) as [Hv [= _ Ek]]. by destruct (Hs e Hv). }
  destruct Hp as [-> | ->].
  - rewrite (repr_adds _ _ Hr) by done. unfold adds_value. by rewrite HA.
  - rewrite (repr_removes _ _ Hr) by done. unfold removes_value. by rewrite HA.
Qed.

(** ** The keys of a valid message *)
Lemma valid_ts_hash a d : valid a -> data a = Some d -> make_ts_hash (timestamp d) (msg_hash a) = Ok (ts_hash_of a).
Proof using Type.
  intros Hv Hd. destruct (valid_storable a Hv) as (d' & t & p & Hd' & _ & Hl & _). unfold make_ts_hash, ts_hash_of.
  rewrite Hd, (proj2 (Nat.eqb_eq _ _) Hl). simpl. rewrite firstn_all2; [done|]. by rewrite Hl.
Qed.

Lemma ts_hash_length a : valid a -> length (ts_hash_of a) = TS_HASH_LENGTH.
Proof using Type.
  intros Hv. destruct (valid_storable a Hv) as (d & t & p & Hd & _ & Hl & _). unfold ts_hash_of.
  rewrite Hd, length_app, length_be_bytes, Hl. done.
Qed.

Lemma valid_message_key a : valid a -> message_key a = Ok (primary_row a).
Proof using Type.
  intros Hv. destruct (valid_storable a Hv) as (d & t & p & Hd & _ & Hl & Ht & Hp & Hpp & _).
  unfold message_key. rewrite Hd. simpl. rewrite (valid_ts_hash a d Hv Hd). simpl. rewrite Ht. simpl. rewrite Hp. simpl.
  unfold primary_row, user_row, make_message_primary_key, fid_of. by rewrite Hd, Hpp.
Qed.

Lemma valid_roundtrip a : valid a -> message_decode (message_encode a) = Ok a.
Proof using Type. intros Hv. by destruct (valid_storable a Hv) as (d & t & p & _ & _ & _ & _ & _ & _ & Hr). Qed.

Lemma vec_to_u8_24_ts_hash a : valid a -> vec_to_u8_24 (Some (ts_hash_of a)) = Ok (ts_hash_of a).
Proof using Type. intros Hv. unfold vec_to_u8_24. by rewrite (ts_hash_length a Hv). Qed.

Lemma get_message_row d m a : holds d m -> valid a -> m !! primary_row a = Some (message_encode a) ->
  get_message d (fid_of a) postfix (ts_hash_of a) = Ok (Some a).
Proof using Type.
  intros Hd Hv Hr. unfold get_message. change (make_message_primary_key (fid_of a) postfix (Some (ts_hash_of a))) with (primary_row a).
  rewrite (RocksDB_get_holds d m _ Hd), Hr. simpl. by rewrite (valid_roundtrip a Hv).
Qed.

Lemma primary_row_inj a e : primary_row a = primary_row e -> fid_of a = fid_of e /\ ts_hash_of a = ts_hash_of e.
Proof using Type. intros E. destruct (user_row_inj _ _ _ _ _ _ (fid_of_is_fid a) (fid_of_is_fid e) E) as (_ & -> & ->). done. Qed.

(** ** The transactions *)
Lemma valid_add_or_remove a : valid a -> is_remove_type a = negb (is_add_type a).
Proof using Type. intros Hv. by destruct (valid_types a Hv) as [(-> & -> & _)|(-> & -> & _)]. Qed.

Lemma delete_one_spec m t e : tidy (apply_batch m t) -> valid e ->
  exists t', delete_one_transaction t e = Ok t' /\ agree m t' (Batch.delete (Batch.delete t (set_row e)) (primary_row e)).
Proof using Type.
  intros Htidy Hv. unfold delete_one_transaction, set_row. rewrite (valid_not_compact e Hv), (valid_add_or_remove e Hv).
  destruct (valid_storable e Hv) as (d & _ & _ & Hd & _). destruct (valid_types e Hv) as [(Ea & _)|(Ea & _ & _ & Hs)]; rewrite Ea; simpl.
  - rewrite Hd. simpl. rewrite (valid_ts_hash e d Hv Hd). simpl.
    destruct (delete_indices_law m t e Htidy Hv Ea) as (t1 & E1 & Ho). unfold delete_add_transaction, delete_message_transaction.
    rewrite E1. simpl. rewrite (make_add_key_law e Hv). simpl. rewrite (valid_message_key e Hv). simpl.
    rewrite andb_false_r. eexists. split; [done|]. by rewrite Ho.
  - rewrite Hs. simpl. destruct (delete_remove_indices_law m t e Htidy Hv) as (t1 & E1 & Ho).
    unfold delete_remove_transaction, delete_message_transaction. rewrite Hs. simpl. rewrite E1. simpl.
    rewrite (make_remove_key_law e Hs Hv). simpl. rewrite (valid_message_key e Hv). simpl. eexists. split; [done|]. by rewrite Ho.
Qed.

Lemma put_spec t a : valid a ->
  exists t', (if is_add_type a then put_add_transaction t (ts_hash_of a) a else put_remove_transaction t (ts_hash_of a) a) = Ok t' /\
    own_eq t' (Batch.put (Batch.put t (primary_row a) (message_encode a)) (set_row a) (ts_hash_of a)).
Proof using Type.
  intros Hv. unfold set_row, put_add_transaction, put_remove_transaction, put_message_transaction.
  destruct (valid_types a Hv) as [(Ea & _)|(Ea & _ & _ & Hs)]; rewrite Ea, ?Hs, (valid_message_key a Hv); simpl.
  - rewrite (make_add_key_law a Hv). simpl. by apply build_indices_law.
  - rewrite (make_remove_key_law a Hs Hv). simpl. by eexists.
Qed.

(** ** Rows after a merge *)
Lemma set_row_adds a f s : is_fid f -> set_row a = user_row adds_postfix f s -> is_add_type a = true /\ conflict_key a = (f, s).
Proof using Type.
  intros Hf E. unfold set_row in E. destruct (user_row_inj _ _ _ _ _ _ (fid_of_is_fid a) Hf E) as (Ep & Ef & Es).
  destruct (is_add_type a); [|destruct postfixes_distinct as (_ & _ & ?); congruence]. unfold conflict_key. by rewrite Ef, Es.
Qed.

Lemma set_row_removes a f s : is_fid f -> set_row a = user_row removes_postfix f s -> is_add_type a = false /\ conflict_key a = (f, s).
Proof using Type.
  intros Hf E. unfold set_row in E. destruct (user_row_inj _ _ _ _ _ _ (fid_of_is_fid a) Hf E) as (Ep & Ef & Es).
  destruct (is_add_type a); [destruct postfixes_distinct as (_ & _ & ?); congruence|]. unfold conflict_key. by rewrite Ef, Es.
Qed.

Lemma set_row_not_primary a f s : is_fid f -> set_row a ≠ user_row postfix f s.
Proof using Type.
  intros Hf E. unfold set_row in E. destruct (user_row_inj _ _ _ _ _ _ (fid_of_is_fid a) Hf E) as (Ep & _ & _).
  destruct postfixes_distinct as (? & ? & _). destruct (is_add_type a); congruence.
Qed.

Lemma primary_not_set a p f s : is_fid f -> p ≠ postfix -> primary_row a ≠ user_row p f s.
Proof using Type. intros Hf Hp E. destruct (user_row_inj _ _ _ _ _ _ (fid_of_is_fid a) Hf E) as (Ep & _ & _). congruence. Qed.

(** The rows of the message that a merge replaces are deleted. *)
Definition drop_rows m (o : option Message) : gmap bytes bytes :=
  match o with Some e => delete (primary_row e) (delete (set_row e) m) | None => m end.

Lemma drop_rows_ne m o row :
  (forall e, o = Some e -> set_row e ≠ row /\ primary_row e ≠ row) -> drop_rows m o !! row = m !! row.
Proof using Type. intros Ho. destruct o as [e|]; [|done]. destruct (Ho e eq_refl). simpl. by rewrite !lookup_delete_ne. Qed.

(** A set of rows, of adds or of removes, after the merge of [a]. *)
Lemma repr_insert_set m (A : live) a (p : Z) (own : bool) (value : live -> Z * bytes -> option bytes) f s :
  p ≠ postfix -> is_fid f ->
  (forall x, set_row x = user_row p f s -> is_add_type x = own /\ conflict_key x = (f, s)) ->
  (forall x, conflict_key x = (f, s) -> is_add_type x = own -> set_row x = user_row p f s) ->
  (forall B k, value B k = match B !! k with Some x => if eqb (is_add_type x) own then Some (ts_hash_of x) else None | None => None end) ->
  (forall k e, A !! k = Some e -> conflict_key e = k) ->
  m !! user_row p f s = value A (f, s) ->
  <[set_row a := ts_hash_of a]> (<[primary_row a := message_encode a]> (drop_rows m (A !! conflict_key a))) !! user_row p f s =
  value (<[conflict_key a := a]> A) (f, s).
Proof using Type.
  intros Hp Hf Hset Hset' Hval Hkeys Hm. rewrite lookup_insert. case_decide as Hs.
  { destruct (Hset a Hs) as [Ea Ek]. by rewrite Hval, Ek, lookup_insert_eq, Ea, eqb_reflx. }
  rewrite lookup_insert_ne by by apply primary_not_set. rewrite Hval.
  destruct (decide (conflict_key a = (f, s))) as [Ek|Ek].
  - rewrite Ek, lookup_insert_eq. replace (eqb (is_add_type a) own) with false by (symmetry; apply eqb_false_iff; intros Ho; by apply Hs, Hset').
    destruct (A !! (f, s)) as [e|] eqn:Ee; simpl; [|by rewrite Hm, Hval, Ee].
    rewrite lookup_delete_ne by by apply primary_not_set. pose proof (Hkeys _ _ Ee) as Eke.
    destruct (eqb (is_add_type e) own) eqn:Eo.
    + apply eqb_prop in Eo. by rewrite (Hset' e Eke Eo), lookup_delete_eq.
    + rewrite lookup_delete_ne; [by rewrite Hm, Hval, Ee, Eo|].
      intros Hse. destruct (Hset e Hse) as [Hx _]. by rewrite Hx, eqb_reflx in Eo.
  - rewrite lookup_insert_ne by done. rewrite <- Hval, <- Hm. apply drop_rows_ne.
    intros e Ee. split; [|by apply primary_not_set]. intros Hse. destruct (Hset e Hse) as [_ Hx].
    by rewrite (Hkeys _ _ Ee) in Hx.
Qed.

Lemma repr_insert m m' (A : live) a :
  store_repr m A -> valid a -> (forall k e, A !! k = Some e -> no_collision a e) ->
  (forall p f s, m' !! user_row p f s =
    <[set_row a := ts_hash_of a]> (<[primary_row a := message_encode a]> (drop_rows m (A !! conflict_key a))) !! user_row p f s) ->
  store_repr m' (<[conflict_key a := a]> A).
Proof using Type.
  intros [Hvalid Huniq Hadds Hremoves Hrows Honly] Hv Hnc Hm'. destruct postfixes_distinct as (Hpa & Hpr & Har).
  assert (Hkeys : forall k e, A !! k = Some e -> conflict_key e = k) by (intros k e He; exact (proj2 (Hvalid k e He))).
  assert (Hfa : forall x, is_fid (fid_of x)) by (intros; apply fid_of_is_fid).
  split.
  - intros k e. rewrite lookup_insert_Some. intros [[<- <-]|[_ He]]; [done|by apply Hvalid].
  - intros k k' e e'. rewrite !lookup_insert_Some. intros [[<- <-]|[_ He]] [[<- <-]|[_ He']].
    + done.
    + by apply (Hnc k').
    + intros Ef Et. symmetry. by apply (Hnc k e He).
    + by apply (Huniq k k').
  - intros f s Hf. rewrite Hm'. apply (repr_insert_set m A a adds_postfix true adds_value f s); auto.
    + intros x Ex. by apply set_row_adds.
    + intros x Ek Ea. unfold set_row. rewrite Ea. by injection Ek as -> ->.
    + intros B k. unfold adds_value. destruct (B !! k) as [x|]; [|done]. by destruct (is_add_type x).
  - intros f s Hf. rewrite Hm'. apply (repr_insert_set m A a removes_postfix false removes_value f s); auto.
    + intros x Ex. by apply set_row_removes.
    + intros x Ek Ea. unfold set_row. rewrite Ea. by injection Ek as -> ->.
    + intros B k. unfold removes_value. destruct (B !! k) as [x|]; [|done]. by destruct (is_add_type x).
  - intros k e. rewrite lookup_insert_Some. unfold primary_row at 1. rewrite Hm', lookup_insert_ne by by apply set_row_not_primary.
    intros [[<- <-]|[Hne He]]; [apply lookup_insert_eq|]. fold (primary_row e).
    rewrite lookup_insert_ne; [|intros E; apply primary_row_inj in E as [Ef Et]; apply Hne; rewrite (Hnc k e He Ef Et); by apply Hkeys].
    rewrite drop_rows_ne; [by apply (Hrows k)|]. intros e' He'. split; [by apply set_row_not_primary|].
    intros E. apply primary_row_inj in E as [Ef Et]. apply Hne. rewrite <- (Hkeys _ _ He'), <- (Hkeys _ _ He).
    by rewrite (Huniq _ _ _ _ He' He Ef Et).
  - intros f s v Hf. rewrite Hm', lookup_insert_ne by by apply set_row_not_primary. rewrite lookup_insert_Some.
    intros [[E _]|[_ Hx]]; [exists (conflict_key a), a; by rewrite lookup_insert_eq|].
    destruct (A !! conflict_key a) as [e|] eqn:Ee; simpl in Hx.
    + apply lookup_delete_Some in Hx as [Hne Hx]. rewrite lookup_delete_ne in Hx by by apply set_row_not_primary.
      destruct (Honly f s v Hf Hx) as (k & e' & He' & Ep). exists k, e'. split; [|done].
      rewrite lookup_insert_ne; [done|]. intros <-. by simplify_eq.
    + destruct (Honly f s v Hf Hx) as (k & e' & He' & Ep). exists k, e'. split; [|done].
      rewrite lookup_insert_ne; [done|]. intros <-. by simplify_eq.
Qed.

(** ** Conflicts *)
Lemma type_of_u8 a : valid a -> wrap 8 (type_of a) = type_of a.
Proof using Type.
  intros Hv. unfold wrap. apply Z.mod_small. destruct types_u8.
  by destruct (valid_types a Hv) as [(_ & _ & ->)|(_ & _ & -> & _)].
Qed.

Lemma valid_data a : valid a -> exists d, data a = Some d /\ wrap 32 (fid d) = fid_of a /\ wrap 8 (msg_type d) = type_of a.
Proof using Type.
  intros Hv. pose proof (type_of_u8 a Hv) as Ht. destruct (valid_storable a Hv) as (d & _ & _ & Hd & _).
  exists d. unfold fid_of, type_of in *. by rewrite Hd in *.
Qed.

Lemma existing_conflict_none (d : RocksDB T) m a th ty key conflict :
  holds d m -> m !! key = None -> existing_conflict d a th ty key conflict = Ok [].
Proof using Type. intros Hd Hk. unfold existing_conflict. by rewrite (RocksDB_get_holds d m _ Hd), Hk. Qed.

Lemma existing_conflict_some (d : RocksDB T) m a e key conflict :
  holds d m -> valid a -> valid e -> fid_of e = fid_of a -> m !! key = Some (ts_hash_of e) ->
  m !! primary_row e = Some (message_encode e) ->
  existing_conflict d a (ts_hash_of a) (type_of e) key conflict =
  match lex_compare (rank e) (rank a) with
  | Lt => Ok [e]
  | Eq => Err (mkHubError "bad_request.duplicate" "message has already been merged")
  | Gt => Err (mkHubError "bad_request.conflict" conflict)
  end.
Proof using Type.
  intros Hd Ha He Hf Hk Hp. destruct (valid_data a Ha) as (da & Eda & Ef & Et). unfold existing_conflict.
  rewrite (RocksDB_get_holds d m _ Hd), Hk. simpl. rewrite Eda. simpl. rewrite Et, (compare_law e a He Ha). simpl.
  destruct (lex_compare (rank e) (rank a)); [done| |done]. simpl. rewrite (ts_hash_length e He). simpl.
  by rewrite Ef, <- Hf, (get_message_row d m e Hd He Hp).
Qed.

Lemma conflicts_spec (d : RocksDB T) m (A : live) a :
  holds d m -> store_repr m A -> valid a ->
  get_default_merge_conflicts d a (ts_hash_of a) = if accepts A a then Ok (replaced A a) else Err (refusal A a).
Proof using Type.
  intros Hd [Hvalid _ Hadds Hremoves Hrows _] Ha. unfold get_default_merge_conflicts.
  rewrite (no_other_conflicts d a Ha). simpl. rewrite (make_add_key_law a Ha). simpl.
  set (f := fid_of a). set (s := conflict_suffix a). assert (Hf : is_fid f) by apply fid_of_is_fid.
  unfold accepts, replaced, refusal. change (conflict_key a) with (f, s). destruct (A !! (f, s)) as [e|] eqn:Ee; simpl.
  - destruct (Hvalid _ _ Ee) as [He Hke]. injection Hke as Hfe Hse. pose proof (Hrows _ _ Ee) as Hpe.
    assert (Ea : adds_value A (f, s) = if is_add_type e then Some (ts_hash_of e) else None) by (unfold adds_value; by rewrite Ee).
    assert (Er : removes_value A (f, s) = if is_add_type e then None else Some (ts_hash_of e)) by (unfold removes_value; by rewrite Ee).
    rewrite <- Hadds in Ea by done. rewrite <- Hremoves in Er by done.
    destruct (valid_types e He) as [(Eadd & _ & Ety)|(Eadd & _ & Ety & Hs)]; rewrite Eadd in *.
    + assert (Hrem : (if remove_type_supported then
                 remove_key ← make_remove_key a;
                 existing_conflict d a (ts_hash_of a) remove_message_type remove_key "message conflicts with a more recent remove"
               else Ok []) = Ok []).
      { destruct remove_type_supported eqn:Hs; [|done]. rewrite (make_remove_key_law a Hs Ha). simpl.
        by apply (existing_conflict_none d m). }
      rewrite Hrem. simpl. rewrite <- Ety, (existing_conflict_some d m a e _ _ Hd Ha He Hfe Ea Hpe).
      by destruct (lex_compare (rank e) (rank a)).
    + rewrite Hs, (make_remove_key_law a Hs Ha). simpl. rewrite <- Ety, (existing_conflict_some d m a e _ _ Hd Ha He Hfe Er Hpe).
      destruct (lex_compare (rank e) (rank a)); [done| |done]. simpl.
      by rewrite (existing_conflict_none d m).
  - assert (Ea : m !! user_row adds_postfix f s = None) by (rewrite Hadds by done; unfold adds_value; by rewrite Ee).
    assert (Hrem : (if remove_type_supported then
               remove_key ← make_remove_key a;
               existing_conflict d a (ts_hash_of a) remove_message_type remove_key "message conflicts with a more recent remove"
             else Ok []) = Ok []).
    { destruct remove_type_supported eqn:Hs; [|done]. rewrite (make_remove_key_law a Hs Ha). simpl.
      apply (existing_conflict_none d m); [done|]. fold f s. rewrite Hremoves by done. unfold removes_value. by rewrite Ee. }
    rewrite Hrem. simpl. by rewrite (existing_conflict_none d m).
Qed.

(** ** Merging *)
Lemma commit_with_event_spec (s : Store T) m (now : Z) t event id g :
  holds (store_db s) m -> generate_id now None (store_event_handler s) = (Ok id, g) ->
  exists s', commit_with_event now t event s = (Ok (encode_to_vec (set_event_id id event)), s') /\
    store_event_handler s' = g /\
    holds (store_db s') (<[make_event_key id := encode_to_vec (set_event_id id event)]> (apply_batch m t)).
Proof using Type.
  intros Hd Hg. unfold commit_with_event, commit_transaction. rewrite (st_bind_Ok _ _ _ _ _ Hg).
  unfold st_ret, put_event_transaction.
  match goal with |- context [RocksDB_commit _ ?b] => destruct (RocksDB_commit_holds (store_db s) m b Hd) as (d' & E & Hd' & _) end.
  rewrite E. simpl. eexists. split_and!; [done|done|]. simpl. by rewrite apply_batch_put in Hd'.
Qed.

Lemma delete_many_one m t (o : option Message) :
  tidy (apply_batch m t) -> (forall e, o = Some e -> valid e) ->
  exists t', delete_many_transaction t (option_list o) = Ok t' /\
    agree m t' (match o with Some e => Batch.delete (Batch.delete t (set_row e)) (primary_row e) | None => t end).
Proof using Type.
  intros Ht Ho. destruct o as [e|]; simpl; [|by eexists]. destruct (delete_one_spec m t e Ht (Ho e eq_refl)) as (t' & E & Hown).
  rewrite E. simpl. eauto.
Qed.

(** The guard of compact states of [merge_add] and [merge_remove]. *)
Definition compact_check a (s : Store T) : result HubError unit :=
  if is_add_type a then check_add_compact_state a s else check_remove_compact_state a s.

Lemma merge_unfold (now : Z) a (s : Store T) :
  valid a ->
  merge now a s =
  (let! _ := st_lift (compact_check a s) in
   let! merge_conflicts := st_lift (get_merge_conflicts (store_db s) a (ts_hash_of a)) in
   let! txn := st_lift (delete_many_transaction Batch.new merge_conflicts) in
   let! txn := st_lift (if is_add_type a then put_add_transaction txn (ts_hash_of a) a
                        else put_remove_transaction txn (ts_hash_of a) a) in
   commit_with_event now txn (merge_event_args a merge_conflicts))%st s.
Proof using Type.
  intros Ha. destruct (valid_storable a Ha) as (d & _ & _ & Hd & _). unfold merge, compact_check.
  erewrite st_bind_Ok by (unfold st_lift; rewrite Hd; reflexivity). rewrite (valid_not_compact a Ha).
  pose proof (valid_add_or_remove a Ha) as Hr.
  destruct (valid_types a Ha) as [(Eadd & _)|(Eadd & _ & _ & Hs)]; rewrite Eadd in *; rewrite ?Hr, ?Hs; simpl;
    (erewrite st_bind_Ok by (unfold st_lift; rewrite (valid_ts_hash a d Ha Hd); reflexivity));
    unfold merge_add, merge_remove; done.
Qed.

Lemma compact_check_none `{HNC : !NoCompaction} a (s : Store T) : compact_check a s = Ok tt.
Proof using Type. unfold compact_check, check_add_compact_state, check_remove_compact_state. rewrite no_compact_support. by case_match. Qed.

Lemma merge_blocked (now : Z) a (s : Store T) err : valid a -> compact_check a s = Err err -> merge now a s = (Err err, s).
Proof using Type. intros Ha Hc. rewrite merge_unfold by done. unfold st_bind at 1, st_lift. by rewrite Hc. Qed.

Context `{HDC : !DefaultConflicts}.

Lemma merge_unblocked_refused (now : Z) a (s : Store T) m (A : live) :
  holds (store_db s) m -> store_repr m A -> valid a -> compact_check a s = Ok tt -> accepts A a = false ->
  merge now a s = (Err (refusal A a), s).
Proof using HDC.
  intros Hd Hr Ha Hc Hacc. rewrite merge_unfold by done. erewrite st_bind_Ok by (unfold st_lift; rewrite Hc; reflexivity).
  unfold st_bind at 1, st_lift. rewrite (default_conflicts _ m a Hd (repr_tidy _ _ Hr) Ha).
  by rewrite (conflicts_spec _ m A a Hd Hr Ha), Hacc.
Qed.

(** An accepted merge: the event, and the rows of all users. *)
Lemma merge_unblocked_rows (now : Z) a (s : Store T) m (A : live) id g :
  holds (store_db s) m -> store_repr m A -> valid a -> compact_check a s = Ok tt ->
  accepts A a = true -> generate_id now None (store_event_handler s) = (Ok id, g) ->
  let event := encode_to_vec (set_event_id id (merge_event_args a (replaced A a))) in
  exists s' m', merge now a s = (Ok event, s') /\ store_event_handler s' = g /\
    holds (store_db s') m' /\ m' !! make_event_key id = Some event /\
    forall p f r, m' !! user_row p f r =
      <[set_row a := ts_hash_of a]> (<[primary_row a := message_encode a]> (drop_rows m (A !! conflict_key a))) !! user_row p f r.
Proof using HDC.
  intros Hd Hr Ha Hc Hacc Hg event. rewrite merge_unfold by done. erewrite st_bind_Ok by (unfold st_lift; rewrite Hc; reflexivity).
  erewrite st_bind_Ok by (unfold st_lift; rewrite (default_conflicts _ m a Hd (repr_tidy _ _ Hr) Ha),
    (conflicts_spec _ m A a Hd Hr Ha), Hacc; reflexivity).
  destruct (delete_many_one m Batch.new (A !! conflict_key a)) as (t1 & E1 & Ho1).
  { rewrite apply_batch_new. by apply (repr_tidy _ A). } { intros e He. by apply (repr_valid _ _ Hr) in He as [? _]. }
  destruct (put_spec t1 a Ha) as (t2 & E2 & Ho2).
  erewrite st_bind_Ok by (unfold st_lift, replaced; rewrite E1; reflexivity).
  erewrite st_bind_Ok by (unfold st_lift; rewrite E2; reflexivity).
  destruct (commit_with_event_spec s m now t2 (merge_event_args a (replaced A a)) id g Hd Hg) as (s' & E & Hh & Hd').
  exists s', (<[make_event_key id := event]> (apply_batch m t2)). split_and!; [exact E|done|done|apply lookup_insert_eq|].
  intros p f r. rewrite lookup_insert_ne by (symmetry; apply user_row_event).
  rewrite (apply_batch_own_eq m t2 _ _ Ho2 (user_row_own p f r)), !apply_batch_put, !lookup_insert.
  repeat case_decide; [done..|]. rewrite (Ho1 _ (user_row_own p f r)).
  unfold drop_rows. destruct (A !! conflict_key a) as [e|]; by rewrite ?apply_batch_delete, apply_batch_new.
Qed.

(** ** Merging without compact states *)
Context `{HNC : !NoCompaction}.

Lemma merge_refused (now : Z) a (s : Store T) m (A : live) :
  holds (store_db s) m -> store_repr m A -> valid a -> accepts A a = false -> merge now a s = (Err (refusal A a), s).
Proof using HDC HNC. intros Hd Hr Ha Hacc. apply (merge_unblocked_refused now a s m A); try done. apply compact_check_none. Qed.

Lemma merge_accepted (now : Z) a (s : Store T) m (A : live) id g :
  holds (store_db s) m -> store_repr m A -> valid a -> (forall k e, A !! k = Some e -> no_collision a e) ->
  accepts A a = true -> generate_id now None (store_event_handler s) = (Ok id, g) ->
  let event := encode_to_vec (set_event_id id (merge_event_args a (replaced A a))) in
  exists s' m', merge now a s = (Ok event, s') /\ store_event_handler s' = g /\
    holds (store_db s') m' /\ store_repr m' (<[conflict_key a := a]> A) /\ m' !! make_event_key id = Some event.
Proof using HDC HNC.
  intros Hd Hr Ha Hnc Hacc Hg event.
  destruct (merge_unblocked_rows now a s m A id g Hd Hr Ha (compact_check_none a s) Hacc Hg) as (s' & m' & E & Hh & Hd' & Hev & Hrows).
  exists s', m'. split_and!; try done. by apply (repr_insert m).
Qed.

End Spec.
