(* ===== verification/StoreIndex.v ===== *)
(** * What the stores share

    The pieces that the store definitions ([casts], [links], [reactions], ...)
    repeat: the test for a signed message of a type, the partial messages that
    lookups build, the pages of messages that are read through a secondary
    index. A row of a secondary index is a prefix for the target, the ts_hash
    and the fid of a message. *)

From S2P Require Import Prelude Util Db Proto AccountMessage Events Store StoreSpec.

(** [SignatureScheme::Ed25519] *)
Definition SIGNATURE_SCHEME_ED25519 : Z := 1.

(** [is_add_type] and [is_remove_type] of most stores. *)
Definition is_signed_type (t : MessageType) (m : Message) : bool :=
  (signature_scheme m =? SIGNATURE_SCHEME_ED25519)%Z &&
  match data m with
  | Some data => (msg_type data =? message_type_i32 t)%Z && match body data with Some _ => true | None => false end
  | None => false
  end.

(** [message.data.as_ref().unwrap().body.as_ref().unwrap()], with the fid. *)
Definition unwrap_body (m : Message) : result HubError (Z * Body) :=
  data ← unwrap (data m);
  body ← unwrap (body data);
  Ok (wrap 32 (fid data), body).

(** A message with [fid], [r#type], [body] and [..Default::default()]. *)
Definition partial_message (fid type : Z) (hash : bytes) (body : Body) : Message :=
  mkMessage (Some (mkMessageData type fid 0 0 (Some body))) hash 0 [] 0 [] None.

(** The key of a row of a secondary index: the callers check that a ts_hash
    has its length and that the fid is not zero. *)
Definition index_row_key (prefix : bytes) (fid : Z) (ts_hash : option bytes) : bytes :=
  prefix ++ match ts_hash with
            | Some ts_hash => if length ts_hash =? TS_HASH_LENGTH then ts_hash else []
            | None => []
            end
         ++ (if (0 <? fid)%Z then make_fid_key fid else []).

Definition put_keys (value : bytes) (keys : list bytes) (txn : RocksDbTransactionBatch) : RocksDbTransactionBatch :=
  foldl (fun txn key => Batch.put txn key value) txn keys.

Definition delete_keys (keys : list bytes) (txn : RocksDbTransactionBatch) : RocksDbTransactionBatch :=
  foldl Batch.delete txn keys.

Section Pages.
Context {T : Type} `{TransactionDB T} `{!PrefixIteration T} `{!Codec Message, !Codec MessageData}.

(** [match db.get(&key) { Ok(Some(v)) => .., _ => .. }]: an error counts as
    absent, a closed database panics. *)
Definition get_or_none (d : RocksDB T) (key : bytes) : result HubError (option bytes) :=
  match RocksDB_get d key with
  | Ok o => Ok o
  | Err _ => Ok None
  | Panic => Panic
  | OutOfFuel => OutOfFuel
  end.

(** The callback of the queries by target: the primary keys and the last key
    so far. A key that is too short panics. *)
Definition index_callback (postfix : Z) (prefix : bytes) (page_options : PageOptions) (accept : bytes -> bool)
    (key value : bytes) : ST (list bytes * bytes) HubError bool :=
  (if accept value then
     let ts_hash_offset := length prefix in
     let fid_offset := ts_hash_offset + TS_HASH_LENGTH in
     let! fid := st_lift (slice key fid_offset (fid_offset + 4)) in
     let! ts_hash := st_lift (slice key ts_hash_offset (ts_hash_offset + TS_HASH_LENGTH)) in
     let message_primary_key := make_message_primary_key (be_value fid) postfix (Some ts_hash) in
     let! s := st_get in
     let message_keys := s.1 ++ [message_primary_key] in
     if default ACCOUNT_PAGE_SIZE_MAX (page_size page_options) <=? length message_keys
     then st_put (message_keys, key) ;;; st_ret true
     else st_put (message_keys, s.2) ;;; st_ret false
   else st_ret false)%st.

Definition get_page_by_index (d : RocksDB T) (postfix : Z) (prefix : bytes) (page_options : PageOptions)
    (accept : bytes -> bool) : result HubError MessagesPage :=
  match for_each_prefix d prefix page_options (index_callback postfix prefix page_options accept) ([], []) with
  | (Ok _, (message_keys, last_key)) =>
      messages_bytes ← get_many_messages_as_bytes d message_keys;
      Ok (mkMessagesPage messages_bytes (if 0 <? length last_key then Some (drop (length prefix) last_key) else None))
  | (Err e, _) => Err e
  | (Panic, _) => Panic
  | (OutOfFuel, _) => OutOfFuel
  end.
End Pages.

(** ** Ranks

    The order of the conflicting messages as the order of byte strings: by
    default the timestamp, then removes over adds, then the hash; for casts
    removes over adds first. *)
Definition remove_bit (remove : bool) : list Z := [if remove then 1%Z else 0%Z].

Definition default_rank (remove : bool) (ts_hash : bytes) : list Z :=
  take 4 ts_hash ++ remove_bit remove ++ drop 4 ts_hash.

Lemma slice_0_4 {E} (v : bytes) : length v = 24 -> slice v 0 4 = @Ok E _ (take 4 v).
Proof. intros Hl. unfold slice. by rewrite Hl. Qed.

Lemma slice_4_24 {E} (v : bytes) : length v = 24 -> slice v 4 24 = @Ok E _ (drop 4 v).
Proof. intros Hl. unfold slice. rewrite Hl. simpl. rewrite firstn_all2; [done|]. rewrite length_drop. lia. Qed.

Lemma comparison_i8_eq_0 c : (comparison_i8 c =? 0)%Z = match c with Eq => true | _ => false end.
Proof. by destruct c. Qed.

Lemma take_drop_compare a b : length a = 24 -> length b = 24 ->
  lex_compare a b = match lex_compare (take 4 a) (take 4 b) with Eq => lex_compare (drop 4 a) (drop 4 b) | o => o end.
Proof.
  intros Ha Hb. rewrite <- (take_drop 4 a) at 1. rewrite <- (take_drop 4 b) at 1.
  apply lex_compare_app. rewrite !length_take. lia.
Qed.

Lemma default_compare_rank (rt at_ : Z) (ra rb : bool) (a b : bytes) :
  rt ≠ at_ -> length a = 24 -> length b = 24 ->
  default_message_compare rt at_ (if ra then rt else at_) a (if rb then rt else at_) b =
  Ok (comparison_i8 (lex_compare (default_rank ra a) (default_rank rb b))).
Proof.
  intros Hne Ha Hb. unfold default_message_compare, default_rank. rewrite !slice_0_4, !slice_4_24 by done. simpl.
  rewrite !bytes_compare_lex, comparison_i8_eq_0, lex_compare_app by (rewrite !length_take; lia).
  assert ((rt =? at_)%Z = false) by (by apply Z.eqb_neq). assert ((at_ =? rt)%Z = false) by (apply Z.eqb_neq; congruence).
  destruct (lex_compare (take 4 a) (take 4 b)); [|done|done].
  by destruct ra, rb; simpl; rewrite ?Z.eqb_refl, ?H, ?H0.
Qed.

Lemma default_rank_inj (ra rb : bool) (a b : bytes) :
  length a = 24 -> length b = 24 -> default_rank ra a = default_rank rb b -> a = b.
Proof.
  intros Ha Hb E. apply app_inj_1 in E as [E1 E2]; [|rewrite !length_take; lia]. injection E2 as _ E2.
  by rewrite <- (take_drop 4 a), <- (take_drop 4 b), E1, E2.
Qed.

(** Without removes the rank is the order of timestamps and hashes. *)
Lemma default_rank_le (a b : bytes) : length a = 24 -> length b = 24 ->
  bytes_le (default_rank false a) (default_rank false b) <-> bytes_le a b.
Proof.
  intros Ha Hb. unfold bytes_le, default_rank. rewrite lex_compare_app by (rewrite !length_take; lia).
  rewrite (take_drop_compare a b) by done. by destruct (lex_compare (take 4 a) (take 4 b)).
Qed.

(** ** Messages that a store accepts *)
Lemma message_type_try_from_i32 t : message_type_try_from (message_type_i32 t) = Some t.
Proof. by destruct t. Qed.

Lemma message_type_i32_inj t t' : message_type_i32 t = message_type_i32 t' -> t = t'.
Proof. intros E. apply (f_equal message_type_try_from) in E. rewrite !message_type_try_from_i32 in E. congruence. Qed.

Section WellFormed.
Context `{!Codec Message, !Codec MessageData}.

(** A complete signed message of one of two types; it is read back as it was
    written. *)
Definition well_formed (add remove : MessageType) (accepts : Body -> Prop) (m : Message) : Prop :=
  exists d b t, data m = Some d /\ body d = Some b /\ accepts b /\ (t = add \/ t = remove) /\
    msg_type d = message_type_i32 t /\ signature_scheme m = SIGNATURE_SCHEME_ED25519 /\
    (0 <= timestamp d < 2 ^ 32)%Z /\ length (msg_hash m) = HASH_LENGTH /\
    message_decode (message_encode m) = Ok m.

Context (add remove : MessageType) (P : Body -> Prop) (m : Message) (Hm : well_formed add remove P m).

Lemma well_formed_types : add ≠ remove ->
  (is_signed_type add m = true /\ is_signed_type remove m = false /\ type_of m = message_type_i32 add) \/
  (is_signed_type add m = false /\ is_signed_type remove m = true /\ type_of m = message_type_i32 remove).
Proof using Hm.
  intros Hne. destruct Hm as (d & b & t & Hd & Hb & _ & Ht & Hty & Hs & _).
  unfold is_signed_type, type_of. rewrite Hs, Hd, Hb, Hty. simpl. rewrite !andb_true_r.
  assert (message_type_i32 add ≠ message_type_i32 remove) by (intros ?%message_type_i32_inj; done).
  destruct Ht as [-> | ->]; [left|right]; rewrite Z.eqb_refl; split_and!; try done; by apply Z.eqb_neq.
Qed.

(** The type of a message as [default_compare_rank] has it. *)
Lemma default_type_of : add ≠ remove ->
  type_of m = if is_signed_type remove m then message_type_i32 remove else message_type_i32 add.
Proof using Hm. intros Hne. by destruct (well_formed_types Hne) as [(_ & -> & ->)|(_ & -> & ->)]. Qed.

Lemma well_formed_body : exists f b, unwrap_body m = Ok (f, b) /\ f = fid_of m /\ P b.
Proof using Hm.
  destruct Hm as (d & b & t & Hd & Hb & HP & _). unfold unwrap_body, fid_of. rewrite Hd. simpl. rewrite Hb. simpl. eauto.
Qed.

Lemma well_formed_storable (p : UserPostfix) :
  type_to_set_postfix (E := HubError) add = Ok p -> type_to_set_postfix (E := HubError) remove = Ok p ->
  storable (user_postfix_u8 p) m.
Proof using Hm.
  intros Ha Hr. destruct Hm as (d & b & t & Hd & _ & _ & Ht & Hty & _ & Hts & Hl & Hrt). exists d, t, p.
  rewrite Hty, message_type_try_from_i32. split_and!; try done; try lia. by destruct Ht as [-> | ->].
Qed.

Lemma well_formed_ts_hash : length (ts_hash_of m) = 24.
Proof using Hm.
  destruct Hm as (d & b & t & Hd & _ & _ & _ & _ & _ & _ & Hl & _). unfold ts_hash_of.
  by rewrite Hd, length_app, length_be_bytes, Hl.
Qed.
End WellFormed.

(** A row outside the rows of users and events leaves these alone. *)
Lemma put_foreign t key v : ~ own_key key -> own_eq (Batch.put t key v) t.
Proof. intros Hk k Hown. simpl. apply lookup_insert_ne. by intros ->. Qed.

Lemma delete_foreign t key : ~ own_key key -> own_eq (Batch.delete t key) t.
Proof. intros Hk k Hown. simpl. apply lookup_insert_ne. by intros ->. Qed.

Lemma put_keys_foreign v keys t : Forall (fun k => ~ own_key k) keys -> own_eq (put_keys v keys t) t.
Proof.
  intros HF. revert t. induction HF as [|k keys Hk _ IH]; intros t; [done|]. simpl. rewrite (IH (Batch.put t k v)). by apply put_foreign.
Qed.

Lemma delete_keys_foreign keys t : Forall (fun k => ~ own_key k) keys -> own_eq (delete_keys keys t) t.
Proof.
  intros HF. revert t. induction HF as [|k keys Hk _ IH]; intros t; [done|]. simpl. rewrite (IH (Batch.delete t k)). by apply delete_foreign.
Qed.

Lemma delete_foreign_agree m t key : ~ own_key key -> agree m (Batch.delete t key) t.
Proof. intros Hk. by apply own_eq_agree, delete_foreign. Qed.

Lemma Forall_map_all {A B} (f : A -> B) (l : list A) (P : B -> Prop) : (forall x, P (f x)) -> Forall P (map f l).
Proof. intros Hf. induction l; simpl; by constructor. Qed.

Lemma foreign_prefix p l : p ≠ User -> p ≠ HubEvents -> ~ own_key (root_prefix_u8 p :: l).
Proof. intros Hu He (b & rest & E & Hb). assert (root_prefix_u8 p = b) as <- by congruence. by destruct p, Hb. Qed.
