(* ===== verification/ReactionStore.v ===== *)
(** * The reaction store

    [src/storage/store/account/reaction_store.rs]: reactions of a user to a
    target, a cast or a url. Messages conflict when user, type and target
    agree; the later one wins, a remove over an add of the same second. *)

From S2P Require Import Prelude Util Db Proto AccountMessage Events Store StoreIndex StoreSpec.

Definition invalid_reaction_body : HubError := validation_failure "Invalid reaction body".

(** [ReactionStoreDef::make_target_key] *)
Definition reaction_target_key (target : ReactionTarget) : bytes :=
  match target with
  | TargetUrl url => string_bytes url
  | TargetCastId cast_id => make_cast_id_key cast_id
  end.

Definition make_reactions_by_target_key (target : ReactionTarget) (fid : Z) (ts_hash : option bytes) : bytes :=
  index_row_key (root_prefix_u8 ReactionsByTarget :: reaction_target_key target) fid ts_hash.

(** The part of a key after the postfix: the type and the target. *)
Definition reaction_suffix (type : Z) (target : option ReactionTarget) : bytes :=
  (if (0 <? type)%Z then [wrap 8 type] else []) ++
  match target with Some target => reaction_target_key target | None => [] end.

Definition reaction_set_key (set : UserPostfix) (fid type : Z) (target : option ReactionTarget) : result HubError bytes :=
  match target with
  | Some _ => if (type =? 0)%Z then Err (validation_failure "targetId provided without type")
              else Ok (make_user_key fid ++ [user_postfix_u8 set] ++ reaction_suffix type target)
  | None => Ok (make_user_key fid ++ [user_postfix_u8 set] ++ reaction_suffix type target)
  end.

Definition make_reaction_adds_key : Z -> Z -> option ReactionTarget -> result HubError bytes :=
  reaction_set_key ReactionAdds.
Definition make_reaction_removes_key : Z -> Z -> option ReactionTarget -> result HubError bytes :=
  reaction_set_key ReactionRemoves.

(** [secondary_index_key] *)
Definition reaction_index_key (ts_hash : bytes) (m : Message) : result HubError (bytes * Z) :=
  '(fid, body) ← unwrap_body m;
  match body with
  | ReactionBody_ reaction_body =>
      match reaction_target reaction_body with
      | Some target =>
          Ok (make_reactions_by_target_key target fid (Some ts_hash), wrap 8 (reaction_type reaction_body))
      | None => Err invalid_reaction_body
      end
  | _ => Err invalid_reaction_body
  end.

Definition reaction_key (make_key : Z -> Z -> option ReactionTarget -> result HubError bytes) (m : Message) :
    result HubError bytes :=
  '(fid, body) ← unwrap_body m;
  match body with
  | ReactionBody_ reaction_body => make_key fid (reaction_type reaction_body) (reaction_target reaction_body)
  | _ => Err invalid_reaction_body
  end.

Definition reaction_no_compact {A} : result HubError A :=
  Err (invalid_parameter "Reaction Store doesn't support compact state").

(** [ReactionStoreDef], with its limit. *)
Definition ReactionStoreDef (T : Type) (prune_size_limit : Z) : StoreDefBase T := {|
  postfix := user_postfix_u8 ReactionMessage;
  add_message_type := message_type_i32 MT_ReactionAdd;
  remove_message_type := message_type_i32 MT_ReactionRemove;
  compact_state_message_type := message_type_i32 MT_None;
  is_add_type := is_signed_type MT_ReactionAdd;
  is_remove_type := is_signed_type MT_ReactionRemove;
  remove_type_supported := default_type_supported (message_type_i32 MT_ReactionRemove);
  is_compact_state_type _ := false;
  compact_state_type_supported := default_type_supported (message_type_i32 MT_None);
  build_secondary_indices txn ts_hash m :=
    '(by_target_key, rtype) ← reaction_index_key ts_hash m; Ok (Batch.put txn by_target_key [rtype]);
  delete_secondary_indices txn ts_hash m :=
    '(by_target_key, _) ← reaction_index_key ts_hash m; Ok (Batch.delete txn by_target_key);
  delete_remove_secondary_indices txn _ := Ok txn;
  find_merge_add_conflicts _ _ := Ok tt;
  find_merge_remove_conflicts _ _ := Ok tt;
  make_add_key := reaction_key make_reaction_adds_key;
  make_remove_key := reaction_key make_reaction_removes_key;
  make_compact_state_add_key _ := reaction_no_compact;
  make_compact_state_prefix _ := reaction_no_compact;
  get_prune_size_limit := prune_size_limit;
  message_compare := default_message_compare (message_type_i32 MT_ReactionRemove) (message_type_i32 MT_ReactionAdd);
  revoke_event_args := default_revoke_event_args;
  merge_event_args := default_merge_event_args (message_type_i32 MT_None);
  prune_event_args := default_prune_event_args;
|}.

(** The filter of the queries by user, for messages with data. *)
Definition reaction_type_filter (type : Z) (m : Message) : bool :=
  match data m with
  | Some data =>
      match body data with
      | Some (ReactionBody_ reaction_body) => (type =? 0)%Z || (reaction_type reaction_body =? type)%Z
      | _ => false
      end
  | None => false
  end.

Definition partial_reaction (t : MessageType) (fid type : Z) (target : option ReactionTarget) : Message :=
  partial_message fid (message_type_i32 t) [] (ReactionBody_ (mkReactionBody type target)).

Section ReactionStore.
Context {T : Type} `{TransactionDB T} `{!PrefixIteration T} `{!Codec Message, !Codec MessageData, !Codec HubEvent}.
Context (prune_size_limit : Z).

#[local] Instance reaction_base : StoreDefBase T := ReactionStoreDef T prune_size_limit.

(** [get_merge_conflicts] is the default. *)
Definition reaction_store_def : StoreDef T :=
  {| store_def_base := reaction_base; get_merge_conflicts := get_default_merge_conflicts |}.
#[local] Existing Instance reaction_store_def.

Definition reaction_store_new (d : RocksDB T) (handler : HubEventIdGenerator) : Store T := new_with_store_def d handler.

Definition get_reaction_add (fid type : Z) (target : option ReactionTarget) (s : Store T) :
    result HubError (option Message) :=
  get_add (partial_reaction MT_ReactionAdd fid type target) s.

Definition get_reaction_remove (fid type : Z) (target : option ReactionTarget) (s : Store T) :
    result HubError (option Message) :=
  get_remove (partial_reaction MT_ReactionRemove fid type target) s.

Definition get_reaction_adds_by_fid (fid type : Z) (page_options : PageOptions) (s : Store T) :
    result HubError MessagesPage :=
  get_adds_by_fid fid page_options (Some (reaction_type_filter type)) s.

Definition get_reaction_removes_by_fid (fid type : Z) (page_options : PageOptions) (s : Store T) :
    result HubError MessagesPage :=
  get_removes_by_fid fid page_options (Some (reaction_type_filter type)) s.

(** [value.len() == 1 && value[0] == reaction_type as u8] *)
Definition reaction_value_filter (type : Z) (value : bytes) : bool :=
  (type =? 0)%Z || match value with [b] => (b =? wrap 8 type)%Z | _ => false end.

Definition get_reactions_by_target (target : ReactionTarget) (type : Z) (page_options : PageOptions) (s : Store T) :
    result HubError MessagesPage :=
  get_page_by_index (store_db s) postfix (make_reactions_by_target_key target 0 None) page_options
    (reaction_value_filter type).

(** ** The laws of a store *)

(** A reaction with a target and a type of one byte. *)
Definition reaction_body_ok (b : Body) : Prop :=
  exists r target, b = ReactionBody_ r /\ reaction_target r = Some target /\ (0 < reaction_type r < 256)%Z.

Definition reaction_valid : Message -> Prop := well_formed MT_ReactionAdd MT_ReactionRemove reaction_body_ok.

Definition reaction_conflict (m : Message) : bytes :=
  match unwrap_body m with
  | Ok (_, ReactionBody_ r) => reaction_suffix (reaction_type r) (reaction_target r)
  | _ => []
  end.

Definition reaction_rank (m : Message) : list Z := default_rank (is_signed_type MT_ReactionRemove m) (ts_hash_of m).

Lemma reaction_unwrap m : reaction_valid m ->
  exists r target, unwrap_body m = Ok (fid_of m, ReactionBody_ r) /\ reaction_target r = Some target /\
    (0 < reaction_type r < 256)%Z.
Proof using Type.
  intros Hv. destruct (well_formed_body _ _ _ m Hv) as (f & b & E & -> & r & target & -> & Ht & Hty). eauto.
Qed.

Lemma reaction_key_law m set : reaction_valid m ->
  reaction_key (reaction_set_key set) m = Ok (user_row (user_postfix_u8 set) (fid_of m) (reaction_conflict m)).
Proof using Type.
  intros Hv. destruct (reaction_unwrap m Hv) as (r & target & E & Ht & Hty). unfold reaction_key, reaction_conflict.
  rewrite E. simpl. unfold reaction_set_key. rewrite Ht. by rewrite (proj2 (Z.eqb_neq _ _)) by lia.
Qed.

Lemma reaction_index_law m ts_hash : reaction_valid m ->
  exists key r, reaction_index_key ts_hash m = Ok (key, r) /\ ~ own_key key.
Proof using Type.
  intros Hv. destruct (reaction_unwrap m Hv) as (r & target & E & Ht & _). unfold reaction_index_key. rewrite E. simpl.
  rewrite Ht. simpl. eexists _, _. split; [done|]. unfold make_reactions_by_target_key, index_row_key. by apply foreign_prefix.
Qed.

#[export, refine] Instance ReactionStoreLaws : StoreDefLaws (T := T) := {|
  valid := reaction_valid;
  conflict_suffix := reaction_conflict;
  rank := reaction_rank;
  adds_postfix := user_postfix_u8 ReactionAdds;
  removes_postfix := user_postfix_u8 ReactionRemoves;
  stale _ := False;
|}.
Proof.
  - intros m Hv. by apply (well_formed_storable _ _ _ m Hv).
  - intros m Hv. destruct (well_formed_types _ _ _ m Hv) as [?|?]; naive_solver.
  - done.
  - done.
  - done.
  - intros m Hv. by apply reaction_key_law.
  - intros m _ Hv. by apply reaction_key_law.
  - done.
  - intros t m Hv _. destruct (reaction_index_law m (ts_hash_of m) Hv) as (key & r & E & Hk). simpl. rewrite E. simpl.
    eexists. split; [done|]. by apply put_foreign.
  - intros m t e _ Hv _. destruct (reaction_index_law e (ts_hash_of e) Hv) as (key & r & E & Hk). simpl. rewrite E. simpl.
    eexists. split; [done|]. by apply delete_foreign_agree.
  - intros m t e _ _. by eexists.
  - intros d m _. simpl. by case_match.
  - intros a b Ha Hb. simpl. rewrite (default_type_of _ _ _ a Ha), (default_type_of _ _ _ b Hb) by done.
    apply default_compare_rank; [done|eapply well_formed_ts_hash..]; done.
  - intros a b Ha Hb. apply default_rank_inj; eapply well_formed_ts_hash; done.
Defined.

#[export] Instance ReactionStoreNoCompaction : NoCompaction (T := T).
Proof. done. Qed.

#[export] Instance ReactionStoreDefault `{!TransactionDBLaws T} : DefaultConflicts (T := T).
Proof. done. Qed.
End ReactionStore.
