(* ===== verification/CastStore.v ===== *)
(** * The cast store

    [src/storage/store/account/cast_store.rs]: casts and their removal by
    hash. A remove wins over the add of its target whatever their timestamps;
    two indices find casts by parent and by mentioned user. *)

From S2P Require Import Prelude Util Db Proto AccountMessage Events Store StoreSpec StoreIndex.

Definition invalid_cast_body : HubError := validation_failure "Invalid cast body".

Definition make_parent_key (target : Parent) : bytes :=
  match target with
  | ParentUrl url => string_bytes url
  | ParentCastId cast_id => make_cast_id_key cast_id
  end.

Definition make_cast_by_parent_key (parent : Parent) (fid : Z) (ts_hash : option bytes) : bytes :=
  index_row_key (root_prefix_u8 CastsByParent :: make_parent_key parent) fid ts_hash.

Definition by_parent_secondary_index_key (ts_hash : bytes) (m : Message) : result HubError (option bytes) :=
  '(fid, body) ← unwrap_body m;
  match body with
  | CastAddBody_ cast_body =>
      match parent cast_body with
      | Some parent => Ok (Some (make_cast_by_parent_key parent fid (Some ts_hash)))
      | None => Err invalid_cast_body
      end
  | CastRemoveBody_ _ => Ok None
  | _ => Err invalid_cast_body
  end.

Definition make_cast_by_mention_key (mention fid : Z) (ts_hash : option bytes) : bytes :=
  index_row_key (root_prefix_u8 CastsByMention :: make_fid_key mention) fid ts_hash.

Definition by_mention_secondary_index_key (ts_hash : bytes) (m : Message) : result HubError (option (list bytes)) :=
  '(fid, body) ← unwrap_body m;
  match body with
  | CastAddBody_ cast_body =>
      match mentions cast_body with
      | [] => Ok None
      | mentions => Ok (Some (map (fun mention => make_cast_by_mention_key (wrap 32 mention) fid (Some ts_hash)) mentions))
      end
  | CastRemoveBody_ _ => Ok None
  | _ => Err invalid_cast_body
  end.

(** [if let Ok(Some(k)) = r]: errors are dropped, a panic is not. *)
Definition if_ok_some {A B} (r : result HubError (option A)) (none : B) (some : A -> B) : result HubError B :=
  match r with
  | Ok (Some a) => Ok (some a)
  | Ok None | Err _ => Ok none
  | Panic => Panic
  | OutOfFuel => OutOfFuel
  end.

(** The part of a key after the postfix. *)
Definition cast_suffix (hash : bytes) : bytes := if length hash =? HASH_LENGTH then hash else [].

Definition make_cast_adds_key (fid : Z) (hash : bytes) : bytes :=
  make_user_key fid ++ [user_postfix_u8 CastAdds] ++ cast_suffix hash.

Definition make_cast_removes_key (fid : Z) (hash : bytes) : bytes :=
  make_user_key fid ++ [user_postfix_u8 CastRemoves] ++ cast_suffix hash.

(** The hash of the cast that a message adds or removes. *)
Definition cast_key (make_key : Z -> bytes -> bytes) (error : string) (m : Message) : result HubError bytes :=
  data ← unwrap (data m);
  let fid := wrap 32 (fid data) in
  match body data with
  | Some (CastAddBody_ _) => Ok (make_key fid (msg_hash m))
  | Some (CastRemoveBody_ cast_remove_body) => Ok (make_key fid (target_hash cast_remove_body))
  | _ => Err (validation_failure error)
  end.

(** [message_compare]: removes win, then the last writer. *)
Definition cast_message_compare (a_type : Z) (a_ts_hash : bytes) (b_type : Z) (b_ts_hash : bytes) : result HubError Z :=
  if (a_type =? message_type_i32 MT_CastRemove)%Z && (b_type =? message_type_i32 MT_CastAdd)%Z then Ok 1%Z
  else if (a_type =? message_type_i32 MT_CastAdd)%Z && (b_type =? message_type_i32 MT_CastRemove)%Z then Ok (-1)%Z
  else
    ts_a ← slice a_ts_hash 0 4;
    ts_b ← slice b_ts_hash 0 4;
    let ts_compare := bytes_compare ts_a ts_b in
    if negb (ts_compare =? 0)%Z then Ok ts_compare
    else
      rest_a ← slice a_ts_hash 4 24;
      rest_b ← slice b_ts_hash 4 24;
      Ok (bytes_compare rest_a rest_b).

Definition cast_build_indices (txn : RocksDbTransactionBatch) (ts_hash : bytes) (m : Message) :
    result HubError RocksDbTransactionBatch :=
  txn ← if_ok_some (by_parent_secondary_index_key ts_hash m) txn (fun key => Batch.put txn key [TRUE_VALUE]);
  if_ok_some (by_mention_secondary_index_key ts_hash m) txn (fun keys => put_keys [TRUE_VALUE] keys txn).

Definition cast_delete_indices (txn : RocksDbTransactionBatch) (ts_hash : bytes) (m : Message) :
    result HubError RocksDbTransactionBatch :=
  txn ← if_ok_some (by_parent_secondary_index_key ts_hash m) txn (fun key => Batch.delete txn key);
  if_ok_some (by_mention_secondary_index_key ts_hash m) txn (fun keys => delete_keys keys txn).

Definition cast_no_compact {A} : result HubError A :=
  Err (invalid_parameter "Cast Store doesn't support compact state").

Definition CastStoreDef (T : Type) (prune_size_limit : Z) : StoreDefBase T := {|
  postfix := user_postfix_u8 CastMessage;
  add_message_type := message_type_i32 MT_CastAdd;
  remove_message_type := message_type_i32 MT_CastRemove;
  compact_state_message_type := message_type_i32 MT_None;
  is_add_type := is_signed_type MT_CastAdd;
  is_remove_type := is_signed_type MT_CastRemove;
  remove_type_supported := default_type_supported (message_type_i32 MT_CastRemove);
  is_compact_state_type _ := false;
  compact_state_type_supported := default_type_supported (message_type_i32 MT_None);
  build_secondary_indices := cast_build_indices;
  delete_secondary_indices := cast_delete_indices;
  delete_remove_secondary_indices txn _ := Ok txn;
  find_merge_add_conflicts _ _ := Ok tt;
  find_merge_remove_conflicts _ _ := Ok tt;
  make_add_key := cast_key make_cast_adds_key "Invalid cast body for add key";
  make_remove_key := cast_key make_cast_removes_key "Invalid cast body for remove key";
  make_compact_state_add_key _ := cast_no_compact;
  make_compact_state_prefix _ := cast_no_compact;
  get_prune_size_limit := prune_size_limit;
  message_compare := cast_message_compare;
  revoke_event_args := default_revoke_event_args;
  merge_event_args := default_merge_event_args (message_type_i32 MT_None);
  prune_event_args := default_prune_event_args;
|}.

(** [CastAddBody { ..Default::default() }] *)
Definition default_cast_add_body : CastAddBody := mkCastAddBody [] [] None "" [] [] 0.

Section CastStore.
Context {T : Type} `{TransactionDB T} `{!PrefixIteration T} `{!Codec Message, !Codec MessageData, !Codec HubEvent}.
Context (prune_size_limit : Z).

#[local] Instance cast_base : StoreDefBase T := CastStoreDef T prune_size_limit.

(** [get_merge_conflicts] is the default. *)
Definition cast_store_def : StoreDef T :=
  {| store_def_base := cast_base; get_merge_conflicts := get_default_merge_conflicts |}.
#[local] Existing Instance cast_store_def.

Definition cast_store_new (d : RocksDB T) (handler : HubEventIdGenerator) : Store T := new_with_store_def d handler.

Definition get_cast_add (fid : Z) (hash : bytes) (s : Store T) : result HubError (option Message) :=
  get_add (partial_message fid (message_type_i32 MT_CastAdd) hash (CastAddBody_ default_cast_add_body)) s.

Definition get_cast_remove (fid : Z) (hash : bytes) (s : Store T) : result HubError (option Message) :=
  get_remove (partial_message fid (message_type_i32 MT_CastRemove) [] (CastRemoveBody_ (mkCastRemoveBody hash))) s.

Definition get_cast_adds_by_fid (fid : Z) (page_options : PageOptions) (s : Store T) : result HubError MessagesPage :=
  get_adds_by_fid fid page_options None s.

Definition get_cast_removes_by_fid (fid : Z) (page_options : PageOptions) (s : Store T) : result HubError MessagesPage :=
  get_removes_by_fid fid page_options None s.

Definition get_casts_by_parent (parent : Parent) (page_options : PageOptions) (s : Store T) :
    result HubError MessagesPage :=
  get_page_by_index (store_db s) postfix (make_cast_by_parent_key parent 0 None) page_options (fun _ => true).

Definition get_casts_by_mention (mention : Z) (page_options : PageOptions) (s : Store T) : result HubError MessagesPage :=
  get_page_by_index (store_db s) postfix (make_cast_by_mention_key mention 0 None) page_options (fun _ => true).

(** ** The laws of a store *)
Definition cast_body_ok (b : Body) : Prop :=
  match b with CastAddBody_ _ | CastRemoveBody_ _ => True | _ => False end.

Definition cast_valid : Message -> Prop := well_formed MT_CastAdd MT_CastRemove cast_body_ok.

Definition cast_conflict (m : Message) : bytes :=
  match unwrap_body m with
  | Ok (_, CastRemoveBody_ b) => cast_suffix (target_hash b)
  | _ => cast_suffix (msg_hash m)
  end.

(** Removes first, then the order of the ts_hash. *)
Definition cast_rank (m : Message) : list Z := remove_bit (is_signed_type MT_CastRemove m) ++ ts_hash_of m.

Lemma cast_unwrap m : cast_valid m -> exists b, unwrap_body m = Ok (fid_of m, b) /\ cast_body_ok b.
Proof using Type. intros Hv. destruct (well_formed_body _ _ _ m Hv) as (f & b & E & -> & Hb). eauto. Qed.

Lemma cast_key_law m make_key error p :
  (forall f h, make_key f h = user_row p f (cast_suffix h)) -> cast_valid m ->
  cast_key make_key error m = Ok (user_row p (fid_of m) (cast_conflict m)).
Proof using Type.
  intros Hk (d & b & t & Hd & Hb & Hok & _). unfold cast_key, cast_conflict, unwrap_body, fid_of. rewrite Hd. simpl.
  rewrite Hb. simpl. by destruct b; rewrite ?Hk.
Qed.

Lemma by_parent_foreign ts_hash m : cast_valid m ->
  match by_parent_secondary_index_key ts_hash m with
  | Ok (Some key) => ~ own_key key | Ok None | Err _ => True | _ => False
  end.
Proof using Type.
  intros Hv. destruct (cast_unwrap m Hv) as (b & E & Hb). unfold by_parent_secondary_index_key. rewrite E. simpl.
  destruct b; try done. destruct (parent b); simpl; [by apply foreign_prefix|done].
Qed.

Lemma by_mention_foreign ts_hash m : cast_valid m ->
  match by_mention_secondary_index_key ts_hash m with
  | Ok (Some keys) => Forall (fun key => ~ own_key key) keys | Ok None | Err _ => True | _ => False
  end.
Proof using Type.
  intros Hv. destruct (cast_unwrap m Hv) as (b & E & Hb). unfold by_mention_secondary_index_key. rewrite E. simpl.
  destruct b as [c| | | | | | | | |]; try done. destruct (mentions c) as [|x l]; [done|].
  apply (Forall_map_all (fun mention => make_cast_by_mention_key (wrap 32 mention) (fid_of m) (Some ts_hash)) (x :: l)).
  intros y. by apply foreign_prefix.
Qed.

Lemma if_ok_some_foreign {A} (r : result HubError (option A)) t f (P : A -> Prop) :
  match r with Ok (Some a) => P a | Ok None | Err _ => True | _ => False end ->
  (forall a, P a -> own_eq (f a) t) -> exists t', if_ok_some r t f = Ok t' /\ own_eq t' t.
Proof using Type. intros Hr Hf. destruct r as [[a|]| | |]; try done; simpl; eexists; (split; [done|]); [by apply Hf|done..]. Qed.

Lemma cast_indices_law m ts_hash t (f : bytes -> RocksDbTransactionBatch) (g : list bytes -> RocksDbTransactionBatch -> RocksDbTransactionBatch) :
  (forall key, ~ own_key key -> own_eq (f key) t) ->
  (forall keys t, Forall (fun key => ~ own_key key) keys -> own_eq (g keys t) t) -> cast_valid m ->
  exists t', (txn ← if_ok_some (by_parent_secondary_index_key ts_hash m) t f;
              if_ok_some (by_mention_secondary_index_key ts_hash m) txn (fun keys => g keys txn)) = Ok t' /\ own_eq t' t.
Proof using Type.
  intros Hf Hg Hv. destruct (if_ok_some_foreign _ t f _ (by_parent_foreign ts_hash m Hv) Hf) as (t1 & E1 & H1).
  rewrite E1. simpl. destruct (if_ok_some_foreign _ t1 (fun keys => g keys t1) _ (by_mention_foreign ts_hash m Hv)) as (t2 & E2 & H2).
  { intros keys Hk. by apply Hg. }
  exists t2. split; [done|]. by rewrite H2.
Qed.

Lemma cast_compare_rank (ra rb : bool) (a b : bytes) : length a = 24 -> length b = 24 ->
  cast_message_compare (message_type_i32 (if ra then MT_CastRemove else MT_CastAdd)) a
    (message_type_i32 (if rb then MT_CastRemove else MT_CastAdd)) b =
  Ok (comparison_i8 (lex_compare (remove_bit ra ++ a) (remove_bit rb ++ b))).
Proof using Type.
  intros Ha Hb. unfold cast_message_compare. rewrite !slice_0_4, !slice_4_24 by done. rewrite (lex_compare_app (remove_bit ra)) by done.
  rewrite (take_drop_compare a b) by done. cbv beta iota zeta delta [mbind result_bind]. rewrite !bytes_compare_lex, comparison_i8_eq_0.
  by destruct ra, rb; simpl; destruct (lex_compare (take 4 a) (take 4 b)).
Qed.

#[export, refine] Instance CastStoreLaws : StoreDefLaws (T := T) := {|
  valid := cast_valid;
  conflict_suffix := cast_conflict;
  rank := cast_rank;
  adds_postfix := user_postfix_u8 CastAdds;
  removes_postfix := user_postfix_u8 CastRemoves;
  stale _ := False;
|}.
Proof.
  - intros m Hv. by apply (well_formed_storable _ _ _ m Hv).
  - intros m Hv. destruct (well_formed_types _ _ _ m Hv) as [?|?]; naive_solver.
  - done.
  - done.
  - done.
  - intros m Hv. by apply cast_key_law.
  - intros m _ Hv. by apply cast_key_law.
  - done.
  - intros t m Hv _. apply cast_indices_law; [by intros; apply put_foreign|by intros; apply put_keys_foreign|done].
  - intros m t e _ Hv _. destruct (cast_indices_law e (ts_hash_of e) t (fun key => Batch.delete t key) delete_keys) as (t' & E & Ho);
      [by intros; apply delete_foreign|by intros; apply delete_keys_foreign|done|].
    exists t'. split; [done|]. by apply own_eq_agree.
  - intros m t e _ _. by eexists.
  - intros d m _. simpl. by case_match.
  - intros a b Ha Hb. simpl. rewrite (default_type_of _ _ _ a Ha), (default_type_of _ _ _ b Hb) by done.
    unfold cast_rank. pose proof (well_formed_ts_hash _ _ _ a Ha) as La. pose proof (well_formed_ts_hash _ _ _ b Hb) as Lb.
    pose proof (cast_compare_rank (is_signed_type MT_CastRemove a) (is_signed_type MT_CastRemove b) _ _ La Lb) as E.
    by repeat case_match.
  - intros a b _ _ E. by injection E.
Defined.

#[export] Instance CastStoreNoCompaction : NoCompaction (T := T).
Proof. done. Qed.

#[export] Instance CastStoreDefault `{!TransactionDBLaws T} : DefaultConflicts (T := T).
Proof. done. Qed.
End CastStore.
