(* ===== verification/NameRegistry.v ===== *)
(** * Username proofs of the name registry

    [src/storage/store/account/name_registry_events.rs]: the latest proof of a
    name, and an index from the user to the row of the proof. *)

From S2P Require Import Prelude Util Db Proto AccountMessage.

Definition make_fname_username_proof_key (name : bytes) : bytes := root_prefix_u8 FNameUserNameProof :: name.

Definition make_fname_username_proof_by_fid_key (fid : Z) : bytes :=
  root_prefix_u8 FNameUserNameProofByFid :: make_fid_key fid.

Section NameRegistry.
Context {T : Type} `{TransactionDB T} `{!Codec UserNameProof}.

Definition decode_username_proof (buf : bytes) : result HubError (option UserNameProof) :=
  match decode buf with
  | Ok proof => Ok (Some proof)
  | _ => Err (mkHubError "internal_error" "could not decode username proof")
  end.

Definition get_username_proof (d : RocksDB T) (name : bytes) : result HubError (option UserNameProof) :=
  buf ← map_err rocksdb_to_hub_error (RocksDB_get d (make_fname_username_proof_key name));
  match buf with None => Ok None | Some buf => decode_username_proof buf end.

Definition get_fname_proof_by_fid (d : RocksDB T) (fid : Z) : result HubError (option UserNameProof) :=
  primary_key ← map_err rocksdb_to_hub_error (RocksDB_get d (make_fname_username_proof_by_fid_key fid));
  match primary_key with
  | None => Ok None
  | Some primary_key =>
      buf ← map_err rocksdb_to_hub_error (RocksDB_get d primary_key);
      match buf with None => Ok None | Some buf => decode_username_proof buf end
  end.

Definition put_username_proof_transaction (txn : RocksDbTransactionBatch) (username_proof : UserNameProof) :
    RocksDbTransactionBatch :=
  let primary_key := make_fname_username_proof_key (proof_name username_proof) in
  let txn := Batch.put txn primary_key (encode_to_vec username_proof) in
  Batch.put txn (make_fname_username_proof_by_fid_key (wrap 32 (proof_fid username_proof))) primary_key.

(** The proof of a deletion stays, so that older proofs are refused. *)
Definition delete_username_proof_transaction (txn : RocksDbTransactionBatch) (username_proof : UserNameProof)
    (existing_fid : option Z) : RocksDbTransactionBatch :=
  let primary_key := make_fname_username_proof_key (proof_name username_proof) in
  let txn := Batch.put txn primary_key (encode_to_vec username_proof) in
  match existing_fid with
  | Some fid => Batch.delete txn (make_fname_username_proof_by_fid_key fid)
  | None => txn
  end.
End NameRegistry.
