(* ===== verification/UserDataStore.v ===== *)
(** * The user data store

    [src/storage/store/account/user_data_store.rs]: one message per user and
    type of data, without removes, and the username proofs of the name
    registry, which are merged here. *)

From S2P Require Import Prelude Util Db Proto AccountMessage Events Store StoreSpec StoreIndex NameRegistry.

(** The part of a key after the postfix. *)
Definition user_data_suffix (data_type : Z) : bytes := if (0 <? data_type)%Z then [wrap 8 data_type] else [].

Definition make_user_data_adds_key (fid data_type : Z) : bytes :=
  make_user_key fid ++ [user_postfix_u8 UserDataAdds] ++ user_data_suffix data_type.

Definition user_data_key (m : Message) : result HubError bytes :=
  '(fid, body) ← unwrap_body m;
  match body with
  | UserDataBody_ b => Ok (make_user_data_adds_key fid (user_data_type b))
  | _ => Err (invalid_parameter "UserDataAdd message missing body")
  end.

Definition user_data_no_compact {A} : result HubError A :=
  Err (invalid_parameter "UserDataStore doesn't support compact state").

(** The index methods are the defaults, which do nothing. *)
Definition UserDataStoreDef (T : Type) (prune_size_limit : Z) : StoreDefBase T := {|
  postfix := user_postfix_u8 UserDataMessage;
  add_message_type := message_type_i32 MT_UserDataAdd;
  remove_message_type := message_type_i32 MT_None;
  compact_state_message_type := message_type_i32 MT_None;
  is_add_type := is_signed_type MT_UserDataAdd;
  is_remove_type _ := false;
  remove_type_supported := default_type_supported (message_type_i32 MT_None);
  is_compact_state_type _ := false;
  compact_state_type_supported := default_type_supported (message_type_i32 MT_None);
  build_secondary_indices txn _ _ := Ok txn;
  delete_secondary_indices txn _ _ := Ok txn;
  delete_remove_secondary_indices txn _ := Ok txn;
  find_merge_add_conflicts _ _ := Ok tt;
  find_merge_remove_conflicts _ _ := Err (invalid_parameter "UserDataStoree doesn't support merging removes");
  make_add_key := user_data_key;
  make_remove_key _ := Err (invalid_parameter "removes not supported");
  make_compact_state_add_key _ := user_data_no_compact;
  make_compact_state_prefix _ := user_data_no_compact;
  get_prune_size_limit := prune_size_limit;
  message_compare := default_message_compare (message_type_i32 MT_None) (message_type_i32 MT_UserDataAdd);
  revoke_event_args := default_revoke_event_args;
  merge_event_args := default_merge_event_args (message_type_i32 MT_None);
  prune_event_args := default_prune_event_args;
|}.

(** [-1], [0] or [1]: the timestamps, then the signatures. *)
Definition username_proof_compare (a b : UserNameProof) : Z :=
  if (proof_timestamp a <? proof_timestamp b)%Z then -1
  else if (proof_timestamp b <? proof_timestamp a)%Z then 1
  else bytes_compare (proof_signature a) (proof_signature b).

Section UserDataStore.
Context {T : Type} `{TransactionDB T} `{!PrefixIteration T} `{!Codec Message, !Codec MessageData, !Codec HubEvent, !Codec UserNameProof}.
Context (prune_size_limit : Z).

#[local] Instance user_data_base : StoreDefBase T := UserDataStoreDef T prune_size_limit.

(** [get_merge_conflicts] is the default. *)
Definition user_data_store_def : StoreDef T :=
  {| store_def_base := user_data_base; get_merge_conflicts := get_default_merge_conflicts |}.
#[local] Existing Instance user_data_store_def.

Definition user_data_store_new (d : RocksDB T) (handler : HubEventIdGenerator) : Store T := new_with_store_def d handler.

Definition get_user_data_add (fid type : Z) (s : Store T) : result HubError (option Message) :=
  get_add (partial_message fid (message_type_i32 MT_UserDataAdd) [] (UserDataBody_ (mkUserDataBody type ""))) s.

Definition get_user_data_adds_by_fid (fid : Z) (page_options : PageOptions) (start_time stop_time : option Z)
    (s : Store T) : result HubError MessagesPage :=
  get_adds_by_fid fid page_options (Some (is_message_in_time_range start_time stop_time)) s.

Definition user_data_get_username_proof (name : bytes) (s : Store T) : result HubError (option UserNameProof) :=
  get_username_proof (store_db s) name.

Definition get_username_proof_by_fid (fid : Z) (s : Store T) : result HubError (option UserNameProof) :=
  get_fname_proof_by_fid (store_db s) fid.

Definition merge_username_proof (now : Z) (username_proof : UserNameProof) : ST (Store T) HubError bytes :=
  (let! s := st_get in
   let! existing_proof := st_lift (get_username_proof (store_db s) (proof_name username_proof)) in
   let! existing_fid := st_lift
     match existing_proof with
     | Some existing =>
         let cmp := username_proof_compare existing username_proof in
         if (cmp =? 0)%Z then Err (mkHubError "bad_request.duplicate" "username proof already exists")
         else if (0 <? cmp)%Z
         then Err (mkHubError "bad_request.conflict" "event conflicts with a more recent UserNameProof")
         else Ok (Some (wrap 32 (proof_fid existing)))
     | None =>
         if (proof_fid username_proof =? 0)%Z then Err (mkHubError "bad_request.conflict" "proof does not exist")
         else Ok None
     end in
   let txn := if (proof_fid username_proof =? 0)%Z
              then delete_username_proof_transaction Batch.new username_proof existing_fid
              else put_username_proof_transaction Batch.new username_proof in
   commit_with_event now txn
     (mkHubEvent MergeUsernameProof (Some (MergeUsernameProofBody (Some username_proof) existing_proof None None)) 0))%st.

(** ** The laws of a store

    There are no removes; 98 is a postfix that no store uses. *)
Definition user_data_body_ok (b : Body) : Prop := match b with UserDataBody_ _ => True | _ => False end.

Definition user_data_valid : Message -> Prop := well_formed MT_UserDataAdd MT_UserDataAdd user_data_body_ok.

Definition user_data_conflict (m : Message) : bytes :=
  match unwrap_body m with Ok (_, UserDataBody_ b) => user_data_suffix (user_data_type b) | _ => [] end.

Definition user_data_rank (m : Message) : list Z := default_rank false (ts_hash_of m).

Lemma user_data_type_law m : user_data_valid m ->
  is_signed_type MT_UserDataAdd m = true /\ type_of m = message_type_i32 MT_UserDataAdd.
Proof using Type.
  intros (d & b & t & Hd & Hb & _ & Ht & Hty & Hs & _). unfold is_signed_type, type_of. rewrite Hs, Hd, Hb, Hty.
  by destruct Ht as [-> | ->].
Qed.

Lemma user_data_key_law m : user_data_valid m ->
  user_data_key m = Ok (user_row (user_postfix_u8 UserDataAdds) (fid_of m) (user_data_conflict m)).
Proof using Type.
  intros Hv. destruct (well_formed_body _ _ _ m Hv) as (f & b & E & -> & Hb). unfold user_data_key, user_data_conflict.
  rewrite E. simpl. by destruct b.
Qed.

#[export, refine] Instance UserDataStoreLaws : StoreDefLaws (T := T) := {|
  valid := user_data_valid;
  conflict_suffix := user_data_conflict;
  rank := user_data_rank;
  adds_postfix := user_postfix_u8 UserDataAdds;
  removes_postfix := 98;
  stale _ := False;
|}.
Proof.
  - intros m Hv. by apply (well_formed_storable _ _ _ m Hv).
  - intros m Hv. left. split; [by apply user_data_type_law|]. split; [done|by apply user_data_type_law].
  - done.
  - done.
  - done.
  - intros m Hv. by apply user_data_key_law.
  - done.
  - done.
  - intros t m _ _. by eexists.
  - intros m t e _ _ _. by eexists.
  - intros m t e _ _. by eexists.
  - intros d m Hv. simpl. by destruct (user_data_type_law m Hv) as [-> _].
  - intros a b Ha Hb. simpl. destruct (user_data_type_law a Ha) as [_ ->], (user_data_type_law b Hb) as [_ ->].
    apply (default_compare_rank _ _ false false); [done|eapply well_formed_ts_hash..]; done.
  - intros a b Ha Hb. apply default_rank_inj; eapply well_formed_ts_hash; done.
Defined.

#[export] Instance UserDataStoreNoCompaction : NoCompaction (T := T).
Proof. done. Qed.

#[export] Instance UserDataStoreDefault `{!TransactionDBLaws T} : DefaultConflicts (T := T).
Proof. done. Qed.
End UserDataStore.
