(* ===== verification/VerificationStore.v ===== *)
(** * The verification store

    [src/storage/store/account/verification_store.rs]: users claim addresses.
    An address belongs to one user: an index from addresses to users, and a
    check for conflicts over all users when a claim is merged. *)

From S2P Require Import Prelude Util Db Proto AccountMessage Events Store StoreSpec StoreIndex.

(** [Protocol] *)
Definition PROTOCOL_ETHEREUM : Z := 0.
Definition PROTOCOL_SOLANA : Z := 1.

Definition known_protocol (protocol : Z) : bool := (protocol =? PROTOCOL_ETHEREUM)%Z || (protocol =? PROTOCOL_SOLANA)%Z.

Definition verification_is_add (m : Message) : bool :=
  is_signed_type MT_VerificationAddEthAddress m &&
  match data m ≫= body with Some (VerificationAddAddressBody_ b) => known_protocol (vadd_protocol b) | _ => false end.

Definition verification_is_remove (m : Message) : bool :=
  is_signed_type MT_VerificationRemove m &&
  match data m ≫= body with Some (VerificationRemoveBody_ b) => known_protocol (vremove_protocol b) | _ => false end.

Definition make_verification_by_address_key (address : bytes) : bytes :=
  root_prefix_u8 VerificationByAddress :: address.

Definition make_verification_adds_key (fid : Z) (address : bytes) : bytes :=
  make_user_key fid ++ [user_postfix_u8 VerificationAdds] ++ address.

Definition make_verification_removes_key (fid : Z) (address : bytes) : bytes :=
  make_user_key fid ++ [user_postfix_u8 VerificationRemoves] ++ address.

Definition address_empty : HubError := invalid_parameter "address empty".

(** The address of an add, which must not be empty. *)
Definition indexed_address (m : Message) : result HubError (Z * bytes) :=
  '(fid, body) ← unwrap_body m;
  match body with
  | VerificationAddAddressBody_ b => if length (vadd_address b) =? 0 then Err address_empty else Ok (fid, vadd_address b)
  | _ => Err address_empty
  end.

Definition verification_build_indices (txn : RocksDbTransactionBatch) (ts_hash : bytes) (m : Message) :
    result HubError RocksDbTransactionBatch :=
  '(fid, address) ← indexed_address m;
  Ok (Batch.put txn (make_verification_by_address_key address) (make_fid_key fid)).

Definition verification_delete_indices (txn : RocksDbTransactionBatch) (ts_hash : bytes) (m : Message) :
    result HubError RocksDbTransactionBatch :=
  '(_, address) ← indexed_address m;
  Ok (Batch.delete txn (make_verification_by_address_key address)).

Definition verification_key (make_key : Z -> bytes -> bytes) (m : Message) : result HubError bytes :=
  '(fid, body) ← unwrap_body m;
  match body with
  | VerificationAddAddressBody_ b => Ok (make_key fid (vadd_address b))
  | VerificationRemoveBody_ b => Ok (make_key fid (vremove_address b))
  | _ => Err (validation_failure "Invalid verification body")
  end.

Definition verification_no_compact {A} : result HubError A :=
  Err (invalid_parameter "Verification Store doesn't support compact state").

Definition VerificationStoreDef (T : Type) (prune_size_limit : Z) : StoreDefBase T := {|
  postfix := user_postfix_u8 VerificationMessage;
  add_message_type := message_type_i32 MT_VerificationAddEthAddress;
  remove_message_type := message_type_i32 MT_VerificationRemove;
  compact_state_message_type := message_type_i32 MT_None;
  is_add_type := verification_is_add;
  is_remove_type := verification_is_remove;
  remove_type_supported := default_type_supported (message_type_i32 MT_VerificationRemove);
  is_compact_state_type _ := false;
  compact_state_type_supported := default_type_supported (message_type_i32 MT_None);
  build_secondary_indices := verification_build_indices;
  delete_secondary_indices := verification_delete_indices;
  delete_remove_secondary_indices txn _ := Ok txn;
  find_merge_add_conflicts _ _ := Ok tt;
  find_merge_remove_conflicts _ _ := Ok tt;
  make_add_key := verification_key make_verification_adds_key;
  make_remove_key := verification_key make_verification_removes_key;
  make_compact_state_add_key _ := verification_no_compact;
  make_compact_state_prefix _ := verification_no_compact;
  get_prune_size_limit := prune_size_limit;
  message_compare :=
    default_message_compare (message_type_i32 MT_VerificationRemove) (message_type_i32 MT_VerificationAddEthAddress);
  revoke_event_args := default_revoke_event_args;
  merge_event_args := default_merge_event_args (message_type_i32 MT_None);
  prune_event_args := default_prune_event_args;
|}.

Definition partial_verification_add (fid : Z) (address : bytes) : Message :=
  partial_message fid (message_type_i32 MT_VerificationAddEthAddress) []
    (VerificationAddAddressBody_ (mkVerificationAddAddressBody address [] [] 0 0 0)).

Section VerificationStore.
Context {T : Type} `{TransactionDB T} `{!PrefixIteration T} `{!Codec Message, !Codec MessageData, !Codec HubEvent}.
Context (prune_size_limit : Z).

#[local] Instance verification_base : StoreDefBase T := VerificationStoreDef T prune_size_limit.

(** The claim of another user to the address of an add. *)
Definition other_user_conflict (d : RocksDB T) (m : Message) (address : bytes) : result HubError (list Message) :=
  fid_result ← get_or_none d (make_verification_by_address_key address);
  match fid_result with
  | None => Ok []
  | Some fid_bytes =>
      fid' ← read_fid_key fid_bytes;
      data ← unwrap (data m);
      if (0 <? fid')%Z && negb (fid' =? wrap 32 (fid data))%Z then
        existing ← get_or_none d (make_verification_adds_key fid' address);
        match existing with
        | None => Ok []
        | Some existing_ts_hash =>
            ts_hash ← make_ts_hash (timestamp data) (msg_hash m);
            compare ← message_compare add_message_type existing_ts_hash add_message_type ts_hash;
            if (0 <? compare)%Z then Err (mkHubError "bad_request.conflict" "message conflicts with a more recent add")
            else if (compare =? 0)%Z then Err (mkHubError "bad_request.conflict" "message has already been merged")
            else
              h ← vec_to_u8_24 (Some existing_ts_hash);
              existing_message ← get_message d fid' postfix h;
              Ok (option_list existing_message)
        end
      else Ok []
  end.

Definition verification_get_merge_conflicts (d : RocksDB T) (m : Message) (ts_hash : bytes) :
    result HubError (list Message) :=
  conflicts ← get_default_merge_conflicts d m ts_hash;
  if is_remove_type m then Ok conflicts
  else
    '(_, body) ← unwrap_body m;
    match body with
    | VerificationAddAddressBody_ b => others ← other_user_conflict d m (vadd_address b); Ok (conflicts ++ others)
    | _ => Err (validation_failure "Invalid verification body")
    end.

Definition verification_store_def : StoreDef T :=
  {| store_def_base := verification_base; get_merge_conflicts := verification_get_merge_conflicts |}.
#[local] Existing Instance verification_store_def.

Definition verification_store_new (d : RocksDB T) (handler : HubEventIdGenerator) : Store T := new_with_store_def d handler.

Definition get_verification_add (fid : Z) (address : bytes) (s : Store T) : result HubError (option Message) :=
  get_add (partial_verification_add fid address) s.

Definition get_verification_remove (fid : Z) (address : bytes) (s : Store T) : result HubError (option Message) :=
  get_remove (partial_message fid (message_type_i32 MT_VerificationRemove) []
                (VerificationRemoveBody_ (mkVerificationRemoveBody address 0))) s.

Definition get_verification_adds_by_fid (fid : Z) (page_options : PageOptions) (s : Store T) :
    result HubError MessagesPage :=
  get_adds_by_fid fid page_options None s.

Definition get_verification_removes_by_fid (fid : Z) (page_options : PageOptions) (s : Store T) :
    result HubError MessagesPage :=
  get_removes_by_fid fid page_options None s.

(** What the callback of [migrate_verifications] changes. *)
Record Migration := mkMigration { migrated_store : Store T; verifications_count : Z; duplicates_count : Z }.

(** The transaction for an add of [fid], and the number of duplicates it
    deletes. *)
Definition migrate_transaction (s : Store T) (m : Message) (fid : Z) (address : bytes) :
    result HubError (RocksDbTransactionBatch * Z) :=
  let by_address_key := make_verification_by_address_key address in
  existing_fid_res ← get_or_none (store_db s) by_address_key;
  match existing_fid_res with
  | None => Ok (Batch.put (txn (store_db s)) by_address_key (make_fid_key fid), 0)
  | Some fid_bytes =>
      existing_fid ← read_fid_key fid_bytes;
      existing_message ←
        match get_verification_add existing_fid address s with
        | Ok (Some m') => Ok m'
        | Ok None | Err _ => Err (mkHubError "not_found" "verification not found")
        | Panic => Panic
        | OutOfFuel => OutOfFuel
        end;
      data_m ← unwrap (data m);
      data_e ← unwrap (data existing_message);
      match make_ts_hash (timestamp data_m) (msg_hash m), make_ts_hash (timestamp data_e) (msg_hash existing_message) with
      | Ok ts_hash, Ok existing_ts_hash =>
          compare ← message_compare add_message_type existing_ts_hash add_message_type ts_hash;
          if (compare =? 0)%Z then Ok (txn (store_db s), 0)
          else if (0 <? compare)%Z then
            t ← delete_message_transaction (txn (store_db s)) m;
            Ok (Batch.put t by_address_key (make_fid_key existing_fid), 1)
          else
            t ← delete_message_transaction (txn (store_db s)) existing_message;
            Ok (Batch.put t by_address_key (make_fid_key fid), 1)
      | _, _ => Err (mkHubError "bad_request" "failed to make tsHash")
      end
  end%Z.

Definition migrate_callback (key value : bytes) : ST Migration HubError bool :=
  (let! postfix' := st_lift (index key (1 + FID_BYTES)) in
   if negb (postfix' =? postfix)%Z then st_ret false
   else
     match message_decode value with
     | Ok m =>
         if negb (is_add_type m) then st_ret false
         else
           let! (fid, body) := st_lift (unwrap_body m) in
           match body with
           | VerificationAddAddressBody_ b =>
               let! st := st_get in
               let! (txn, duplicates) := st_lift (migrate_transaction (migrated_store st) m fid (vadd_address b)) in
               let! duplicates_count := st_lift (add_u 32 (duplicates_count st) duplicates) in
               let! verifications_count := st_lift (add_u 32 (verifications_count st) 1) in
               let! d := st_lift (map_err rocksdb_to_hub_error (RocksDB_commit (store_db (migrated_store st)) txn)) in
               st_put (mkMigration (set_store_db d (migrated_store st)) verifications_count duplicates_count) ;;;
               st_ret false
           | _ => st_ret false
           end
     | _ => st_ret false
     end)%st.

(** The iteration reads the database as it was at the start; an error in it
    makes the migration panic. *)
Definition migrate_verifications : ST (Store T) HubError (Z * Z) := fun s =>
  match for_each_prefix (store_db s) [root_prefix_u8 User] default_page_options migrate_callback (mkMigration s 0 0) with
  | (Ok _, st) => (Ok (verifications_count st, duplicates_count st), migrated_store st)
  | (OutOfFuel, st) => (OutOfFuel, migrated_store st)
  | (_, st) => (Panic, migrated_store st)
  end.
End VerificationStore.
