(* ===== verification/UsernameProofStore.v ===== *)
(** * The username proof store

    [src/storage/store/account/username_proof_store.rs]: username proofs that
    users submit as messages. A name belongs to one user; a later proof
    replaces an earlier one, of whatever user. *)

From S2P Require Import Prelude Util Db Proto AccountMessage Events Store StoreSpec StoreIndex.

(** [UserNameType::UsernameTypeEnsL1] *)
Definition USERNAME_TYPE_ENS_L1 : Z := 2.

Definition make_username_proof_by_name_key (name : bytes) : bytes := root_prefix_u8 UserNameProofByName :: name.

Definition make_username_proof_by_fid_key (fid : Z) (name : bytes) : bytes :=
  make_user_key fid ++ [user_postfix_u8 UserNameProofAdds] ++ name.

(** The proof of a message, where [data] and [body] are checked first. *)
Definition proof_body (m : Message) : option UserNameProof :=
  match data m ≫= body with Some (UsernameProofBody_ b) => Some b | _ => None end.

Definition require_proof (error : string) (m : Message) : result HubError (Z * UserNameProof) :=
  match data m with
  | None => Err (validation_failure "Message data is missing")
  | Some data =>
      match body data with
      | Some (UsernameProofBody_ b) => Ok (wrap 32 (fid data), b)
      | _ => Err (validation_failure error)
      end
  end.

Definition username_proof_key (m : Message) : result HubError bytes :=
  '(fid, b) ← require_proof "Message body is missing" m;
  Ok (make_username_proof_by_fid_key fid (proof_name b)).

Definition name_empty : HubError := invalid_parameter "name empty".

Definition username_proof_build_indices (txn : RocksDbTransactionBatch) (ts_hash : bytes) (m : Message) :
    result HubError RocksDbTransactionBatch :=
  '(fid, b) ← require_proof "Message body is missing or incorrect" m;
  if length (proof_name b) =? 0 then Err name_empty
  else Ok (Batch.put txn (make_username_proof_by_name_key (proof_name b)) (make_fid_key fid)).

Definition username_proof_delete_indices (txn : RocksDbTransactionBatch) (ts_hash : bytes) (m : Message) :
    result HubError RocksDbTransactionBatch :=
  '(_, b) ← require_proof "Message data body is missing or incorrect" m;
  if length (proof_name b) =? 0 then Err name_empty
  else Ok (Batch.delete txn (make_username_proof_by_name_key (proof_name b))).

Definition username_proof_revoke_event_args (m : Message) : HubEvent :=
  mkHubEvent MergeUsernameProof (Some (MergeUsernameProofBody None (proof_body m) None (Some m))) 0.

(** The first conflict is the deleted message, if it has a proof. *)
Definition username_proof_merge_event_args (m : Message) (merge_conflicts : list Message) : HubEvent :=
  let deleted :=
    match merge_conflicts with
    | c :: _ => match proof_body c with Some b => Some (b, c) | None => None end
    | [] => None
    end in
  mkHubEvent MergeUsernameProof
    (Some (MergeUsernameProofBody (proof_body m) (fst <$> deleted) (Some m) (snd <$> deleted))) 0.

Definition username_proof_no_compact {A} : result HubError A :=
  Err (invalid_parameter "Username Proof Store doesn't support compact state").

Definition UsernameProofStoreDef (T : Type) (prune_size_limit : Z) : StoreDefBase T := {|
  postfix := user_postfix_u8 UsernameProofMessage;
  add_message_type := message_type_i32 MT_UsernameProof;
  remove_message_type := message_type_i32 MT_None;
  compact_state_message_type := message_type_i32 MT_None;
  is_add_type := is_signed_type MT_UsernameProof;
  is_remove_type _ := false;
  remove_type_supported := false;
  is_compact_state_type _ := false;
  compact_state_type_supported := default_type_supported (message_type_i32 MT_None);
  build_secondary_indices := username_proof_build_indices;
  delete_secondary_indices := username_proof_delete_indices;
  delete_remove_secondary_indices txn _ := Ok txn;
  find_merge_add_conflicts _ _ := Ok tt;
  find_merge_remove_conflicts _ _ := Err (validation_failure "Username Proof store does not support removes");
  make_add_key := username_proof_key;
  make_remove_key _ := Err (validation_failure "Remove not supported");
  make_compact_state_add_key _ := username_proof_no_compact;
  make_compact_state_prefix _ := username_proof_no_compact;
  get_prune_size_limit := prune_size_limit;
  message_compare := default_message_compare (message_type_i32 MT_None) (message_type_i32 MT_UsernameProof);
  revoke_event_args := username_proof_revoke_event_args;
  merge_event_args := username_proof_merge_event_args;
  prune_event_args := username_proof_revoke_event_args;
|}.

(** [UserNameProof { name, ..Default::default() }] in a message. *)
Definition partial_username_proof (fid : Z) (name : bytes) : Message :=
  partial_message fid 0 [] (UsernameProofBody_ (mkUserNameProof 0 name [] [] 0 0)).

Section UsernameProofStore.
Context {T : Type} `{TransactionDB T} `{!PrefixIteration T} `{!Codec Message, !Codec MessageData, !Codec HubEvent}.
Context (prune_size_limit : Z).

#[local] Instance username_proof_base : StoreDefBase T := UsernameProofStoreDef T prune_size_limit.

(** The proof of the name that the index has; an error of [get_message] counts
    as none. *)
Definition username_proof_get_merge_conflicts (d : RocksDB T) (m : Message) (ts_hash : bytes) :
    result HubError (list Message) :=
  '(_, b) ← require_proof "Message data body is missing" m;
  fid_result ← get_or_none d (make_username_proof_by_name_key (proof_name b));
  match fid_result with
  | None => Ok []
  | Some fid_bytes =>
      fid ← read_fid_key fid_bytes;
      if (0 <? fid)%Z then
        match RocksDB_get d (make_username_proof_by_fid_key fid (proof_name b)) with
        | Ok existing_message_ts_hash =>
            h ← vec_to_u8_24 existing_message_ts_hash;
            match get_message d fid postfix h with
            | Ok (Some existing_message) =>
                existing ← unwrap existing_message_ts_hash;
                compare ← message_compare add_message_type existing add_message_type ts_hash;
                if (0 <? compare)%Z then Err (mkHubError "bad_request.conflict" "message conflicts with a more recent add")
                else if (compare =? 0)%Z then Err (mkHubError "bad_request.duplicate" "message has already been merged")
                else Ok [existing_message]
            | Ok None | Err _ => Ok []
            | Panic => Panic
            | OutOfFuel => OutOfFuel
            end
        | Err _ => Ok []
        | Panic => Panic
        | OutOfFuel => OutOfFuel
        end
      else Ok []
  end.

Definition username_proof_store_def : StoreDef T :=
  {| store_def_base := username_proof_base; get_merge_conflicts := username_proof_get_merge_conflicts |}.
#[local] Existing Instance username_proof_store_def.

Definition username_proof_store_new (d : RocksDB T) (handler : HubEventIdGenerator) : Store T := new_with_store_def d handler.

(** [UsernameProofStore::get_username_proof] *)
Definition get_username_proof_message (name : bytes) (name_type : Z) (s : Store T) : result HubError (option Message) :=
  if negb (name_type =? USERNAME_TYPE_ENS_L1)%Z
  then Err (mkHubError "bad_request" "Unsupported username type {}. Only ENS L1 is supported")
  else
    fid_result ← map_err rocksdb_to_hub_error (RocksDB_get (store_db s) (make_username_proof_by_name_key name));
    match fid_result with
    | None => Err (not_found "NotFound: Username proof not found for name {}")
    | Some fid_bytes =>
        fid ← read_fid_key fid_bytes;
        get_add (partial_username_proof fid name) s
    end.

Definition get_username_proofs_by_fid (fid : Z) (page_options : PageOptions) (s : Store T) : result HubError MessagesPage :=
  get_adds_by_fid fid page_options None s.

Definition get_username_proof_by_fid_and_name (name : bytes) (fid : Z) (s : Store T) : result HubError (option Message) :=
  get_add (partial_username_proof fid name) s.
End UsernameProofStore.
