(* ===== verification/LinkStore.v ===== *)
(** * The link store

    [src/storage/store/account/link_store.rs]: links of a type from a user to
    a target user, with a compact state message that stands for all links of
    a type. The types in the keys are padded to 8 bytes; earlier versions
    wrote unpadded keys, which lookups and merges still consider. *)

From S2P Require Import Prelude Util Db Proto AccountMessage Events Store StoreSpec StoreIndex.

Definition LINK_TYPE_BYTE_SIZE : nat := 8.

(** [type_bytes.resize(8, 0)] *)
Definition pad_link_type (type_bytes : bytes) : bytes := resize LINK_TYPE_BYTE_SIZE 0%Z type_bytes.

Definition link_compact_state_add_key (fid : Z) (link_type : string) : bytes :=
  make_user_key fid ++ [user_postfix_u8 LinkCompactStateMessage] ++ pad_link_type (string_bytes link_type).

(** The key of a link in a set; [error] is the message for a missing type. *)
Definition link_set_key (set : UserPostfix) (error : string) (fid : Z) (link_body : LinkBody) (padded : bool) :
    result HubError bytes :=
  let type_bytes := string_bytes (link_type link_body) in
  if match link_target link_body with Some _ => true | None => false end && (length type_bytes =? 0)
  then Err (validation_failure error)
  else if negb (length type_bytes =? 0) && (LINK_TYPE_BYTE_SIZE <? length type_bytes)
  then Err (validation_failure "link type invalid - non-empty link type found with invalid length")
  else
    Ok (make_user_key fid ++ [user_postfix_u8 set] ++ (if padded then pad_link_type type_bytes else type_bytes) ++
        match link_target link_body with Some target_fid => make_fid_key (wrap 32 target_fid) | None => [] end).

Definition link_add_key : Z -> LinkBody -> bool -> result HubError bytes :=
  link_set_key LinkAdds "targetId provided without type".
Definition link_remove_key : Z -> LinkBody -> bool -> result HubError bytes :=
  link_set_key LinkRemoves "targetID provided without type".

(** The body of a message with its user; nothing panics here. *)
Definition require_body (m : Message) : result HubError (Z * Body) :=
  match data m with
  | None => Err (invalid_parameter "invalid message data")
  | Some data =>
      match body data with
      | None => Err (invalid_parameter "invalid message data body")
      | Some body => Ok (wrap 32 (fid data), body)
      end
  end.

Definition link_key (make_key : Z -> LinkBody -> bool -> result HubError bytes) (m : Message) (padded : bool) :
    result HubError bytes :=
  '(fid, body) ← require_body m;
  match body with
  | LinkBody_ link_body => make_key fid link_body padded
  | _ => Err (invalid_parameter "link body not specified")
  end.

Definition make_add_key_padded : Message -> bool -> result HubError bytes := link_key link_add_key.
Definition make_remove_key_padded : Message -> bool -> result HubError bytes := link_key link_remove_key.

Definition links_by_target_key (target_fid fid : Z) (ts_hash : option bytes) : result HubError bytes :=
  if negb (fid =? 0)%Z && match ts_hash with Some t => length t =? 0 | None => true end
  then Err (validation_failure "fid provided without timestamp hash")
  else if match ts_hash with Some _ => true | None => false end && (fid =? 0)%Z
  then Err (validation_failure "timestamp hash provided without fid")
  else
    Ok ((root_prefix_u8 LinksByTarget :: make_fid_key (wrap 32 target_fid)) ++
        match ts_hash with Some timestamp_hash => timestamp_hash | None => [] end ++
        (if (0 <? fid)%Z then make_fid_key fid else [])).

(** [secondary_index_key] *)
Definition link_index_key (ts_hash : bytes) (m : Message) : result HubError (bytes * bytes) :=
  '(fid, body) ← require_body m;
  match body with
  | LinkBody_ link_body =>
      match link_target link_body with
      | Some target =>
          target_key ← links_by_target_key target fid (Some ts_hash);
          Ok (target_key, string_bytes (link_type link_body))
      | None => Err (invalid_parameter "target ID not specified")
      end
  | _ => Err (invalid_parameter "link body not specified")
  end.

Definition link_is_add : Message -> bool := is_signed_type MT_LinkAdd.
Definition link_is_remove : Message -> bool := is_signed_type MT_LinkRemove.

(** [delete_remove_secondary_indices]: the unpadded key of the message. *)
Definition delete_unpadded_key (txn : RocksDbTransactionBatch) (m : Message) : result HubError RocksDbTransactionBatch :=
  if link_is_add m then key ← make_add_key_padded m false; Ok (Batch.delete txn key)
  else if link_is_remove m then key ← make_remove_key_padded m false; Ok (Batch.delete txn key)
  else Ok txn.

Definition link_build_indices (txn : RocksDbTransactionBatch) (ts_hash : bytes) (m : Message) :
    result HubError RocksDbTransactionBatch :=
  '(by_target_key, rtype) ← link_index_key ts_hash m;
  Ok (Batch.put txn by_target_key rtype).

Definition link_delete_indices (txn : RocksDbTransactionBatch) (ts_hash : bytes) (m : Message) :
    result HubError RocksDbTransactionBatch :=
  '(by_target_key, _) ← link_index_key ts_hash m;
  txn ← delete_unpadded_key txn m;
  Ok (Batch.delete txn by_target_key).

Definition link_compact_state_key (m : Message) : result HubError bytes :=
  '(fid, body) ← require_body m;
  match body with
  | LinkCompactStateBody_ b => Ok (link_compact_state_add_key fid (compact_type b))
  | LinkBody_ b => Ok (link_compact_state_add_key fid (link_type b))
  | _ => Err (invalid_parameter "link_compact_body not specified")
  end.

Definition LinkStoreDef (T : Type) (prune_size_limit : Z) : StoreDefBase T := {|
  postfix := user_postfix_u8 LinkMessage;
  add_message_type := message_type_i32 MT_LinkAdd;
  remove_message_type := message_type_i32 MT_LinkRemove;
  compact_state_message_type := message_type_i32 MT_LinkCompactState;
  is_add_type := link_is_add;
  is_remove_type := link_is_remove;
  remove_type_supported := default_type_supported (message_type_i32 MT_LinkRemove);
  is_compact_state_type := is_signed_type MT_LinkCompactState;
  compact_state_type_supported := default_type_supported (message_type_i32 MT_LinkCompactState);
  build_secondary_indices := link_build_indices;
  delete_secondary_indices := link_delete_indices;
  delete_remove_secondary_indices := delete_unpadded_key;
  find_merge_add_conflicts _ _ := Ok tt;
  find_merge_remove_conflicts _ _ := Ok tt;
  make_add_key m := make_add_key_padded m true;
  make_remove_key m := make_remove_key_padded m true;
  make_compact_state_add_key := link_compact_state_key;
  make_compact_state_prefix fid := Ok (make_user_key fid ++ [user_postfix_u8 LinkCompactStateMessage]);
  get_prune_size_limit := prune_size_limit;
  message_compare := default_message_compare (message_type_i32 MT_LinkRemove) (message_type_i32 MT_LinkAdd);
  revoke_event_args := default_revoke_event_args;
  merge_event_args := default_merge_event_args (message_type_i32 MT_LinkCompactState);
  prune_event_args := default_prune_event_args;
|}.

(** The filter of the queries by user. *)
Definition link_type_filter (type : string) (m : Message) : bool :=
  match data m ≫= body with
  | Some (LinkBody_ b) => String.eqb type "" || String.eqb (link_type b) type
  | _ => false
  end.

Definition partial_link (t : MessageType) (fid : Z) (type : string) (target : option Z) : Message :=
  partial_message fid (message_type_i32 t) [] (LinkBody_ (mkLinkBody type None target)).

Section LinkStore.
Context {T : Type} `{TransactionDB T} `{!PrefixIteration T} `{!Codec Message, !Codec MessageData, !Codec HubEvent}.
Context (prune_size_limit : Z).

#[local] Instance link_base : StoreDefBase T := LinkStoreDef T prune_size_limit.

(** The default, and the same again for the unpadded keys. *)
Definition link_get_merge_conflicts (d : RocksDB T) (m : Message) (ts_hash : bytes) : result HubError (list Message) :=
  conflicts ← get_default_merge_conflicts d m ts_hash;
  remove_key ← make_remove_key_padded m false;
  removes ← existing_conflict d m ts_hash remove_message_type remove_key "message conflicts with a more recent remove";
  add_key ← make_add_key_padded m false;
  adds ← existing_conflict d m ts_hash add_message_type add_key "message conflicts with a more recent add";
  Ok (conflicts ++ removes ++ adds).

Definition link_store_def : StoreDef T :=
  {| store_def_base := link_base; get_merge_conflicts := link_get_merge_conflicts |}.
#[local] Existing Instance link_store_def.

Definition link_store_new (d : RocksDB T) (handler : HubEventIdGenerator) : Store T := new_with_store_def d handler.

(** [if let Ok(None) = result]: the unpadded key. *)
Definition or_unpadded (make_key : Message -> bool -> result HubError bytes) (partial : Message)
    (r : result HubError (option Message)) (s : Store T) : result HubError (option Message) :=
  match r with
  | Ok None =>
      unpadded_key ← make_key partial false;
      message_ts_hash ← map_err rocksdb_to_hub_error (RocksDB_get (store_db s) unpadded_key);
      match message_ts_hash with
      | None => Ok None
      | Some _ =>
          data ← unwrap (data partial);
          h ← vec_to_u8_24 message_ts_hash;
          get_message (store_db s) (wrap 32 (fid data)) postfix h
      end
  | r => r
  end.

Definition get_link_add (fid : Z) (type : string) (target : option Z) (s : Store T) : result HubError (option Message) :=
  let partial := partial_link MT_LinkAdd fid type target in
  or_unpadded make_add_key_padded partial (get_add partial s) s.

Definition get_link_remove (fid : Z) (type : string) (target : option Z) (s : Store T) :
    result HubError (option Message) :=
  let partial := partial_link MT_LinkRemove fid type target in
  or_unpadded make_remove_key_padded partial (get_remove partial s) s.

Definition get_link_adds_by_fid (fid : Z) (type : string) (page_options : PageOptions) (s : Store T) :
    result HubError MessagesPage :=
  get_adds_by_fid fid page_options (Some (link_type_filter type)) s.

Definition get_link_removes_by_fid (fid : Z) (type : string) (page_options : PageOptions) (s : Store T) :
    result HubError MessagesPage :=
  get_removes_by_fid fid page_options (Some (link_type_filter type)) s.

Definition get_link_compact_state_message_by_fid (fid : Z) (page_options : PageOptions) (s : Store T) :
    result HubError MessagesPage :=
  get_compact_state_messages_by_fid fid page_options s.

Definition get_links_by_target (target : Z) (type : string) (page_options : PageOptions) (s : Store T) :
    result HubError MessagesPage :=
  prefix ← links_by_target_key target 0 None;
  get_page_by_index (store_db s) postfix prefix page_options
    (fun value => String.eqb type "" || bool_decide (value = string_bytes type)).
End LinkStore.
