(* ===== verification/Js.v ===== *)
(** * The JavaScript side of the account stores

    The account stores are called from Node.js through Neon: the helpers of
    [src/storage/store/account/utils.rs] that read arguments and build results,
    the error conversions of [store.rs], and the bindings of
    [store_event_handler.rs]. Neon is a library outside the repository's
    sources: [Neon] has the operations on JavaScript values that the bindings
    use, [NeonLaws] what they rely on, and [JsV] is an instance.

    A binding takes the list of its arguments and works on the state of the
    object [this]. Its result is a promise, which is the rest of the
    computation: what runs in the thread pool and in [settle_with], when the
    state may have changed in between. *)

From S2P Require Import Prelude Text Util F64 Db Proto AccountMessage Events MerkleTrie.

(** ** Neon *)

(** Values and exceptions. The views answer [None] for a value of another type;
    the view of an object is the function that reads its properties. *)
Class Neon (V Throw : Type) := {
  is_undefined : V -> bool;
  as_boolean : V -> option bool;
  as_number : V -> option f64;
  as_string : V -> option string;
  as_buffer : V -> option bytes;
  as_array : V -> option (list V);
  as_object : V -> option (string -> V);
  undefined : V;
  js_number : f64 -> V;
  js_string : string -> V;
  js_buffer : bytes -> V;
  js_array : list V -> V;
  js_object : gmap string V -> V;
  throw_error : string -> Throw;
  type_error : Throw;
  throw_to_string : Throw -> string;
}.

Class NeonLaws (V Throw : Type) `{Neon V Throw} : Prop := {
  undefined_is_undefined : is_undefined undefined = true;
  number_not_undefined n : is_undefined (js_number n) = false;
  buffer_not_undefined b : is_undefined (js_buffer b) = false;
  number_law n : as_number (js_number n) = Some n;
  string_law s : as_string (js_string s) = Some s;
  buffer_law b : as_buffer (js_buffer b) = Some b;
  array_law l : as_array (js_array l) = Some l;
  object_law m : exists get, as_object (js_object m) = Some get /\ forall k, get k = default undefined (m !! k);
}.

(** A model of the values. *)
Inductive JsV :=
| JUndefined
| JBoolean (b : bool)
| JNumber (x : f64)
| JString (s : string)
| JBuffer (b : bytes)
| JArray (l : list JsV)
| JObject (properties : list (string * JsV)).

#[export] Instance model_Neon : Neon JsV string := {|
  is_undefined v := match v with JUndefined => true | _ => false end;
  as_boolean v := match v with JBoolean b => Some b | _ => None end;
  as_number v := match v with JNumber x => Some x | _ => None end;
  as_string v := match v with JString s => Some s | _ => None end;
  as_buffer v := match v with JBuffer b => Some b | _ => None end;
  as_array v := match v with JArray l => Some l | _ => None end;
  as_object v := match v with
                 | JObject l => Some (fun k => default JUndefined ((list_to_map l : gmap string JsV) !! k))
                 | _ => None
                 end;
  undefined := JUndefined;
  js_number := JNumber;
  js_string := JString;
  js_buffer := JBuffer;
  js_array := JArray;
  js_object m := JObject (map_to_list m);
  throw_error s := s;
  type_error := "TypeError";
  throw_to_string s := s;
|}.

#[export] Instance model_NeonLaws : NeonLaws JsV string.
Proof.
  split; try done. intros m. eexists. split; [reflexivity|]. intros k. simpl. by rewrite list_to_map_to_list.
Qed.

(** ** Arguments *)
Section Neon.
Context {V Throw : Type} `{Neon V Throw}.
Implicit Types (args : list V) (i : nat).

(** [cx.argument::<A>(i)]: a missing argument or one of another type is an
    exception. *)
Definition argument {A} (view : V -> option A) args i : result Throw A :=
  v ← ok_or (args !! i) type_error; ok_or (view v) type_error.

(** [cx.argument::<A>(i).unwrap()] *)
Definition argument_unwrap {A} (view : V -> option A) args i : result Throw A := unwrap_result (argument view args i).

(** The same for a number, as [u<w>]. *)
Definition number_argument (w : Z) args i : result Throw Z := as_u w <$> argument as_number args i.
Definition number_argument_unwrap (w : Z) args i : result Throw Z := as_u w <$> argument_unwrap as_number args i.

(** [cx.argument_opt(i)] with a downcast to a number, as [u<w>]. *)
Definition argument_number_opt (w : Z) args i : option Z := v ← args !! i; as_u w <$> as_number v.

(** [obj.get::<A>(key)] and [obj.get_opt::<A>(key)]. *)
Definition get_property {A} (view : V -> option A) (obj : string -> V) (key : string) : result Throw A :=
  ok_or (view (obj key)) type_error.

Definition get_property_opt {A} (view : V -> option A) (obj : string -> V) (key : string) : result Throw (option A) :=
  if is_undefined (obj key) then Ok None else a ← get_property view obj key; Ok (Some a).

(** ** Helpers of utils.rs *)
Definition encode_messages_to_js_object (page : MessagesPage) : V :=
  let js_messages := js_array (map js_buffer (messages_bytes page)) in
  let next := match next_page_token page with Some page_token => js_buffer page_token | None => undefined end in
  js_object (<["nextPageToken" := next]> {["messageBytes" := js_messages]}).

Fixpoint encode_node_metadata_to_js_object (node_metadata : NodeMetadata) : V :=
  let children := meta_children node_metadata in
  js_object
    (<["childrenValues" := js_array (map (fun child => encode_node_metadata_to_js_object child.2) children)]>
    (<["childrenKeys" := js_array (map (fun child => js_number (f64_of_Z child.1)) children)]>
    (<["hash" := js_string (meta_hash node_metadata)]>
    (<["numMessages" := js_number (f64_of_Z (meta_num_messages node_metadata))]>
    {["prefix" := js_buffer (meta_prefix node_metadata)]})))).

Definition get_page_options args i : result Throw PageOptions :=
  js_object ← argument as_object args i;
  page_size ← get_property_opt as_number js_object "pageSize";
  page_token ← get_property_opt as_buffer js_object "pageToken";
  reverse ← get_property_opt as_boolean js_object "reverse";
  let page_token := default [] page_token in
  Ok (mkPageOptions (Z.to_nat ∘ as_u 64 <$> page_size) (if length page_token =? 0 then None else Some page_token)
        (default false reverse)).

(** [get_iterator_options]: [reverse], [gte], [gt] and [lt]. *)
Definition get_iterator_options args i : result Throw (bool * option bytes * option bytes * bytes) :=
  js_opts ← argument as_object args i;
  reverse ← get_property_opt as_boolean js_opts "reverse";
  gte ← get_property_opt as_buffer js_opts "gte";
  gt ← get_property_opt as_buffer js_opts "gt";
  lt ← get_property as_buffer js_opts "lt";
  Ok (default false reverse, gte, gt, lt).

(** [get_store], [get_db] and [get_merkle_trie]: the object [this]. *)
Definition get_this {S} : ST S Throw S := st_get.

(** ** Errors *)
Definition hub_error_to_js_throw {A} (e : HubError) : result Throw A := Err (throw_error (hub_error_display e)).

(** [From<neon::result::Throw> for HubError] *)
Definition throw_to_hub_error (e : Throw) : HubError := mkHubError "bad_request.validation_failure" (throw_to_string e).

(** [From<rocksdb::Error>] and [From<std::io::Error>], with the printed error. *)
Definition rocksdb_error_to_hub_error (e : string) : HubError := mkHubError "db.internal_error" e.
Definition io_error_to_hub_error (e : string) : HubError := mkHubError "bad_request.io_error" e.

(** A result of the store for JavaScript. *)
Definition or_throw {A} (r : result HubError A) : result Throw A :=
  match r with Ok a => Ok a | Err e => hub_error_to_js_throw e | Panic => Panic | OutOfFuel => OutOfFuel end.

(** ** Promises *)

(** What remains to be done when a binding has returned. *)
Definition JsPromise (S : Type) : Type := ST S Throw V.

(** The types of a function that returns a promise, and of awaiting it with
    nothing in between. *)
Definition Binding (S : Type) : Type := ST S Throw (JsPromise S).
Definition await {S} (b : Binding S) : ST S Throw V := (let! promise := b in promise)%st.

(** [deferred.settle_with] with a value that is known. *)
Definition settle {S} (r : result Throw V) : JsPromise S := st_lift r.

Definition settle_buffer {S} (r : result HubError bytes) : JsPromise S := settle (js_buffer <$> or_throw r).

Definition settle_messages {S} (r : result HubError MessagesPage) : JsPromise S :=
  settle (encode_messages_to_js_object <$> or_throw r).

(** [deferred_settle_messages] after a query in the thread pool. *)
Definition query_in_pool {S} (query : S -> result HubError MessagesPage) : JsPromise S :=
  (let! s := st_get in settle_messages (query s))%st.

(** [match result { Ok(Some(x)) => x.encode_to_vec(), Ok(None) => throw, Err(e) => throw }],
    then a promise of the buffer. *)
Definition found_buffer {S A} `{!Codec A} (missing : string) (r : result HubError (option A)) : Binding S :=
  (let! o := st_lift (or_throw r) in
   match o with
   | Some a => st_ret (settle (Ok (js_buffer (encode_to_vec a))))
   | None => st_lift (Err (throw_error missing))
   end)%st.

(** [format!("{}/{} for {}", "not_found", what, fid)] *)
Definition not_found_for (what subject : string) : string := "not_found/" +:+ what +:+ " for " +:+ subject.

(** ** The event handler *)
Definition js_create_store_event_handler args : result Throw HubEventIdGenerator :=
  let epoch := argument_number_opt 64 args 0 in
  let last_timestamp := argument_number_opt 64 args 1 in
  let last_seq := argument_number_opt 64 args 2 in
  Ok (handler_new epoch last_timestamp last_seq).

Definition js_get_next_event_id (now : Z) args : ST HubEventIdGenerator Throw V :=
  (let timestamp := argument_number_opt 64 args 0 in
   let! event_id := st_attempt (generate_id now timestamp) in
   match event_id with
   | inr id => st_ret (js_number (f64_of_Z id))
   | inl e => st_lift (hub_error_to_js_throw e)
   end)%st.

End Neon.
