(* ===== verification/Bindings.v ===== *)
(** * The bindings of the account stores

    The functions of [src/storage/store/account/] that Node.js calls: those of
    [store.rs], which work on any store, and those of each kind of store. They
    read their arguments, call the store and settle a promise ([Js.v]). A
    single lookup runs when the function is called, the queries of pages and
    the long changes run later in the thread pool. *)

From S2P Require Import Prelude Text Util F64 Db Proto AccountMessage Events Store StoreIndex StoreSpec ReactionStore CastStore.
From S2P Require Import NameRegistry UserDataStore VerificationStore UsernameProofStore LinkStore MerkleTrie Js.

(** ** Any store *)
Section StoreBindings.
Context {T : Type} `{TransactionDB T} `{!PrefixIteration T} `{!Codec Message, !Codec MessageData, !Codec HubEvent}
  `{!StoreDef T}.
Context {V Throw : Type} `{Neon V Throw}.
Implicit Types (args : list V) (now : Z).

(** [Message::decode] and the error for a message that does not decode. *)
Definition decode_argument {A} `{!Codec A} (b : bytes) : result Throw (HubError + A) :=
  match decode b with
  | Ok a => Ok (inr a)
  | Err e => Ok (inl (validation_failure e))
  | Panic => Panic
  | OutOfFuel => OutOfFuel
  end.

(** The operation on what was decoded; errors are results. *)
Definition on_decoded {S A B} (f : A -> ST S HubError B) (a : HubError + A) : ST S Throw (HubError + B) :=
  match a with inl e => st_ret (inl e) | inr a => st_attempt (f a) end.

Definition of_sum {A} (a : HubError + A) : result HubError A := match a with inl e => Err e | inr a => Ok a end.

Definition js_merge now args : Binding (Store T) :=
  (let! message_bytes := st_lift (argument_unwrap as_buffer args 0) in
   let! message := st_lift (decode_argument message_bytes) in
   let! result := on_decoded (merge now) message in
   st_ret (settle_buffer (of_sum result)))%st.

(** The decoding of the array of [js_merge_many]. *)
Fixpoint decode_messages (messages_array : list V) : result Throw (list (HubError + Message)) :=
  match messages_array with
  | [] => Ok []
  | v :: messages_array =>
      message_bytes ← unwrap (as_buffer v);
      message ← decode_argument message_bytes;
      messages ← decode_messages messages_array;
      Ok (message :: messages)
  end.

(** The merges in the pool, at the given readings of the clock. *)
Fixpoint merge_messages (messages : list (Z * (HubError + Message))) : ST (Store T) Throw (list (HubError + bytes)) :=
  match messages with
  | [] => st_ret []
  | (now, message) :: messages =>
      (let! result := on_decoded (merge now) message in
       let! results := merge_messages messages in
       st_ret (result :: results))%st
  end.

Definition js_outcome (result : HubError + bytes) : V :=
  match result with inr hub_event_bytes => js_buffer hub_event_bytes | inl e => js_string (hub_error_display e) end.

Definition js_merge_many (clock : nat -> Z) args : Binding (Store T) :=
  (let! messages_array := st_lift (argument_unwrap as_array args 0) in
   let! messages := st_lift (decode_messages messages_array) in
   st_ret
     (let! results := merge_messages (imap (fun i message => (clock i, message)) messages) in
      st_ret (js_array (map js_outcome results))))%st.

Definition js_revoke now args : Binding (Store T) :=
  (let! message_bytes := st_lift (argument_unwrap as_buffer args 0) in
   let! message := st_lift (decode_argument message_bytes) in
   let! result := on_decoded (revoke now) message in
   st_ret (settle_buffer (of_sum result)))%st.

Definition js_prune_messages (clock : nat -> Z) args : Binding (Store T) :=
  (let! fid := st_lift (number_argument_unwrap 32 args 0) in
   let! cached_count := st_lift (number_argument_unwrap 64 args 1) in
   let! units := st_lift (number_argument_unwrap 64 args 2) in
   st_ret
     (let! prune_result := st_attempt (prune_messages clock fid cached_count units) in
      let! pruned_events := st_lift (or_throw (of_sum prune_result)) in
      st_ret (js_array (map (fun hub_event => js_buffer (encode_to_vec hub_event)) pruned_events))))%st.

Definition js_get_message args : Binding (Store T) :=
  (let! fid := st_lift (number_argument_unwrap 32 args 0) in
   let! set := st_lift (number_argument_unwrap 8 args 1) in
   let! buffer := st_lift (argument as_buffer args 2) in
   let! ts_hash := st_lift (or_throw (vec_to_u8_24 (Some buffer))) in
   st_ret
     (let! s := get_this in
      await (found_buffer "not_found/message not found" (get_message (store_db s) fid set ts_hash))))%st.

Definition js_get_all_messages_by_fid args : Binding (Store T) :=
  (let! fid := st_lift (number_argument_unwrap 32 args 0) in
   let! page_options := st_lift (get_page_options args 1) in
   let start_time := argument_number_opt 32 args 2 in
   let stop_time := argument_number_opt 32 args 3 in
   st_ret (query_in_pool (get_all_messages_by_fid fid start_time stop_time page_options)))%st.

(** [js_create_*_store]: the boxes of the database and of the event handler,
    and the limit of messages. *)
Definition create_store {A} (unbox_db : V -> option (RocksDB T)) (unbox_handler : V -> option HubEventIdGenerator)
    (new : Z -> RocksDB T -> HubEventIdGenerator -> A) args : result Throw A :=
  db ← argument unbox_db args 0;
  handler ← argument unbox_handler args 1;
  prune_size_limit ← number_argument 32 args 2;
  Ok (new prune_size_limit db handler).

(** A cast or a url, in two arguments. *)
Definition cast_or_url {A} `{!Codec CastId} (by_cast : CastId -> A) (by_url : string -> A) (required : string) args (i : nat) :
    result Throw A :=
  bytes ← argument as_buffer args i;
  cast_id ← (if 0 <? length bytes then
               match decode bytes with
               | Ok cast_id => Ok (Some cast_id)
               | Err e => Err (throw_error e)
               | Panic => Panic
               | OutOfFuel => OutOfFuel
               end
             else Ok None);
  url ← argument as_string args (S i);
  match cast_id with
  | Some cast_id => Ok (by_cast cast_id)
  | None => if bool_decide (url = "") then Err (throw_error required) else Ok (by_url url)
  end.
End StoreBindings.

(** ** The kinds of stores *)
Section Kinds.
Context {T : Type} `{TransactionDB T} `{!PrefixIteration T} `{!Codec Message, !Codec MessageData, !Codec HubEvent, !Codec CastId, !Codec UserNameProof}.
Context {V Throw : Type} `{Neon V Throw} (unbox_db : V -> option (RocksDB T)) (unbox_handler : V -> option HubEventIdGenerator).
Context (prune_size_limit : Z) (from_utf8_lossy : bytes -> string).
Implicit Types (args : list V).

(** *** Reactions *)
Definition target_required : string := "target_cast_id or target_url is required".

Definition create_reaction_store args : result Throw (StoreDef T * Store T) :=
  create_store unbox_db unbox_handler (fun limit db handler => (reaction_store_def limit, reaction_store_new db handler)) args.

(** The lookups of [js_get_reaction_add] and [js_get_reaction_remove]. *)
Definition js_get_reaction (get : Z -> Z -> option ReactionTarget -> Store T -> result HubError (option Message)) (missing : string) args :
    Binding (Store T) :=
  (let! s := get_this in
   let! fid := st_lift (number_argument_unwrap 32 args 0) in
   let! reaction_type := st_lift (argument_unwrap as_number args 1) in
   let! target := st_lift (cast_or_url TargetCastId TargetUrl target_required args 2) in
   found_buffer (not_found_for missing (print_uint fid)) (get fid (as_i 32 reaction_type) (Some target) s))%st.

Definition js_get_reaction_add : list V -> Binding (Store T) :=
  js_get_reaction (get_reaction_add prune_size_limit) "reactionAddMessage not found".

Definition js_get_reaction_remove : list V -> Binding (Store T) :=
  js_get_reaction (get_reaction_remove prune_size_limit) "reactionRemoveMessage not found".

Definition js_get_reaction_adds_by_fid args : Binding (Store T) :=
  (let! fid := st_lift (number_argument_unwrap 32 args 0) in
   let! reaction_type := st_lift (argument_unwrap as_number args 1) in
   let! page_options := st_lift (get_page_options args 2) in
   st_ret (query_in_pool (get_reaction_adds_by_fid prune_size_limit fid (as_i 32 reaction_type) page_options)))%st.

Definition js_get_reaction_removes_by_fid args : Binding (Store T) :=
  (let! fid := st_lift (number_argument_unwrap 32 args 0) in
   let! reaction_type := st_lift (argument_unwrap as_number args 1) in
   let! page_options := st_lift (get_page_options args 2) in
   st_ret (query_in_pool (get_reaction_removes_by_fid prune_size_limit fid (as_i 32 reaction_type) page_options)))%st.

Definition js_get_reactions_by_target args : Binding (Store T) :=
  (let! target := st_lift (cast_or_url TargetCastId TargetUrl target_required args 0) in
   let! reaction_type := st_lift (argument as_number args 2) in
   let! page_options := st_lift (get_page_options args 3) in
   st_ret (query_in_pool (get_reactions_by_target prune_size_limit target (as_i 32 reaction_type) page_options)))%st.

(** *** Casts *)
Definition js_create_cast_store args : result Throw (StoreDef T * Store T) :=
  create_store unbox_db unbox_handler (fun limit db handler => (cast_store_def limit, cast_store_new db handler)) args.

(** The lookups by user and bytes, a hash or an address. *)
Definition js_get_by_bytes (get : Z -> bytes -> Store T -> result HubError (option Message)) (missing : string) args :
    Binding (Store T) :=
  (let! s := get_this in
   let! fid := st_lift (number_argument_unwrap 32 args 0) in
   let! hash_bytes := st_lift (argument as_buffer args 1) in
   found_buffer (not_found_for missing (print_uint fid)) (get fid hash_bytes s))%st.

Definition js_get_cast_add : list V -> Binding (Store T) :=
  js_get_by_bytes (get_cast_add prune_size_limit) "castAddMessage not found".

Definition js_get_cast_remove : list V -> Binding (Store T) :=
  js_get_by_bytes (get_cast_remove prune_size_limit) "CastRemoveMessage not found".

(** A query by user with page options only, in the pool. *)
Definition js_query_by_fid (query : Z -> PageOptions -> Store T -> result HubError MessagesPage) args : Binding (Store T) :=
  (let! fid := st_lift (number_argument_unwrap 32 args 0) in
   let! page_options := st_lift (get_page_options args 1) in
   st_ret (query_in_pool (query fid page_options)))%st.

Definition js_get_cast_adds_by_fid : list V -> Binding (Store T) := js_query_by_fid (get_cast_adds_by_fid prune_size_limit).

Definition js_get_cast_removes_by_fid : list V -> Binding (Store T) :=
  js_query_by_fid (get_cast_removes_by_fid prune_size_limit).

(** A page that was queried before the promise. *)
Definition settled_page (r : result HubError MessagesPage) : Binding (Store T) :=
  (let! messages := st_lift (or_throw r) in st_ret (settle (Ok (encode_messages_to_js_object messages))))%st.

Definition js_get_casts_by_parent args : Binding (Store T) :=
  (let! s := get_this in
   let! target := st_lift (cast_or_url ParentCastId ParentUrl "parent_cast_id or parent_url is required" args 0) in
   let! page_options := st_lift (get_page_options args 2) in
   settled_page (get_casts_by_parent prune_size_limit target page_options s))%st.

Definition js_get_casts_by_mention args : Binding (Store T) :=
  (let! mention := st_lift (number_argument 32 args 0) in
   let! page_options := st_lift (get_page_options args 1) in
   st_ret (query_in_pool (get_casts_by_mention prune_size_limit mention page_options)))%st.

(** *** Links *)
Definition create_link_store args : result Throw (StoreDef T * Store T) :=
  create_store unbox_db unbox_handler (fun limit db handler => (link_store_def limit, link_store_new db handler)) args.

(** A target user must be given. *)
Definition require_fid (required : string) (fid : Z) (k : @Binding V Throw (Store T)) : Binding (Store T) :=
  if (fid =? 0)%Z then st_lift (Err (throw_error required)) else k.

(** The lookups of [js_get_link_add] and [js_get_link_remove]. *)
Definition js_get_link (get : Z -> string -> option Z -> Store T -> result HubError (option Message)) (required missing : string) args :
    Binding (Store T) :=
  (let! s := get_this in
   let! fid := st_lift (number_argument_unwrap 32 args 0) in
   let! link_type := st_lift (argument as_string args 1) in
   let! target_fid := st_lift (number_argument_unwrap 32 args 2) in
   require_fid required target_fid
     (found_buffer (not_found_for missing (print_uint fid)) (get fid link_type (Some target_fid) s)))%st.

Definition js_get_link_add : list V -> Binding (Store T) :=
  js_get_link (get_link_add prune_size_limit) "target fid is required" "Link Add Message not found".

Definition js_get_link_remove : list V -> Binding (Store T) :=
  js_get_link (get_link_remove prune_size_limit) "target_fid is required" "Link Remove Message not found".

(** A query by user and type, in the pool. *)
Definition js_query_links (query : Z -> string -> PageOptions -> Store T -> result HubError MessagesPage) args : Binding (Store T) :=
  (let! fid := st_lift (number_argument 32 args 0) in
   let! link_type := st_lift (argument as_string args 1) in
   let! page_options := st_lift (get_page_options args 2) in
   st_ret (query_in_pool (query fid link_type page_options)))%st.

Definition js_get_link_adds_by_fid : list V -> Binding (Store T) := js_query_links (get_link_adds_by_fid prune_size_limit).

Definition js_get_link_removes_by_fid : list V -> Binding (Store T) :=
  js_query_links (get_link_removes_by_fid prune_size_limit).

Definition js_get_links_by_target args : Binding (Store T) :=
  (let! target_fid := st_lift (number_argument_unwrap 32 args 0) in
   let! link_type := st_lift (argument as_string args 1) in
   let! page_options := st_lift (get_page_options args 2) in
   require_fid "target_fid is required" target_fid
     (st_ret (query_in_pool (get_links_by_target prune_size_limit target_fid link_type page_options))))%st.

Definition js_get_link_compact_state_message_by_fid args : Binding (Store T) :=
  (let! fid := st_lift (number_argument_unwrap 32 args 0) in
   let! page_options := st_lift (get_page_options args 1) in
   require_fid "fid is required" fid
     (st_ret (query_in_pool (get_link_compact_state_message_by_fid prune_size_limit fid page_options))))%st.

(** *** User data *)
Definition create_userdata_store args : result Throw (StoreDef T * Store T) :=
  create_store unbox_db unbox_handler (fun limit db handler => (user_data_store_def limit, user_data_store_new db handler)) args.

Definition userdata_missing : string := "not_found/NotFound: UserDataAdd message not found".

Definition js_get_userdata_add args : Binding (Store T) :=
  (let! s := get_this in
   let! fid := st_lift (number_argument 32 args 0) in
   let! type := st_lift (argument as_number args 1) in
   found_buffer userdata_missing (get_user_data_add prune_size_limit fid (as_i 32 type) s))%st.

Definition js_get_user_data_adds_by_fid args : Binding (Store T) :=
  (let! s := get_this in
   let! fid := st_lift (number_argument 32 args 0) in
   let! page_options := st_lift (get_page_options args 1) in
   let start_time := argument_number_opt 32 args 2 in
   let stop_time := argument_number_opt 32 args 3 in
   settled_page (get_user_data_adds_by_fid prune_size_limit fid page_options start_time stop_time s))%st.

(** A proof without owner counts as missing. *)
Definition js_get_fname_proof args : Binding (Store T) :=
  (let! s := get_this in
   let! name := st_lift (argument as_buffer args 0) in
   let! o := st_lift (or_throw (user_data_get_username_proof name s)) in
   found_buffer userdata_missing
     (Ok match o with Some proof => if (proof_fid proof =? 0)%Z then None else Some proof | None => None end))%st.

Definition js_get_username_proof_by_fid args : Binding (Store T) :=
  (let! s := get_this in
   let! fid := st_lift (number_argument 32 args 0) in
   found_buffer userdata_missing (get_username_proof_by_fid fid s))%st.

Definition js_merge_username_proof (now : Z) args : Binding (Store T) :=
  (let! username_proof_buffer := st_lift (argument as_buffer args 0) in
   let! username_proof := st_lift (decode_argument username_proof_buffer) in
   let! result := on_decoded (merge_username_proof now) username_proof in
   st_ret (settle_buffer (of_sum result)))%st.

(** *** Verifications *)
Definition create_verification_store args : result Throw (StoreDef T * Store T) :=
  create_store unbox_db unbox_handler
    (fun limit db handler => (verification_store_def limit, verification_store_new db handler)) args.

Definition js_get_verification_add : list V -> Binding (Store T) :=
  js_get_by_bytes (get_verification_add prune_size_limit) "NotFound: verificationAddMessage not found".

Definition js_get_verification_remove : list V -> Binding (Store T) :=
  js_get_by_bytes (get_verification_remove prune_size_limit) "verificationRemoveMessage not found".

(** The queries by user run before the promise. *)
Definition js_page_by_fid (fid_argument : list V -> nat -> result Throw Z)
    (query : Z -> PageOptions -> Store T -> result HubError MessagesPage) args : Binding (Store T) :=
  (let! s := get_this in
   let! fid := st_lift (fid_argument args 0) in
   let! page_options := st_lift (get_page_options args 1) in
   settled_page (query fid page_options s))%st.

Definition js_get_verification_adds_by_fid : list V -> Binding (Store T) :=
  js_page_by_fid (number_argument_unwrap 32) (get_verification_adds_by_fid prune_size_limit).

Definition js_get_verification_removes_by_fid : list V -> Binding (Store T) :=
  js_page_by_fid (number_argument_unwrap 32) (get_verification_removes_by_fid prune_size_limit).

Definition js_migrate_verifications : Binding (Store T) :=
  (let! counts := st_attempt (migrate_verifications prune_size_limit) in
   let! (verifications_count, duplicates_count) := st_lift (or_throw (of_sum counts)) in
   st_ret
     (settle (Ok (js_object (<["duplicates" := js_number (f64_of_Z duplicates_count)]>
                            {["total" := js_number (f64_of_Z verifications_count)]})))))%st.

(** *** Username proofs *)
Definition create_username_proof_store args : result Throw (StoreDef T * Store T) :=
  create_store unbox_db unbox_handler
    (fun limit db handler => (username_proof_store_def limit, username_proof_store_new db handler)) args.

Definition js_get_username_proof args : Binding (Store T) :=
  (let! s := get_this in
   let! name := st_lift (argument as_buffer args 0) in
   let! name_type := st_lift (number_argument 8 args 1) in
   found_buffer (not_found_for "NotFound: usernameproof not found for {}" (from_utf8_lossy name))
     (get_username_proof_message prune_size_limit name name_type s))%st.

Definition js_get_username_proofs_by_fid : list V -> Binding (Store T) :=
  js_page_by_fid (number_argument 32) (get_username_proofs_by_fid prune_size_limit).

Definition js_get_username_proof_by_fid_and_name args : Binding (Store T) :=
  (let! s := get_this in
   let! fid := st_lift (number_argument 32 args 0) in
   let! name := st_lift (argument as_buffer args 1) in
   found_buffer (not_found_for "NotFound: username proof not found for {}" (from_utf8_lossy name))
     (get_username_proof_by_fid_and_name prune_size_limit name fid s))%st.
End Kinds.
