(* ===== verification/Convergence.v ===== *)
(** * Convergence of the account stores

    Stores that merge the same messages, in whatever order and however often,
    end with the same rows. The store is described by the abstract map of
    [StoreSpec.v]: at every conflict key the greatest message merged. *)

From S2P Require Import Prelude Util Db Proto AccountMessage Events Store StoreSpec.

Section Convergence.
Context {T : Type} `{TransactionDBLaws T} `{!PrefixIteration T} `{!Codec Message, !Codec MessageData, !Codec HubEvent}
  `{!StoreDef T, !StoreDefLaws, HDC : !DefaultConflicts, HNC : !NoCompaction}.
Implicit Types (a e x y p : Message) (L : list Message) (ops : list (Z * Message)) (m : gmap bytes bytes) (s : Store T) (d : MessageData) (f : Z) (sfx : bytes).

Abbreviation live := (gmap (Z * bytes) Message).

(** ** The abstract map as a maximum *)

(** [A] has the greatest message of [L] at every key. *)
Definition greatest_of (A : live) L : Prop :=
  (forall k e, A !! k = Some e -> e ∈ L /\ conflict_key e = k) /\
  (forall x, x ∈ L -> exists e, A !! conflict_key x = Some e /\ bytes_le (rank x) (rank e)).

(** Two messages of a user with one timestamp and hash are one. *)
Definition collision_free L : Prop := forall x y, x ∈ L -> y ∈ L -> no_collision x y.

Lemma greatest_of_nil : greatest_of ∅ [].
Proof using Type. split; [intros k e; by rewrite lookup_empty|intros x; by intros ?%elem_of_nil]. Qed.

Lemma greatest_of_merge (A : live) L a : greatest_of A L -> greatest_of (lww_merge A a) (L ++ [a]).
Proof using Type.
  intros [Hin Hmax]. unfold lww_merge, accepts. destruct (A !! conflict_key a) as [e0|] eqn:E.
  2: { split.
    - intros k e. rewrite lookup_insert_Some, elem_of_app, list_elem_of_singleton. intros [[<- <-]|[_ He]]; [auto|].
      destruct (Hin k e He). auto.
    - intros x [Hx| ->%list_elem_of_singleton]%elem_of_app; [|exists a; rewrite lookup_insert_eq; done].
      destruct (Hmax x Hx) as (e & He & Hle). exists e. rewrite lookup_insert_ne; [done|]. intros Ek. congruence. }
  destruct (lex_compare (rank e0) (rank a)) eqn:C.
  - apply lex_compare_eq in C. split.
    + intros k e He. rewrite elem_of_app. destruct (Hin k e He). auto.
    + intros x [Hx| ->%list_elem_of_singleton]%elem_of_app; [by apply Hmax|]. exists e0. by rewrite C.
  - split.
    + intros k e. rewrite lookup_insert_Some, elem_of_app, list_elem_of_singleton. intros [[<- <-]|[_ He]]; [auto|].
      destruct (Hin k e He). auto.
    + intros x [Hx| ->%list_elem_of_singleton]%elem_of_app; [|exists a; rewrite lookup_insert_eq; done].
      destruct (Hmax x Hx) as (e & He & Hle). destruct (decide (conflict_key a = conflict_key x)) as [Ek|Ek].
      * exists a. rewrite Ek, lookup_insert_eq. split; [done|]. rewrite <- Ek, E in He. injection He as <-.
        etrans; [exact Hle|]. by apply bytes_lt_le.
      * exists e. by rewrite lookup_insert_ne.
  - split.
    + intros k e He. rewrite elem_of_app. destruct (Hin k e He). auto.
    + intros x [Hx| ->%list_elem_of_singleton]%elem_of_app; [by apply Hmax|]. exists e0. split; [done|].
      unfold bytes_le. rewrite lex_compare_antisym, C. done.
Qed.

Lemma greatest_of_merges (A : live) L L' : greatest_of A L -> greatest_of (foldl lww_merge A L') (L ++ L').
Proof using Type.
  revert A L. induction L' as [|a L' IH]; intros A L HA; simpl; [by rewrite app_nil_r|].
  rewrite cons_middle, app_assoc. by apply IH, greatest_of_merge.
Qed.

(** The greatest messages are determined by the set of messages. *)
Lemma greatest_of_unique (A B : live) L L' :
  greatest_of A L -> greatest_of B L' -> (forall x, x ∈ L <-> x ∈ L') ->
  (forall x, x ∈ L -> valid x) -> collision_free L -> A = B.
Proof using Type.
  intros [HA1 HA2] [HB1 HB2] Heq Hv Hc.
  assert (Hsame : forall e e', e ∈ L -> e' ∈ L -> conflict_key e = conflict_key e' ->
    bytes_le (rank e) (rank e') -> bytes_le (rank e') (rank e) -> e = e').
  { intros e e' He He' Hk R1 R2. pose proof (anti_symm bytes_le _ _ R1 R2) as Er. apply Hc; [done..| |].
    - by injection Hk.
    - by apply rank_inj; auto. }
  apply map_eq. intros k. destruct (A !! k) as [e|] eqn:EA.
  - destruct (HA1 k e EA) as [Hin <-]. destruct (HB2 e (proj1 (Heq e) Hin)) as (e' & EB & Hle). rewrite EB. f_equal.
    destruct (HB1 _ _ EB) as [Hin' Hk]. destruct (HA2 e' (proj2 (Heq e') Hin')) as (e'' & EA' & Hle').
    rewrite Hk, EA in EA'. injection EA' as <-. apply Hsame; try done. by apply Heq.
  - destruct (B !! k) as [e|] eqn:EB; [|done]. destruct (HB1 _ _ EB) as [Hin <-].
    destruct (HA2 e (proj2 (Heq e) Hin)) as (e' & E & _). by rewrite EA in E.
Qed.

(** ** Runs of merges *)

(** A run: every merge with its reading of the clock, errors ignored. *)
Definition merge_all (ops : list (Z * Message)) (s : Store T) : Store T :=
  foldl (fun s op => (merge op.1 op.2 s).2) s ops.

(** The event log can give out ids for the run. *)
Definition clock_ready (ops : list (Z * Message)) (g : HubEventIdGenerator) : Prop :=
  (0 <= last_seq g)%Z /\ (last_seq g + Z.of_nat (length ops) < 4096)%Z /\
  Forall (fun op => epoch g <= op.1 < epoch g + 2 ^ 41)%Z ops.

Lemma clock_ready_step op ops g : clock_ready (op :: ops) g ->
  exists id g', generate_id op.1 None g = (Ok id, g') /\ clock_ready ops g' /\ clock_ready ops g.
Proof using Type.
  intros (Hs & Hb & [Ht Ho]%Forall_cons). simpl length in Hb. rewrite generate_step by lia.
  assert (Hn : (0 <= next_seq g (op.1 - epoch g) <= last_seq g + 1)%Z) by (unfold next_seq; case_match; lia).
  change (2 ^ 12)%Z with 4096%Z. rewrite (proj2 (Z.leb_gt _ _)), (proj2 (Z.leb_gt _ _)) by lia.
  eexists _, _. split; [done|]. unfold clock_ready. simpl. split; (split_and!; [lia|lia|done]).
Qed.

(** A run keeps the representation. *)
Lemma merge_all_repr ops (s : Store T) m (A : live) L :
  holds (store_db s) m -> store_repr m A -> greatest_of A L -> clock_ready ops (store_event_handler s) ->
  (forall x, x ∈ L ++ map snd ops -> valid x) -> collision_free (L ++ map snd ops) ->
  exists m', holds (store_db (merge_all ops s)) m' /\ store_repr m' (foldl lww_merge A (map snd ops)).
Proof using HDC HNC.
  revert s m A L. induction ops as [|[now a] ops IH]; intros s m A L Hd Hr HA Hg Hv Hc; [by exists m|]. simpl in *.
  destruct (clock_ready_step _ _ _ Hg) as (id & g' & Eg & Hg' & Hg0). simpl in Eg.
  assert (Ha : valid a) by (apply Hv, elem_of_app; right; by left).
  assert (Hnc : forall k e, A !! k = Some e -> no_collision a e).
  { intros k e He. apply Hc; apply elem_of_app; [right; by left|left; by eapply HA]. }
  rewrite cons_middle, app_assoc in Hv, Hc.
  destruct (accepts A a) eqn:Eacc.
  - destruct (merge_accepted now a s m A id g' Hd Hr Ha Hnc Eacc Eg) as (s' & m' & E & Hh & Hd' & Hr' & _).
    rewrite E. simpl. apply (IH s' m' _ (L ++ [a])); try done; [|by apply greatest_of_merge|by rewrite Hh].
    unfold lww_merge. by rewrite Eacc.
  - rewrite (merge_refused now a s m A Hd Hr Ha Eacc). simpl. apply (IH s m _ (L ++ [a])); try done; [|by apply greatest_of_merge].
    unfold lww_merge. by rewrite Eacc.
Qed.

(** ** Lookups *)

(** The message at a conflict key, if it is an add (or a remove). *)
Definition add_at (A : live) (k : Z * bytes) : option Message :=
  match A !! k with Some e => if is_add_type e then Some e else None | None => None end.
Definition remove_at (A : live) (k : Z * bytes) : option Message :=
  match A !! k with Some e => if is_add_type e then None else Some e | None => None end.

Lemma get_by_set_key_spec (make_key : Message -> result HubError bytes) p d f sfx (s : Store T) m o :
  holds (store_db s) m -> data p = Some d -> fid d ≠ 0%Z -> wrap 32 (fid d) = f ->
  make_key p = Ok sfx -> m !! sfx = ts_hash_of <$> o ->
  (forall e, o = Some e -> valid e /\ fid_of e = f /\ m !! primary_row e = Some (message_encode e)) ->
  get_by_set_key make_key p s = Ok o.
Proof using Type.
  intros Hd Hp Hf Hw Hk Hm Ho. unfold get_by_set_key. rewrite Hp, (proj2 (Z.eqb_neq _ _)) by done. rewrite Hk. simpl.
  rewrite (RocksDB_get_holds _ m _ Hd), Hm. destruct o as [e|]; simpl; [|done].
  destruct (Ho e eq_refl) as (He & Hfe & Hrow). rewrite (ts_hash_length e He). simpl.
  rewrite Hw, <- Hfe. by apply (get_message_row _ m).
Qed.

Lemma get_add_at p d sfx (s : Store T) m (A : live) :
  holds (store_db s) m -> store_repr m A -> data p = Some d -> fid d ≠ 0%Z ->
  make_add_key p = Ok (user_row adds_postfix (wrap 32 (fid d)) sfx) ->
  get_add p s = Ok (add_at A (wrap 32 (fid d), sfx)).
Proof using Type.
  intros Hd [Hv _ Hadds _ Hrows _] Hp Hf Hk. eapply get_by_set_key_spec; try done.
  - rewrite Hadds by (unfold is_fid, wrap; apply Z.mod_pos_bound; lia). unfold adds_value, add_at.
    destruct (A !! _) as [e|]; [|done]. by destruct (is_add_type e).
  - intros e. unfold add_at. destruct (A !! _) as [e'|] eqn:E; [|done]. destruct (Hv _ _ E) as [Hve Hke].
    destruct (is_add_type e'); [|done]. intros [= ->]. split_and!; [done|by injection Hke|by apply (Hrows _ _ E)].
Qed.

Lemma get_remove_at p d sfx (s : Store T) m (A : live) :
  remove_type_supported = true ->
  holds (store_db s) m -> store_repr m A -> data p = Some d -> fid d ≠ 0%Z ->
  make_remove_key p = Ok (user_row removes_postfix (wrap 32 (fid d)) sfx) ->
  get_remove p s = Ok (remove_at A (wrap 32 (fid d), sfx)).
Proof using Type.
  intros Hs Hd [Hv _ _ Hrem Hrows _] Hp Hf Hk. unfold get_remove. rewrite Hs. simpl. eapply get_by_set_key_spec; try done.
  - rewrite Hrem by (unfold is_fid, wrap; apply Z.mod_pos_bound; lia). unfold removes_value, remove_at.
    destruct (A !! _) as [e|]; [|done]. by destruct (is_add_type e).
  - intros e. unfold remove_at. destruct (A !! _) as [e'|] eqn:E; [|done]. destruct (Hv _ _ E) as [Hve Hke].
    destruct (is_add_type e'); [done|]. intros [= ->]. split_and!; [done|by injection Hke|by apply (Hrows _ _ E)].
Qed.

(** ** Rows *)

(** The rows of a store: its messages and its two sets. *)
Definition store_row (k : bytes) : Prop :=
  exists q f sfx, is_fid f /\ (q = postfix \/ q = adds_postfix \/ q = removes_postfix) /\ k = user_row q f sfx.

(** The represented map determines the rows. *)
Lemma store_repr_rows m m' (A : live) (k : bytes) : store_repr m A -> store_repr m' A -> store_row k -> m !! k = m' !! k.
Proof using Type.
  assert (Hle : forall m m' k v f sfx, store_repr m A -> store_repr m' A -> is_fid f -> k = user_row postfix f sfx ->
    m !! k = Some v -> m' !! k = Some v).
  { intros m1 m2 k0 v f sfx R1 R2 Hf -> Hm. destruct (repr_only _ _ R1 f sfx v Hf Hm) as (k1 & e & He & Hp).
    rewrite <- Hp in *. rewrite (repr_rows _ _ R1 _ _ He) in Hm. by rewrite (repr_rows _ _ R2 _ _ He). }
  intros R1 R2 (q & f & sfx & Hf & [->|[->| ->]] & ->).
  - apply option_eq. intros v. split; intros Hv; eapply Hle; eauto.
  - by rewrite (repr_adds _ _ R1), (repr_adds _ _ R2).
  - by rewrite (repr_removes _ _ R1), (repr_removes _ _ R2).
Qed.

Lemma store_repr_empty m : (forall k, store_row k -> m !! k = None) -> store_repr m ∅.
Proof using Type.
  intros Hm. unfold store_row in Hm. split; try (intros; by rewrite lookup_empty in *).
  - intros f s Hf. unfold adds_value. rewrite lookup_empty. apply Hm. eauto 10.
  - intros f s Hf. unfold removes_value. rewrite lookup_empty. apply Hm. eauto 10.
  - intros f s v Hf Hv. rewrite Hm in Hv; [done|]. eauto 10.
Qed.
End Convergence.
