(* ===== verification/Retention.v ===== *)
(** * Revoking and pruning

    The transactions that take messages out of an account store, against the
    abstract map of [StoreSpec.v]: a revoked message leaves it, and pruning
    removes the oldest messages of a user until the limit is reached. *)

From S2P Require Import Prelude Util Db Proto AccountMessage Events Store StoreSpec Convergence.

Section Retention.
Context {T : Type} `{TransactionDBLaws T} `{!PrefixIteration T} `{!Codec Message, !Codec MessageData, !Codec HubEvent}
  `{!StoreDef T, !StoreDefLaws}.
Implicit Types (a e x y p : Message) (L : list Message) (m : gmap bytes bytes) (s : Store T) (now limit : Z) (f : Z) (sfx : bytes).

Abbreviation live := (gmap (Z * bytes) Message).

(** ** Deleting a live message *)

Lemma conflict_key_fid (A : live) m e k : store_repr m A -> A !! k = Some e -> valid e /\ conflict_key e = k.
Proof using Type. intros Hr He. by apply (repr_valid _ _ Hr). Qed.

(** The rows of a set when the message at a key is deleted. *)
Lemma set_rows_delete (A : live) m e f sfx (q : Z) (own : bool) (value : live -> Z * bytes -> option bytes) :
  q ≠ postfix -> is_fid f -> A !! conflict_key e = Some e ->
  (forall x, set_row x = user_row q f sfx -> is_add_type x = own /\ conflict_key x = (f, sfx)) ->
  (forall x, conflict_key x = (f, sfx) -> is_add_type x = own -> set_row x = user_row q f sfx) ->
  (forall B k, value B k = match B !! k with Some x => if eqb (is_add_type x) own then Some (ts_hash_of x) else None | None => None end) ->
  m !! user_row q f sfx = value A (f, sfx) ->
  drop_rows m (Some e) !! user_row q f sfx = value (base.delete (conflict_key e) A) (f, sfx).
Proof using Type.
  intros Hq Hf He Hset Hset' Hval Hm. simpl. rewrite lookup_delete_ne by by apply primary_not_set. rewrite Hval.
  destruct (decide (conflict_key e = (f, sfx))) as [Ek|Ek].
  - rewrite Ek, lookup_delete_eq. destruct (eqb (is_add_type e) own) eqn:Eo.
    + apply eqb_prop in Eo. by rewrite (Hset' e Ek Eo), lookup_delete_eq.
    + rewrite lookup_delete_ne; [by rewrite Hm, Hval, <- Ek, He, Eo|].
      intros Hs. destruct (Hset e Hs) as [Hx _]. by rewrite Hx, eqb_reflx in Eo.
  - rewrite !lookup_delete_ne; [by rewrite Hm, Hval|done|]. intros Hs. by destruct (Hset e Hs).
Qed.

Lemma repr_delete (A : live) m m' e :
  store_repr m A -> A !! conflict_key e = Some e ->
  (forall q f sfx, m' !! user_row q f sfx = drop_rows m (Some e) !! user_row q f sfx) ->
  store_repr m' (base.delete (conflict_key e) A).
Proof using Type.
  intros Hr He Hm'. destruct Hr as [Hv Hu Ha Hrem Hrows Honly]. destruct postfixes_distinct as (Hpa & Hpr & Har).
  split.
  - intros k x [_ Hx]%lookup_delete_Some. by apply Hv.
  - intros k k' x x' [_ Hx]%lookup_delete_Some [_ Hx']%lookup_delete_Some. by apply (Hu k k').
  - intros f s Hf. rewrite Hm'. apply (set_rows_delete A m e f s adds_postfix true adds_value); auto.
    + intros x Ex. by apply set_row_adds.
    + intros x Ek Ex. unfold set_row. rewrite Ex. by injection Ek as -> ->.
    + intros B k. unfold adds_value. destruct (B !! k) as [x|]; [|done]. by destruct (is_add_type x).
  - intros f s Hf. rewrite Hm'. apply (set_rows_delete A m e f s removes_postfix false removes_value); auto.
    + intros x Ex. by apply set_row_removes.
    + intros x Ek Ex. unfold set_row. rewrite Ex. by injection Ek as -> ->.
    + intros B k. unfold removes_value. destruct (B !! k) as [x|]; [|done]. by destruct (is_add_type x).
  - intros k x [Hne Hx]%lookup_delete_Some. unfold primary_row at 1. rewrite Hm'. fold (primary_row x). simpl.
    rewrite lookup_delete_ne; [|intros E; apply primary_row_inj in E as [Ef Et]; apply Hne;
      rewrite (Hu _ _ _ _ He Hx Ef Et); by destruct (Hv k x Hx)].
    rewrite lookup_delete_ne; [by apply (Hrows k)|]. intros E. by apply set_row_not_primary in E; [|apply fid_of_is_fid].
  - intros f s v Hf. rewrite Hm'. simpl. intros [Hne Hx]%lookup_delete_Some.
    rewrite lookup_delete_ne in Hx by by apply set_row_not_primary.
    destruct (Honly f s v Hf Hx) as (k & x & Hk & Ep). exists k, x. split; [|done].
    rewrite lookup_delete_ne; [done|]. intros <-. by simplify_eq.
Qed.

(** ** Revoking *)
Lemma revoke_unfold now a s : valid a ->
  revoke now a s =
  (let! txn := st_lift (delete_one_transaction Batch.new a) in commit_with_event now txn (revoke_event_args a))%st s.
Proof using Type.
  intros Ha. destruct (valid_storable a Ha) as (d & _ & _ & Hd & _). unfold revoke.
  erewrite st_bind_Ok by reflexivity. erewrite st_bind_Ok by (unfold st_lift; rewrite Hd; reflexivity).
  erewrite st_bind_Ok by (unfold st_lift; rewrite (valid_ts_hash a d Ha Hd); reflexivity).
  unfold delete_one_transaction. rewrite (valid_not_compact a Ha), (valid_add_or_remove a Ha), Hd. simpl. rewrite (valid_ts_hash a d Ha Hd).
  simpl. destruct (valid_types a Ha) as [(Eadd & _)|(Eadd & _ & _ & Hs)]; rewrite Eadd in *; simpl; [|by rewrite Hs].
  rewrite andb_false_r. unfold st_bind, st_lift. by destruct (delete_add_transaction _ _ _).
Qed.

Lemma revoke_live now a s m (A : live) (id : Z) g :
  holds (store_db s) m -> store_repr m A -> A !! conflict_key a = Some a ->
  generate_id now None (store_event_handler s) = (Ok id, g) ->
  let event := encode_to_vec (set_event_id id (revoke_event_args a)) in
  exists s' m', revoke now a s = (Ok event, s') /\ store_event_handler s' = g /\ holds (store_db s') m' /\
    store_repr m' (base.delete (conflict_key a) A) /\ m' !! make_event_key id = Some event.
Proof using Type.
  intros Hd Hr Ha Hg event. destruct (conflict_key_fid A m a _ Hr Ha) as [Hv _]. rewrite revoke_unfold by done.
  destruct (delete_one_spec m Batch.new a) as (t & Et & Ho); [rewrite apply_batch_new; by apply (repr_tidy _ A)|done|]. erewrite st_bind_Ok by (unfold st_lift; rewrite Et; reflexivity).
  destruct (commit_with_event_spec s m now t (revoke_event_args a) id g Hd Hg) as (s' & E & Hh & Hd').
  exists s', (<[make_event_key id := event]> (apply_batch m t)). split_and!; [exact E|done|done| |apply lookup_insert_eq].
  apply (repr_delete A m); [done..|]. intros q f s0. rewrite lookup_insert_ne by (symmetry; apply user_row_event).
  rewrite (Ho _ (user_row_own q f s0)). by rewrite !apply_batch_delete, apply_batch_new.
Qed.

(** ** Pruning *)
Lemma delete_one_by_type t e d : valid e -> data e = Some d ->
  delete_one_transaction t e =
  if is_add_type e then delete_add_transaction t (ts_hash_of e) e else delete_remove_transaction t e.
Proof using Type.
  intros Hv Hd. unfold delete_one_transaction. rewrite (valid_not_compact e Hv), (valid_add_or_remove e Hv), Hd. simpl.
  rewrite (valid_ts_hash e d Hv Hd). simpl. destruct (valid_types e Hv) as [(-> & _)|(-> & _ & _ & ->)]; simpl; [|done].
  rewrite andb_false_r. by destruct (delete_add_transaction t (ts_hash_of e) e).
Qed.

Lemma prune_callback_spec (clock : nat -> Z) limit m key e (q : Pruning) (id : Z) g :
  tidy (apply_batch m (prune_txn q)) -> valid e -> (limit < prune_count q)%Z ->
  generate_id (clock (length (pruned_events q))) None (prune_generator q) = (Ok id, g) ->
  let event := set_event_id id (prune_event_args e) in
  exists t, agree m t (Batch.delete (Batch.delete (prune_txn q) (set_row e)) (primary_row e)) /\
    prune_callback clock limit key (message_encode e) q =
    (Ok false, mkPruning (put_event_transaction t event) (prune_count q - 1) g (pruned_events q ++ [event])).
Proof using Type.
  intros Ht Hv Hl Hg event. destruct (valid_storable e Hv) as (d & _ & _ & Hd & _).
  destruct (delete_one_spec m (prune_txn q) e Ht Hv) as (t & Et & Ho). exists t. split; [done|].
  rewrite (delete_one_by_type _ e d Hv Hd) in Et. unfold prune_callback.
  erewrite st_bind_Ok by reflexivity. rewrite (proj2 (Z.leb_gt _ _)) by done.
  erewrite st_bind_Ok by (unfold st_lift; rewrite (valid_roundtrip e Hv); reflexivity). rewrite (valid_not_compact e Hv), andb_false_r.
  erewrite st_bind_Ok; [|].
  2: { instantiate (1 := set_prune_txn t q). instantiate (1 := tt). destruct (valid_types e Hv) as [(Ea & _)|(Ea & Er & _ & Hs)]; rewrite Ea in *.
    - unfold st_bind, st_lift, on_prune_txn, st_get, st_modify. rewrite Hd. simpl. rewrite (valid_ts_hash e d Hv Hd).
      unfold st_bind, st_lift. by rewrite Et.
    - rewrite Er, Hs. simpl. unfold on_prune_txn, st_bind, st_get, st_lift, st_modify. by rewrite Et. }
  erewrite st_bind_Ok; [reflexivity|]. unfold prune_commit_event, commit_transaction.
  erewrite st_bind_Ok by exact Hg. reflexivity.
Qed.

(** The messages of a user in a map, from the oldest to the newest. *)
Definition oldest_first (A : live) f L : Prop :=
  (forall e, e ∈ L <-> A !! conflict_key e = Some e /\ fid_of e = f) /\
  StronglySorted (fun x y => bytes_lt (ts_hash_of x) (ts_hash_of y)) L.

Definition row_of e : bytes * bytes := (primary_row e, message_encode e).

Definition delete_messages (A : live) L : live := foldl (fun B e => base.delete (conflict_key e) B) A L.

(** The events of a pruning that starts with [k] of them, with the readings of
    the clock *)
Definition timed (clock : nat -> Z) (k : nat) L : list (Z * Message) := imap (fun i e => (clock (k + i), e)) L.

Lemma timed_cons (clock : nat -> Z) k e L : timed clock k (e :: L) = (clock k, e) :: timed clock (S k) L.
Proof using Type.
  unfold timed. rewrite imap_cons, Nat.add_0_r. f_equal. apply imap_ext. intros i x _. simpl. by rewrite Nat.add_succ_r.
Qed.

Lemma prune_loop (clock : nat -> Z) limit m L (A : live) (q : Pruning) :
  store_repr (apply_batch m (prune_txn q)) A -> (forall e, e ∈ L -> A !! conflict_key e = Some e) -> NoDup L ->
  let pruned := take (Z.to_nat (prune_count q - limit)) L in
  clock_ready (timed clock (length (pruned_events q)) pruned) (prune_generator q) ->
  exists q' events, prefix_loop (prune_callback clock limit) (map row_of L) q = (Ok tt, q') /\
    store_repr (apply_batch m (prune_txn q')) (delete_messages A pruned) /\
    pruned_events q' = pruned_events q ++ events /\
    Forall2 (fun e event => exists id, event = set_event_id id (prune_event_args e)) pruned events.
Proof using Type.
  revert A q. induction L as [|e L IH]; intros A q Hr HA Hnd pruned Hg; simpl map.
  { exists q, []. unfold pruned. rewrite take_nil, app_nil_r. split_and!; done || constructor. }
  destruct (decide (limit < prune_count q)%Z) as [Hl|Hl].
  2: { exists q, []. unfold pruned. replace (Z.to_nat (prune_count q - limit)) with 0 by lia. simpl prefix_loop. split.
       - unfold prune_callback. unfold st_bind, st_get. rewrite (proj2 (Z.leb_le _ _)) by lia. done.
       - simpl. rewrite app_nil_r. split_and!; done || constructor. }
  assert (Hpruned : pruned = e :: take (Z.to_nat (prune_count q - 1 - limit)) L).
  { unfold pruned. by replace (Z.to_nat (prune_count q - limit)) with (S (Z.to_nat (prune_count q - 1 - limit))) by lia. }
  clearbody pruned. subst pruned. rewrite timed_cons in Hg.
  apply NoDup_cons in Hnd as [Hnin Hnd]. destruct (clock_ready_step _ _ _ Hg) as (id & g & Eg & Hg' & _). simpl in Eg.
  pose proof (HA e ltac:(by left)) as He. destruct (conflict_key_fid A _ e _ Hr He) as [Hv _].
  destruct (prune_callback_spec clock limit m (primary_row e) e q id g (repr_tidy _ _ Hr) Hv Hl Eg) as (t & Ho & Ecb).
  set (event := set_event_id id (prune_event_args e)) in *.
  set (q1 := mkPruning (put_event_transaction t event) (prune_count q - 1) g (pruned_events q ++ [event])) in *.
  destruct (IH (base.delete (conflict_key e) A) q1) as (q' & events & El & Hr' & Hev & Hf); [| |done| |].
  - apply (repr_delete A (apply_batch m (prune_txn q))); [done..|]. intros p f s. simpl. unfold put_event_transaction.
    rewrite apply_batch_put, lookup_insert_ne by (symmetry; apply user_row_event).
    rewrite (Ho _ (user_row_own p f s)). by rewrite !apply_batch_delete.
  - intros x Hx. rewrite lookup_delete_ne; [by apply HA; right|]. intros Ek. apply Hnin.
    assert (HAx := HA x ltac:(by right)). rewrite <- Ek, He in HAx. by injection HAx as ->.
  - simpl. by rewrite length_app, Nat.add_1_r.
  - exists q', (event :: events). cbn [prefix_loop row_of]. unfold st_bind. rewrite Ecb. split; [exact El|].
    simpl in *. split_and!; [done|by rewrite Hev; simpl; rewrite <- app_assoc|]. constructor; [by exists id|done].
Qed.

Lemma primary_row_prefix e f : fid_of e = f -> primary_row e = fid_prefix f ++ ts_hash_of e.
Proof using Type. intros <-. unfold primary_row, user_row, fid_prefix, make_message_primary_key. by rewrite app_nil_r, <- app_assoc. Qed.

(** The iteration over the messages of a user visits them by age. *)
Lemma oldest_first_range (A : live) m f L :
  store_repr m A -> is_fid f -> oldest_first A f L -> prefix_range m (fid_prefix f) = map row_of L.
Proof using Type.
  intros Hr Hf [Hin Hs]. destruct Hr as [Hv _ _ _ Hrows Honly].
  assert (Hrow : forall e, fid_of e = f -> primary_row e = fid_prefix f ++ ts_hash_of e) by (intros e; apply primary_row_prefix).
  apply kv_lt_sorted_unique; [apply prefix_range_sorted| |].
  - assert (Hfid : Forall (fun e => fid_of e = f) L) by (apply Forall_forall; intros e He; by apply Hin).
    clear Hin. induction Hs as [|e L HL IH He]; simpl; [constructor|]. apply Forall_cons in Hfid as [Hfe Hfid].
    constructor; [by apply IH|]. apply Forall_forall. intros kv (x & -> & Hx)%list_elem_of_fmap.
    rewrite Forall_forall in He, Hfid. specialize (He x Hx). unfold kv_lt. simpl.
    rewrite !Hrow by auto. unfold bytes_lt. by rewrite lex_compare_app_l.
  - intros [k v]. rewrite elem_of_prefix_range. simpl. split.
    + intros [Hk [rest ->]]. assert (Hrest : fid_prefix f ++ rest = user_row postfix f rest).
      { unfold user_row, fid_prefix, make_message_primary_key. by rewrite app_nil_r, <- app_assoc. }
      rewrite Hrest in *. destruct (Honly f rest v Hf Hk) as (k' & e & He & Ep). apply list_elem_of_fmap. exists e.
      destruct (Hv _ _ He) as [_ <-]. unfold row_of. rewrite Ep. split; [f_equal; rewrite <- Ep, (Hrows _ _ He) in Hk; congruence|].
      apply Hin. split; [done|]. by apply user_row_inj in Ep as (_ & <- & _); [|apply fid_of_is_fid|].
    + intros (e & [= -> ->] & He)%list_elem_of_fmap. apply Hin in He as [He Hfe].
      split; [by apply (Hrows (conflict_key e))|]. rewrite (Hrow e Hfe). by exists (ts_hash_of e).
Qed.

Lemma oldest_first_NoDup (A : live) f L : oldest_first A f L -> NoDup L.
Proof using Type.
  intros [_ Hs]. induction Hs as [|e L HL IH He]; constructor; [|done].
  intros Hin. rewrite Forall_forall in He. by apply (bytes_lt_irrefl (ts_hash_of e)), He.
Qed.

Lemma lookup_delete_messages (A : live) L k e :
  (forall k x, A !! k = Some x -> conflict_key x = k) -> (forall x, x ∈ L -> A !! conflict_key x = Some x) ->
  delete_messages A L !! k = Some e <-> A !! k = Some e /\ e ∉ L.
Proof using Type.
  revert A. induction L as [|x L IH]; intros A Hk HL; simpl.
  { split; [|by intros []]. intros He. split; [done|]. by intros ?%elem_of_nil. }
  destruct (decide (x ∈ L)) as [Hx|Hx].
  - assert (E : delete_messages (base.delete (conflict_key x) A) L = delete_messages A L).
    { clear -Hx. unfold delete_messages. revert A. induction L as [|y L IH]; intros A; [by apply elem_of_nil in Hx|].
      simpl. destruct (decide (x = y)) as [->|Hne]; [by rewrite delete_delete_eq|].
      rewrite delete_delete. apply IH. by apply elem_of_cons in Hx as [?|?]. }
    rewrite E, IH by (done || (intros y Hy; apply HL; by right)). rewrite not_elem_of_cons. split; [|tauto].
    intros [He Hin]. split_and!; try done. by intros ->.
  - rewrite IH.
    + rewrite lookup_delete_Some, not_elem_of_cons. split.
      * intros [[Hne He] Hin]. split_and!; try done. intros ->. by apply Hne, Hk.
      * intros [He [Hne Hin]]. split_and!; try done. intros <-. apply Hne. specialize (HL x ltac:(by left)). congruence.
    + intros k' y [_ Hy]%lookup_delete_Some. by apply Hk.
    + intros y Hy. rewrite lookup_delete_ne; [apply HL; by right|]. intros Ek. apply Hx.
      pose proof (HL x ltac:(by left)) as E1. pose proof (HL y ltac:(by right)) as E2. rewrite Ek, E2 in E1. by injection E1 as ->.
Qed.

Lemma for_each_prefix_holds {B E} `{!PrefixIterationLaws T} (d : RocksDB T) m prefix (f : bytes -> bytes -> ST B E bool) :
  holds d m -> for_each_prefix d prefix default_page_options f = prefix_loop f (prefix_range m prefix).
Proof using Type. intros (t & Ht & <-). unfold for_each_prefix. by rewrite Ht, (prefix_items_forward t prefix None). Qed.

(** The messages of a user, by age, are the messages in the rows. *)
Lemma oldest_first_exists (A : live) m f : store_repr m A -> is_fid f -> exists L, oldest_first A f L.
Proof using Type.
  intros Hr Hf. pose proof (prefix_range_sorted m (fid_prefix f)) as Hs.
  assert (Hrows : Forall (fun kv => exists e, kv = row_of e /\ A !! conflict_key e = Some e /\ fid_of e = f) (prefix_range m (fid_prefix f))).
  { apply Forall_forall. intros [k v] [Hk [rest Erest]]%elem_of_prefix_range. cbn [fst snd] in Hk, Erest. subst k.
    assert (E : fid_prefix f ++ rest = user_row postfix f rest).
    { unfold user_row, fid_prefix, make_message_primary_key. by rewrite app_nil_r, <- app_assoc. }
    rewrite E in Hk. destruct (repr_only _ _ Hr f rest v Hf Hk) as (k' & e & He & Ep). exists e.
    destruct (repr_valid _ _ Hr _ _ He) as [_ <-]. unfold row_of. rewrite <- Ep, (repr_rows _ _ Hr _ _ He) in Hk.
    rewrite E, Ep. split_and!; [congruence|done|]. by apply user_row_inj in Ep as (_ & <- & _); [|apply fid_of_is_fid|]. }
  apply Forall_exists_Forall2_l in Hrows as (L & HL).
  assert (Emap : prefix_range m (fid_prefix f) = map row_of L) by (clear Hs; induction HL as [|? ? ? ? (-> & _) _ IH]; [done|]; simpl; by rewrite IH).
  assert (Hin : forall e, e ∈ L -> A !! conflict_key e = Some e /\ fid_of e = f).
  { intros e [i Hi]%list_elem_of_lookup. destruct (Forall2_lookup_r _ _ _ _ _ HL Hi) as (kv & _ & _ & ?). done. }
  exists L. split.
  - intros e. split; [apply Hin|]. intros [He Hfe].
    assert (Hkv : row_of e ∈ prefix_range m (fid_prefix f)).
    { apply elem_of_prefix_range. split; [by apply (repr_rows _ _ Hr _ _ He)|]. simpl. exists (ts_hash_of e). subst f.
      unfold primary_row, user_row, fid_prefix, make_message_primary_key. by rewrite app_nil_r, <- app_assoc. }
    rewrite Emap in Hkv. apply list_elem_of_fmap in Hkv as (e' & Ep%(f_equal fst) & He'). destruct (Hin e' He') as [HA' Hf'].
    apply primary_row_inj in Ep as [Ef Et]. by rewrite (repr_unique _ _ Hr _ _ _ _ He HA' Ef Et).
  - rewrite Emap in Hs. clear HL Emap. induction L as [|e L IH]; [constructor|]. apply StronglySorted_inv in Hs as [Hs He].
    constructor; [apply IH; [done|intros y Hy; apply Hin; by right]|]. apply Forall_forall. intros y Hy. rewrite Forall_forall in He.
    specialize (He (row_of y) (list_elem_of_fmap_2 row_of _ _ Hy)). unfold kv_lt, row_of in He. cbn [fst] in He. unfold primary_row, user_row in He.
    rewrite (proj2 (Hin e ltac:(by left))), (proj2 (Hin y ltac:(by right))) in He. unfold bytes_lt in *.
    by rewrite !lex_compare_app_l in He.
Qed.

(** ** Deleting many messages *)
Lemma delete_many_spec m (t : RocksDbTransactionBatch) (A : live) L :
  store_repr (apply_batch m t) A -> NoDup L -> (forall e, e ∈ L -> A !! conflict_key e = Some e) ->
  exists t', delete_many_transaction t L = Ok t' /\ store_repr (apply_batch m t') (delete_messages A L) /\
    forall q f sfx, q ≠ postfix -> q ≠ adds_postfix -> q ≠ removes_postfix -> is_fid f ->
      apply_batch m t' !! user_row q f sfx = apply_batch m t !! user_row q f sfx.
Proof using Type.
  revert t A. induction L as [|e L IH]; intros t A Hr Hnd HL; [by exists t|].
  apply NoDup_cons in Hnd as [Hnin Hnd]. pose proof (HL e ltac:(by left)) as He.
  destruct (delete_one_spec m t e (repr_tidy _ _ Hr) (proj1 (repr_valid _ _ Hr _ _ He))) as (t1 & E1 & Ho).
  assert (Hrow : forall q f sfx, apply_batch m t1 !! user_row q f sfx = drop_rows (apply_batch m t) (Some e) !! user_row q f sfx).
  { intros q f sfx. rewrite (Ho _ (user_row_own q f sfx)). by rewrite !apply_batch_delete. }
  destruct (IH t1 (base.delete (conflict_key e) A)) as (t' & E & Hr' & Hother); [by apply (repr_delete A (apply_batch m t))|done| |].
  - intros x Hx. rewrite lookup_delete_ne; [by apply HL; right|]. intros Ek. apply Hnin.
    assert (HAx := HL x ltac:(by right)). rewrite <- Ek, He in HAx. by injection HAx as ->.
  - exists t'. simpl. rewrite E1. simpl. split_and!; [done|done|]. intros q f sfx Hq Ha Hrm Hf. rewrite Hother by done.
    rewrite Hrow. apply drop_rows_ne. intros x [= <-]. split; [|by apply primary_not_set].
    intros E'. unfold set_row in E'. apply user_row_inj in E' as (Ep & _); [|apply fid_of_is_fid|done].
    by destruct (is_add_type e); congruence.
Qed.

(** ** Time *)
Definition time_of e : Z := match data e with Some d => timestamp d | None => 0 end.

Lemma ts_hash_time x y : valid x -> valid y -> bytes_lt (ts_hash_of x) (ts_hash_of y) -> (time_of x <= time_of y)%Z.
Proof using Type.
  intros Hx Hy. destruct (valid_storable x Hx) as (dx & _ & _ & Edx & Htx & _), (valid_storable y Hy) as (dy & _ & _ & Edy & Hty & _).
  unfold time_of, ts_hash_of, bytes_lt. rewrite Edx, Edy, lex_compare_app by by rewrite !length_be_bytes.
  rewrite lex_compare_be_value by (apply be_bytes_is_bytes || by rewrite !length_be_bytes).
  rewrite !be_value_be_bytes by (change (256 ^ Z.of_nat 4)%Z with (2 ^ 32)%Z; lia).
  destruct (Z.compare_spec (timestamp dx) (timestamp dy)); [lia|lia|done].
Qed.

End Retention.
