(* ===== verification/Pages.v ===== *)
(** * Pages of messages

    The queries of an account store by user, [get_adds_by_fid],
    [get_removes_by_fid] and [get_all_messages_by_fid], against the abstract
    map of [StoreSpec.v]: a page has the oldest messages that are asked for, in
    the order of their time, and a token when it is full, which tells exactly
    which messages the page has. The pages that a token asks for are not
    specified: what the iteration does with one is not in the sources. *)

From S2P Require Import Prelude Util Db Proto AccountMessage Events Store StoreSpec Convergence Retention.

Section Pages.
Context {T : Type} `{TransactionDBLaws T} `{!PrefixIteration T, !PrefixIterationLaws T}
  `{!Codec Message, !Codec MessageData, !Codec HubEvent} `{!StoreDef T, !StoreDefLaws}.
Implicit Types (e : Message) (L : list Message) (m : gmap bytes bytes) (s : Store T) (f : Z) (p : Message -> bool).

Abbreviation live := (gmap (Z * bytes) Message).

(** The messages that a filter keeps. *)
Definition kept p L : list Message := filter (fun e => p e = true) L.

(** A page of at most [n] messages, and the end of the last key when it is
    full. *)
Definition page_of (n : nat) p L : MessagesPage :=
  mkMessagesPage (map message_encode (take n (kept p L))) (ts_hash_of <$> kept p L !! (n - 1)).

(** The size of the pages that a query gives: a page holds one message at
    least. *)
Definition effective_size (size : option nat) : nat := Nat.max 1 (default ACCOUNT_PAGE_SIZE_MAX size).

(** What a page has to be: the messages [es], the oldest of those asked for, as
    they are stored. Without a token these are all; a token comes with a full
    page and is the place of its last message, so that the messages of the page
    are exactly those up to the token. *)
Definition page_holds (n : nat) p L (page : MessagesPage) (es : list Message) : Prop :=
  messages_bytes page = map message_encode es /\ es `prefix_of` kept p L /\
  match next_page_token page with
  | None => es = kept p L /\ length es < n
  | Some t => length es = n /\ forall e, e ∈ kept p L -> (e ∈ es <-> bytes_le (ts_hash_of e) t)
  end.

Lemma kept_ext p p' L : (forall e, e ∈ L -> p e = p' e) -> kept p L = kept p' L.
Proof using Type.
  intros Hp. unfold kept.
  induction L as [|e L IH]; [done|]. rewrite !filter_cons, (Hp e), IH by (by left || (intros x Hx; apply Hp; by right)). done.
Qed.

Lemma kept_every p L : (forall e, e ∈ L -> p e = true) -> kept p L = L.
Proof using Type. intros Hp. apply filter_all, Forall_forall. exact Hp. Qed.

(** The filter of [get_all_messages_by_fid] on the messages of a store. *)
Lemma all_messages_filter start_time stop_time e : valid e ->
  is_message_in_time_range start_time stop_time e && (is_add_type e || (remove_type_supported && is_remove_type e)) =
  is_message_in_time_range start_time stop_time e.
Proof using Type. intros Hv. destruct (valid_types e Hv) as [(-> & _)|(-> & -> & _ & ->)]; by rewrite andb_true_r. Qed.

Lemma always_in_time_range e : valid e -> is_message_in_time_range None None e = true.
Proof using Type.
  intros Hv. destruct (valid_storable e Hv) as (d & _ & _ & Hd & Ht & _). unfold is_message_in_time_range. rewrite Hd. simpl default.
  apply andb_true_intro. split; apply Z.leb_le; [apply Ht|]. apply Z.lt_le_pred. exact (proj2 Ht).
Qed.

Lemma page_loop po p L (acc : list bytes) (last : bytes) (room : nat) :
  (forall e, e ∈ L -> valid e) -> effective_size (page_size po) = length acc + room -> 0 < room ->
  prefix_loop (messages_page_callback po p) (map row_of L) (acc, last) =
  (Ok tt, (acc ++ map message_encode (take room (kept p L)), default last (primary_row <$> kept p L !! (room - 1)))).
Proof using Type.
  revert acc room. induction L as [|e L IH]; intros acc room HL Hsize Hroom; simpl map.
  { unfold kept. rewrite filter_nil, take_nil, lookup_nil. simpl. by rewrite app_nil_r. }
  assert (IHL : forall x, x ∈ L -> valid x) by (intros x Hx; apply HL; by right).
  cbn [prefix_loop row_of]. unfold st_bind at 1, messages_page_callback at 1. rewrite (valid_roundtrip e (HL e ltac:(by left))).
  unfold kept. rewrite filter_cons. fold (kept p L). destruct (p e) eqn:Ep; case_decide as Hp; try done; [|by apply IH].
  cbn [fst snd]. unfold effective_size in *. rewrite length_app. simpl length. destruct room as [|room]; [lia|]. destruct room as [|room].
  - rewrite (proj2 (Nat.leb_le _ _)) by lia. by simpl.
  - rewrite (proj2 (Nat.leb_gt _ _)) by lia. rewrite (IH (acc ++ [message_encode e]) (S room)); [|done|rewrite length_app; simpl; lia|lia].
    rewrite <- app_assoc. simpl. by rewrite Nat.sub_0_r.
Qed.

(** The iteration over the messages [L] of a user gives a page of them. *)
Lemma page_spec d size p f L :
  for_each_prefix d (fid_prefix f) (mkPageOptions size None false) (messages_page_callback (mkPageOptions size None false) p) ([], []) =
    prefix_loop (messages_page_callback (mkPageOptions size None false) p) (map row_of L) ([], []) ->
  (forall e, e ∈ L -> valid e /\ fid_of e = f) ->
  get_messages_page_by_prefix d (fid_prefix f) (mkPageOptions size None false) p = Ok (page_of (effective_size size) p L).
Proof using Type*.
  intros E HL. assert (Hpos : 0 < effective_size size) by (unfold effective_size; lia).
  unfold get_messages_page_by_prefix. rewrite E.
  rewrite (page_loop _ p L [] [] (effective_size size)); [|intros e He; by apply HL|done|done].
  unfold page_of. cbn [app]. f_equal. f_equal.
  destruct (kept p L !! (effective_size size - 1)) as [e|] eqn:Ee; [|done]. simpl option_map. cbn [default fmap option_fmap option_map].
  assert (He : e ∈ L) by (apply list_elem_of_lookup_2, list_elem_of_filter in Ee as [_ ?]; done).
  destruct (HL e He) as [_ Hfe]. unfold from_option, id. rewrite (primary_row_prefix e f Hfe), drop_app_length.
  by rewrite (proj2 (Nat.ltb_lt _ _)) by (rewrite length_app; unfold fid_prefix, make_message_primary_key, make_user_key; simpl; lia).
Qed.

Lemma oldest_first_messages m (A : live) f L : store_repr m A -> oldest_first A f L ->
  forall e, e ∈ L -> valid e /\ fid_of e = f.
Proof using Type. intros Hr HL e He. apply HL in He as [He Hf]. split; [by apply (repr_valid _ _ Hr (conflict_key e))|done]. Qed.

Lemma user_page_spec s m (A : live) f L p size :
  holds (store_db s) m -> store_repr m A -> is_fid f -> oldest_first A f L ->
  get_messages_page_by_prefix (store_db s) (fid_prefix f) (mkPageOptions size None false) p = Ok (page_of (effective_size size) p L).
Proof using Type*.
  intros (t & Ht & Hm) Hr Hf HL. apply page_spec; [|by apply (oldest_first_messages m A)].
  unfold for_each_prefix. by rewrite Ht, prefix_items_forward, Hm, (oldest_first_range A m f L Hr Hf HL).
Qed.

(** In a sorted list, the first [n] are those up to the last of them. *)
Lemma take_up_to (K : list Message) n e :
  StronglySorted (fun x y => bytes_lt (ts_hash_of x) (ts_hash_of y)) K -> K !! (n - 1) = Some e -> 0 < n ->
  length (take n K) = n /\ forall x, x ∈ K -> (x ∈ take n K <-> bytes_le (ts_hash_of x) (ts_hash_of e)).
Proof using Type.
  intros Hs He Hn. pose proof (lookup_lt_Some _ _ _ He) as Hlt. split; [rewrite length_take; lia|].
  pose proof (take_drop_middle _ _ _ He) as HK. replace (S (n - 1)) with n in HK by lia.
  assert (Htake : take n K = take (n - 1) K ++ [e]) by (rewrite <- (take_S_r K (n - 1) e He); f_equal; lia).
  rewrite Htake. rewrite <- HK in Hs. apply StronglySorted_app in Hs as (Hbefore & _ & Hs). apply StronglySorted_inv in Hs as [_ Hafter].
  rewrite Forall_forall in Hafter. intros x Hx. rewrite elem_of_app, list_elem_of_singleton, bytes_le_lteq. split.
  - intros [Hin| ->]; [left|by right]. by apply Hbefore; [|left].
  - intros Hle. rewrite <- HK, elem_of_app, elem_of_cons in Hx. destruct Hx as [?|[?|Hd]]; [by left|by right|].
    specialize (Hafter x Hd). destruct Hle as [Hlt'|Heq].
    + destruct (bytes_lt_irrefl (ts_hash_of e)). by eapply bytes_lt_trans.
    + rewrite Heq in Hafter. by apply bytes_lt_irrefl in Hafter.
Qed.

(** The page of a query is what a page has to be. *)
Lemma page_of_holds (A : live) f L p n : oldest_first A f L -> 0 < n -> page_holds n p L (page_of n p L) (take n (kept p L)).
Proof using Type.
  intros [_ Hs] Hn. unfold page_holds, page_of. simpl. split; [done|]. split; [exists (drop n (kept p L)); by rewrite take_drop|].
  assert (HsK : StronglySorted (fun x y => bytes_lt (ts_hash_of x) (ts_hash_of y)) (kept p L)).
  { unfold kept. clear -Hs. induction Hs as [|e L Hs IH He]; [constructor|]. rewrite filter_cons. case_decide; [|done].
    constructor; [done|]. apply Forall_forall. rewrite Forall_forall in He. intros x [_ Hx]%list_elem_of_filter. by apply He. }
  destruct (kept p L !! (n - 1)) as [e|] eqn:Ee; simpl; [by apply take_up_to|].
  apply lookup_ge_None in Ee. rewrite take_ge by lia. split; [done|lia].
Qed.

End Pages.
