(* ===== verification/Samples.v ===== *)
(** * Sample messages

    The concrete codecs, messages and stores of the witnesses: nothing here is
    part of the model. *)

From S2P Require Import Prelude Util Db Proto AccountMessage Events Store StoreSpec StoreIndex ReactionStore.

#[export] Instance sample_message_codec : Codec Message := countable_codec Message.
#[export] Instance sample_data_codec : Codec MessageData := countable_codec MessageData.

(** An encoding of events that has what the samples look at: the kind and the
    number of deleted messages. *)
#[export] Instance sample_event_codec : Codec HubEvent := {|
  encode_to_vec e :=
    match event_body e with
    | Some (MergeMessageBody _ deleted_messages) => [0%Z; Z.of_nat (length deleted_messages)]
    | Some (RevokeMessageBody _) => [1%Z]
    | Some (PruneMessageBody _) => [2%Z]
    | _ => [3%Z]
    end;
  decode _ := Err "unused";
|}.
#[export] Instance sample_proof_codec : Codec UserNameProof := countable_codec UserNameProof.

Definition sample_message (type ts : Z) (b : Z) (body : Body) : Message :=
  mkMessage (Some (mkMessageData type 7 ts 1 (Some body))) (repeat b HASH_LENGTH) 1 [] SIGNATURE_SCHEME_ED25519 [] None.

Definition sample_reaction (type : MessageType) (url : string) (ts b : Z) : Message :=
  sample_message (message_type_i32 type) ts b (ReactionBody_ (mkReactionBody 1 (Some (TargetUrl url)))).

Lemma message_plain_roundtrip (m : Message) : data_bytes m = None -> message_decode (message_encode m) = Ok m.
Proof.
  intros Hb. unfold message_decode, message_encode, has_data_bytes. rewrite Hb. cbv beta iota.
  assert (E : decode (encode_to_vec m) = Ok m) by apply (countable_codec_law Message m). rewrite E, Hb. by destruct (data m).
Qed.

Lemma sample_well_formed (add remove : MessageType) (P : Body -> Prop) (t : MessageType) (ts b : Z) (body : Body) :
  (t = add \/ t = remove) -> P body -> (0 <= ts < 2 ^ 32)%Z -> well_formed add remove P (sample_message (message_type_i32 t) ts b body).
Proof.
  intros Ht HP Hts. eexists _, _, t. split; [reflexivity|]. split; [reflexivity|]. split; [done|].
  split; [exact Ht|]. split; [done|]. split; [done|]. split; [exact Hts|]. split; [done|]. by apply message_plain_roundtrip.
Qed.

Lemma sample_reaction_valid (type : MessageType) url ts b :
  (type = MT_ReactionAdd \/ type = MT_ReactionRemove) -> (0 <= ts < 2 ^ 32)%Z -> reaction_valid (sample_reaction type url ts b).
Proof.
  intros Ht Hts. apply sample_well_formed; [done| |done]. eexists _, _. split; [reflexivity|]. split; [reflexivity|]. simpl. lia.
Qed.

Definition sample_store : Store (gmap bytes bytes) := mkStore (mkRocksDB (Some ∅) "x") (handler_new (Some 0%Z) None None).

