(* ===== verification/AccountTheorems.v ===== *)
(** * Theorems on the account stores

    The properties of the generic store, for every instance with the laws of
    [StoreSpec.v], and properties of the single stores. *)

From S2P Require Import Prelude Util Db Proto AccountMessage Events Store StoreSpec StoreIndex ReactionStore Convergence Retention Pages Samples.

(** ** Samples *)

(** A store of reactions, with an add and a later remove of one target. *)
#[local] Instance sample_def : StoreDef (gmap bytes bytes) := reaction_store_def 0.
#[local] Instance sample_laws : StoreDefLaws := ReactionStoreLaws 0.
#[local] Instance sample_default : DefaultConflicts := ReactionStoreDefault 0.
#[local] Instance sample_no_compaction : NoCompaction := ReactionStoreNoCompaction 0.

Definition sample_add : Message := sample_reaction MT_ReactionAdd "u" 10 1.
Definition sample_remove : Message := sample_reaction MT_ReactionRemove "u" 11 2.
Definition sample_other : Message := sample_reaction MT_ReactionAdd "v" 9 3.

Definition sample_lookup : Message := partial_reaction MT_ReactionAdd 7 1 (Some (TargetUrl "u")).

Lemma sample_valid x : x ∈ [sample_add; sample_remove; sample_other] -> valid x.
Proof.
  rewrite list_elem_of_In. intros [<-|[<-|[<-|[]]]]; (apply sample_reaction_valid; [eauto|lia]).
Qed.

Lemma sample_collision_free : collision_free [sample_add; sample_remove; sample_other].
Proof.
  intros x y Hx Hy. rewrite list_elem_of_In in Hx, Hy.
  destruct Hx as [<-|[<-|[<-|[]]]], Hy as [<-|[<-|[<-|[]]]]; intros _ E; first [reflexivity | vm_compute in E; discriminate E].
Qed.

Lemma sample_store_empty k : store_row k -> (∅ : gmap bytes bytes) !! k = None.
Proof. intros _. apply lookup_empty. Qed.

(** ** Helpers *)

(** Computations that read the store, and computations that change the
    database only if they succeed. *)
Section Atomic.
Context {T : Type} `{TransactionDB T} `{!PrefixIteration T} `{!Codec Message, !Codec MessageData, !Codec HubEvent} `{!StoreDef T}.

Definition atomic {A} (f : ST (Store T) HubError A) : Prop :=
  forall s, match (f s).1 with Ok _ => True | _ => store_db (f s).2 = store_db s end.

Lemma atomic_lift {A B} (r : result HubError A) (k : A -> ST (Store T) HubError B) :
  (forall a, r = Ok a -> atomic (k a)) -> atomic (st_bind (st_lift r) k).
Proof using Type. intros Hk s. unfold st_bind, st_lift. destruct r as [a| | |]; [apply (Hk a eq_refl)|done..]. Qed.

Lemma atomic_get {B} (k : Store T -> ST (Store T) HubError B) : (forall s, atomic (k s)) -> atomic (st_bind st_get k).
Proof using Type. intros Hk s. apply Hk. Qed.

Lemma atomic_fail {A} (r : result HubError A) : atomic (st_lift r).
Proof using Type. intros s. unfold st_lift. by destruct r. Qed.

Lemma atomic_commit (now : Z) txn event : atomic (commit_with_event now txn event).
Proof using Type.
  intros s. unfold commit_with_event. destruct (commit_transaction _ _ _ _) as [[[id t]| | |] g]; simpl; try done.
  by destruct (map_err _ _).
Qed.
End Atomic.

#[local] Hint Resolve atomic_commit atomic_fail : core.

(** Peels one step of a computation on the store. *)
Ltac atomic_step :=
  match goal with
  | |- atomic (st_bind (st_lift _) _) => apply atomic_lift; intros
  | |- atomic (st_bind st_get _) => apply atomic_get; intros
  | |- atomic (if ?b then _ else _) => destruct b
  | |- atomic (let (_, _) := ?x in _) => destruct x
  | |- atomic (match ?x with _ => _ end) => destruct x
  end.

(** ** Properties *)
Section Generic.
Context {T : Type} `{TransactionDBLaws T} `{!PrefixIteration T} `{!Codec Message, !Codec MessageData, !Codec HubEvent}
  `{!StoreDef T, !StoreDefLaws, !DefaultConflicts, !NoCompaction}.
Implicit Types (a e x y p : Message) (m : gmap bytes bytes) (s : Store T) (now : Z) (d : MessageData) (sfx : bytes) (id : Z).

Abbreviation live := (gmap (Z * bytes) Message).

(** C9. Merging a message into a store does what merging it into the abstract
    map of conflict keys does, the last writer winning: a greater message
    replaces the one at its key, its event carries the message and the one it
    replaces and is in the log under the event's id; any other message is
    refused, as a duplicate or as a conflict with a more recent add or remove,
    and nothing changes. *)
Theorem merge_refines_lww now a s m (A : live) id g
    (Hd : holds (store_db s) m) (Hr : store_repr m A) (Ha : valid a)
    (Hnc : forall k e, A !! k = Some e -> no_collision a e)
    (Hg : generate_id now None (store_event_handler s) = (Ok id, g)) :
  let event := encode_to_vec (set_event_id id (merge_event_args a (replaced A a))) in
  if accepts A a then
    exists s' m', merge now a s = (Ok event, s') /\ holds (store_db s') m' /\ store_repr m' (lww_merge A a) /\
      m' !! make_event_key id = Some event
  else merge now a s = (Err (refusal A a), s) /\ lww_merge A a = A.
Proof.
  intros event. unfold lww_merge. destruct (accepts A a) eqn:Eacc.
  - destruct (merge_accepted now a s m A id g Hd Hr Ha Hnc Eacc Hg) as (s' & m' & E & _ & Hd' & Hr' & He). eauto 10.
  - split; [|done]. by apply (merge_refused now a s m).
Qed.

(** C8. Convergence: two stores that start without messages and merge the same
    set of messages, each in its own order, at its own times and with any
    number of repetitions, end with the same rows and answer every lookup
    alike. *)
Theorem stores_converge (ops1 ops2 : list (Z * Message)) (s1 s2 : Store T) (m1 m2 : gmap bytes bytes)
    (Hd1 : holds (store_db s1) m1) (Hd2 : holds (store_db s2) m2)
    (He1 : forall k, store_row k -> m1 !! k = None) (He2 : forall k, store_row k -> m2 !! k = None)
    (Hg1 : clock_ready ops1 (store_event_handler s1)) (Hg2 : clock_ready ops2 (store_event_handler s2))
    (Hsame : forall x, x ∈ map snd ops1 <-> x ∈ map snd ops2)
    (Hv : forall x, x ∈ map snd ops1 -> valid x) (Hc : collision_free (map snd ops1)) :
  exists m1' m2', holds (store_db (merge_all ops1 s1)) m1' /\ holds (store_db (merge_all ops2 s2)) m2' /\
    (forall k, store_row k -> m1' !! k = m2' !! k) /\
    (forall p d sfx, data p = Some d -> fid d ≠ 0%Z ->
      (make_add_key p = Ok (user_row adds_postfix (wrap 32 (fid d)) sfx) ->
       get_add p (merge_all ops1 s1) = get_add p (merge_all ops2 s2)) /\
      (remove_type_supported = true -> make_remove_key p = Ok (user_row removes_postfix (wrap 32 (fid d)) sfx) ->
       get_remove p (merge_all ops1 s1) = get_remove p (merge_all ops2 s2))).
Proof.
  destruct (merge_all_repr ops1 s1 m1 ∅ [] Hd1 (store_repr_empty _ He1) greatest_of_nil Hg1 Hv Hc) as (m1' & Hd1' & Hr1).
  destruct (merge_all_repr ops2 s2 m2 ∅ [] Hd2 (store_repr_empty _ He2) greatest_of_nil Hg2) as (m2' & Hd2' & Hr2).
  { intros x Hx. by apply Hv, Hsame. }
  { intros x y Hx Hy. apply Hc; by apply Hsame. }
  rewrite <- (greatest_of_unique (foldl lww_merge ∅ (map snd ops1)) (foldl lww_merge ∅ (map snd ops2)) (map snd ops1)
    (map snd ops2) (greatest_of_merges _ _ _ greatest_of_nil) (greatest_of_merges _ _ _ greatest_of_nil) Hsame Hv Hc) in Hr2.
  exists m1', m2'. split_and!; [done..| |].
  - intros k Hk. by apply (store_repr_rows _ _ _ k Hr1 Hr2).
  - intros p d sfx Hp Hf. split.
    + intros Hk. by rewrite (get_add_at p d sfx _ _ _ Hd1' Hr1 Hp Hf Hk), (get_add_at p d sfx _ _ _ Hd2' Hr2 Hp Hf Hk).
    + intros Hs Hk. by rewrite (get_remove_at p d sfx _ _ _ Hs Hd1' Hr1 Hp Hf Hk), (get_remove_at p d sfx _ _ _ Hs Hd2' Hr2 Hp Hf Hk).
Qed.

(** A lookup answers the winner: after any run of merges, [get_add] gives
    the greatest of the merged messages at the key if that is an add, and
    nothing if there is none or it is a remove. *)
Theorem get_add_is_winner (ops : list (Z * Message)) s m p d sfx
    (Hd : holds (store_db s) m) (He : forall k, store_row k -> m !! k = None)
    (Hg : clock_ready ops (store_event_handler s))
    (Hv : forall x, x ∈ map snd ops -> valid x) (Hc : collision_free (map snd ops))
    (Hp : data p = Some d) (Hf : fid d ≠ 0%Z)
    (Hk : make_add_key p = Ok (user_row adds_postfix (wrap 32 (fid d)) sfx)) :
  let key := (wrap 32 (fid d), sfx) in
  (get_add p (merge_all ops s) = Ok None /\ (forall x, x ∈ map snd ops -> conflict_key x ≠ key)) \/
  exists e, e ∈ map snd ops /\ conflict_key e = key /\
    (forall x, x ∈ map snd ops -> conflict_key x = key -> bytes_le (rank x) (rank e)) /\
    get_add p (merge_all ops s) = Ok (if is_add_type e then Some e else None).
Proof.
  intros key.
  destruct (merge_all_repr ops s m ∅ [] Hd (store_repr_empty _ He) greatest_of_nil Hg Hv Hc) as (m' & Hd' & Hr).
  pose proof (greatest_of_merges ∅ [] (map snd ops) greatest_of_nil) as [Hin Hmax].
  set (A := foldl lww_merge ∅ (map snd ops)) in *.
  rewrite (get_add_at p d sfx _ _ _ Hd' Hr Hp Hf Hk). fold key. unfold add_at. destruct (A !! key) as [e|] eqn:E.
  - right. exists e. destruct (Hin _ _ E) as [Hie Hke]. split_and!; try done. intros x Hx Hkx.
    destruct (Hmax x Hx) as (e' & E' & Hle). rewrite Hkx, E in E'. by injection E' as <-.
  - left. split; [done|]. intros x Hx Hkx. destruct (Hmax x Hx) as (e' & E' & _). by rewrite Hkx, E in E'.
Qed.

(** Revoking a message that is in the store takes exactly that message
    out, with its rows, and logs the event. *)
Theorem revoke_removes_message now a s m (A : live) id g
    (Hd : holds (store_db s) m) (Hr : store_repr m A) (Ha : A !! conflict_key a = Some a)
    (Hg : generate_id now None (store_event_handler s) = (Ok id, g)) :
  let event := encode_to_vec (set_event_id id (revoke_event_args a)) in
  exists s' m', revoke now a s = (Ok event, s') /\ holds (store_db s') m' /\
    store_repr m' (base.delete (conflict_key a) A) /\ m' !! make_event_key id = Some event /\
    m' !! primary_row a = None.
Proof.
  intros event. destruct (revoke_live now a s m A id g Hd Hr Ha Hg) as (s' & m' & E & _ & Hd' & Hr' & He).
  exists s', m'. split_and!; try done. destruct (m' !! primary_row a) as [v|] eqn:Ev; [|done].
  destruct (repr_only _ _ Hr' (fid_of a) (ts_hash_of a) v) as (k & e & [Hne Hk]%lookup_delete_Some & Ep); [apply fid_of_is_fid|done|].
  apply primary_row_inj in Ep as [Ef Et]. rewrite (repr_unique _ _ Hr _ _ _ _ Hk Ha Ef Et) in Hk.
  destruct (repr_valid _ _ Hr _ _ Hk) as [_ Hkk]. by rewrite Hkk in Hne.
Qed.
End Generic.

Lemma merge_refines_lww_witness :
  exists s' m', merge 5 sample_add sample_store = (Ok [0%Z; 0%Z], s') /\ store_repr m' (lww_merge ∅ sample_add).
Proof.
  destruct (merge_refines_lww 5 sample_add sample_store ∅ ∅ (make_event_id 5 0) (mkGenerator 5 0 0)) as (s' & m' & E & _ & Hr & _).
  - apply holds_gmap.
  - apply store_repr_empty, sample_store_empty.
  - apply sample_valid. by left.
  - intros k e He. by rewrite lookup_empty in He.
  - vm_compute. reflexivity.
  - exists s', m'. split; [exact E|exact Hr].
Defined.

Lemma stores_converge_witness :
  get_add sample_lookup (merge_all [(5%Z, sample_add); (6%Z, sample_remove)] sample_store) =
  get_add sample_lookup (merge_all [(9%Z, sample_remove); (9%Z, sample_add); (9%Z, sample_remove)] sample_store).
Proof.
  destruct (stores_converge [(5%Z, sample_add); (6%Z, sample_remove)]
    [(9%Z, sample_remove); (9%Z, sample_add); (9%Z, sample_remove)] sample_store sample_store ∅ ∅)
    as (m1 & m2 & _ & _ & _ & Hget).
  - apply holds_gmap.
  - apply holds_gmap.
  - exact sample_store_empty.
  - exact sample_store_empty.
  - split_and!; [vm_compute; discriminate|vm_compute; reflexivity|repeat constructor; vm_compute; done].
  - split_and!; [vm_compute; discriminate|vm_compute; reflexivity|repeat constructor; vm_compute; done].
  - intros x. simpl. rewrite !list_elem_of_In. simpl. tauto.
  - intros x Hx. apply sample_valid. revert Hx. simpl. rewrite !list_elem_of_In. simpl. tauto.
  - intros x y Hx Hy. apply sample_collision_free; revert Hx Hy; simpl; rewrite !list_elem_of_In; simpl; tauto.
  - eapply (Hget sample_lookup); [reflexivity|discriminate|]. vm_compute. reflexivity.
Defined.

Lemma get_add_is_winner_witness :
  get_add sample_lookup (merge_all [(5%Z, sample_add); (6%Z, sample_other)] sample_store) = Ok (Some sample_add).
Proof.
  destruct (get_add_is_winner [(5%Z, sample_add); (6%Z, sample_other)] sample_store ∅ sample_lookup
    (mkMessageData 3 7 0 0 (Some (ReactionBody_ (mkReactionBody 1 (Some (TargetUrl "u")))))) [1; 117]%Z)
    as [[_ Hnone]|(e & He & Hk & _ & E)].
  - apply holds_gmap.
  - exact sample_store_empty.
  - split_and!; [vm_compute; discriminate|vm_compute; reflexivity|repeat constructor; vm_compute; done].
  - intros x Hx. apply sample_valid. revert Hx. simpl. rewrite !list_elem_of_In. simpl. tauto.
  - intros x y Hx Hy. apply sample_collision_free; revert Hx Hy; simpl; rewrite !list_elem_of_In; simpl; tauto.
  - reflexivity.
  - discriminate.
  - vm_compute. reflexivity.
  - destruct (Hnone sample_add); [by left|vm_compute; reflexivity].
  - rewrite E. rewrite list_elem_of_In in He. destruct He as [<-|[<-|[]]]; [reflexivity|vm_compute in Hk; discriminate Hk].
Defined.

Lemma revoke_removes_message_witness :
  exists s', revoke 6 sample_add (merge_all [(5%Z, sample_add)] sample_store) = (Ok [1%Z], s').
Proof.
  destruct (merge_all_repr [(5%Z, sample_add)] sample_store ∅ ∅ []) as (m & Hd & Hr).
  - apply holds_gmap.
  - apply store_repr_empty, sample_store_empty.
  - apply greatest_of_nil.
  - split_and!; [vm_compute; discriminate|vm_compute; reflexivity|repeat constructor; vm_compute; done].
  - intros x Hx. apply sample_valid. revert Hx. simpl. rewrite !list_elem_of_In. simpl. tauto.
  - intros x y Hx Hy. apply sample_collision_free; revert Hx Hy; simpl; rewrite !list_elem_of_In; simpl; tauto.
  - destruct (revoke_removes_message 6 sample_add (merge_all [(5%Z, sample_add)] sample_store) m _
      (make_event_id 6 0) (mkGenerator 6 0 0) Hd Hr) as (s' & m' & E & _).
    + vm_compute. reflexivity.
    + vm_compute. reflexivity.
    + exists s'. etrans; [exact E|]. reflexivity.
Defined.

(** ** Failures *)

(** C21. No partial change: a merge, a revocation or a pruning that fails, for
    any store definition and any message, leaves the database as it was. *)
Theorem changes_are_atomic {T : Type} `{TransactionDB T} `{!PrefixIteration T} `{!Codec Message, !Codec MessageData, !Codec HubEvent}
    `{!StoreDef T} (s : Store T) (now : Z) (clock : nat -> Z) (a : Message) (fid cached_count max_count : Z) :
  (forall r s', merge now a s = (r, s') -> (forall b, r ≠ Ok b) -> store_db s' = store_db s) /\
  (forall r s', revoke now a s = (r, s') -> (forall b, r ≠ Ok b) -> store_db s' = store_db s) /\
  (forall r s', prune_messages clock fid cached_count max_count s = (r, s') -> (forall b, r ≠ Ok b) -> store_db s' = store_db s).
Proof.
  assert (Hfail : forall {A} (f : ST (Store T) HubError A) r s', atomic f -> f s = (r, s') -> (forall b, r ≠ Ok b) ->
    store_db s' = store_db s).
  { intros A f r s' Hf E Hr. specialize (Hf s). rewrite E in Hf. destruct r as [b| | |]; [by destruct (Hr b)|done..]. }
  split_and!; intros r s'; apply Hfail.
  - unfold merge. repeat atomic_step; auto; unfold merge_compact_state, merge_add, merge_remove; repeat atomic_step; auto.
  - unfold revoke. repeat atomic_step; auto.
  - intros s0. unfold prune_messages. destruct (for_each_prefix _ _ _ _ _) as [r0 q]. destruct r0; simpl; try done.
    by destruct (map_err _ _).
Qed.

Lemma changes_are_atomic_witness :
  exists e s', merge 6 sample_add (merge_all [(5%Z, sample_remove)] sample_store) = (Err e, s') /\
    store_db s' = store_db (merge_all [(5%Z, sample_remove)] sample_store).
Proof.
  assert (E : exists e s', merge 6 sample_add (merge_all [(5%Z, sample_remove)] sample_store) = (Err e, s')).
  { eexists _, _. vm_compute. reflexivity. }
  destruct E as (e & s' & E). exists e, s'. split; [exact E|].
  destruct (changes_are_atomic (merge_all [(5%Z, sample_remove)] sample_store) 6 (fun _ => 6%Z) sample_add 0 0 0) as (Hm & _).
  apply (Hm (Err e) s' E). discriminate.
Defined.

(** ** Pruning *)

(** A run of two adds, and the messages of the user after it. *)
Lemma sample_run_repr : exists m,
  holds (store_db (merge_all [(5%Z, sample_add); (6%Z, sample_other)] sample_store)) m /\
  store_repr m (foldl lww_merge ∅ [sample_add; sample_other]).
Proof.
  apply (merge_all_repr [(5%Z, sample_add); (6%Z, sample_other)] sample_store ∅ ∅ []).
  - apply holds_gmap.
  - apply store_repr_empty, sample_store_empty.
  - apply greatest_of_nil.
  - split_and!; [vm_compute; discriminate|vm_compute; reflexivity|repeat constructor; vm_compute; done].
  - intros x Hx. apply sample_valid. revert Hx. simpl. rewrite !list_elem_of_In. simpl. tauto.
  - intros x y Hx Hy. apply sample_collision_free; revert Hx Hy; simpl; rewrite !list_elem_of_In; simpl; tauto.
Qed.

Lemma sample_oldest_first : oldest_first (foldl lww_merge ∅ [sample_add; sample_other]) 7 [sample_other; sample_add].
Proof.
  split; [|repeat constructor]. intros e. rewrite list_elem_of_In. simpl. split.
  - intros [<-|[<-|[]]]; vm_compute; done.
  - pose proof (greatest_of_merges ∅ [] [sample_add; sample_other] greatest_of_nil) as [Hin _].
    intros [He _]. apply Hin in He as [He _]. rewrite list_elem_of_In in He. simpl in He. tauto.
Qed.

Lemma sample_fid : is_fid 7.
Proof. split; vm_compute; [discriminate|reflexivity]. Qed.

(** C20. Pruning keeps the newest messages: with [cached_count] over the limit by
    [n], the [n] oldest live messages of the user leave the store with their
    rows, each with its event, oldest first, in one commit; every other
    message stays. *)
Theorem prune_keeps_newest {T : Type} `{TransactionDBLaws T} `{!PrefixIteration T, !PrefixIterationLaws T}
    `{!Codec Message, !Codec MessageData, !Codec HubEvent} `{!StoreDef T, !StoreDefLaws}
    (clock : nat -> Z) (fid cached_count max_count : Z) (s : Store T) (m : gmap bytes bytes) (A : gmap (Z * bytes) Message) (L : list Message)
    (Hd : holds (store_db s) m) (Hr : store_repr m A) (Hf : is_fid fid) (HL : oldest_first A fid L) :
  let limit := if (0 <? get_prune_size_limit)%Z then get_prune_size_limit else max_count in
  let pruned := take (Z.to_nat (cached_count - limit)) L in
  clock_ready (timed clock 0 pruned) (store_event_handler s) ->
  exists s' m' A' events, prune_messages clock fid cached_count max_count s = (Ok events, s') /\
    holds (store_db s') m' /\ store_repr m' A' /\
    (forall k e, A' !! k = Some e <-> A !! k = Some e /\ e ∉ pruned) /\
    Forall2 (fun e event => exists id, event = set_event_id id (prune_event_args e)) pruned events.
Proof.
  intros limit pruned Hg. unfold prune_messages. rewrite (for_each_prefix_holds (store_db s) m _ _ Hd).
  rewrite (oldest_first_range A m fid L Hr Hf HL).
  assert (HA : forall e, e ∈ L -> A !! conflict_key e = Some e) by (intros e He; by apply HL).
  destruct (prune_loop clock limit m L A (mkPruning (txn (store_db s)) cached_count (store_event_handler s) []))
    as (q & events & E & Hr' & Hev & HF).
  { simpl. change (txn (store_db s)) with Batch.new. by rewrite apply_batch_new. }
  { done. }
  { by apply (oldest_first_NoDup A fid). }
  { done. }
  fold limit. rewrite E. simpl in Hr', HF, Hev. fold pruned in Hr', HF.
  destruct (RocksDB_commit_holds (store_db s) m (prune_txn q) Hd) as (d' & Ec & Hd' & _). rewrite Ec. simpl.
  eexists _, _, _, events. split; [by rewrite Hev|]. split; [exact Hd'|]. split; [exact Hr'|]. split; [|done].
  intros k e. apply lookup_delete_messages; [intros k' x Hx; by apply (repr_valid _ _ Hr)|].
  intros x Hx. apply HA. unfold pruned in Hx. by eapply elem_of_take in Hx as (i & Hi%list_elem_of_lookup_2 & _).
Qed.

Lemma prune_keeps_newest_witness :
  exists s' events, prune_messages (fun i => Z.of_nat (7 + i)) 7 2 1 (merge_all [(5%Z, sample_add); (6%Z, sample_other)] sample_store) = (Ok events, s') /\
    length events = 1.
Proof.
  destruct sample_run_repr as (m & Hd & Hr).
  destruct (prune_keeps_newest (fun i => Z.of_nat (7 + i)) 7 2 1 _ m _ [sample_other; sample_add] Hd Hr sample_fid sample_oldest_first)
    as (s' & m' & A' & events & E & _ & _ & _ & HF).
  - split_and!; [vm_compute; discriminate|vm_compute; reflexivity|repeat constructor; vm_compute; done].
  - exists s', events. split; [exact E|]. by apply Forall2_length in HF.
Defined.

(** ** Pages *)

(** C13. A page has the oldest messages: asking for a page of any size, or of the
    default one, without a token gives the oldest live messages of the user and
    of the kind asked for, exactly as they are stored. Without a token in the
    answer these are all of them, fewer than the size; a token comes with a
    full page, and the messages of the page are exactly those up to the
    timestamp and hash that it consists of. A page size of 0 counts as 1. *)
Theorem page_has_oldest {T : Type} `{TransactionDBLaws T} `{!PrefixIteration T, !PrefixIterationLaws T}
    `{!Codec Message, !Codec MessageData, !Codec HubEvent} `{!StoreDef T, !StoreDefLaws}
    (s : Store T) (m : gmap bytes bytes) (A : gmap (Z * bytes) Message) (f : Z) (L : list Message) (filter : option (Message -> bool))
    (start_time stop_time : option Z) (size : option nat)
    (Hd : holds (store_db s) m) (Hr : store_repr m A) (Hf : is_fid f) (HL : oldest_first A f L) :
  let options := mkPageOptions size None false in
  let n := effective_size size in
  let asked e := match filter with Some g => g e | None => true end in
  (exists page es, get_adds_by_fid f options filter s = Ok page /\ page_holds n (fun e => is_add_type e && asked e) L page es) /\
  (remove_type_supported = true -> exists page es,
    get_removes_by_fid f options filter s = Ok page /\ page_holds n (fun e => is_remove_type e && asked e) L page es) /\
  (exists page es, get_all_messages_by_fid f start_time stop_time options s = Ok page /\
    page_holds n (is_message_in_time_range start_time stop_time) L page es).
Proof.
  intros options n asked.
  assert (Hpage : forall p, exists page es, get_messages_page_by_prefix (store_db s) (fid_prefix f) options p = Ok page /\
    page_holds n p L page es).
  { intros p. eexists _, _. split; [by apply (user_page_spec s m A)|]. apply (page_of_holds A f); [done|unfold n, effective_size; lia]. }
  split_and!; [apply Hpage| |].
  - intros Hs. unfold get_removes_by_fid. rewrite Hs. apply Hpage.
  - destruct (Hpage (fun e => is_message_in_time_range start_time stop_time e && (is_add_type e || (remove_type_supported && is_remove_type e))))
      as (page & es & E & Hh). exists page, es. split; [exact E|]. unfold page_holds in *.
    rewrite (kept_ext _ (is_message_in_time_range start_time stop_time) L) in Hh; [exact Hh|]. intros e He.
    by rewrite all_messages_filter by (apply (oldest_first_messages m A f L Hr HL e He)).
Qed.

(** A page of one message has the older of two adds, and a token. *)
Lemma page_has_oldest_witness :
  exists page, get_adds_by_fid 7 (mkPageOptions (Some 1) None false) None
      (merge_all [(5%Z, sample_add); (6%Z, sample_other)] sample_store) = Ok page /\ length (messages_bytes page) = 1.
Proof.
  destruct sample_run_repr as (m & Hd & Hr).
  destruct (page_has_oldest _ m _ 7 [sample_other; sample_add] None None None (Some 1) Hd Hr sample_fid sample_oldest_first)
    as [(page & es & E & Hb & _ & Ht) _].
  exists page. split; [exact E|]. rewrite Hb, length_map. destruct (next_page_token page); [by destruct Ht as [-> _]|].
  destruct Ht as [-> Hlt]. apply Nat.ltb_lt in Hlt. vm_compute in Hlt. discriminate Hlt.
Defined.
