(* ===== verification/NameTheorems.v ===== *)
(** * Theorems on username proofs

    What [merge_username_proof] makes of the rows of the name registry. *)

From S2P Require Import Prelude Util Db Proto AccountMessage Events Store StoreSpec NameRegistry UserDataStore.

Section Names.
Context {T : Type} `{TransactionDBLaws T} `{!Codec HubEvent} `{CodecLaw UserNameProof}.
Implicit Types (s : Store T) (m : gmap bytes bytes) (now id : Z) (p e : UserNameProof).

Definition name_key p : bytes := make_fname_username_proof_key (proof_name p).
Definition fid_key p : bytes := make_fname_username_proof_by_fid_key (wrap 32 (proof_fid p)).

(** Whether a proof is accepted where [existing] is stored. *)
Definition proof_wins (existing : option UserNameProof) p : bool :=
  match existing with
  | Some e => (username_proof_compare e p <? 0)%Z
  | None => negb (proof_fid p =? 0)%Z
  end.

Lemma get_username_proof_row d m name : holds d m ->
  get_username_proof d name =
  match m !! make_fname_username_proof_key name with None => Ok None | Some buf => decode_username_proof buf end.
Proof using Type. intros Hd. unfold get_username_proof. by rewrite (RocksDB_get_holds d m _ Hd). Qed.

Lemma get_fname_proof_by_fid_row d m fid : holds d m ->
  get_fname_proof_by_fid d fid =
  match m !! make_fname_username_proof_by_fid_key fid with
  | None => Ok None
  | Some key => match m !! key with None => Ok None | Some buf => decode_username_proof buf end
  end.
Proof using Type.
  intros Hd. unfold get_fname_proof_by_fid. rewrite (RocksDB_get_holds d m _ Hd). simpl.
  destruct (m !! make_fname_username_proof_by_fid_key fid) as [key|]; [|done]. by rewrite (RocksDB_get_holds d m key Hd).
Qed.

Lemma decode_proof_row p : decode_username_proof (encode_to_vec p) = Ok (Some p).
Proof using H2. unfold decode_username_proof. by rewrite decode_encode. Qed.

Lemma get_username_proof_existing d m p (existing : option UserNameProof) : holds d m -> m !! name_key p = encode_to_vec <$> existing ->
  get_username_proof d (proof_name p) = Ok existing.
Proof using H2.
  intros Hd Hm. rewrite (get_username_proof_row _ m _ Hd). unfold name_key in Hm. rewrite Hm.
  destruct existing; [apply decode_proof_row|done].
Qed.

(** What an accepted proof writes. *)
Definition proof_rows m (existing : option UserNameProof) p : gmap bytes bytes :=
  let m' := <[name_key p := encode_to_vec p]> m in
  if (proof_fid p =? 0)%Z then match existing with Some e => base.delete (fid_key e) m' | None => m' end
  else <[fid_key p := name_key p]> m'.

Lemma merge_username_proof_accepted now p s m (existing : option UserNameProof) id g :
  holds (store_db s) m -> m !! name_key p = encode_to_vec <$> existing -> proof_wins existing p = true ->
  generate_id now None (store_event_handler s) = (Ok id, g) ->
  exists event s', merge_username_proof now p s = (Ok event, s') /\
    holds (store_db s') (<[make_event_key id := event]> (proof_rows m existing p)).
Proof using H2.
  intros Hd Hm Hw Hg. unfold merge_username_proof. erewrite st_bind_Ok by reflexivity.
  erewrite (st_bind_Ok _ _ s existing s) by (unfold st_lift; by rewrite (get_username_proof_existing _ m _ existing Hd Hm)).
  erewrite (st_bind_Ok _ _ s ((fun e => wrap 32 (proof_fid e)) <$> existing) s).
  2: { unfold proof_wins in Hw. destruct existing as [e|]; simpl in *; unfold st_lift.
       - apply Z.ltb_lt in Hw. by rewrite (proj2 (Z.eqb_neq _ _)), (proj2 (Z.ltb_ge _ _)) by lia.
       - by destruct (proof_fid p =? 0)%Z. }
  match goal with |- exists ev s', commit_with_event _ ?t ?e _ = _ /\ _ =>
    destruct (commit_with_event_spec s m now t e id g Hd Hg) as (s' & E & _ & Hd') end.
  eexists _, s'. split; [exact E|]. unfold proof_rows, name_key, fid_key.
  destruct (proof_fid p =? 0)%Z; unfold delete_username_proof_transaction, put_username_proof_transaction in Hd'.
  - destruct existing as [e|]; simpl in Hd'; by rewrite ?apply_batch_delete, apply_batch_put, apply_batch_new in Hd'.
  - by rewrite !apply_batch_put, apply_batch_new in Hd'.
Qed.

Lemma merge_username_proof_refused now p s m (existing : option UserNameProof) :
  holds (store_db s) m -> m !! name_key p = encode_to_vec <$> existing -> proof_wins existing p = false ->
  exists err, merge_username_proof now p s = (Err err, s).
Proof using H2.
  intros Hd Hm Hw. unfold merge_username_proof. erewrite st_bind_Ok by reflexivity.
  erewrite (st_bind_Ok _ _ s existing s) by (unfold st_lift; by rewrite (get_username_proof_existing _ m _ existing Hd Hm)).
  unfold proof_wins, st_bind, st_lift in *. destruct existing as [e|].
  - apply Z.ltb_ge in Hw. destruct (username_proof_compare e p =? 0)%Z eqn:E0; [by eexists|]. apply Z.eqb_neq in E0.
    rewrite (proj2 (Z.ltb_lt _ _)) by lia. by eexists.
  - destruct (proof_fid p =? 0)%Z; [by eexists|done].
Qed.
End Names.

(** ** Properties *)
Section Properties.
Context {T : Type} `{TransactionDBLaws T} `{!Codec HubEvent} `{CodecLaw UserNameProof}.

(** Merging a username proof: the latest proof of a name wins. An accepted
    proof is the one its name and, unless it deletes the name, its user lead
    to afterwards; a deletion takes away the row of the former user; proofs of
    other names are untouched. Any other proof is refused and changes
    nothing. *)
Theorem username_proof_last_writer (now : Z) (p : UserNameProof) (s : Store T) (m : gmap bytes bytes)
    (existing : option UserNameProof) (id : Z) (g : HubEventIdGenerator)
    (Hd : holds (store_db s) m) (Hm : m !! name_key p = encode_to_vec <$> existing)
    (Hg : generate_id now None (store_event_handler s) = (Ok id, g)) :
  if proof_wins existing p then
    exists event s', merge_username_proof now p s = (Ok event, s') /\
      user_data_get_username_proof (proof_name p) s' = Ok (Some p) /\
      (proof_fid p ≠ 0%Z -> get_username_proof_by_fid (wrap 32 (proof_fid p)) s' = Ok (Some p)) /\
      (proof_fid p = 0%Z -> forall e, existing = Some e -> get_username_proof_by_fid (wrap 32 (proof_fid e)) s' = Ok None) /\
      (forall name, name ≠ proof_name p -> user_data_get_username_proof name s' = user_data_get_username_proof name s)
  else exists err, merge_username_proof now p s = (Err err, s).
Proof.
  destruct (proof_wins existing p) eqn:Hw; [|by eapply merge_username_proof_refused].
  destruct (merge_username_proof_accepted now p s m existing id g Hd Hm Hw Hg) as (event & s' & E & Hd').
  exists event, s'. split; [done|]. unfold user_data_get_username_proof, get_username_proof_by_fid.
  rewrite (get_username_proof_row _ _ _ Hd'), !lookup_insert_ne by done. unfold proof_rows.
  split_and!.
  - destruct (proof_fid p =? 0)%Z; [destruct existing as [e|]|]; rewrite ?lookup_delete_ne, ?lookup_insert_ne by done;
      rewrite lookup_insert_eq; apply decode_proof_row.
  - intros Hf. rewrite (get_fname_proof_by_fid_row _ _ _ Hd'), lookup_insert_ne by done. unfold proof_rows.
    rewrite (proj2 (Z.eqb_neq _ _)) by done. unfold fid_key. rewrite lookup_insert_eq.
    rewrite !lookup_insert_ne by done. unfold name_key at 2. rewrite lookup_insert_eq. apply decode_proof_row.
  - intros Hf e ->. rewrite (get_fname_proof_by_fid_row _ _ _ Hd'), lookup_insert_ne by done. unfold proof_rows.
    rewrite (proj2 (Z.eqb_eq _ _)) by done. unfold fid_key. by rewrite lookup_delete_eq.
  - intros name Hne. rewrite (get_username_proof_row _ _ _ Hd'), (get_username_proof_row _ _ _ Hd).
    rewrite lookup_insert_ne by done. unfold proof_rows.
    assert (Hk : name_key p ≠ make_fname_username_proof_key name) by (unfold name_key; intros [= E']; congruence).
    destruct (proof_fid p =? 0)%Z; [destruct existing as [e|]|]; rewrite ?lookup_delete_ne, ?lookup_insert_ne by done; done.
Qed.

(** A transferred name stays with its former user: after a later proof
    moved the name from one user to another, the former user still leads to
    the proof, which names the new user. *)
Theorem username_transfer_keeps_old_row (now : Z) (p e : UserNameProof) (s : Store T) (m : gmap bytes bytes) (id : Z)
    (g : HubEventIdGenerator)
    (Hd : holds (store_db s) m) (Hm : m !! name_key p = Some (encode_to_vec e))
    (Hold : m !! fid_key e = Some (name_key p)) (Hname : proof_name e = proof_name p)
    (Hw : (username_proof_compare e p < 0)%Z) (Hf : proof_fid p ≠ 0%Z) (Hne : fid_key e ≠ fid_key p)
    (Hg : generate_id now None (store_event_handler s) = (Ok id, g)) :
  exists event s', merge_username_proof now p s = (Ok event, s') /\
    get_username_proof_by_fid (wrap 32 (proof_fid e)) s' = Ok (Some p) /\ proof_fid p ≠ proof_fid e.
Proof.
  destruct (merge_username_proof_accepted now p s m (Some e) id g Hd Hm) as (event & s' & E & Hd'); [by apply Z.ltb_lt|done|].
  exists event, s'. split; [done|]. split; [|by intros E'; apply Hne; unfold fid_key; rewrite E'].
  unfold get_username_proof_by_fid. rewrite (get_fname_proof_by_fid_row _ _ _ Hd'), lookup_insert_ne by done. unfold proof_rows.
  rewrite (proj2 (Z.eqb_neq _ _)) by done. fold (fid_key e). rewrite lookup_insert_ne by done.
  rewrite lookup_insert_ne by done. rewrite Hold, !lookup_insert_ne by done. rewrite lookup_insert_eq. apply decode_proof_row.
Qed.
End Properties.

(** ** Witnesses *)
#[local] Instance sample_proof_codec : Codec UserNameProof := countable_codec UserNameProof.
#[local] Instance sample_proof_law : CodecLaw UserNameProof := countable_codec_law UserNameProof.
#[local] Instance sample_event_codec : Codec HubEvent := {| encode_to_vec _ := []; decode _ := Err "unused" |}.

Definition sample_proof (fid ts : Z) : UserNameProof := mkUserNameProof ts [110]%Z [] [ts] fid 1.

Definition sample_rows : gmap bytes bytes :=
  <[fid_key (sample_proof 7 1) := name_key (sample_proof 7 1)]>
    {[ name_key (sample_proof 7 1) := encode_to_vec (sample_proof 7 1) ]}.

Definition sample_store (m : gmap bytes bytes) : Store (gmap bytes bytes) :=
  mkStore (mkRocksDB (Some m) "x") (handler_new (Some 0%Z) None None).

Lemma username_proof_last_writer_witness :
  exists event s', merge_username_proof 5 (sample_proof 7 1) (sample_store ∅) = (Ok event, s') /\
    user_data_get_username_proof [110]%Z s' = Ok (Some (sample_proof 7 1)).
Proof.
  destruct (username_proof_last_writer 5 (sample_proof 7 1) (sample_store ∅) ∅ None (make_event_id 5 0) (mkGenerator 5 0 0))
    as (event & s' & E & Hget & _).
  - apply holds_gmap.
  - apply lookup_empty.
  - vm_compute. reflexivity.
  - exists event, s'. split; [exact E|exact Hget].
Defined.

Lemma username_transfer_keeps_old_row_witness :
  exists event s', merge_username_proof 5 (sample_proof 8 2) (sample_store sample_rows) = (Ok event, s') /\
    get_username_proof_by_fid 7 s' = Ok (Some (sample_proof 8 2)).
Proof.
  destruct (username_transfer_keeps_old_row 5 (sample_proof 8 2) (sample_proof 7 1) (sample_store sample_rows) sample_rows
    (make_event_id 5 0) (mkGenerator 5 0 0)) as (event & s' & E & Hget & _).
  - apply holds_gmap.
  - unfold sample_rows. rewrite lookup_insert_ne by done. apply lookup_insert_eq.
  - apply lookup_insert_eq.
  - reflexivity.
  - vm_compute. reflexivity.
  - discriminate.
  - vm_compute. discriminate.
  - vm_compute. reflexivity.
  - exists event, s'. split; [exact E|exact Hget].
Defined.
