(* ===== verification/OwnedIndex.v ===== *)
(** * Stores with an index to the owner

    Store definitions with a secondary index that leads from what a message is
    about, an address or a name, to the one user who has it: the interface
    [OwnedIndex]. The invariant is that the index has exactly the live adds, so
    that no two users have one of them. *)

From S2P Require Import Prelude Util Db Proto AccountMessage Events Store StoreSpec StoreIndex Convergence Retention.

(** The rows of the index, and the methods of the store definition that keep
    them. *)
Class OwnedIndex (T : Type) `{TransactionDB T} `{!Codec Message, !Codec MessageData, !Codec HubEvent}
    `{!StoreDef T, !StoreDefLaws} := {
  index_row : bytes -> bytes;
  index_row_inj x y : index_row x = index_row y -> x = y;
  index_row_user x q f (r : bytes) : index_row x ≠ user_row q f r;
  index_row_event x id : index_row x ≠ make_event_key id;
  build_index t a : valid a -> is_add_type a = true ->
    build_secondary_indices t (ts_hash_of a) a = Ok (Batch.put t (index_row (conflict_suffix a)) (make_fid_key (fid_of a)));
  delete_index t a : valid a -> is_add_type a = true ->
    delete_secondary_indices t (ts_hash_of a) a = Ok (Batch.delete t (index_row (conflict_suffix a)));
  delete_remove_index t a : valid a -> delete_remove_secondary_indices t a = Ok t;
}.

Section Owned.
Context {T : Type} `{TransactionDBLaws T} `{!PrefixIteration T} `{!Codec Message, !Codec MessageData, !Codec HubEvent}
  `{!StoreDef T, !StoreDefLaws, !OwnedIndex T}.
Implicit Types (a e : Message) (m : gmap bytes bytes) (s : Store T) (now id f : Z) (t : RocksDbTransactionBatch) (x : bytes).

Abbreviation live := (gmap (Z * bytes) Message).

(** ** The transactions, with the rows of the index *)
Definition del_rows t e : RocksDbTransactionBatch :=
  Batch.delete (Batch.delete (if is_add_type e then Batch.delete t (index_row (conflict_suffix e)) else t) (set_row e)) (primary_row e).

Definition put_rows t a : RocksDbTransactionBatch :=
  let t' := Batch.put (Batch.put t (primary_row a) (message_encode a)) (set_row a) (ts_hash_of a) in
  if is_add_type a then Batch.put t' (index_row (conflict_suffix a)) (make_fid_key (fid_of a)) else t'.

Lemma owned_delete_one t e : valid e -> delete_one_transaction t e = Ok (del_rows t e).
Proof using Type.
  intros Hv. destruct (valid_storable e Hv) as (d & _ & _ & Hd & _). rewrite (delete_one_by_type t e d Hv Hd).
  unfold del_rows, set_row, delete_add_transaction, delete_remove_transaction, delete_message_transaction.
  destruct (valid_types e Hv) as [(Ea & _)|(Ea & _ & _ & Hs)]; rewrite Ea.
  - rewrite (delete_index t e Hv Ea), bind_Ok_l, (make_add_key_law e Hv), bind_Ok_l. by rewrite (valid_message_key e Hv).
  - rewrite Hs. cbn [negb]. rewrite (delete_remove_index t e Hv), bind_Ok_l, (make_remove_key_law e Hs Hv), bind_Ok_l.
    by rewrite (valid_message_key e Hv).
Qed.

Lemma owned_delete_many t L : Forall valid L -> delete_many_transaction t L = Ok (foldl del_rows t L).
Proof using Type.
  intros HL. revert t. induction HL as [|e L He _ IH]; intros t; [done|]. simpl delete_many_transaction.
  rewrite (owned_delete_one t e He), bind_Ok_l. apply IH.
Qed.

Lemma owned_put t a : valid a ->
  (if is_add_type a then put_add_transaction t (ts_hash_of a) a else put_remove_transaction t (ts_hash_of a) a) = Ok (put_rows t a).
Proof using Type.
  intros Hv. unfold put_rows, set_row, put_add_transaction, put_remove_transaction, put_message_transaction.
  destruct (valid_types a Hv) as [(Ea & _)|(Ea & _ & _ & Hs)]; rewrite Ea, (valid_message_key a Hv).
  - rewrite bind_Ok_l, (make_add_key_law a Hv), bind_Ok_l. by apply build_index.
  - rewrite Hs. cbn [negb]. by rewrite bind_Ok_l, (make_remove_key_law a Hs Hv), bind_Ok_l.
Qed.

(** Their effect on the stored rows. *)
Definition del_map m e : gmap bytes bytes :=
  base.delete (primary_row e) (base.delete (set_row e)
    (if is_add_type e then base.delete (index_row (conflict_suffix e)) m else m)).

Definition put_map m a : gmap bytes bytes :=
  let m' := <[set_row a := ts_hash_of a]> (<[primary_row a := message_encode a]> m) in
  if is_add_type a then <[index_row (conflict_suffix a) := make_fid_key (fid_of a)]> m' else m'.

Lemma apply_del_rows m t L : apply_batch m (foldl del_rows t L) = foldl del_map (apply_batch m t) L.
Proof using Type.
  revert t. induction L as [|e L IH]; intros t; [done|]. simpl. rewrite IH. f_equal. unfold del_rows, del_map.
  destruct (is_add_type e); by rewrite !apply_batch_delete.
Qed.

Lemma apply_put_rows m t a : apply_batch m (put_rows t a) = put_map (apply_batch m t) a.
Proof using Type. unfold put_rows, put_map. destruct (is_add_type a); by rewrite !apply_batch_put. Qed.

Lemma del_map_user m e q f (r : bytes) : del_map m e !! user_row q f r = drop_rows m (Some e) !! user_row q f r.
Proof using Type.
  unfold del_map. simpl. rewrite !lookup_delete. repeat case_decide; try done.
  destruct (is_add_type e); [|done]. rewrite lookup_delete_ne by apply index_row_user. done.
Qed.

Lemma put_map_user m a q f (r : bytes) :
  put_map m a !! user_row q f r = <[set_row a := ts_hash_of a]> (<[primary_row a := message_encode a]> m) !! user_row q f r.
Proof using Type. unfold put_map. destruct (is_add_type a); [|done]. rewrite lookup_insert_ne by apply index_row_user. done. Qed.

Lemma del_map_index m e x : del_map m e !! index_row x =
  if is_add_type e && bool_decide (x = conflict_suffix e) then None else m !! index_row x.
Proof using Type.
  unfold del_map. rewrite lookup_delete_ne by (by intros E; symmetry in E; apply index_row_user in E).
  rewrite lookup_delete_ne by (unfold set_row; by intros E; symmetry in E; apply index_row_user in E).
  destruct (is_add_type e); [|done]. simpl. case_bool_decide as Hx; [by rewrite Hx, lookup_delete_eq|].
  rewrite lookup_delete_ne; [done|]. intros E. by apply index_row_inj in E.
Qed.

Lemma put_map_index m a x : put_map m a !! index_row x =
  if is_add_type a && bool_decide (x = conflict_suffix a) then Some (make_fid_key (fid_of a)) else m !! index_row x.
Proof using Type.
  unfold put_map. assert (Hu : forall m', (<[set_row a := ts_hash_of a]> (<[primary_row a := message_encode a]> m')) !! index_row x = m' !! index_row x).
  { intros m'. rewrite !lookup_insert_ne; [done|..]; unfold set_row; intros E; symmetry in E; by apply index_row_user in E. }
  destruct (is_add_type a); simpl; [|apply Hu]. case_bool_decide as Hx; [by rewrite Hx, lookup_insert_eq|].
  rewrite lookup_insert_ne; [apply Hu|]. intros E. by apply index_row_inj in E.
Qed.

(** ** The invariant *)

(** The index has exactly the live adds. *)
Record owned_repr m (A : live) : Prop := {
  owned_store : store_repr m A;
  owned_indexed : forall f x e, A !! (f, x) = Some e -> is_add_type e = true -> m !! index_row x = Some (make_fid_key f);
  owned_only : forall x v, m !! index_row x = Some v ->
    exists f e, v = make_fid_key f /\ A !! (f, x) = Some e /\ is_add_type e = true;
}.

Lemma make_fid_key_inj f1 f2 : is_fid f1 -> is_fid f2 -> make_fid_key f1 = make_fid_key f2 -> f1 = f2.
Proof using Type. intros R1 R2. apply (be_bytes_inj 4); done. Qed.

Lemma read_make_fid_key f : is_fid f -> read_fid_key (E := HubError) (make_fid_key f) = Ok f.
Proof using Type.
  intros Hf. unfold read_fid_key, make_fid_key, slice_to. rewrite length_be_bytes. change (4 <=? 4) with true.
  cbv beta iota. rewrite firstn_all2 by by rewrite length_be_bytes. cbv beta iota delta [mbind result_bind].
  by rewrite be_value_be_bytes.
Qed.

Lemma live_key (A : live) m k e : store_repr m A -> A !! k = Some e -> valid e /\ fid_of e = k.1 /\ conflict_suffix e = k.2 /\ is_fid k.1.
Proof using Type.
  intros Hr He. destruct (repr_valid _ _ Hr _ _ He) as [Hv <-]. split_and!; try done; apply fid_of_is_fid.
Qed.

(** At most one user has an add for a suffix. *)
Lemma owned_unique m (A : live) f1 f2 x e1 e2 : owned_repr m A ->
  A !! (f1, x) = Some e1 -> is_add_type e1 = true -> A !! (f2, x) = Some e2 -> is_add_type e2 = true -> f1 = f2.
Proof using Type.
  intros [Hs Hi _] R1 A1 R2 A2. assert (E : make_fid_key f1 = make_fid_key f2) by (pose proof (Hi _ _ _ R1 A1); pose proof (Hi _ _ _ R2 A2); congruence).
  destruct (live_key _ _ _ _ Hs R1) as (_ & _ & _ & F1), (live_key _ _ _ _ Hs R2) as (_ & _ & _ & F2).
  by apply make_fid_key_inj.
Qed.

(** The add of another user, if any. *)
Definition other_owner (A : live) a f e : Prop :=
  A !! (f, conflict_suffix a) = Some e /\ is_add_type e = true /\ f ≠ fid_of a.

(** The abstract map after an accepted merge. *)
Definition owned_merge_map (A : live) a (o : option Message) : live :=
  <[conflict_key a := a]> (match o with Some e => base.delete (conflict_key e) A | None => A end).

Lemma owned_merge_user m (A : live) a (o : option Message) :
  store_repr m A -> valid a -> (forall e, o = Some e -> A !! conflict_key e = Some e /\ conflict_key e ≠ conflict_key a) ->
  (forall k e, A !! k = Some e -> no_collision a e) ->
  store_repr (put_map (foldl del_map m (replaced A a ++ option_list o)) a) (owned_merge_map A a o).
Proof using Type.
  intros Hr Ha Ho Hnc. unfold owned_merge_map. destruct o as [e|].
  - destruct (Ho e eq_refl) as [He Hne]. assert (Hr1 : store_repr (drop_rows m (Some e)) (base.delete (conflict_key e) A)).
    { by apply (repr_delete A m). }
    apply (repr_insert (drop_rows m (Some e))); [done..| |].
    + intros k x [_ Hx]%lookup_delete_Some. by apply (Hnc k).
    + intros q f r. rewrite put_map_user, lookup_delete_ne by done. rewrite foldl_app. simpl.
      rewrite !lookup_insert. repeat case_decide; try done. rewrite del_map_user. unfold replaced.
      destruct (A !! conflict_key a) as [e0|]; [|done]. simpl.
      rewrite !lookup_delete. by repeat case_decide; rewrite ?del_map_user; simpl; rewrite ?lookup_delete; repeat case_decide.
  - rewrite app_nil_r. apply (repr_insert m); [done..|]. intros q f r. rewrite put_map_user, !lookup_insert.
    repeat case_decide; try done. unfold replaced. destruct (A !! conflict_key a) as [e0|]; [|done]. simpl. apply del_map_user.
Qed.

Lemma del_maps_index m L x :
  foldl del_map m L !! index_row x =
  if existsb (fun e => is_add_type e && bool_decide (x = conflict_suffix e)) L then None else m !! index_row x.
Proof using Type.
  revert m. induction L as [|e L IH]; intros m; [done|]. simpl foldl. rewrite IH, del_map_index. simpl.
  by destruct (is_add_type e && bool_decide (x = conflict_suffix e)), (existsb _ L).
Qed.

(** The index after an accepted merge, at the address of the message and
    elsewhere. *)
Lemma owned_merge_index m (A : live) a (o : option Message) x :
  owned_repr m A -> valid a ->
  (forall e, o = Some e -> is_add_type e = true /\ conflict_suffix e = conflict_suffix a) ->
  put_map (foldl del_map m (replaced A a ++ option_list o)) a !! index_row x =
  if bool_decide (x = conflict_suffix a) then
    if is_add_type a then Some (make_fid_key (fid_of a))
    else if existsb is_add_type (replaced A a ++ option_list o) then None else m !! index_row x
  else m !! index_row x.
Proof using Type.
  intros Hr Ha Ho. rewrite put_map_index, del_maps_index.
  assert (HL : forall e, e ∈ replaced A a ++ option_list o -> conflict_suffix e = conflict_suffix a).
  { intros e [He|He]%elem_of_app.
    - unfold replaced in He. destruct (A !! conflict_key a) as [e0|] eqn:E; [|by apply elem_of_nil in He].
      apply list_elem_of_singleton in He as ->. by destruct (live_key _ _ _ _ (owned_store _ _ Hr) E) as (_ & _ & Hx & _).
    - destruct o as [e0|]; [|by apply elem_of_nil in He]. apply list_elem_of_singleton in He as ->. by destruct (Ho e0 eq_refl). }
  assert (Eb : existsb (fun e => is_add_type e && bool_decide (x = conflict_suffix e)) (replaced A a ++ option_list o) =
    existsb is_add_type (replaced A a ++ option_list o) && bool_decide (x = conflict_suffix a)).
  { revert HL. generalize (replaced A a ++ option_list o). intros L HL. induction L as [|e L IH]; [done|]. simpl.
    rewrite IH by (intros y Hy; apply HL; by right). rewrite (HL e) by by left.
    by rewrite andb_orb_distrib_l. }
  rewrite Eb. by case_bool_decide; rewrite ?andb_true_r, ?andb_false_r.
Qed.

Lemma owned_merge_repr m (A : live) a (o : option Message) :
  owned_repr m A -> valid a ->
  (forall e, o = Some e -> is_add_type a = true /\ other_owner A a (fid_of e) e) ->
  (o = None -> is_add_type a = true -> forall f e, ~ other_owner A a f e) ->
  (forall k e, A !! k = Some e -> no_collision a e) ->
  owned_repr (put_map (foldl del_map m (replaced A a ++ option_list o)) a) (owned_merge_map A a o).
Proof using Type.
  intros Hr Ha Ho Hnone Hnc. pose proof Hr as [Hs Hi Honly].
  assert (Hoe : forall e, o = Some e -> A !! conflict_key e = Some e /\ conflict_key e ≠ conflict_key a /\ conflict_suffix e = conflict_suffix a).
  { intros e He. destruct (Ho e He) as (_ & Hc & _ & Hne). destruct (live_key _ _ _ _ Hs Hc) as (_ & _ & Hx & _). simpl in Hx.
    split_and!; [unfold conflict_key; simpl; by rewrite Hx|unfold conflict_key; simpl; congruence|done]. }
  split.
  { apply owned_merge_user; [done..| |done]. intros e He. by destruct (Hoe e He) as (? & ? & _). }
  - intros f x e. rewrite owned_merge_index by (done || (intros y Hy; destruct (Ho y Hy) as (_ & Hc & Hc' & _), (Hoe y Hy) as (_ & _ & ?); done)).
    unfold owned_merge_map. rewrite lookup_insert_Some. intros [[Ek <-]|[Hne He]] Hadd.
    + injection Ek as <- <-. by rewrite bool_decide_eq_true_2, Hadd.
    + assert (He' : A !! (f, x) = Some e) by (destruct o; [by apply lookup_delete_Some in He as [_ ?]|done]).
      case_bool_decide as Hx; [|by apply (Hi f x e)]. subst x. destruct (is_add_type a) eqn:Eadd.
      * exfalso. assert (Hoc : other_owner A a f e) by (split_and!; [done..|]; intros ->; by apply Hne).
        destruct o as [e1|]; [|by apply (Hnone eq_refl eq_refl f e)].
        destruct (Ho e1 eq_refl) as (_ & Hc1 & Hadd1 & _). destruct (live_key _ _ _ _ Hs Hc1) as (_ & _ & Hx1 & _).
        assert (fid_of e1 = f) by exact (owned_unique m A _ f _ e1 e Hr Hc1 Hadd1 He' Hadd).
        apply lookup_delete_Some in He as [Hd _]. apply Hd. unfold conflict_key. simpl in Hx1 |- *. congruence.
      * destruct o as [e1|]; [by destruct (Ho e1 eq_refl) as [? _]|]. rewrite app_nil_r. unfold replaced.
        destruct (A !! conflict_key a) as [e0|] eqn:E0; simpl; [|by apply (Hi f _ e)].
        destruct (is_add_type e0) eqn:Ea0; simpl; [|by apply (Hi f _ e)]. exfalso. apply Hne.
        unfold conflict_key in *. simpl in *. f_equal. exact (owned_unique m A _ f _ e0 e Hr E0 Ea0 He' Hadd).
  - intros x v. rewrite owned_merge_index by (done || (intros y Hy; destruct (Ho y Hy) as (_ & Hc & Hc' & _), (Hoe y Hy) as (_ & _ & ?); done)).
    unfold owned_merge_map. case_bool_decide as Hx.
    + subst x. destruct (is_add_type a) eqn:Eadd.
      * intros [= <-]. exists (fid_of a), a. split; [done|]. split; [apply lookup_insert_eq|done].
      * destruct o as [e1|]; [by destruct (Ho e1 eq_refl) as [? _]|]. rewrite app_nil_r. intros Hv.
        destruct (existsb is_add_type (replaced A a)) eqn:Ex; [done|]. destruct (Honly _ _ Hv) as (f & e & -> & He & Hadd).
        exists f, e. split; [done|]. split; [|done]. rewrite lookup_insert_ne; [done|]. intros Ek. unfold replaced in Ex.
        rewrite Ek, He in Ex. simpl in Ex. by rewrite Hadd in Ex.
    + intros Hv. destruct (Honly _ _ Hv) as (f & e & -> & He & Hadd). exists f, e. split; [done|]. split; [|done].
      rewrite lookup_insert_ne by (intros Ek; apply Hx; symmetry; exact (f_equal snd Ek)).
      destruct o as [e1|]; [|done]. destruct (Hoe e1 eq_refl) as (_ & _ & Hx1). rewrite lookup_delete_ne; [done|].
      intros Ek. apply Hx. rewrite <- Hx1. symmetry. exact (f_equal snd Ek).
Qed.

Lemma owned_repr_event m (A : live) id v : owned_repr m A -> owned_repr (<[make_event_key id := v]> m) A.
Proof using Type.
  intros [Hs Hi Ho].
  assert (Hx : forall x, (<[make_event_key id := v]> m) !! index_row x = m !! index_row x) by (intros; apply lookup_insert_ne; intros E; by apply (index_row_event x id)).
  split; [|by intros f x e; rewrite Hx; apply Hi|by intros x w; rewrite Hx; apply Ho].
  apply (store_repr_ext m); [done|]. intros p f r _ _. apply lookup_insert_ne. symmetry. apply user_row_event.
Qed.

(** ** Merging *)

(** What a merge deletes besides the message at its key: the add of the other
    owner. *)
Definition owner_replaced (A : live) a (o : option Message) : Prop :=
  (forall e, o = Some e -> is_add_type a = true /\ other_owner A a (fid_of e) e) /\
  (o = None -> is_add_type a = true -> forall f e, ~ other_owner A a f e).

Lemma owned_merge now a s m (A : live) (o : option Message) id g :
  holds (store_db s) m -> owned_repr m A -> valid a -> (forall k e, A !! k = Some e -> no_collision a e) ->
  compact_check a s = Ok tt -> get_merge_conflicts (store_db s) a (ts_hash_of a) = Ok (replaced A a ++ option_list o) ->
  owner_replaced A a o -> generate_id now None (store_event_handler s) = (Ok id, g) ->
  let event := encode_to_vec (set_event_id id (merge_event_args a (replaced A a ++ option_list o))) in
  exists s' m', merge now a s = (Ok event, s') /\ store_event_handler s' = g /\
    holds (store_db s') m' /\ owned_repr m' (owned_merge_map A a o) /\ m' !! make_event_key id = Some event.
Proof using Type.
  intros Hd Hr Ha Hnc Hcheck E [Ho Hnone] Hg event. rewrite merge_unfold by done.
  erewrite st_bind_Ok by (unfold st_lift; rewrite Hcheck; reflexivity).
  erewrite st_bind_Ok by (unfold st_lift; rewrite E; reflexivity).
  assert (HL : Forall valid (replaced A a ++ option_list o)).
  { apply Forall_forall. intros e [He|He]%elem_of_app.
    - unfold replaced in He. destruct (A !! conflict_key a) as [e0|] eqn:E0; [|by apply elem_of_nil in He].
      apply list_elem_of_singleton in He as ->. by destruct (live_key _ _ _ _ (owned_store _ _ Hr) E0).
    - destruct o as [e0|]; [|by apply elem_of_nil in He]. apply list_elem_of_singleton in He as ->.
      destruct (Ho e0 eq_refl) as (_ & Hc & _). by destruct (live_key _ _ _ _ (owned_store _ _ Hr) Hc). }
  erewrite st_bind_Ok by (unfold st_lift; rewrite (owned_delete_many Batch.new _ HL); reflexivity).
  erewrite st_bind_Ok by (unfold st_lift; rewrite (owned_put _ a Ha); reflexivity).
  match goal with |- context [commit_with_event now ?t ?ev] =>
    destruct (commit_with_event_spec s m now t ev id g Hd Hg) as (s' & Es & Hh & Hd') end.
  rewrite apply_put_rows, apply_del_rows, apply_batch_new in Hd'.
  eexists s', _. split_and!; [exact Es|done|exact Hd'|by apply owned_repr_event, owned_merge_repr|apply lookup_insert_eq].
Qed.

Lemma owned_repr_empty m : (forall k, store_row k -> m !! k = None) -> (forall x, m !! index_row x = None) -> owned_repr m ∅.
Proof using Type.
  intros Hs Hx. split; [by apply store_repr_empty| |].
  - intros f x e. by rewrite lookup_empty.
  - intros x v. by rewrite Hx.
Qed.
End Owned.
