(* ===== verification/Verifications.v ===== *)
(** * Verified addresses

    The verification store against the abstract map of [StoreSpec.v] and its
    index from addresses to users: the index has exactly the live adds, so an
    address is never claimed by two users. *)

From S2P Require Import Prelude Util Db Proto AccountMessage Events Store StoreSpec StoreIndex VerificationStore Convergence Retention OwnedIndex Samples.

(** The address a message adds or removes. *)
Definition vaddress (m : Message) : bytes :=
  match data m ≫= body with
  | Some (VerificationAddAddressBody_ b) => vadd_address b
  | Some (VerificationRemoveBody_ b) => vremove_address b
  | _ => []
  end.

Definition verification_body_ok (b : Body) : Prop :=
  match b with
  | VerificationAddAddressBody_ b => vadd_address b ≠ []
  | VerificationRemoveBody_ b => vremove_address b ≠ []
  | _ => False
  end.

Definition address_row (address : bytes) : bytes := make_verification_by_address_key address.

Section Laws.
Context {T : Type} `{TransactionDB T} `{!PrefixIteration T} `{!Codec Message, !Codec MessageData, !Codec HubEvent}.
Context (prune_size_limit : Z).
#[local] Instance laws_def : StoreDef T := verification_store_def prune_size_limit.

(** A claim or its removal, by a user with a fid. *)
Definition verification_valid (m : Message) : Prop :=
  well_formed MT_VerificationAddEthAddress MT_VerificationRemove verification_body_ok m /\
  (verification_is_add m = true \/ verification_is_remove m = true) /\ fid_of m ≠ 0%Z.

Definition verification_rank (m : Message) : list Z := default_rank (is_signed_type MT_VerificationRemove m) (ts_hash_of m).

Lemma verification_types m : verification_valid m ->
  (verification_is_add m = true /\ verification_is_remove m = false /\ type_of m = message_type_i32 MT_VerificationAddEthAddress) \/
  (verification_is_add m = false /\ verification_is_remove m = true /\ type_of m = message_type_i32 MT_VerificationRemove).
Proof using Type.
  intros (Hw & Hb & _). unfold verification_is_add, verification_is_remove in *.
  destruct (well_formed_types _ _ _ m Hw) as [(Ea & Er & Et)|(Ea & Er & Et)]; [done| |]; rewrite Ea, Er in *; simpl in *.
  - left. by destruct Hb.
  - right. by destruct Hb.
Qed.

Lemma verification_unwrap m : verification_valid m ->
  exists b, unwrap_body m = Ok (fid_of m, b) /\ verification_body_ok b /\ data m ≫= body = Some b.
Proof using Type.
  intros (Hw & _). destruct (well_formed_body _ _ _ m Hw) as (f & b & E & -> & Hb). exists b. split; [done|]. split; [done|].
  destruct Hw as (d & b' & t & Hd & Hb' & _). unfold unwrap_body in E. rewrite Hd in E |- *. simpl in *. rewrite Hb' in *. simpl in *.
  by injection E as _ ->.
Qed.

Lemma verification_key_law m make_key p : (forall f a, make_key f a = user_row p f a) -> verification_valid m ->
  verification_key make_key m = Ok (user_row p (fid_of m) (vaddress m)).
Proof using Type.
  intros Hk Hv. destruct (verification_unwrap m Hv) as (b & E & Hb & Hd). unfold verification_key, vaddress. rewrite E, Hd. simpl.
  by destruct b; rewrite ?Hk.
Qed.

Lemma indexed_address_law m : verification_valid m -> verification_is_add m = true ->
  indexed_address m = Ok (fid_of m, vaddress m).
Proof using Type.
  intros Hv Ha. destruct (verification_unwrap m Hv) as (b & E & Hb & Hd). unfold indexed_address, vaddress.
  unfold verification_is_add in Ha. rewrite Hd in Ha |- *. rewrite E. simpl.
  destruct b; try (by rewrite andb_false_r in Ha). simpl in Hb. by destruct (vadd_address b).
Qed.

Lemma address_foreign a : ~ own_key (address_row a).
Proof using Type. by apply foreign_prefix. Qed.

#[export, refine] Instance VerificationStoreLaws : StoreDefLaws (T := T) := {|
  valid := verification_valid;
  conflict_suffix := vaddress;
  rank := verification_rank;
  adds_postfix := user_postfix_u8 VerificationAdds;
  removes_postfix := user_postfix_u8 VerificationRemoves;
  stale _ := False;
|}.
Proof.
  - intros m (Hw & _). by apply (well_formed_storable _ _ _ m Hw).
  - intros m Hv. destruct (verification_types m Hv) as [?|?]; naive_solver.
  - done.
  - done.
  - done.
  - intros m Hv. by apply verification_key_law.
  - intros m _ Hv. by apply verification_key_law.
  - done.
  - intros t m Hv Ha. simpl. unfold verification_build_indices. rewrite (indexed_address_law m Hv Ha). simpl.
    eexists. split; [done|]. apply put_foreign, address_foreign.
  - intros m t e _ Hv Ha. simpl. unfold verification_delete_indices. rewrite (indexed_address_law e Hv Ha). simpl.
    eexists. split; [done|]. apply delete_foreign_agree, address_foreign.
  - intros m t e _ _. by eexists.
  - intros d m _. simpl. by case_match.
  - intros a b (Ha & _) (Hb & _). simpl. rewrite (default_type_of _ _ _ a Ha), (default_type_of _ _ _ b Hb) by done.
    apply default_compare_rank; [done|eapply well_formed_ts_hash..]; done.
  - intros a b (Ha & _) (Hb & _). apply default_rank_inj; eapply well_formed_ts_hash; done.
Defined.
#[export, refine] Instance VerificationIndex : OwnedIndex T := {| index_row := address_row |}.
Proof.
  - by intros x y [= ->].
  - discriminate.
  - discriminate.
  - intros t a Hv Ha. simpl. unfold verification_build_indices. by rewrite (indexed_address_law a Hv Ha).
  - intros t a Hv Ha. simpl. unfold verification_delete_indices. by rewrite (indexed_address_law a Hv Ha).
  - done.
Defined.

#[export] Instance VerificationStoreNoCompaction : NoCompaction (T := T).
Proof. done. Qed.
End Laws.

Section Claims.
Context {T : Type} `{TransactionDBLaws T} `{!PrefixIteration T} `{!Codec Message, !Codec MessageData, !Codec HubEvent}.
Context (prune_size_limit : Z).
#[local] Instance claims_def : StoreDef T := verification_store_def prune_size_limit.
#[local] Instance claims_laws : StoreDefLaws := VerificationStoreLaws prune_size_limit.
#[local] Instance claims_index : OwnedIndex T := VerificationIndex prune_size_limit.
#[local] Instance claims_no_compaction : NoCompaction := VerificationStoreNoCompaction prune_size_limit.
Implicit Types (a e : Message) (m : gmap bytes bytes) (s : Store T) (now id f : Z) (t : RocksDbTransactionBatch) (x : bytes).

Abbreviation live := (gmap (Z * bytes) Message).

#[local] Arguments vec_to_u8_24 : simpl never.

Lemma other_user_conflict_spec (d : RocksDB T) m (A : live) a :
  holds d m -> owned_repr m A -> valid a ->
  verification_is_add a = true ->
  (exists err, other_user_conflict prune_size_limit d a (vaddress a) = Err err) \/
  (other_user_conflict prune_size_limit d a (vaddress a) = Ok [] /\ forall f e, ~ other_owner A a f e) \/
  (exists f e, other_user_conflict prune_size_limit d a (vaddress a) = Ok [e] /\ other_owner A a f e).
Proof using Type*.
  intros Hd [Hs Hi Ho] Ha Hadd. unfold other_user_conflict, get_or_none.
  change (forall f x e, A !! (f, x) = Some e -> verification_is_add e = true -> m !! address_row x = Some (make_fid_key f)) in Hi.
  change (forall x v, m !! address_row x = Some v -> exists f e, v = make_fid_key f /\ A !! (f, x) = Some e /\ verification_is_add e = true) in Ho.
  change (other_owner A a) with (fun f e => A !! (f, vaddress a) = Some e /\ verification_is_add e = true /\ f ≠ fid_of a).
  rewrite (RocksDB_get_holds d m _ Hd). fold (address_row (vaddress a)). simpl.
  destruct (m !! address_row (vaddress a)) as [v|] eqn:Ev.
  2: { right. left. split; [done|]. intros f e (He & Hadde & _). by rewrite (Hi _ _ _ He Hadde) in Ev. }
  destruct (Ho _ _ Ev) as (f & e & -> & He & Hadde). destruct (live_key _ _ _ _ Hs He) as (Hve & Hfe & Hxe & Hf). simpl in Hfe, Hxe, Hf.
  rewrite (read_make_fid_key f Hf). simpl. destruct (valid_storable a Ha) as (da & _ & _ & Hda & _). rewrite Hda. simpl.
  assert (Hfa : wrap 32 (fid da) = fid_of a) by (unfold fid_of; by rewrite Hda).
  rewrite Hfa, (RocksDB_get_holds d m _ Hd).
  assert (Hf0 : (0 <? f)%Z = true).
  { apply Z.ltb_lt. destruct Hve as (_ & _ & Hne). rewrite Hfe in Hne. destruct Hf. lia. }
  rewrite Hf0. simpl. destruct (f =? fid_of a)%Z eqn:Ef; simpl.
  { apply Z.eqb_eq in Ef. right. left. split; [done|]. intros f' e' (He' & Hadde' & Hne).
    apply Hne. rewrite <- Ef. apply (owned_unique m A f' f (vaddress a) e' e); done || by constructor. }
  apply Z.eqb_neq in Ef.
  assert (Hrow : m !! make_verification_adds_key f (vaddress a) = Some (ts_hash_of e)).
  { change (make_verification_adds_key f (vaddress a)) with (user_row adds_postfix f (vaddress a)).
    rewrite (repr_adds _ _ Hs) by done. unfold adds_value. rewrite He. simpl. by rewrite Hadde. }
  rewrite Hrow, (valid_ts_hash a da Ha Hda). simpl.
  assert (Hty : forall y, valid y -> verification_is_add y = true -> type_of y = message_type_i32 MT_VerificationAddEthAddress).
  { intros y Hy Hay. destruct (verification_types y Hy) as [(_ & _ & ?)|(Hx & _)]; [done|]. by rewrite Hx in Hay. }
  pose proof (compare_law e a Hve Ha) as Hcmp. rewrite (Hty e Hve Hadde), (Hty a Ha Hadd) in Hcmp. simpl in Hcmp. rewrite Hcmp. simpl.
  destruct (lex_compare _ _) eqn:C; [left; by eexists| |left; by eexists].
  right. right. exists f, e. split; [|done]. change (0 <? comparison_i8 Lt)%Z with false.
  change (comparison_i8 Lt =? 0)%Z with false. cbv iota. rewrite (vec_to_u8_24_ts_hash e Hve). cbv beta iota delta [mbind result_bind].
  assert (G : get_message d f postfix (ts_hash_of e) = Ok (Some e)).
  { rewrite <- Hfe. apply (get_message_row d m e Hd Hve), (repr_rows _ _ Hs _ _ He). }
  by match goal with |- context [get_message d f ?p ?h] => change (get_message d f p h) with (get_message d f postfix h); rewrite G end.
Qed.

(** The conflicts of a merge: the message it replaces and the claim of another
    user. *)
Lemma verification_conflicts_spec (d : RocksDB T) m (A : live) a :
  holds d m -> owned_repr m A -> valid a ->
  (exists err, get_merge_conflicts d a (ts_hash_of a) = Err err) \/
  exists o, get_merge_conflicts d a (ts_hash_of a) = Ok (replaced A a ++ option_list o) /\ accepts A a = true /\
    owner_replaced A a o.
Proof using Type*.
  intros Hd Hr Ha. pose proof (conflicts_spec d m A a Hd (owned_store _ _ Hr) Ha) as Hdef.
  simpl get_merge_conflicts. unfold verification_get_merge_conflicts.
  change (verification_base prune_size_limit) with (@store_def_base T claims_def). rewrite Hdef.
  destruct (accepts A a) eqn:Eacc; [|left; by eexists]. cbv beta iota delta [mbind result_bind].
  destruct (verification_types a Ha) as [(Eadd & Erem & _)|(Eadd & Erem & _)]; simpl is_remove_type; rewrite Erem.
  2: { right. exists None. rewrite app_nil_r. split_and!; [done..|]. split; [done|]. intros _ Hadd. change (verification_is_add a = true) in Hadd. congruence. }
  destruct (verification_unwrap a Ha) as (b & Eu & _ & Eb). rewrite Eu.
  pose proof (other_user_conflict_spec d m A a Hd Hr Ha Eadd) as Ho. 
  assert (Ea : vaddress a = match b with VerificationAddAddressBody_ b => vadd_address b | VerificationRemoveBody_ b => vremove_address b | _ => [] end) by (unfold vaddress; by rewrite Eb).
  rewrite Ea in Ho. destruct b; try (unfold verification_is_add in Eadd; rewrite Eb, andb_false_r in Eadd; done).
  destruct Ho as [(err & ->)|[(-> & Hno)|(f & e & -> & Hc)]].
  - left. by eexists.
  - right. exists None. split_and!; [done..|]. split; [done|]. intros _ _. exact Hno.
  - right. exists (Some e). split_and!; [done..|]. split; [|done]. intros e' [= <-]. split; [done|].
    destruct Hc as (He & Hadde & Hne). destruct (live_key _ _ _ _ (owned_store _ _ Hr) He) as (_ & Hfe & _). simpl in Hfe.
    rewrite Hfe. by split.
Qed.

(** A merge keeps the invariant, or fails and changes nothing. *)
Lemma verification_merge now a s m (A : live) id g :
  holds (store_db s) m -> owned_repr m A -> valid a -> (forall k e, A !! k = Some e -> no_collision a e) ->
  generate_id now None (store_event_handler s) = (Ok id, g) ->
  (exists err, merge now a s = (Err err, s)) \/
  exists event s' m' A', merge now a s = (Ok event, s') /\ store_event_handler s' = g /\ holds (store_db s') m' /\
    owned_repr m' A' /\ forall k e, A' !! k = Some e -> e = a \/ A !! k = Some e.
Proof using Type*.
  intros Hd Hr Ha Hnc Hg. pose proof (compact_check_none a s) as Hcheck.
  destruct (verification_conflicts_spec (store_db s) m A a Hd Hr Ha) as [(err & E)|(o & E & _ & Ho)].
  { left. exists err. rewrite merge_unfold by done. erewrite st_bind_Ok by (unfold st_lift; rewrite Hcheck; reflexivity).
    unfold st_bind at 1, st_lift. by rewrite E. }
  right. destruct (owned_merge now a s m A o id g Hd Hr Ha Hnc Hcheck E Ho Hg) as (s' & m' & Es & Hh & Hd' & Hr' & _).
  eexists _, s', m', (owned_merge_map A a o). split_and!; [exact Es|done..|].
  intros k e. unfold owned_merge_map. rewrite lookup_insert_Some. intros [[_ <-]|[_ He]]; [by left|right].
  destruct o; [by apply lookup_delete_Some in He as [_ ?]|done].
Qed.

Lemma verification_runs (ops : list (Z * Message)) s m (A : live) (L : list Message) :
  holds (store_db s) m -> owned_repr m A -> (forall k e, A !! k = Some e -> e ∈ L) -> clock_ready ops (store_event_handler s) ->
  (forall y : Message, y ∈ L ++ map snd ops -> valid y) -> collision_free (L ++ map snd ops) ->
  exists m' A', holds (store_db (merge_all ops s)) m' /\ owned_repr m' A'.
Proof using Type*.
  revert s m A L. induction ops as [|[now a] ops IH]; intros s m A L Hd Hr HA Hg Hv Hc; [by exists m, A|]. simpl in *.
  destruct (clock_ready_step _ _ _ Hg) as (id & g' & Eg & Hg' & Hg0). simpl in Eg.
  assert (Ha : valid a) by (apply Hv, elem_of_app; right; by left).
  assert (Hnc : forall k e, A !! k = Some e -> no_collision a e).
  { intros k e He. apply Hc; apply elem_of_app; [right; by left|left; by eapply HA]. }
  rewrite cons_middle, app_assoc in Hv, Hc.
  destruct (verification_merge now a s m A id g' Hd Hr Ha Hnc Eg) as [(err & ->)|(ev & s' & m' & A' & -> & Hh & Hd' & Hr' & HA')]; simpl.
  - apply (IH s m A (L ++ [a])); try done. intros k e He. apply elem_of_app. left. by apply (HA k).
  - apply (IH s' m' A' (L ++ [a])); try done; [|by rewrite Hh]. intros k e He. apply elem_of_app.
    destruct (HA' k e He) as [->|He']; [right; by left|left; by apply (HA k)].
Qed.

(** C19. An address has one owner: after any run of merges of claims and
    removals by any users, two users never both hold a verification of one
    address, and a held one is what the index of addresses leads to. *)
Theorem address_has_one_owner (ops : list (Z * Message)) (s : Store T) (m : gmap bytes bytes) (f1 f2 : Z) (address : bytes)
    (e1 e2 : Message)
    (Hd : holds (store_db s) m) (He : forall k, store_row k -> m !! k = None) (Hx : forall x, m !! address_row x = None)
    (Hg : clock_ready ops (store_event_handler s))
    (Hv : forall y : Message, y ∈ map snd ops -> verification_valid y) (Hc : collision_free (map snd ops))
    (Hf1 : is_fid f1 /\ f1 ≠ 0%Z) (Hf2 : is_fid f2 /\ f2 ≠ 0%Z)
    (Hget1 : get_verification_add prune_size_limit f1 address (merge_all ops s) = Ok (Some e1))
    (Hget2 : get_verification_add prune_size_limit f2 address (merge_all ops s) = Ok (Some e2)) :
  f1 = f2 /\ e1 = e2 /\
  RocksDB_get (store_db (merge_all ops s)) (make_verification_by_address_key address) = Ok (Some (make_fid_key f1)).
Proof.
  destruct (verification_runs ops s m ∅ [] Hd (owned_repr_empty (OwnedIndex0 := claims_index) m He Hx)) as (m' & A' & Hd' & Hr); try done.
  assert (Hget : forall f e, is_fid f /\ f ≠ 0%Z -> get_verification_add prune_size_limit f address (merge_all ops s) = Ok (Some e) ->
    A' !! (f, address) = Some e /\ verification_is_add e = true).
  { intros f e [Hf Hf0]. unfold get_verification_add.
    erewrite (get_add_at _ _ address _ m' A' Hd' (owned_store _ _ Hr)); [|reflexivity|done|reflexivity].
    simpl fid. replace (wrap 32 f) with f by (symmetry; by apply Z.mod_small). unfold add_at.
    destruct (A' !! (f, address)) as [e'|]; [|done]. simpl is_add_type. destruct (verification_is_add e') eqn:Ea; [|done].
    intros [= ->]. done. }
  destruct (Hget f1 e1 Hf1 Hget1) as [R1 A1], (Hget f2 e2 Hf2 Hget2) as [R2 A2].
  assert (f1 = f2) as <- by exact (owned_unique m' A' f1 f2 address e1 e2 Hr R1 A1 R2 A2).
  split; [done|]. split; [congruence|]. rewrite (RocksDB_get_holds _ m' _ Hd'). f_equal. by apply (owned_indexed _ _ Hr _ _ e1).
Qed.
End Claims.

(** Users 7 and 8 claim one address. *)
Definition sample_claim (f ts b : Z) : Message :=
  mkMessage (Some (mkMessageData 7 f ts 1 (Some (VerificationAddAddressBody_ (mkVerificationAddAddressBody [42]%Z [] [] 0 0 0)))))
    (repeat b HASH_LENGTH) 1 [] SIGNATURE_SCHEME_ED25519 [] None.

Lemma sample_claim_valid f ts b : (0 < f < 2 ^ 32)%Z -> (0 <= ts < 2 ^ 32)%Z -> verification_valid (sample_claim f ts b).
Proof.
  intros Hf Hts. split; [|split; [by left|]].
  - eexists _, _, MT_VerificationAddEthAddress. split; [reflexivity|]. split; [reflexivity|]. split; [done|]. split; [by left|].
    split; [done|]. split; [done|]. split; [exact Hts|]. split; [done|]. by apply message_plain_roundtrip.
  - unfold fid_of. simpl. unfold wrap. rewrite Z.mod_small by lia. lia.
Qed.

Lemma address_has_one_owner_witness :
  get_verification_add 0 8 [42]%Z (merge_all (StoreDef0 := verification_store_def 0)
    [(5%Z, sample_claim 7 10 1); (6%Z, sample_claim 8 11 2)] sample_store) = Ok (Some (sample_claim 8 11 2)) /\
  forall e, get_verification_add 0 7 [42]%Z (merge_all (StoreDef0 := verification_store_def 0)
    [(5%Z, sample_claim 7 10 1); (6%Z, sample_claim 8 11 2)] sample_store) ≠ Ok (Some e).
Proof.
  assert (E8 : get_verification_add 0 8 [42]%Z (merge_all (StoreDef0 := verification_store_def 0)
    [(5%Z, sample_claim 7 10 1); (6%Z, sample_claim 8 11 2)] sample_store) = Ok (Some (sample_claim 8 11 2))) by (vm_compute; reflexivity).
  split; [exact E8|]. intros e E7.
  destruct (address_has_one_owner 0 [(5%Z, sample_claim 7 10 1); (6%Z, sample_claim 8 11 2)] sample_store ∅ 7 8 [42]%Z e
    (sample_claim 8 11 2)) as (Hf & _).
  - apply holds_gmap.
  - intros k _. apply lookup_empty.
  - intros x. apply lookup_empty.
  - split_and!; [vm_compute; discriminate|vm_compute; reflexivity|repeat constructor; vm_compute; done].
  - intros x. simpl. rewrite list_elem_of_In. intros [<-|[<-|[]]]; apply sample_claim_valid; lia.
  - intros x y Hx Hy. rewrite list_elem_of_In in Hx, Hy.
    destruct Hx as [<-|[<-|[]]], Hy as [<-|[<-|[]]]; intros Hfe E; first [reflexivity | vm_compute in E; discriminate E].
  - split; [split; vm_compute; [discriminate|reflexivity]|discriminate].
  - split; [split; vm_compute; [discriminate|reflexivity]|discriminate].
  - exact E7.
  - exact E8.
  - discriminate Hf.
Defined.
