(* ===== verification/Migration.v ===== *)
(** * The migration of verifications

    [migrate_verifications] builds the index from addresses to users for
    stores of earlier versions, which did not have it: it goes over all
    messages of all users. *)

From S2P Require Import Prelude Util Db Proto AccountMessage Events Store StoreSpec StoreIndex VerificationStore Convergence Retention.
From S2P Require Import OwnedIndex Samples Verifications.

Section Migration.
Context {T : Type} `{TransactionDBLaws T} `{!PrefixIteration T, !PrefixIterationLaws T}
  `{!Codec Message, !Codec MessageData, !Codec HubEvent}.
Context (prune_size_limit : Z).
#[local] Instance migration_base : StoreDefBase T := VerificationStoreDef T prune_size_limit.
#[local] Instance migration_def : StoreDef T := verification_store_def prune_size_limit.
Implicit Types (m : gmap bytes bytes) (s : Store T).

(** The address that a row claims, and its user. *)
Definition claim (kv : bytes * bytes) : option (bytes * Z) :=
  if from_option (fun p => (p =? user_postfix_u8 VerificationMessage)%Z) false (kv.1 !! 5) then
    match message_decode kv.2 with
    | Ok e =>
        if verification_is_add e then
          match unwrap_body e with
          | Ok (fid, VerificationAddAddressBody_ b) => Some (vadd_address b, fid)
          | _ => None
          end
        else None
    | _ => None
    end
  else None.

Definition claims (rows : list (bytes * bytes)) : list (bytes * Z) := omap claim rows.

Definition put_claim m (c : bytes * Z) : gmap bytes bytes := <[address_row c.1 := make_fid_key c.2]> m.

(** The index rows of the claims of all users, and nothing else, are new. *)
Definition indexed m (l : list (bytes * Z)) : gmap bytes bytes := foldl put_claim m l.

Lemma claim_body e : verification_is_add e = true ->
  exists fid b, unwrap_body e = Ok (fid, VerificationAddAddressBody_ b).
Proof using Type.
  unfold verification_is_add, unwrap_body. intros [_ E]%andb_true_iff. destruct (data e) as [d|]; [|done]. simpl in E |- *.
  destruct (body d) as [[]|]; try done. simpl. eauto.
Qed.

(** One row: a claim without an index row gets one, any other row is skipped. *)
Lemma migrate_row s m key value n k :
  holds (store_db s) m -> 6 <= length key -> (0 <= k < 2 ^ 32)%Z ->
  match claim (key, value) with
  | None => migrate_callback prune_size_limit key value (mkMigration s n k) = (Ok false, mkMigration s n k)
  | Some c =>
      m !! address_row c.1 = None -> (n + 1 < 2 ^ 32)%Z ->
      exists s', migrate_callback prune_size_limit key value (mkMigration s n k) = (Ok false, mkMigration s' (n + 1) k) /\
        holds (store_db s') (put_claim m c)
  end.
Proof using Type*.
  intros Hd Hlen Hk. unfold claim, migrate_callback, index, FID_BYTES. simpl.
  destruct (lookup_lt_is_Some_2 key 5 ltac:(lia)) as [p Hp]. rewrite Hp. simpl.
  erewrite st_bind_Ok by reflexivity. destruct (p =? 4)%Z; simpl; [|done]. destruct (message_decode value) as [e| | |]; try done.
  destruct (verification_is_add e) eqn:Ea; [|done]. simpl. destruct (claim_body e Ea) as (fid & b & Eb). rewrite Eb. simpl.
  intros Hnone Hn.
  destruct (RocksDB_commit_holds (store_db s) m (Batch.put (txn (store_db s)) (address_row (vadd_address b)) (make_fid_key fid)) Hd)
    as (d' & E & Hd' & _).
  exists (set_store_db d' s). split; [|unfold txn in Hd'; by rewrite apply_batch_put, apply_batch_new in Hd'].
  assert (Et : migrate_transaction prune_size_limit s e fid (vadd_address b) =
    Ok (Batch.put (txn (store_db s)) (address_row (vadd_address b)) (make_fid_key fid), 0%Z)).
  { unfold migrate_transaction, get_or_none. rewrite (RocksDB_get_holds _ _ _ Hd).
    change (make_verification_by_address_key (vadd_address b)) with (address_row (vadd_address b)). by rewrite Hnone. }
  erewrite st_bind_Ok by reflexivity. cbv beta iota. erewrite st_bind_Ok by reflexivity.
  erewrite st_bind_Ok by (unfold st_lift; simpl; rewrite Et; reflexivity). unfold add_u. cbv beta iota. simpl.
  rewrite Z.add_0_r, (proj2 (Z.ltb_lt k _)) by lia. erewrite st_bind_Ok by reflexivity.
  rewrite (proj2 (Z.ltb_lt (n + 1) _)) by lia. erewrite st_bind_Ok by reflexivity.
  erewrite st_bind_Ok by (unfold st_lift; simpl; rewrite E; reflexivity). done.
Qed.

Lemma put_claim_other m c a : a ≠ c.1 -> put_claim m c !! address_row a = m !! address_row a.
Proof using Type. intros Hne. unfold put_claim. rewrite lookup_insert_ne; [done|]. by intros [= ?]. Qed.

Lemma indexed_other l a : a ∉ l.*1 -> forall m, indexed m l !! address_row a = m !! address_row a.
Proof using Type.
  induction l as [|c l IH]; intros Ha m; [done|]. simpl in Ha |- *. apply not_elem_of_cons in Ha as [Hc Ha].
  rewrite IH by done. by apply put_claim_other.
Qed.

Lemma indexed_lookup l a f : NoDup l.*1 -> (a, f) ∈ l -> forall m, indexed m l !! address_row a = Some (make_fid_key f).
Proof using Type.
  induction l as [|c l IH]; intros Hnd Ha m; [by apply not_elem_of_nil in Ha|]. simpl in *.
  apply NoDup_cons in Hnd as [Hc Hnd]. apply elem_of_cons in Ha as [<-|Ha]; [|by apply IH].
  rewrite (indexed_other l a Hc). apply lookup_insert_eq.
Qed.

Lemma indexed_foreign l key : (forall a, key ≠ address_row a) -> forall m, indexed m l !! key = m !! key.
Proof using Type.
  intros Hk. induction l as [|c l IH]; intros m; [done|]. simpl. rewrite IH. apply lookup_insert_ne. intros E. by apply (Hk c.1).
Qed.

Lemma claims_cons kv rows : claims (kv :: rows) = match claim kv with Some c => c :: claims rows | None => claims rows end.
Proof using Type. done. Qed.

Lemma migrate_loop rows : forall s m n k,
  holds (store_db s) m -> Forall (fun kv => 6 <= length kv.1) rows -> NoDup (claims rows).*1 ->
  (forall a, a ∈ (claims rows).*1 -> m !! address_row a = None) ->
  (0 <= n)%Z -> (n + Z.of_nat (length (claims rows)) < 2 ^ 32)%Z -> (0 <= k < 2 ^ 32)%Z ->
  exists s', prefix_loop (migrate_callback prune_size_limit) rows (mkMigration s n k) =
      (Ok tt, mkMigration s' (n + Z.of_nat (length (claims rows))) k) /\
    holds (store_db s') (indexed m (claims rows)).
Proof using Type*.
  induction rows as [|[key value] rows IH]; intros s m n k Hd Hlen Hnd Hnone Hn Hb Hk.
  { exists s. simpl. by rewrite Z.add_0_r. }
  apply Forall_cons in Hlen as [Hkey Hlen]. rewrite claims_cons in Hnd, Hnone, Hb |- *. cbn [prefix_loop].
  pose proof (migrate_row s m key value n k Hd Hkey) as Hrow.
  destruct (claim (key, value)) as [c|] eqn:Ec.
  - rewrite fmap_cons in Hnd, Hnone. cbn [length] in Hb |- *. apply NoDup_cons in Hnd as [Hc Hnd].
    destruct Hrow as (s1 & E & Hd1); [done|by apply Hnone; left|lia|].
    destruct (IH s1 (put_claim m c) (n + 1)%Z k) as (s' & E' & Hd'); [done..| |lia|lia|done|].
    { intros a Ha. rewrite put_claim_other by (by intros ->). by apply Hnone; right. }
    exists s'. rewrite (st_bind_Ok _ _ _ _ _ E). cbv beta iota. rewrite E'. split; [|done].
    f_equal. f_equal. lia.
  - destruct (IH s m n k) as (s' & E' & Hd'); [done..|]. exists s'.
    rewrite (st_bind_Ok _ _ _ _ _ (Hrow Hk)). cbv beta iota. by rewrite E'.
Qed.

(** C17. Migrating a store of an earlier version, without index rows for its
    verified addresses, no two users with the same one: every address gets a
    row with the user whose claim is stored, the answer counts the claims and
    no duplicates, and no other row changes. *)
Theorem migration_builds_index s m
    (Hd : holds (store_db s) m)
    (Hkeys : Forall (fun kv => 6 <= length kv.1) (prefix_range m [root_prefix_u8 User]))
    (Hnd : NoDup (claims (prefix_range m [root_prefix_u8 User])).*1)
    (Hnone : forall a, a ∈ (claims (prefix_range m [root_prefix_u8 User])).*1 -> m !! address_row a = None)
    (Hcount : (Z.of_nat (length (claims (prefix_range m [root_prefix_u8 User]))) < 2 ^ 32)%Z) :
  exists s', migrate_verifications prune_size_limit s =
      (Ok (Z.of_nat (length (claims (prefix_range m [root_prefix_u8 User]))), 0%Z), s') /\
    holds (store_db s') (indexed m (claims (prefix_range m [root_prefix_u8 User]))) /\
    (forall a f, (a, f) ∈ claims (prefix_range m [root_prefix_u8 User]) ->
      RocksDB_get (store_db s') (address_row a) = Ok (Some (make_fid_key f))) /\
    (forall key, (forall a, key ≠ address_row a) -> RocksDB_get (store_db s') key = RocksDB_get (store_db s) key).
Proof using Type*.
  destruct (migrate_loop (prefix_range m [root_prefix_u8 User]) s m 0 0) as (s' & E & Hd'); try done.
  exists s'. unfold migrate_verifications. rewrite (for_each_prefix_holds _ m) by done. rewrite E. split_and!; [done|done|..].
  - intros a f Ha. rewrite (RocksDB_get_holds _ _ _ Hd'). f_equal. by apply indexed_lookup.
  - intros key Hk. rewrite (RocksDB_get_holds _ _ _ Hd'), (RocksDB_get_holds _ _ _ Hd). f_equal. by apply indexed_foreign.
Qed.
End Migration.

(** ** Samples *)

(** A store of an earlier version: the rows of claims and of their set, no
    index. *)
Definition old_rows (m : gmap bytes bytes) (e : Message) : gmap bytes bytes :=
  <[make_verification_adds_key (fid_of e) (vaddress e) := ts_hash_of e]>
    (<[make_message_primary_key (fid_of e) (user_postfix_u8 VerificationMessage) (Some (ts_hash_of e)) := message_encode e]> m).

Definition old_store (l : list Message) : Store (gmap bytes bytes) :=
  mkStore (mkRocksDB (Some (foldl old_rows ∅ l)) "x") (handler_new (Some 0%Z) None None).

Lemma migration_builds_index_witness :
  (migrate_verifications 0 (old_store [sample_claim 7 10 1])).1 = Ok (1, 0)%Z /\
  RocksDB_get (store_db (migrate_verifications 0 (old_store [sample_claim 7 10 1])).2) (address_row [42]%Z) = Ok (Some (make_fid_key 7)).
Proof.
  destruct (migration_builds_index 0 (old_store [sample_claim 7 10 1]) (foldl old_rows ∅ [sample_claim 7 10 1])
    (holds_gmap _ _)) as (s' & E & _ & Hrow & _).
  - refine (bool_decide_eq_true_1 _ _). vm_compute. reflexivity.
  - refine (bool_decide_eq_true_1 _ _). vm_compute. reflexivity.
  - intros a Ha. assert (Hc : (claims (prefix_range (foldl old_rows ∅ [sample_claim 7 10 1]) [root_prefix_u8 User])).*1 = [[42]%Z])
      by (vm_compute; reflexivity). rewrite Hc in Ha. apply list_elem_of_singleton in Ha as ->. vm_compute. reflexivity.
  - vm_compute. reflexivity.
  - assert (Hc : claims (prefix_range (foldl old_rows ∅ [sample_claim 7 10 1]) [root_prefix_u8 User]) = [([42], 7)]%Z)
      by (vm_compute; reflexivity). rewrite E. rewrite Hc in Hrow |- *. split; [done|]. apply (Hrow [42]%Z 7%Z). by left.
Defined.

(** When two users claim one address, the migration deletes the message of the
    earlier claim and leaves its row in the set of adds: no lookup finds the
    claim, and merging it again, after the other user gave the address up, is
    refused as a duplicate. *)
Theorem migration_leaves_set_row :
  let before := old_store [sample_claim 7 10 1; sample_claim 8 11 2] in
  let after := (migrate_verifications 0 before).2 in
  (migrate_verifications 0 before).1 = Ok (2, 1)%Z /\
  get_verification_add 0 7 [42]%Z after = Ok None /\
  RocksDB_get (store_db after) (make_verification_adds_key 7 [42]%Z) = Ok (Some (ts_hash_of (sample_claim 7 10 1))) /\
  let removed := (revoke (StoreDef0 := verification_store_def 0) 5 (sample_claim 8 11 2) after).2 in
  (merge (StoreDef0 := verification_store_def 0) 6 (sample_claim 7 10 1) removed).1 =
    Err (mkHubError "bad_request.duplicate" "message has already been merged").
Proof. vm_compute. done. Qed.
