(* ===== verification/Usernames.v ===== *)
(** * Names proved in messages

    The username proof store against an abstract map from names to messages:
    the latest proof of a name, of whatever user, is the one that is stored,
    and its index leads from the name to that user. *)

From S2P Require Import Prelude Util Db Proto AccountMessage Events Store StoreSpec StoreIndex UsernameProofStore Convergence Retention OwnedIndex Samples.

(** The name a message proves. *)
Definition name_of (m : Message) : bytes := match proof_body m with Some b => proof_name b | None => [] end.

Definition username_body_ok (b : Body) : Prop :=
  match b with UsernameProofBody_ b => proof_name b ≠ [] | _ => False end.

Section Laws.
Context {T : Type} `{TransactionDB T} `{!PrefixIteration T} `{!Codec Message, !Codec MessageData, !Codec HubEvent}.
Context (prune_size_limit : Z).
#[local] Instance laws_def : StoreDef T := username_proof_store_def prune_size_limit.

(** A proof of a name by a user with a fid. *)
Definition username_valid (m : Message) : Prop :=
  well_formed MT_UsernameProof MT_UsernameProof username_body_ok m /\ fid_of m ≠ 0%Z.

Definition username_rank (m : Message) : list Z := default_rank false (ts_hash_of m).

Lemma username_type_law m : username_valid m ->
  is_signed_type MT_UsernameProof m = true /\ type_of m = message_type_i32 MT_UsernameProof.
Proof using Type.
  intros [(d & b & t & Hd & Hb & _ & Ht & Hty & Hs & _) _]. unfold is_signed_type, type_of. rewrite Hs, Hd, Hb, Hty.
  by destruct Ht as [-> | ->].
Qed.

Lemma username_body m : username_valid m ->
  exists b, (forall error, require_proof error m = Ok (fid_of m, b)) /\ proof_name b = name_of m /\ name_of m ≠ [].
Proof using Type.
  intros [(d & b & t & Hd & Hb & Hok & _) _]. destruct b as [| | | | | | |b| |]; try done. exists b.
  unfold require_proof, fid_of, name_of, proof_body. rewrite Hd. simpl. by rewrite Hb.
Qed.

Lemma username_key_law m : username_valid m ->
  username_proof_key m = Ok (user_row (user_postfix_u8 UserNameProofAdds) (fid_of m) (name_of m)).
Proof using Type. intros Hv. destruct (username_body m Hv) as (b & E & Hn & _). unfold username_proof_key. by rewrite E, bind_Ok_l, Hn. Qed.

Lemma username_indices_law m : username_valid m ->
  (forall t ts_hash, username_proof_build_indices t ts_hash m =
    Ok (Batch.put t (make_username_proof_by_name_key (name_of m)) (make_fid_key (fid_of m)))) /\
  (forall t ts_hash, username_proof_delete_indices t ts_hash m =
    Ok (Batch.delete t (make_username_proof_by_name_key (name_of m)))).
Proof using Type.
  intros Hv. destruct (username_body m Hv) as (b & E & Hn & Hne). unfold username_proof_build_indices, username_proof_delete_indices.
  split; intros; rewrite E, bind_Ok_l, Hn; by destruct (name_of m).
Qed.

Lemma name_row_foreign x : ~ own_key (make_username_proof_by_name_key x).
Proof using Type. by apply foreign_prefix. Qed.

#[export, refine] Instance UsernameProofStoreLaws : StoreDefLaws (T := T) := {|
  valid := username_valid;
  conflict_suffix := name_of;
  rank := username_rank;
  adds_postfix := user_postfix_u8 UserNameProofAdds;
  removes_postfix := 98;
  stale _ := False;
|}.
Proof.
  - intros m [Hw _]. by apply (well_formed_storable _ _ _ m Hw).
  - intros m Hv. left. destruct (username_type_law m Hv). done.
  - done.
  - done.
  - done.
  - exact username_key_law.
  - done.
  - done.
  - intros t m Hv _. eexists. split; [apply (username_indices_law m Hv)|]. apply put_foreign, name_row_foreign.
  - intros m t e _ Hv _. eexists. split; [apply (username_indices_law e Hv)|]. apply delete_foreign_agree, name_row_foreign.
  - intros m t e _ _. by eexists.
  - intros d m Hv. simpl. by destruct (username_type_law m Hv) as [-> _].
  - intros a b Ha Hb. simpl. destruct (username_type_law a Ha) as [_ ->], (username_type_law b Hb) as [_ ->].
    destruct Ha as [Ha _], Hb as [Hb _]. apply (default_compare_rank _ _ false false); [done|eapply well_formed_ts_hash..]; done.
  - intros a b [Ha _] [Hb _]. apply default_rank_inj; eapply well_formed_ts_hash; done.
Defined.

#[export] Instance UsernameProofStoreNoCompaction : NoCompaction (T := T).
Proof. done. Qed.

#[export, refine] Instance UsernameIndex : OwnedIndex T := {| index_row := make_username_proof_by_name_key |}.
Proof.
  - by intros x y [= ->].
  - discriminate.
  - discriminate.
  - intros t a Hv _. apply (username_indices_law a Hv).
  - intros t a Hv _. apply (username_indices_law a Hv).
  - done.
Defined.
End Laws.

Section Usernames.
Context {T : Type} `{TransactionDBLaws T} `{!PrefixIteration T} `{!Codec Message, !Codec MessageData, !Codec HubEvent}.
Context (prune_size_limit : Z).
#[local] Instance usernames_def : StoreDef T := username_proof_store_def prune_size_limit.
#[local] Instance usernames_laws : StoreDefLaws := UsernameProofStoreLaws prune_size_limit.
#[local] Instance usernames_index : OwnedIndex T := UsernameIndex prune_size_limit.
#[local] Instance usernames_no_compaction : NoCompaction := UsernameProofStoreNoCompaction prune_size_limit.
Implicit Types (a e : Message) (m : gmap bytes bytes) (s : Store T) (now id f : Z) (x : bytes).

Abbreviation live := (gmap (Z * bytes) Message).
Abbreviation names := (gmap bytes Message).

(** ** The abstract store: a map from names to messages *)
Definition name_merge (N : names) a : result HubError names :=
  match N !! name_of a with
  | None => Ok (<[name_of a := a]> N)
  | Some e =>
      match lex_compare (rank e) (rank a) with
      | Lt => Ok (<[name_of a := a]> N)
      | Eq => Err (mkHubError "bad_request.duplicate" "message has already been merged")
      | Gt => Err (mkHubError "bad_request.conflict" "message conflicts with a more recent add")
      end
  end.

(** The names of the live messages, each with one user. *)
Definition holder (A : live) x e : Prop := exists f, A !! (f, x) = Some e.

Record names_repr m (N : names) (A : live) : Prop := {
  names_owned : owned_repr m A;
  names_holder : forall x e, N !! x = Some e <-> holder A x e;
}.

Lemma live_add (A : live) m k e : owned_repr m A -> A !! k = Some e -> is_add_type e = true.
Proof using Type.
  intros [Hs _ _] He. destruct (repr_valid _ _ Hs _ _ He) as [Hv _]. change (is_signed_type MT_UsernameProof e = true).
  by apply username_type_law.
Qed.

Lemma names_index m (N : names) (A : live) x e : names_repr m N A -> N !! x = Some e ->
  valid e /\ name_of e = x /\ A !! (fid_of e, x) = Some e /\ m !! index_row x = Some (make_fid_key (fid_of e)).
Proof using Type.
  intros [Ho Hn] He. apply Hn in He as [f He]. destruct (live_key _ _ _ _ (owned_store _ _ Ho) He) as (Hv & Hf & Hx & _).
  simpl in Hf, Hx. subst f. split_and!; [done|done|done|]. apply (owned_indexed _ _ Ho _ _ e He). by apply (live_add A m _ e Ho He).
Qed.

Lemma names_absent m (N : names) (A : live) x : names_repr m N A -> N !! x = None ->
  m !! index_row x = None /\ forall f, A !! (f, x) = None.
Proof using Type.
  intros [Ho Hn] Hx. assert (HA : forall f, A !! (f, x) = None).
  { intros f. destruct (A !! (f, x)) as [e|] eqn:E; [|done]. assert (N !! x = Some e) by (apply Hn; by exists f). congruence. }
  split; [|done]. destruct (m !! index_row x) as [v|] eqn:Ev; [|done].
  destruct (owned_only _ _ Ho _ _ Ev) as (f & e & _ & He & _). by rewrite HA in He.
Qed.

#[local] Arguments vec_to_u8_24 : simpl never.

(** The conflicts: the message of the name. *)
Lemma username_conflicts_spec (d : RocksDB T) m (N : names) (A : live) a :
  holds d m -> names_repr m N A -> valid a ->
  get_merge_conflicts d a (ts_hash_of a) =
  match name_merge N a with Ok _ => Ok (option_list (N !! name_of a)) | Err e => Err e | Panic => Panic | OutOfFuel => OutOfFuel end.
Proof using Type.
  intros Hd Hr Ha. destruct (username_body a Ha) as (b & Eb & Hb & _). simpl. unfold username_proof_get_merge_conflicts.
  rewrite Eb, bind_Ok_l, Hb. unfold get_or_none. rewrite (RocksDB_get_holds d m _ Hd), bind_Ok_l. unfold name_merge.
  change (make_username_proof_by_name_key (name_of a)) with (index_row (name_of a)).
  destruct (N !! name_of a) as [e|] eqn:Ee; [|by rewrite (proj1 (names_absent _ _ _ _ Hr Ee))].
  destruct (names_index _ _ _ _ _ Hr Ee) as (Hv & Hne & HA & ->). destruct Hr as [Ho _]. pose proof (owned_store _ _ Ho) as Hs.
  rewrite read_make_fid_key by apply fid_of_is_fid. rewrite bind_Ok_l.
  rewrite (proj2 (Z.ltb_lt _ _)) by (destruct Hv as [_ ?], (fid_of_is_fid e); lia).
  assert (Hrow : m !! make_username_proof_by_fid_key (fid_of e) (name_of a) = Some (ts_hash_of e)).
  { change (make_username_proof_by_fid_key (fid_of e) (name_of a)) with (user_row adds_postfix (fid_of e) (name_of a)).
    rewrite (repr_adds _ _ Hs) by apply fid_of_is_fid. unfold adds_value. rewrite HA. by rewrite (live_add A m _ e Ho HA). }
  rewrite (RocksDB_get_holds d m _ Hd), Hrow. cbv beta iota. rewrite (vec_to_u8_24_ts_hash e Hv), bind_Ok_l.
  assert (G : get_message d (fid_of e) postfix (ts_hash_of e) = Ok (Some e)) by (apply (get_message_row d m e Hd Hv), (repr_rows _ _ Hs _ _ HA)).
  match goal with |- context [get_message d (fid_of e) ?p ?h] => change (get_message d (fid_of e) p h) with (get_message d (fid_of e) postfix h) end.
  rewrite G. cbn [unwrap]. rewrite bind_Ok_l. pose proof (compare_law e a Hv Ha) as Hcmp.
  destruct (username_type_law e Hv) as [_ Hte], (username_type_law a Ha) as [_ Hta]. rewrite Hte, Hta in Hcmp.
  match goal with |- (?c ≫= _) = _ => change c with (message_compare (message_type_i32 MT_UsernameProof) (ts_hash_of e) (message_type_i32 MT_UsernameProof) (ts_hash_of a)) end.
  rewrite Hcmp, bind_Ok_l. by destruct (lex_compare (rank e) (rank a)).
Qed.

(** ** Merging *)

(** The message of another user that a merge takes the name from. *)
Definition former_owner (N : names) a : option Message :=
  match N !! name_of a with Some e => if bool_decide (fid_of e = fid_of a) then None else Some e | None => None end.

Lemma former_owner_spec m (N : names) (A : live) a : names_repr m N A -> valid a ->
  replaced A a ++ option_list (former_owner N a) = option_list (N !! name_of a) /\ owner_replaced A a (former_owner N a).
Proof using Type.
  intros Hr Ha. pose proof Hr as [Ho Hn]. unfold replaced, former_owner. change (conflict_key a) with (fid_of a, name_of a).
  assert (Haa : is_add_type a = true) by (change (is_signed_type MT_UsernameProof a = true); by apply username_type_law).
  destruct (N !! name_of a) as [e|] eqn:Ee.
  2: { destruct (names_absent _ _ _ _ Hr Ee) as [_ HA]. rewrite HA. split; [done|]. split; [done|].
       intros _ _ f e (He & _). change (conflict_suffix a) with (name_of a) in He. by rewrite HA in He. }
  destruct (names_index _ _ _ _ _ Hr Ee) as (Hv & Hne & HA & _). pose proof (live_add A m _ e Ho HA) as Hae.
  case_bool_decide as Hf; simpl.
  - rewrite <- Hf, HA. split; [done|]. split; [done|]. intros _ _ f x (Hx & Hax & Hfx).
    apply Hfx. rewrite <- Hf. exact (owned_unique m A _ _ _ _ _ Ho Hx Hax HA Hae).
  - assert (HAa : A !! (fid_of a, name_of a) = None).
    { destruct (A !! (fid_of a, name_of a)) as [x|] eqn:Ex; [|done]. destruct Hf.
      exact (owned_unique m A _ _ _ _ _ Ho HA Hae Ex (live_add A m _ x Ho Ex)). }
    rewrite HAa. split; [done|]. split; [|done]. intros x [= <-]. split; [done|]. by split_and!.
Qed.

Lemma names_merge_repr m m' (N : names) (A : live) a : names_repr m N A -> valid a ->
  owned_repr m' (owned_merge_map A a (former_owner N a)) -> names_repr m' (<[name_of a := a]> N) (owned_merge_map A a (former_owner N a)).
Proof using Type.
  intros Hr Ha Ho'. pose proof Hr as [Ho Hn]. split; [done|]. intros x e. rewrite lookup_insert_Some. unfold holder, owned_merge_map.
  change (conflict_key a) with (fid_of a, name_of a).
  assert (Hdel : forall f, (f, x) ≠ (fid_of a, name_of a) -> name_of a ≠ x ->
    (match former_owner N a with Some y => base.delete (conflict_key y) A | None => A end) !! (f, x) = A !! (f, x)).
  { intros f _ Hx. unfold former_owner. destruct (N !! name_of a) as [y|] eqn:Ey; [|done]. case_bool_decide; [done|].
    destruct (names_index _ _ _ _ _ Hr Ey) as (_ & Hy & _). rewrite lookup_delete_ne; [done|]. unfold conflict_key. simpl. congruence. }
  split.
  - intros [[<- <-]|[Hx He]]; [exists (fid_of a); apply lookup_insert_eq|]. apply Hn in He as [f He]. exists f.
    rewrite lookup_insert_ne by congruence. rewrite Hdel by congruence. done.
  - intros [f He]. apply lookup_insert_Some in He as [[[= <- <-] <-]|[Hk He]]; [by left|].
    destruct (decide (name_of a = x)) as [<-|Hx]; [|right; split; [done|]; apply Hn; exists f; by rewrite Hdel in He by congruence].
    exfalso. assert (HA : A !! (f, name_of a) = Some e).
    { destruct (former_owner N a); [by apply lookup_delete_Some in He as [_ ?]|done]. }
    assert (Ee : N !! name_of a = Some e) by (apply Hn; by exists f). unfold former_owner in He. rewrite Ee in He.
    destruct (names_index _ _ _ _ _ Hr Ee) as (Hv & Hne & HAe & _).
    assert (fid_of e = f) as Hf by exact (owned_unique m A _ _ _ _ _ Ho HAe (live_add A m _ e Ho HAe) HA (live_add A m _ e Ho HA)).
    rewrite bool_decide_eq_false_2 in He by congruence. apply lookup_delete_Some in He as [Hd _]. apply Hd. unfold conflict_key. simpl. congruence.
Qed.

Lemma name_merge_spec now a s m (N : names) (A : live) id g :
  holds (store_db s) m -> names_repr m N A -> valid a -> (forall x e, N !! x = Some e -> no_collision a e) ->
  generate_id now None (store_event_handler s) = (Ok id, g) ->
  match name_merge N a with
  | Ok N' =>
      let event := encode_to_vec (set_event_id id (merge_event_args a (option_list (N !! name_of a)))) in
      exists s' m' A', merge now a s = (Ok event, s') /\ store_event_handler s' = g /\ holds (store_db s') m' /\
        names_repr m' N' A' /\ m' !! make_event_key id = Some event
  | Err e => merge now a s = (Err e, s)
  | _ => False
  end.
Proof using Type.
  intros Hd Hr Ha Hnc Hg. pose proof (username_conflicts_spec (store_db s) m N A a Hd Hr Ha) as Hconf.
  pose proof (compact_check_none a s) as Hcheck.
  assert (Hor : (exists err, name_merge N a = Err err) \/ name_merge N a = Ok (<[name_of a := a]> N)).
  { unfold name_merge. destruct (N !! name_of a); [destruct (lex_compare _ _)|]; eauto. }
  destruct Hor as [(err & E)|E]; rewrite E in *.
  - rewrite merge_unfold by done. erewrite st_bind_Ok by (unfold st_lift; rewrite Hcheck; reflexivity).
    unfold st_bind at 1, st_lift. by rewrite Hconf.
  - destruct (former_owner_spec m N A a Hr Ha) as [Hlist Hown]. rewrite <- Hlist in Hconf |- *.
    assert (HncA : forall k e, A !! k = Some e -> no_collision a e).
    { intros [f x] e He. apply (Hnc x). apply (names_holder _ _ _ Hr). by exists f. }
    destruct (owned_merge now a s m A _ id g Hd (names_owned _ _ _ Hr) Ha HncA Hcheck Hconf Hown Hg) as (s' & m' & Es & Hh & Hd' & Hr' & Hev).
    exists s', m', (owned_merge_map A a (former_owner N a)). split_and!; try done. by apply (names_merge_repr m).
Qed.

(** ** Runs *)

(** Every name has the greatest of the messages seen. *)
Definition latest (N : names) (seen : list Message) : Prop :=
  (forall x e, N !! x = Some e -> e ∈ seen /\ name_of e = x) /\
  (forall a, a ∈ seen -> exists e, N !! name_of a = Some e /\ bytes_le (rank a) (rank e)).

Lemma latest_merge (N : names) (seen : list Message) a : latest N seen ->
  match name_merge N a with Ok N' => latest N' (seen ++ [a]) | Err _ => latest N (seen ++ [a]) | _ => False end.
Proof using Type.
  intros [Hin Hmax]. assert (Hin' : forall x e, N !! x = Some e -> e ∈ seen ++ [a] /\ name_of e = x).
  { intros x e He. rewrite elem_of_app. destruct (Hin x e He). auto. }
  assert (Hins : (forall e, N !! name_of a = Some e -> bytes_le (rank e) (rank a)) -> latest (<[name_of a := a]> N) (seen ++ [a])).
  { intros Hle. split.
    - intros x e [[<- <-]|[_ He]]%lookup_insert_Some; [|by apply Hin']. by rewrite elem_of_app, list_elem_of_singleton; auto.
    - intros b [Hb| ->%list_elem_of_singleton]%elem_of_app; [|exists a; by rewrite lookup_insert_eq].
      destruct (Hmax b Hb) as (e & He & Hbe). destruct (decide (name_of a = name_of b)) as [Ex|Ex].
      + exists a. rewrite Ex, lookup_insert_eq. split; [done|]. etrans; [exact Hbe|]. apply Hle. by rewrite Ex.
      + exists e. by rewrite lookup_insert_ne. }
  assert (Hkeep : forall e, N !! name_of a = Some e -> bytes_le (rank a) (rank e) -> latest N (seen ++ [a])).
  { intros e He Hle. split; [done|]. intros b [Hb| ->%list_elem_of_singleton]%elem_of_app; [by apply Hmax|]. by exists e. }
  unfold name_merge. destruct (N !! name_of a) as [e|] eqn:Ee; [|by apply Hins].
  destruct (lex_compare (rank e) (rank a)) eqn:C.
  - apply (Hkeep e eq_refl). apply lex_compare_eq in C. by rewrite C.
  - apply Hins. intros y [= <-]. by apply bytes_lt_le.
  - apply (Hkeep e eq_refl). unfold bytes_le. by rewrite lex_compare_antisym, C.
Qed.

Lemma username_runs (ops : list (Z * Message)) s m (N : names) (A : live) (seen : list Message) :
  holds (store_db s) m -> names_repr m N A -> latest N seen -> clock_ready ops (store_event_handler s) ->
  (forall y : Message, y ∈ map snd ops -> valid y) -> collision_free (seen ++ map snd ops) ->
  exists m' N' A', holds (store_db (merge_all ops s)) m' /\ names_repr m' N' A' /\ latest N' (seen ++ map snd ops).
Proof using Type.
  revert s m N A seen. induction ops as [|[now a] ops IH]; intros s m N A seen Hd Hr HN Hg Hv Hc; [exists m, N, A; by rewrite app_nil_r|].
  simpl in *. destruct (clock_ready_step _ _ _ Hg) as (id & g' & Eg & Hg' & Hg0). simpl in Eg.
  assert (Hnc : forall x e, N !! x = Some e -> no_collision a e).
  { intros x e He. apply Hc; apply elem_of_app; [right; by left|left; by eapply HN]. }
  pose proof (name_merge_spec now a s m N A id g' Hd Hr (Hv a ltac:(by left)) Hnc Eg) as Hm.
  pose proof (latest_merge N seen a HN) as HN'. rewrite cons_middle, app_assoc in Hc |- *.
  destruct (name_merge N a) as [N'|err| |]; [| |done|done].
  - destruct Hm as (s' & m' & A' & -> & Hh & Hd' & Hr' & _). simpl.
    apply (IH s' m' N' A'); try done; [by rewrite Hh|]. intros y Hy. apply Hv. by right.
  - rewrite Hm. simpl. apply (IH s m N A); try done. intros y Hy. apply Hv. by right.
Qed.

Lemma names_repr_empty m : (forall k, store_row k -> m !! k = None) -> (forall x, m !! index_row x = None) -> names_repr m ∅ ∅.
Proof using Type.
  intros Hs Hx. split; [by apply owned_repr_empty|]. intros x e. split; [done|]. intros [f He]. by rewrite lookup_empty in He.
Qed.
(** ** Properties *)

(** C12. The username proof store is a map from names to messages: a message
    that is later than the one of its name replaces it, whichever users they
    belong to, and its event has the two; an earlier one is a conflict and the
    same one a duplicate, and they change nothing. *)
Theorem usernames_refine_names now a s m (N : names) (A : live) id g
    (Hd : holds (store_db s) m) (Hr : names_repr m N A) (Ha : valid a)
    (Hnc : forall x e, N !! x = Some e -> no_collision a e)
    (Hg : generate_id now None (store_event_handler s) = (Ok id, g)) :
  match name_merge N a with
  | Ok N' =>
      let event := encode_to_vec (set_event_id id (merge_event_args a (option_list (N !! name_of a)))) in
      exists s' m' A', merge now a s = (Ok event, s') /\ store_event_handler s' = g /\ holds (store_db s') m' /\
        names_repr m' N' A' /\ m' !! make_event_key id = Some event
  | Err e => merge now a s = (Err e, s)
  | _ => False
  end.
Proof. exact (name_merge_spec now a s m N A id g Hd Hr Ha Hnc Hg). Qed.

(** C16. Looking up a name finds the latest proof of it: after any run of merges
    of proofs by any users, a name that was never proved is not found, and any
    other leads to the greatest of the proofs of it that were merged, by time
    and then by hash, whatever the order of the run. *)
Theorem username_lookup_is_latest (ops : list (Z * Message)) s m (name : bytes)
    (Hd : holds (store_db s) m) (He : forall k, store_row k -> m !! k = None) (Hx : forall x, m !! make_username_proof_by_name_key x = None)
    (Hg : clock_ready ops (store_event_handler s))
    (Hv : forall y : Message, y ∈ map snd ops -> username_valid y) (Hc : collision_free (map snd ops)) :
  ((forall y : Message, y ∈ map snd ops -> name_of y ≠ name) /\
   get_username_proof_message prune_size_limit name USERNAME_TYPE_ENS_L1 (merge_all ops s) =
     Err (not_found "NotFound: Username proof not found for name {}")) \/
  exists e, e ∈ map snd ops /\ name_of e = name /\
    (forall y : Message, y ∈ map snd ops -> name_of y = name -> bytes_le (ts_hash_of y) (ts_hash_of e)) /\
    get_username_proof_message prune_size_limit name USERNAME_TYPE_ENS_L1 (merge_all ops s) = Ok (Some e).
Proof.
  assert (H0' : latest ∅ []) by (split; [by intros x e|intros y Hy; by apply elem_of_nil in Hy]).
  destruct (username_runs ops s m ∅ ∅ [] Hd (names_repr_empty m He Hx) H0' Hg Hv Hc) as (m' & N & A & Hd' & Hr & Hin & Hmax).
  simpl app in Hin, Hmax. unfold get_username_proof_message. change (negb (USERNAME_TYPE_ENS_L1 =? USERNAME_TYPE_ENS_L1)%Z) with false.
  rewrite (RocksDB_get_holds _ m' _ Hd'). change (make_username_proof_by_name_key name) with (index_row name). cbn [map_err].
  destruct (N !! name) as [e|] eqn:Ee.
  - right. destruct (names_index _ _ _ _ _ Hr Ee) as (Hve & Hne & HA & ->). exists e. destruct (Hin _ _ Ee) as [Hie _]. split_and!; [done|done| |].
    + intros y Hy Hyn. destruct (Hmax y Hy) as (e' & He' & Hle). rewrite Hyn, Ee in He'. injection He' as <-.
      apply default_rank_le; [by apply ts_hash_length, Hv|by apply ts_hash_length|exact Hle].
    + rewrite bind_Ok_l, read_make_fid_key, bind_Ok_l by apply fid_of_is_fid. pose proof (owned_store _ _ (names_owned _ _ _ Hr)) as Hs.
      assert (Hw : wrap 32 (fid_of e) = fid_of e) by (apply Z.mod_small, fid_of_is_fid).
      erewrite (get_add_at _ _ name _ m' A Hd' Hs); [|reflexivity|apply Hve|]; cbn [fid]; rewrite Hw.
      * unfold add_at. rewrite HA. by rewrite (live_add A m' _ e (names_owned _ _ _ Hr) HA).
      * simpl. unfold username_proof_key, require_proof. cbn [partial_username_proof partial_message data body fid]. rewrite Hw. done.
  - left. destruct (names_absent _ _ _ _ Hr Ee) as [-> _]. split; [|done]. intros y Hy <-.
    destruct (Hmax y Hy) as (e & He' & _). congruence.
Qed.
End Usernames.

(** ** Samples *)

(** A proof of the name "n" by a user. *)
Definition sample_name (f ts b : Z) : Message :=
  mkMessage (Some (mkMessageData (message_type_i32 MT_UsernameProof) f ts 1
      (Some (UsernameProofBody_ (mkUserNameProof 0 [110]%Z [] [] f USERNAME_TYPE_ENS_L1)))))
    (repeat b HASH_LENGTH) 1 [] SIGNATURE_SCHEME_ED25519 [] None.

Lemma sample_name_valid f ts b : (0 < f < 2 ^ 32)%Z -> (0 <= ts < 2 ^ 32)%Z -> username_valid (sample_name f ts b).
Proof.
  intros Hf Hts. split.
  - eexists _, _, MT_UsernameProof. split; [reflexivity|]. split; [reflexivity|]. split; [done|]. split; [by left|].
    split; [done|]. split; [done|]. split; [exact Hts|]. split; [done|]. by apply message_plain_roundtrip.
  - unfold fid_of. simpl. unfold wrap. rewrite Z.mod_small by lia. lia.
Qed.

(** User 8 takes the name from user 7. *)
Lemma usernames_refine_names_witness :
  exists s1 s2, merge (StoreDef0 := username_proof_store_def 0) 5 (sample_name 7 10 1) sample_store = (Ok [3%Z], s1) /\
    merge (StoreDef0 := username_proof_store_def 0) 6 (sample_name 8 11 2) s1 = (Ok [3%Z], s2) /\
    merge (StoreDef0 := username_proof_store_def 0) 7 (sample_name 7 10 1) s2 =
      (Err (mkHubError "bad_request.conflict" "message conflicts with a more recent add"), s2).
Proof.
  destruct (usernames_refine_names 0 5 (sample_name 7 10 1) sample_store ∅ ∅ ∅ (make_event_id 5 0) (mkGenerator 5 0 0))
    as (s1 & m1 & A1 & E1 & Hg1 & Hd1 & Hr1 & _).
  - apply holds_gmap.
  - apply names_repr_empty; intros; apply lookup_empty.
  - apply sample_name_valid; lia.
  - by intros x e.
  - vm_compute. reflexivity.
  - destruct (usernames_refine_names 0 6 (sample_name 8 11 2) s1 m1 _ A1 (make_event_id 6 0) (mkGenerator 6 0 0) Hd1 Hr1)
      as (s2 & m2 & A2 & E2 & Hg2 & Hd2 & Hr2 & _).
    + apply sample_name_valid; lia.
    + intros x e He. apply lookup_insert_Some in He as [[_ <-]|[_ He]]; [|by apply lookup_empty_Some in He].
      intros Ef. vm_compute in Ef. discriminate Ef.
    + rewrite Hg1. vm_compute. reflexivity.
    + exists s1, s2. split; [exact E1|]. split; [exact E2|].
      apply (usernames_refine_names 0 7 (sample_name 7 10 1) s2 m2 _ A2 (make_event_id 7 0) (mkGenerator 7 0 0) Hd2 Hr2).
      * apply sample_name_valid; lia.
      * intros x e He. apply lookup_insert_Some in He as [[_ <-]|[_ He]]; [intros Ef; vm_compute in Ef; discriminate Ef|].
        apply lookup_insert_Some in He as [[_ <-]|[_ He]]; [by intros _ _|by apply lookup_empty_Some in He].
      * rewrite Hg2. vm_compute. reflexivity.
Defined.

Lemma username_lookup_is_latest_witness :
  get_username_proof_message 0 [110]%Z USERNAME_TYPE_ENS_L1 (merge_all (StoreDef0 := username_proof_store_def 0)
    [(5%Z, sample_name 8 11 2); (6%Z, sample_name 7 10 1)] sample_store) = Ok (Some (sample_name 8 11 2)).
Proof.
  destruct (username_lookup_is_latest 0 [(5%Z, sample_name 8 11 2); (6%Z, sample_name 7 10 1)] sample_store ∅ [110]%Z)
    as [[Hnone _]|(e & He & _ & Hmax & E)].
  - apply holds_gmap.
  - intros k _. apply lookup_empty.
  - intros x. apply lookup_empty.
  - split_and!; [vm_compute; discriminate|vm_compute; reflexivity|repeat constructor; vm_compute; done].
  - intros y. simpl. rewrite list_elem_of_In. intros [<-|[<-|[]]]; apply sample_name_valid; lia.
  - intros x y Hx Hy. rewrite list_elem_of_In in Hx, Hy.
    destruct Hx as [<-|[<-|[]]], Hy as [<-|[<-|[]]]; intros Hf E; first [reflexivity | vm_compute in Hf; discriminate Hf].
  - destruct (Hnone (sample_name 8 11 2)); [by left|vm_compute; reflexivity].
  - refine (eq_trans E _). rewrite list_elem_of_In in He. destruct He as [<-|[<-|[]]]; [reflexivity|]. exfalso.
    apply (Hmax (sample_name 8 11 2)); [by left|reflexivity|vm_compute; reflexivity].
Defined.
