(* ===== verification/Links.v ===== *)
(** * Links: the laws of the store and its compact states

    The link store satisfies the laws of [StoreSpec.v]: the unpadded keys of
    earlier versions are the stale rows. Its compact states are described by
    the abstract link store: the map from conflict keys to links with a map
    from users and link types to compact states. A compact state takes the
    links of its user out that are not later than it, except for adds to its
    targets; a link earlier than the compact state of its type is refused
    unless it is an add to one of the targets. *)

From S2P Require Import Prelude Util Db Proto AccountMessage Events Store StoreSpec StoreIndex LinkStore Convergence Retention Samples.

(** ** Links *)

(** A link to a user with a type of less than eight bytes: longer types are
    refused, and those of exactly eight have the keys of earlier versions. *)
Definition link_accepts (b : Body) : Prop :=
  exists l target, b = LinkBody_ l /\ link_target l = Some target /\
    0 < length (string_bytes (link_type l)) < LINK_TYPE_BYTE_SIZE.

Definition link_valid `{!Codec Message, !Codec MessageData} (m : Message) : Prop :=
  well_formed MT_LinkAdd MT_LinkRemove link_accepts m /\ fid_of m ≠ 0%Z.

Definition link_of (m : Message) : LinkBody :=
  match data m ≫= body with Some (LinkBody_ l) => l | _ => mkLinkBody "" None None end.

Definition target_of (m : Message) : Z := default 0%Z (link_target (link_of m)).
Definition padded_type (m : Message) : bytes := pad_link_type (string_bytes (link_type (link_of m))).
Definition unpadded_suffix (m : Message) : bytes :=
  string_bytes (link_type (link_of m)) ++ make_fid_key (wrap 32 (target_of m)).

Definition link_conflict (m : Message) : bytes := padded_type m ++ make_fid_key (wrap 32 (target_of m)).
Definition link_rank (m : Message) : list Z := default_rank (is_signed_type MT_LinkRemove m) (ts_hash_of m).

(** The rows of earlier versions. *)
Definition link_stale (k : bytes) : Prop :=
  exists set f (t : bytes) target, (set = LinkAdds \/ set = LinkRemoves) /\ is_fid f /\ length t < LINK_TYPE_BYTE_SIZE /\
    k = user_row (user_postfix_u8 set) f (t ++ make_fid_key target).

Lemma length_pad_link_type t : length (pad_link_type t) = LINK_TYPE_BYTE_SIZE.
Proof. unfold pad_link_type. by rewrite length_resize. Qed.

Section Laws.
Context {T : Type} `{TransactionDB T} `{!PrefixIteration T} `{!Codec Message, !Codec MessageData, !Codec HubEvent}.
Context (prune_size_limit : Z).
#[local] Instance laws_def : StoreDef T := link_store_def prune_size_limit.

Lemma link_body m : link_valid m ->
  require_body m = Ok (fid_of m, LinkBody_ (link_of m)) /\ link_target (link_of m) = Some (target_of m) /\
  0 < length (string_bytes (link_type (link_of m))) < LINK_TYPE_BYTE_SIZE.
Proof using Type.
  intros [(d & b & t & Hd & Hb & (l & target & -> & Ht & Hl) & _) _]. unfold require_body, fid_of, target_of, link_of.
  rewrite Hd. simpl. rewrite Hb, Ht. done.
Qed.

Lemma link_key_law set error m padded : link_valid m ->
  link_key (link_set_key set error) m padded =
  Ok (user_row (user_postfix_u8 set) (fid_of m) (if padded then link_conflict m else unpadded_suffix m)).
Proof using Type.
  intros Hv. destruct (link_body m Hv) as (E & Ht & Hl). unfold link_key. rewrite E. simpl. unfold link_set_key.
  rewrite Ht. cbn [andb]. rewrite (proj2 (Nat.eqb_neq _ _)) by lia. rewrite (proj2 (Nat.ltb_ge _ _)) by lia. simpl.
  unfold user_row, link_conflict, unpadded_suffix, padded_type. by destruct padded.
Qed.

Lemma unpadded_stale set m : link_valid m -> set = LinkAdds \/ set = LinkRemoves ->
  link_stale (user_row (user_postfix_u8 set) (fid_of m) (unpadded_suffix m)).
Proof using Type.
  intros Hv Hs. destruct (link_body m Hv) as (_ & _ & _ & Hl).
  exists set, (fid_of m), (string_bytes (link_type (link_of m))), (wrap 32 (target_of m)). split_and!; [done|apply fid_of_is_fid|done|done].
Qed.

Lemma link_index_law m : link_valid m ->
  exists key r, link_index_key (ts_hash_of m) m = Ok (key, r) /\ ~ own_key key.
Proof using Type.
  intros Hv. destruct (link_body m Hv) as (E & Ht & _). destruct Hv as [Hw Hf]. unfold link_index_key. rewrite E. simpl. rewrite Ht.
  unfold links_by_target_key. rewrite (well_formed_ts_hash _ _ _ m Hw). rewrite andb_false_r.
  rewrite (proj2 (Z.eqb_neq _ _)) by done. simpl. eexists _, _. split; [done|]. apply (foreign_prefix LinksByTarget); done.
Qed.

Lemma link_types m : link_valid m ->
  (link_is_add m = true /\ link_is_remove m = false /\ type_of m = message_type_i32 MT_LinkAdd) \/
  (link_is_add m = false /\ link_is_remove m = true /\ type_of m = message_type_i32 MT_LinkRemove).
Proof using Type. intros [Hw _]. by apply (well_formed_types _ _ _ m Hw). Qed.

Lemma link_not_compact m : link_valid m -> is_signed_type MT_LinkCompactState m = false.
Proof using Type.
  intros [(d & b & t & Hd & _ & _ & Ht & Hty & _) _]. unfold is_signed_type. rewrite Hd, Hty, andb_comm. by destruct Ht as [-> | ->].
Qed.

Lemma delete_unpadded_law m t e :
  (forall k, link_stale k -> apply_batch m t !! k = None) -> link_valid e ->
  exists t', delete_unpadded_key t e = Ok t' /\ agree m t' t.
Proof using Type.
  intros Ht Hv. unfold delete_unpadded_key. destruct (link_types e Hv) as [(Ea & _)|(Ea & Er & _)]; rewrite Ea, ?Er;
    unfold make_add_key_padded, make_remove_key_padded, link_add_key, link_remove_key; rewrite link_key_law by done;
    (eexists; split; [done|]); apply delete_absent_agree, Ht, unpadded_stale; auto.
Qed.

#[export, refine] Instance LinkStoreLaws : StoreDefLaws (T := T) := {|
  valid := link_valid;
  conflict_suffix := link_conflict;
  rank := link_rank;
  adds_postfix := user_postfix_u8 LinkAdds;
  removes_postfix := user_postfix_u8 LinkRemoves;
  stale := link_stale;
|}.
Proof.
  - intros m [Hw _]. by apply (well_formed_storable _ _ _ m Hw).
  - intros m Hv. destruct (link_types m Hv) as [?|?]; naive_solver.
  - done.
  - exact link_not_compact.
  - done.
  - intros m Hv. by apply link_key_law.
  - intros m _ Hv. by apply link_key_law.
  - intros k (set & f & t & target & Hs & Hf & Hl & ->). exists (user_postfix_u8 set), f, (t ++ make_fid_key target).
    split_and!; [done|destruct Hs as [-> | ->]; auto|done|]. intros m Hv E. apply (f_equal length) in E.
    unfold link_conflict, padded_type in E. rewrite !length_app, length_pad_link_type in E. unfold make_fid_key in E. rewrite !length_be_bytes in E. lia.
  - intros t m Hv _. destruct (link_index_law m Hv) as (key & r & E & Hk). simpl. unfold link_build_indices. rewrite E. simpl.
    eexists. split; [done|]. by apply put_foreign.
  - intros m t e Ht Hv Ha. destruct (link_index_law e Hv) as (key & r & E & Hk). simpl. unfold link_delete_indices. rewrite E. simpl.
    destruct (delete_unpadded_law m t e Ht Hv) as (t' & E' & Ho). rewrite E'. simpl. eexists. split; [done|].
    rewrite <- Ho. by apply delete_foreign_agree.
  - intros m t e Ht Hv. by apply delete_unpadded_law.
  - intros d m _. simpl. by case_match.
  - intros a b [Ha _] [Hb _]. simpl. rewrite (default_type_of _ _ _ a Ha), (default_type_of _ _ _ b Hb) by done.
    apply default_compare_rank; [done|eapply well_formed_ts_hash..]; done.
  - intros a b [Ha _] [Hb _]. apply default_rank_inj; eapply well_formed_ts_hash; done.
Defined.

(** Without rows of earlier versions the conflicts are the default ones. *)
#[export] Instance LinkStoreDefault `{!TransactionDBLaws T} : DefaultConflicts (T := T).
Proof.
  intros d m a Hd Ht Hv.
  assert (Hnone : forall set ty conflict, set = LinkAdds \/ set = LinkRemoves ->
    existing_conflict d a (ts_hash_of a) ty (user_row (user_postfix_u8 set) (fid_of a) (unpadded_suffix a)) conflict = Ok []).
  { intros set ty conflict Hs. apply (existing_conflict_none d m); [done|]. by apply Ht, unpadded_stale. }
  simpl. unfold link_get_merge_conflicts. change (link_base prune_size_limit) with (@store_def_base T laws_def).
  destruct (get_default_merge_conflicts d a (ts_hash_of a)) as [l| | |]; try done. cbn [mbind result_bind].
  unfold make_add_key_padded, make_remove_key_padded, link_add_key, link_remove_key. rewrite !link_key_law by done. cbn [mbind result_bind].
  rewrite Hnone by auto. cbn [mbind result_bind]. rewrite Hnone by auto. cbn [mbind result_bind]. by rewrite !app_nil_r.
Qed.
End Laws.

(** ** Compact states *)
Definition compact_of (m : Message) : LinkCompactStateBody :=
  match data m ≫= body with Some (LinkCompactStateBody_ b) => b | _ => mkLinkCompactStateBody "" [] end.

Definition compact_valid `{!Codec Message, !Codec MessageData} (m : Message) : Prop :=
  exists d b, data m = Some d /\ body d = Some (LinkCompactStateBody_ b) /\ msg_type d = message_type_i32 MT_LinkCompactState /\
    signature_scheme m = SIGNATURE_SCHEME_ED25519 /\ length (msg_hash m) = HASH_LENGTH /\ message_decode (message_encode m) = Ok m.

(** What a compact state is stored under: its user and padded type. *)
Definition compact_key (c : Message) : Z * bytes := (fid_of c, pad_link_type (string_bytes (compact_type (compact_of c)))).

(** The compact state that a link has to agree with. *)
Definition link_compact_key (a : Message) : Z * bytes := (fid_of a, padded_type a).

Definition listed (c a : Message) : bool := link_is_add a && bool_decide (target_of a ∈ target_fids (compact_of c)).

(** The link leaves the store when the compact state comes. *)
Definition compacts (c a : Message) : bool :=
  (fid_of a =? fid_of c)%Z && (time_of a <=? time_of c)%Z && negb (listed c a).

(** The link is refused when the compact state is there. *)
Definition refused_by (a c : Message) : option HubError :=
  if (time_of a <? time_of c)%Z && negb (listed c a) then
    Some (if link_is_add a then mkHubError "bad_request.conflict" "Target fid {} not in the compact state target fids"
          else mkHubError "bad_request.prunable"
                 "Remove message earlier than the compact state message will be immediately pruned")
  else None.

Section Links.
Context {T : Type} `{TransactionDBLaws T} `{!PrefixIteration T, !PrefixIterationLaws T}
  `{!Codec Message, !Codec MessageData, !Codec HubEvent}.
Context (prune_size_limit : Z).
#[local] Instance links_def : StoreDef T := link_store_def prune_size_limit.
#[local] Instance links_laws : StoreDefLaws := LinkStoreLaws prune_size_limit.
#[local] Instance links_default : DefaultConflicts := LinkStoreDefault prune_size_limit.
Implicit Types (a c e : Message) (m : gmap bytes bytes) (s : Store T) (now id f : Z) (t : RocksDbTransactionBatch).

Abbreviation live := (gmap (Z * bytes) Message).

(** ** The abstract link store *)
Record links := mkLinks { live_links : live; compact_states : gmap (Z * bytes) Message }.

Definition compact (L : links) c : links :=
  mkLinks (filter (fun ke => compacts c ke.2 = false) (live_links L)) (<[compact_key c := c]> (compact_states L)).

Definition links_merge (L : links) a : result HubError links :=
  if is_compact_state_type a then
    match compact_states L !! compact_key a with
    | Some c =>
        if (time_of c <? time_of a)%Z then Ok (compact L a)
        else Err (mkHubError "bad_request.conflict" "A newer Compact State message is already merged")
    | None => Ok (compact L a)
    end
  else
    match compact_states L !! link_compact_key a ≫= refused_by a with
    | Some e => Err e
    | None =>
        if accepts (live_links L) a
        then Ok (mkLinks (<[conflict_key a := a]> (live_links L)) (compact_states L))
        else Err (refusal (live_links L) a)
    end.

Definition compact_row f (type : bytes) : bytes := user_row (user_postfix_u8 LinkCompactStateMessage) f type.

Record links_repr m (L : links) : Prop := {
  links_store : store_repr m (live_links L);
  links_compact : forall f type, is_fid f -> m !! compact_row f type = message_encode <$> compact_states L !! (f, type);
  links_valid : forall k c, compact_states L !! k = Some c -> compact_valid c /\ compact_key c = k;
}.

(** ** Compact states and their rows *)
Lemma compact_type_law c : compact_valid c -> is_compact_state_type c = true /\ is_add_type c = false /\ is_remove_type c = false.
Proof using Type.
  intros (d & b & Hd & Hb & Ht & Hs & _).
  change (is_signed_type MT_LinkCompactState c = true /\ is_signed_type MT_LinkAdd c = false /\ is_signed_type MT_LinkRemove c = false).
  unfold is_signed_type. by rewrite Hd, Hb, Ht, Hs.
Qed.

Lemma compact_body c : compact_valid c ->
  exists d, data c = Some d /\ timestamp d = time_of c /\ body d = Some (LinkCompactStateBody_ (compact_of c)) /\ wrap 32 (fid d) = fid_of c /\
    msg_type d = message_type_i32 MT_LinkCompactState.
Proof using Type.
  intros (d & b & Hd & Hb & Ht & _). exists d. unfold time_of, compact_of, fid_of. rewrite Hd. simpl. by rewrite Hb.
Qed.

Lemma compact_row_law c : compact_valid c -> make_compact_state_add_key c = Ok (compact_row (compact_key c).1 (compact_key c).2).
Proof using Type.
  intros Hv. destruct (compact_body c Hv) as (d & Hd & _ & Hb & Hf & _). simpl. unfold link_compact_state_key, require_body.
  by rewrite Hd, Hb, Hf.
Qed.

Lemma link_compact_row_law a : link_valid a ->
  make_compact_state_add_key a = Ok (compact_row (link_compact_key a).1 (link_compact_key a).2).
Proof using Type. intros Hv. destruct (link_body a Hv) as (E & _). simpl. unfold link_compact_state_key. by rewrite E. Qed.

Lemma compact_details c : compact_valid c ->
  read_compact_state_details c = Ok (fid_of c, time_of c, target_fids (compact_of c)).
Proof using Type.
  intros Hv. destruct (compact_body c Hv) as (d & Hd & Ht & Hb & Hf & _). unfold read_compact_state_details. by rewrite Hd, Hb, Hf, Ht.
Qed.

Lemma compact_roundtrip c : compact_valid c -> message_decode (message_encode c) = Ok c.
Proof using Type. intros (d & b & _ & _ & _ & _ & _ & Hr). done. Qed.

(** The body of a link, as the guards read it. *)
Lemma link_data a : link_valid a ->
  exists d, data a = Some d /\ timestamp d = time_of a /\ body d = Some (LinkBody_ (link_of a)) /\ link_target (link_of a) = Some (target_of a).
Proof using Type.
  intros Hv. destruct (link_body a Hv) as (_ & Ht & _). destruct Hv as [(d & b & ty & Hd & Hb & (l & target & -> & _) & _) _].
  exists d. unfold time_of. rewrite Hd. split_and!; [done|done| |done]. unfold link_of. by rewrite Hd; simpl; rewrite Hb.
Qed.

Lemma link_roundtrip a : link_valid a -> message_decode (message_encode a) = Ok a.
Proof using Type. intros [(d & b & ty & _ & _ & _ & _ & _ & _ & _ & _ & Hr) _]. exact Hr. Qed.

(** ** The guard of a link *)
Lemma compact_check_spec a s m (L : links) :
  holds (store_db s) m -> links_repr m L -> link_valid a ->
  compact_check a s = match compact_states L !! link_compact_key a ≫= refused_by a with Some e => Err e | None => Ok tt end.
Proof using Type.
  intros Hd [_ Hc Hv] Ha. destruct (link_data a Ha) as (d & Hda & Ht & Hb & Htarget).
  assert (Hget : RocksDB_get (store_db s) (compact_row (link_compact_key a).1 (link_compact_key a).2) =
    Ok (message_encode <$> compact_states L !! link_compact_key a)).
  { rewrite (RocksDB_get_holds _ m _ Hd), Hc by apply fid_of_is_fid. done. }
  unfold compact_check, check_add_compact_state, check_remove_compact_state.
  rewrite (link_compact_row_law a Ha). change compact_state_type_supported with true. cbv beta iota. rewrite !bind_Ok_l, Hget. cbn [map_err]. rewrite !bind_Ok_l.
  destruct (compact_states L !! link_compact_key a) as [c|] eqn:E; cbn [fmap option_fmap option_map mbind option_bind]; [|by case_match].
  destruct (Hv _ _ E) as [Hvc _]. rewrite (compact_roundtrip c Hvc), !bind_Ok_l, (compact_details c Hvc), !bind_Ok_l, Hda.
  cbn [unwrap]. rewrite !bind_Ok_l, Hb, Ht, Htarget. cbn [fst snd]. unfold refused_by, listed. simpl is_add_type.
  destruct (link_is_add a); cbn [andb negb]; [|by rewrite andb_true_r; case_match].
  by destruct ((time_of a <? time_of c)%Z && negb (bool_decide (target_of a ∈ target_fids (compact_of c)))).
Qed.

(** ** The links that a compact state deletes *)
Lemma compact_callback_spec c e key acc : link_valid e -> fid_of e = fid_of c ->
  compact_callback (time_of c) (target_fids (compact_of c)) key (message_encode e) acc =
  if (time_of c <? time_of e)%Z then (Ok true, acc) else (Ok false, if compacts c e then acc ++ [e] else acc).
Proof using Type.
  intros He Hf. destruct (link_data e He) as (d & Hd & Ht & Hb & Htarget). unfold compact_callback.
  erewrite st_bind_Ok by (unfold st_lift; rewrite (link_roundtrip e He); reflexivity).
  erewrite st_bind_Ok by (unfold st_lift; rewrite Hd; reflexivity). rewrite Ht, Hb, Htarget. cbv beta iota.
  destruct (Z.ltb_spec (time_of c) (time_of e)) as [Hlt|Hge]; [done|].
  unfold compacts, listed. rewrite Hf, Z.eqb_refl, (proj2 (Z.leb_le _ _)) by done. cbn [andb].
  destruct (link_types e He) as [(Ea & Er & _)|(Ea & Er & _)]; simpl is_remove_type; simpl is_add_type; rewrite Ea, ?Er; [|done].
  cbn [andb]. case_bool_decide; done.
Qed.

(** The links that are not later come first. *)
Lemma compact_loop c (E : list Message) acc :
  (forall e, e ∈ E -> link_valid e /\ fid_of e = fid_of c) -> StronglySorted (fun x y => bytes_lt (ts_hash_of x) (ts_hash_of y)) E ->
  prefix_loop (compact_callback (time_of c) (target_fids (compact_of c))) (map row_of E) acc =
  (Ok tt, acc ++ filter (fun e => compacts c e = true) E).
Proof using Type.
  intros HE Hs. revert acc. induction Hs as [|e E Hs IH Hle]; intros acc; simpl map; [by rewrite app_nil_r|].
  destruct (HE e ltac:(by left)) as [He Hf]. cbn [prefix_loop row_of]. unfold st_bind. rewrite compact_callback_spec by done.
  destruct (Z.ltb_spec (time_of c) (time_of e)) as [Hlt|Hge].
  - assert (Hnone : filter (fun e => compacts c e = true) (e :: E) = []).
    { apply elem_of_nil_inv. intros x [Hx Hin]%list_elem_of_filter. unfold compacts in Hx.
      apply andb_true_iff in Hx as [[_ Htx%Z.leb_le]%andb_true_iff _]. apply elem_of_cons in Hin as [->|Hin]; [lia|].
      rewrite Forall_forall in Hle. pose proof (ts_hash_time (H1 := links_laws) e x He (proj1 (HE x ltac:(by right))) (Hle x Hin)). lia. }
    rewrite Hnone, app_nil_r. done.
  - rewrite IH by (intros x Hx; apply HE; by right). rewrite filter_cons.
    destruct (compacts c e); case_decide; [by rewrite <- app_assoc|done..].
Qed.

(** ** Merging a link *)
Lemma compact_row_other f type p f' r : is_fid f -> is_fid f' -> p ≠ user_postfix_u8 LinkCompactStateMessage ->
  user_row p f' r ≠ compact_row f type.
Proof using Type. intros Hf Hf' Hp E. by apply user_row_inj in E as (Ep & _). Qed.

Lemma set_row_not_compact e f type : is_fid f -> set_row e ≠ compact_row f type.
Proof using Type. intros Hf. apply compact_row_other; [done|apply fid_of_is_fid|]. by destruct (is_add_type e). Qed.

Lemma primary_row_not_compact e f type : is_fid f -> primary_row e ≠ compact_row f type.
Proof using Type. intros Hf. by apply compact_row_other; [|apply fid_of_is_fid|]. Qed.

Lemma links_merge_link now a s m (L : links) id g :
  holds (store_db s) m -> links_repr m L -> link_valid a -> (forall k e, live_links L !! k = Some e -> no_collision a e) ->
  generate_id now None (store_event_handler s) = (Ok id, g) ->
  match links_merge L a with
  | Ok L' =>
      let event := encode_to_vec (set_event_id id (merge_event_args a (replaced (live_links L) a))) in
      exists s' m', merge now a s = (Ok event, s') /\ store_event_handler s' = g /\ holds (store_db s') m' /\ links_repr m' L' /\
        m' !! make_event_key id = Some event
  | Err e => merge now a s = (Err e, s)
  | _ => False
  end.
Proof using Type*.
  intros Hd Hr Ha Hnc Hg. pose proof Hr as [Hs Hc Hv]. pose proof (compact_check_spec a s m L Hd Hr Ha) as Hcheck.
  unfold links_merge. change (is_compact_state_type a) with (is_signed_type MT_LinkCompactState a).
  rewrite (link_not_compact a Ha).
  destruct (compact_states L !! link_compact_key a ≫= refused_by a) as [err|]; [by apply merge_blocked|].
  destruct (accepts (live_links L) a) eqn:Eacc; [|by apply (merge_unblocked_refused now a s m)].
  destruct (merge_unblocked_rows now a s m (live_links L) id g Hd Hs Ha Hcheck Eacc Hg) as (s' & m' & E & Hh & Hd' & Hev & Hrows).
  exists s', m'. split_and!; [done..| |done]. split; simpl; [by apply (repr_insert m)| |done].
  intros f type Hf. rewrite <- Hc by done. unfold compact_row at 1. rewrite Hrows. fold (compact_row f type).
  rewrite !lookup_insert_ne by (apply set_row_not_compact || apply primary_row_not_compact; done). apply drop_rows_ne.
  intros e _. split; [by apply set_row_not_compact|by apply primary_row_not_compact].
Qed.

(** ** Merging a compact state *)
Lemma delete_compacted m (L : links) c E :
  store_repr m (live_links L) -> oldest_first (live_links L) (fid_of c) E ->
  delete_messages (live_links L) (filter (fun e => compacts c e = true) E) = live_links (compact L c).
Proof using Type*.
  intros Hs [Hin _]. apply map_eq. intros k. apply option_eq. intros e. simpl.
  rewrite lookup_delete_messages; [|intros k' x Hx; by apply (repr_valid _ _ Hs)|intros x [_ Hx]%list_elem_of_filter; by apply Hin].
  rewrite map_lookup_filter_Some, list_elem_of_filter. simpl. destruct (compacts c e) eqn:Ec; [|naive_solver].
  split; [|naive_solver]. intros [He Hno]. destruct Hno. split; [done|]. apply Hin.
  destruct (repr_valid _ _ Hs _ _ He) as [_ <-]. split; [done|]. unfold compacts in Ec.
  by apply andb_true_iff in Ec as [[?%Z.eqb_eq _]%andb_true_iff _].
Qed.

Lemma links_after_compact m t (L : links) c E :
  links_repr m L -> compact_valid c -> oldest_first (live_links L) (fid_of c) E ->
  let row := compact_row (compact_key c).1 (compact_key c).2 in
  (forall p f r, user_row p f r ≠ row -> apply_batch m t !! user_row p f r = m !! user_row p f r) ->
  exists t', delete_many_transaction t (filter (fun e => compacts c e = true) E) = Ok t' /\
    links_repr (<[row := message_encode c]> (apply_batch m t')) (compact L c).
Proof using Type*.
  intros [Hs Hc Hv] Hvc HE row Ht. pose proof HE as [Hin Hsorted].
  assert (Hrow : forall p f r, is_fid f -> p ≠ user_postfix_u8 LinkCompactStateMessage -> user_row p f r ≠ row).
  { intros p f r Hf Hp. apply compact_row_other; [apply fid_of_is_fid|done|done]. }
  assert (HL : forall e, e ∈ filter (fun e => compacts c e = true) E -> live_links L !! conflict_key e = Some e).
  { intros e [_ He]%list_elem_of_filter. by apply Hin. }
  destruct (delete_many_spec m t (live_links L) (filter (fun e => compacts c e = true) E)) as (t' & E' & Hr' & Hother); [| |done|].
  { apply (store_repr_ext m); [done|]. intros p f r Hf Hp. apply Ht, Hrow; [done|]. by destruct Hp as [->|[->| ->]]. }
  { by apply NoDup_filter, (oldest_first_NoDup (live_links L) (fid_of c)). }
  rewrite (delete_compacted m L c E Hs HE) in Hr'. exists t'. split; [done|]. split; simpl.
  - apply (store_repr_ext (apply_batch m t')); [done|].
    intros p f r Hf Hp. apply lookup_insert_ne. symmetry. apply Hrow; [done|]. by destruct Hp as [->|[->| ->]].
  - intros f type Hf. destruct (decide (compact_key c = (f, type))) as [Ek|Ek].
    + rewrite <- Ek, lookup_insert_eq. injection Ek as <- <-. by rewrite lookup_insert_eq.
    + assert (Hne : user_row (user_postfix_u8 LinkCompactStateMessage) f type ≠ row).
      { intros E1. apply user_row_inj in E1 as (_ & E1 & E2); [|done|apply fid_of_is_fid]. apply Ek. by rewrite E1, E2. }
      rewrite (lookup_insert_ne (compact_states L)) by done. rewrite lookup_insert_ne by (intros E1; by apply Hne).
      unfold compact_row. rewrite Hother, Ht by done. apply Hc, Hf.
  - intros k x [[<- <-]|[_ Hx]]%lookup_insert_Some; [done|by apply Hv].
Qed.

(** The rows that a compact state replaces: the earlier one, which its own row
    overwrites, and the links. *)
Lemma delete_older_compact t c : compact_valid c ->
  delete_one_transaction t c = Ok (Batch.delete t (compact_row (compact_key c).1 (compact_key c).2)).
Proof using Type.
  intros Hv. destruct (compact_type_law c Hv) as (Ec & Ea & Er). unfold delete_one_transaction. rewrite Ec, Er, andb_false_r.
  unfold delete_compact_state_transaction. change compact_state_type_supported with true. cbn [negb].
  by rewrite (compact_row_law c Hv).
Qed.

Lemma merge_compact_unfold now c s : compact_valid c -> merge now c s = merge_compact_state now c s.
Proof using Type.
  intros Hv. destruct (compact_body c Hv) as (d & Hd & _). destruct (compact_type_law c Hv) as (Ec & Ea & Er).
  unfold merge. erewrite st_bind_Ok by (unfold st_lift; rewrite Hd; reflexivity). rewrite Ec, Ea, Er. simpl.
  assert (Hh : length (msg_hash c) = HASH_LENGTH) by (by destruct Hv as (? & ? & _ & _ & _ & _ & Hl & _)).
  unfold st_bind at 1, st_lift, make_ts_hash. by rewrite (proj2 (Nat.eqb_eq _ _) Hh).
Qed.

(** The earlier compact state of the type, as [merge_compact_state] reads it. *)
Lemma existing_compact_spec (L : links) c m :
  links_repr m L -> compact_valid c ->
  match message_encode <$> compact_states L !! compact_key c with
  | None => Ok []
  | Some b =>
      match message_decode b with
      | Ok existing =>
          existing_data ← unwrap (data existing);
          data ← unwrap (data c);
          if (timestamp existing_data <? timestamp data)%Z then Ok [existing]
          else Err (mkHubError "bad_request.conflict" "A newer Compact State message is already merged")
      | _ => Ok []
      end
  end =
  match compact_states L !! compact_key c with
  | None => Ok []
  | Some x => if (time_of x <? time_of c)%Z then Ok [x]
              else Err (mkHubError "bad_request.conflict" "A newer Compact State message is already merged")
  end.
Proof using Type.
  intros [_ _ Hv] Hc. destruct (compact_states L !! compact_key c) as [x|] eqn:E; [|done]. simpl.
  destruct (Hv _ _ E) as [Hx _]. rewrite (compact_roundtrip x Hx). destruct (compact_body x Hx) as (dx & Edx & Ex & _).
  destruct (compact_body c Hc) as (dc & Edc & Ec & _). by rewrite Edx, Edc, <- Ex, <- Ec.
Qed.

(** The transaction of a compact state: the earlier one of its type and the
    links it deletes go. *)
Lemma delete_compact_conflicts m (L : links) c E (d : RocksDB T) :
  links_repr m L -> compact_valid c -> oldest_first (live_links L) (fid_of c) E ->
  exists t', delete_many_transaction (txn d)
      (option_list (compact_states L !! compact_key c) ++ filter (fun e => compacts c e = true) E) = Ok t' /\
    links_repr (<[compact_row (compact_key c).1 (compact_key c).2 := message_encode c]> (apply_batch m t')) (compact L c).
Proof using Type*.
  intros Hr Hvc HE. pose proof Hr as [_ _ Hv]. destruct (compact_states L !! compact_key c) as [x|] eqn:Eo; simpl.
  - destruct (Hv _ _ Eo) as [Hx Ex]. pose proof (delete_older_compact (txn d) x Hx) as Edel. rewrite Ex in Edel.
    rewrite Edel. apply links_after_compact; try done.
    intros p f r Hne. rewrite apply_batch_delete, apply_batch_new. apply lookup_delete_ne. by intros E1; apply Hne.
  - apply links_after_compact; try done. intros p f r _. by rewrite apply_batch_new.
Qed.

Lemma links_repr_event m (L : links) id v : links_repr m L -> links_repr (<[make_event_key id := v]> m) L.
Proof using Type.
  intros [Hs Hc Hv]. split; [|intros f type Hf; rewrite <- Hc by done|done].
  - apply (store_repr_ext m); [done|]. intros p f r _ _. apply lookup_insert_ne. symmetry. apply user_row_event.
  - apply lookup_insert_ne. symmetry. apply user_row_event.
Qed.

Lemma compact_event c (conflicts : list Message) : compact_valid c -> merge_event_args c conflicts = merge_event_args c [].
Proof using Type.
  intros Hv. destruct (compact_body c Hv) as (d & Hd & _ & _ & _ & Ht). simpl. unfold default_merge_event_args. by rewrite Hd, Ht.
Qed.

(** The end of [merge_compact_state], from the earlier compact state on. *)
Lemma compact_commit now c s m (L : links) id g conflicts :
  holds (store_db s) m -> links_repr m L -> compact_valid c -> conflicts = option_list (compact_states L !! compact_key c) ->
  generate_id now None (store_event_handler s) = (Ok id, g) ->
  let event := encode_to_vec (set_event_id id (merge_event_args c [])) in
  exists s' m',
    (let! (fid, compact_state_timestamp, target_fids) := st_lift (read_compact_state_details c) in
     let (r, merge_conflicts) :=
       for_each_prefix (store_db s) (fid_prefix fid) default_page_options
         (compact_callback compact_state_timestamp target_fids) conflicts in
     let! _ := st_lift r in
     let! txn := st_lift (delete_many_transaction (txn (store_db s)) merge_conflicts) in
     let! txn := st_lift (put_add_compact_state_transaction txn c) in
     commit_with_event now txn (merge_event_args c merge_conflicts))%st s = (Ok event, s') /\
    store_event_handler s' = g /\ holds (store_db s') m' /\ links_repr m' (compact L c) /\ m' !! make_event_key id = Some event.
Proof using Type*.
  intros Hd Hr Hvc -> Hg event. pose proof Hr as [Hs _ _].
  destruct (oldest_first_exists (live_links L) m (fid_of c) Hs (fid_of_is_fid c)) as [E HE].
  erewrite st_bind_Ok by (unfold st_lift; rewrite (compact_details c Hvc); reflexivity). cbv beta iota.
  rewrite (for_each_prefix_holds _ m) by done. rewrite (oldest_first_range (live_links L) m (fid_of c) E Hs (fid_of_is_fid c) HE).
  rewrite compact_loop; [|intros e He; destruct HE as [Hin _]; apply Hin in He as [He <-]; by destruct (repr_valid _ _ Hs _ _ He)|apply HE].
  erewrite st_bind_Ok by reflexivity. destruct (delete_compact_conflicts m L c E (store_db s) Hr Hvc HE) as (t' & Et & Hr').
  erewrite st_bind_Ok by (unfold st_lift; rewrite Et; reflexivity).
  erewrite st_bind_Ok by (unfold st_lift, put_add_compact_state_transaction; rewrite (compact_row_law c Hvc); reflexivity).
  rewrite compact_event by done.
  match goal with |- context [commit_with_event now ?t ?ev] =>
    destruct (commit_with_event_spec s m now t ev id g Hd Hg) as (s' & Es & Hh & Hd') end.
  rewrite apply_batch_put in Hd'. eexists s', _. split_and!; [exact Es|done|exact Hd'| |apply lookup_insert_eq].
  by apply links_repr_event.
Qed.

Lemma links_merge_compact now c s m (L : links) id g :
  holds (store_db s) m -> links_repr m L -> compact_valid c ->
  generate_id now None (store_event_handler s) = (Ok id, g) ->
  match links_merge L c with
  | Ok L' =>
      let event := encode_to_vec (set_event_id id (merge_event_args c [])) in
      exists s' m', merge now c s = (Ok event, s') /\ store_event_handler s' = g /\ holds (store_db s') m' /\ links_repr m' L' /\
        m' !! make_event_key id = Some event
  | Err e => merge now c s = (Err e, s)
  | _ => False
  end.
Proof using Type*.
  intros Hd Hr Hvc Hg. pose proof Hr as [_ Hc _]. rewrite merge_compact_unfold by done. unfold links_merge.
  rewrite (proj1 (compact_type_law c Hvc)). unfold merge_compact_state. erewrite st_bind_Ok by reflexivity.
  erewrite st_bind_Ok by (unfold st_lift; rewrite (compact_row_law c Hvc); reflexivity).
  erewrite st_bind_Ok by (unfold st_lift; rewrite (RocksDB_get_holds _ m _ Hd), Hc by apply fid_of_is_fid; reflexivity).
  change ((compact_key c).1, (compact_key c).2) with (compact_key c). rewrite (existing_compact_spec L c m Hr Hvc).
  pose proof (fun l => compact_commit now c s m L id g l Hd Hr Hvc) as Hdone.
  destruct (compact_states L !! compact_key c) as [x|].
  - destruct (time_of x <? time_of c)%Z; [|done]. erewrite st_bind_Ok by reflexivity. by apply Hdone.
  - erewrite st_bind_Ok by reflexivity. by apply Hdone.
Qed.

(** A merge against the abstract link store. *)
Lemma links_merge_spec now a s m (L : links) id g :
  holds (store_db s) m -> links_repr m L -> link_valid a \/ compact_valid a ->
  (forall k e, live_links L !! k = Some e -> no_collision a e) ->
  generate_id now None (store_event_handler s) = (Ok id, g) ->
  match links_merge L a with
  | Ok L' =>
      let deleted := if is_compact_state_type a then [] else replaced (live_links L) a in
      let event := encode_to_vec (set_event_id id (merge_event_args a deleted)) in
      exists s' m', merge now a s = (Ok event, s') /\ store_event_handler s' = g /\ holds (store_db s') m' /\ links_repr m' L' /\
        m' !! make_event_key id = Some event
  | Err e => merge now a s = (Err e, s)
  | _ => False
  end.
Proof using Type*.
  intros Hd Hr [Ha|Ha] Hnc Hg.
  - change (is_compact_state_type a) with (is_signed_type MT_LinkCompactState a). rewrite (link_not_compact a Ha).
    exact (links_merge_link now a s m L id g Hd Hr Ha Hnc Hg).
  - rewrite (proj1 (compact_type_law a Ha)). exact (links_merge_compact now a s m L id g Hd Hr Ha Hg).
Qed.

(** Every link agrees with the compact state of its type. *)
Definition respects (L : links) : Prop :=
  forall k e c, live_links L !! k = Some e -> compact_states L !! link_compact_key e = Some c ->
    (time_of e < time_of c)%Z -> listed c e = true.

Lemma links_merge_respects (L L' : links) a :
  respects L -> link_valid a \/ compact_valid a -> links_merge L a = Ok L' ->
  respects L' /\ forall k e, live_links L' !! k = Some e -> e = a \/ live_links L !! k = Some e.
Proof using Type.
  intros HL Ha. unfold links_merge. destruct (is_compact_state_type a).
  - intros E. assert (L' = compact L a) as ->.
    { destruct (compact_states L !! compact_key a); [|by injection E]. destruct (_ <? _)%Z; [by injection E|done]. }
    split; [|intros k e [He _]%map_lookup_filter_Some; by right].
    intros k e c [He Hno]%map_lookup_filter_Some. simpl. intros [[Ek <-]|[_ Hc]]%lookup_insert_Some Ht; [|by apply (HL k e c)].
    simpl in Hno. unfold compacts in Hno. injection Ek as Ef _. rewrite <- Ef, Z.eqb_refl, (proj2 (Z.leb_le _ _)) in Hno by lia.
    by apply negb_false_iff in Hno.
  - destruct (compact_states L !! link_compact_key a ≫= refused_by a) eqn:Eref; [done|].
    destruct (accepts (live_links L) a); [|done]. intros [= <-]. unfold respects in *. split; simpl.
    + intros k e c [[_ <-]|[_ He]]%lookup_insert_Some Hc Ht; [|by apply (HL k e c)]. simpl in Hc. rewrite Hc in Eref. simpl in Eref.
      unfold refused_by in Eref. rewrite (proj2 (Z.ltb_lt _ _)) in Eref by done. by destruct (listed c a).
    + intros k e [[_ <-]|[_ He]]%lookup_insert_Some; [by left|by right].
Qed.

(** A run of merges. *)
Lemma links_runs (ops : list (Z * Message)) s m (L : links) (seen : list Message) :
  holds (store_db s) m -> links_repr m L -> respects L -> (forall k e, live_links L !! k = Some e -> e ∈ seen) ->
  clock_ready ops (store_event_handler s) ->
  (forall x : Message, x ∈ map snd ops -> link_valid x \/ compact_valid x) -> collision_free (seen ++ map snd ops) ->
  exists m' L', holds (store_db (merge_all ops s)) m' /\ links_repr m' L' /\ respects L'.
Proof using Type*.
  revert s m L seen. induction ops as [|[now a] ops IH]; intros s m L seen Hd Hr HL Hseen Hg Hv Hc; [by exists m, L|]. simpl in *.
  destruct (clock_ready_step _ _ _ Hg) as (id & g' & Eg & Hg' & Hg0). simpl in Eg.
  assert (Ha : link_valid a \/ compact_valid a) by (apply Hv; by left).
  assert (Hnc : forall k e, live_links L !! k = Some e -> no_collision a e).
  { intros k e He. apply Hc; apply elem_of_app; [right; by left|left; by eapply Hseen]. }
  pose proof (links_merge_spec now a s m L id g' Hd Hr Ha Hnc Eg) as Hm. rewrite cons_middle, app_assoc in Hc.
  destruct (links_merge L a) as [L'|err| |] eqn:E; [| |done|done].
  - destruct Hm as (s' & m' & Em & Hh & Hd' & Hr' & _). destruct (links_merge_respects L L' a HL Ha E) as [HL' Hsub].
    rewrite Em. simpl. apply (IH s' m' L' (seen ++ [a])); try done; [|by rewrite Hh|intros x Hx; apply Hv; by right].
    intros k e He. apply elem_of_app. destruct (Hsub k e He) as [->|He']; [right; by left|left; by apply (Hseen k)].
  - rewrite Hm. simpl. apply (IH s m L (seen ++ [a])); try done; [|intros x Hx; apply Hv; by right].
    intros k e He. apply elem_of_app. left. by apply (Hseen k).
Qed.

Lemma links_repr_empty m :
  (forall k, store_row k -> m !! k = None) -> (forall f type, m !! compact_row f type = None) -> links_repr m (mkLinks ∅ ∅).
Proof using Type.
  intros Hs Hc. split; [by apply store_repr_empty| |by intros k c].
  intros f type _. by rewrite Hc.
Qed.
(** ** Lookups *)

(** The key of a lookup. *)
Lemma lookup_key_law set error ty f type target padded :
  is_fid f -> 0 < length (string_bytes type) < LINK_TYPE_BYTE_SIZE ->
  link_key (link_set_key set error) (partial_link ty f type (Some target)) padded =
  Ok (user_row (user_postfix_u8 set) f ((if padded then pad_link_type (string_bytes type) else string_bytes type) ++ make_fid_key (wrap 32 target))).
Proof using Type.
  intros Hf Hl. unfold link_key, require_body. cbn [partial_link partial_message data body fid mbind result_bind].
  replace (wrap 32 f) with f by (symmetry; by apply Z.mod_small). unfold link_set_key. cbn [link_target link_type andb].
  rewrite (proj2 (Nat.eqb_neq _ _)) by lia. rewrite (proj2 (Nat.ltb_ge _ _)) by lia. done.
Qed.

Lemma unpadded_lookup s m (L : links) set error ty f type target :
  holds (store_db s) m -> links_repr m L -> set = LinkAdds \/ set = LinkRemoves ->
  is_fid f -> 0 < length (string_bytes type) < LINK_TYPE_BYTE_SIZE ->
  or_unpadded prune_size_limit (link_key (link_set_key set error)) (partial_link ty f type (Some target)) (Ok None) s = Ok None.
Proof using Type*.
  intros Hd [Hs _ _] Hset Hf Hl. unfold or_unpadded. rewrite lookup_key_law by done. cbn [mbind result_bind].
  rewrite (RocksDB_get_holds _ m _ Hd). rewrite (repr_tidy m _ Hs); [done|]. exists set, f, (string_bytes type), (wrap 32 target).
  split_and!; done || lia.
Qed.

(** The links that a lookup answers are live. *)
Lemma get_link_live s m (L : links) f type target e :
  holds (store_db s) m -> links_repr m L -> is_fid f -> f ≠ 0%Z -> 0 < length (string_bytes type) < LINK_TYPE_BYTE_SIZE ->
  let k := (f, pad_link_type (string_bytes type) ++ make_fid_key (wrap 32 target)) in
  (get_link_add prune_size_limit f type (Some target) s = Ok (Some e) -> live_links L !! k = Some e /\ link_is_add e = true) /\
  (get_link_remove prune_size_limit f type (Some target) s = Ok (Some e) -> live_links L !! k = Some e /\ link_is_add e = false).
Proof using Type*.
  intros Hd Hr Hf Hf0 Hl k. pose proof Hr as [Hs _ _]. assert (Hw : wrap 32 f = f) by (by apply Z.mod_small).
  assert (Hget : forall ty, data (partial_link ty f type (Some target)) =
    Some (mkMessageData (message_type_i32 ty) f 0 0 (Some (LinkBody_ (mkLinkBody type None (Some target)))))) by done.
  assert (Hsup : remove_type_supported = true) by done. split; intros E.
  - unfold get_link_add in E. change (link_base prune_size_limit) with (@store_def_base T links_def) in E.
    rewrite (get_add_at _ _ k.2 s m (live_links L) Hd Hs (Hget _) Hf0) in E.
    2: { cbn [fid]. rewrite Hw. by apply lookup_key_law. }
    cbn [fid] in E. rewrite Hw in E. change (f, k.2) with k in E. unfold add_at in E. destruct (live_links L !! k) as [x|] eqn:Ex.
    + change (is_add_type x) with (link_is_add x) in E. destruct (link_is_add x) eqn:Ea; [by injection E as <-|].
      unfold make_add_key_padded, link_add_key in E. by rewrite (unpadded_lookup s m L) in E by auto.
    + unfold make_add_key_padded, link_add_key in E. by rewrite (unpadded_lookup s m L) in E by auto.
  - unfold get_link_remove in E. change (link_base prune_size_limit) with (@store_def_base T links_def) in E.
    rewrite (get_remove_at _ _ k.2 s m (live_links L) Hsup Hd Hs (Hget _) Hf0) in E.
    2: { cbn [fid]. rewrite Hw. by apply lookup_key_law. }
    cbn [fid] in E. rewrite Hw in E. change (f, k.2) with k in E. unfold remove_at in E. destruct (live_links L !! k) as [x|] eqn:Ex.
    + change (is_add_type x) with (link_is_add x) in E. destruct (link_is_add x) eqn:Ea; [|by injection E as <-].
      unfold make_remove_key_padded, link_remove_key in E. by rewrite (unpadded_lookup s m L) in E by auto.
    + unfold make_remove_key_padded, link_remove_key in E. by rewrite (unpadded_lookup s m L) in E by auto.
Qed.

(** ** Properties *)

(** C10. The link store does what the abstract link store does: a compact state
    newer than the one of its type takes its place and deletes the links of its
    user, of all types, that are not later than it and no adds to its targets;
    a link that the compact state of its type excludes is refused with the
    error of its kind; any other link is merged as the last writer wins. A
    refused message changes nothing. *)
Theorem merge_refines_links now a s m (L : links) id g
    (Hd : holds (store_db s) m) (Hr : links_repr m L) (Ha : link_valid a \/ compact_valid a)
    (Hnc : forall k e, live_links L !! k = Some e -> no_collision a e)
    (Hg : generate_id now None (store_event_handler s) = (Ok id, g)) :
  match links_merge L a with
  | Ok L' =>
      let deleted := if is_compact_state_type a then [] else replaced (live_links L) a in
      let event := encode_to_vec (set_event_id id (merge_event_args a deleted)) in
      exists s' m', merge now a s = (Ok event, s') /\ store_event_handler s' = g /\ holds (store_db s') m' /\ links_repr m' L' /\
        m' !! make_event_key id = Some event
  | Err e => merge now a s = (Err e, s)
  | _ => False
  end.
Proof. exact (links_merge_spec now a s m L id g Hd Hr Ha Hnc Hg). Qed.

(** C11. Compact states are respected: after any run of merges of links and
    compact states, in any order, a stored link that is earlier than the stored
    compact state of its user and type is an add to one of its targets. *)
Theorem compact_states_respected (ops : list (Z * Message)) s m (f : Z) (type : string) (target : Z) e c
    (Hd : holds (store_db s) m) (He : forall k, store_row k -> m !! k = None)
    (Hce : forall f type, m !! compact_row f type = None)
    (Hg : clock_ready ops (store_event_handler s))
    (Hv : forall x : Message, x ∈ map snd ops -> link_valid x \/ compact_valid x) (Hc : collision_free (map snd ops))
    (Hf : is_fid f /\ f ≠ 0%Z) (Hl : 0 < length (string_bytes type) < LINK_TYPE_BYTE_SIZE)
    (Hlink : get_link_add prune_size_limit f type (Some target) (merge_all ops s) = Ok (Some e) \/
             get_link_remove prune_size_limit f type (Some target) (merge_all ops s) = Ok (Some e))
    (Hcv : compact_valid c)
    (Hcompact : RocksDB_get (store_db (merge_all ops s)) (link_compact_state_add_key f type) = Ok (Some (message_encode c)))
    (Ht : (time_of e < time_of c)%Z) :
  link_is_add e = true /\ target_of e ∈ target_fids (compact_of c).
Proof.
  destruct (links_runs ops s m (mkLinks ∅ ∅) [] Hd (links_repr_empty m He Hce)) as (m' & L & Hd' & Hr & HL); try done.
  destruct Hf as [Hf Hf0]. pose proof (get_link_live _ m' L f type target e Hd' Hr Hf Hf0 Hl) as [Hadd Hrem].
  assert (Hlive : live_links L !! (f, pad_link_type (string_bytes type) ++ make_fid_key (wrap 32 target)) = Some e).
  { destruct Hlink as [E|E]; [by apply Hadd|by apply Hrem]. }
  rewrite (RocksDB_get_holds _ m' _ Hd') in Hcompact. injection Hcompact as Hcompact.
  pose proof (links_compact _ _ Hr f (pad_link_type (string_bytes type)) Hf) as Hrow.
  change (compact_row f (pad_link_type (string_bytes type))) with (link_compact_state_add_key f type) in Hrow. rewrite Hcompact in Hrow.
  symmetry in Hrow. apply fmap_Some in Hrow as (c' & Ec & Eenc). destruct (links_valid _ _ Hr _ _ Ec) as [Hcv' _].
  assert (c' = c) as ->. { pose proof (compact_roundtrip c Hcv) as R1. rewrite Eenc, (compact_roundtrip c' Hcv') in R1. by injection R1. }
  destruct (repr_valid _ _ (links_store _ _ Hr) _ _ Hlive) as [_ Hk]. injection Hk as Hfe Hse.
  apply app_inj_1 in Hse as [Hp _]; [|by unfold padded_type; rewrite !length_pad_link_type].
  assert (Hlisted : listed c e = true).
  { apply (HL _ _ _ Hlive); [|done]. unfold link_compact_key. by rewrite Hfe, Hp. }
  apply andb_true_iff in Hlisted as [Ha Hin%bool_decide_eq_true]. done.
Qed.
End Links.

(** ** Samples *)
Definition sample_follow (type : MessageType) (ts b target : Z) : Message :=
  sample_message (message_type_i32 type) ts b (LinkBody_ (mkLinkBody "follow" None (Some target))).
Definition sample_compact (ts b : Z) (targets : list Z) : Message :=
  sample_message (message_type_i32 MT_LinkCompactState) ts b (LinkCompactStateBody_ (mkLinkCompactStateBody "follow" targets)).

Lemma sample_follow_valid type ts b target :
  type = MT_LinkAdd \/ type = MT_LinkRemove -> (0 <= ts < 2 ^ 32)%Z -> link_valid (sample_follow type ts b target).
Proof.
  intros Ht Hts. split; [|vm_compute; discriminate]. apply sample_well_formed; [done| |done].
  eexists _, _. split; [reflexivity|]. split; [reflexivity|]. vm_compute. lia.
Qed.

Lemma sample_compact_valid ts b targets : compact_valid (sample_compact ts b targets).
Proof. eexists _, _. split_and!; [reflexivity..|by apply message_plain_roundtrip]. Qed.

(** A compact state with target 9 deletes the link to 8 and keeps the one to 9. *)
Lemma merge_refines_links_witness :
  exists s1 s2 s3 m, merge (StoreDef0 := link_store_def 0) 5 (sample_follow MT_LinkAdd 10 1 8) sample_store = (Ok [0; 0]%Z, s1) /\
    merge (StoreDef0 := link_store_def 0) 6 (sample_follow MT_LinkAdd 11 2 9) s1 = (Ok [0; 0]%Z, s2) /\
    merge (StoreDef0 := link_store_def 0) 7 (sample_compact 20 3 [9%Z]) s2 = (Ok [0; 0]%Z, s3) /\
    holds (store_db s3) m /\
    m !! compact_row 7 (pad_link_type (string_bytes "follow")) = Some (message_encode (sample_compact 20 3 [9%Z])).
Proof.
  destruct (merge_refines_links 0 5 (sample_follow MT_LinkAdd 10 1 8) sample_store ∅ (mkLinks ∅ ∅) (make_event_id 5 0) (mkGenerator 5 0 0))
    as (s1 & m1 & E1 & Hg1 & Hd1 & Hr1 & _).
  - apply holds_gmap.
  - apply links_repr_empty; intros; apply lookup_empty.
  - left. apply sample_follow_valid; [by left|lia].
  - by intros k e.
  - vm_compute. reflexivity.
  - destruct (merge_refines_links 0 6 (sample_follow MT_LinkAdd 11 2 9) s1 m1 _ (make_event_id 6 0) (mkGenerator 6 0 0) Hd1 Hr1)
      as (s2 & m2 & E2 & Hg2 & Hd2 & Hr2 & _).
    + left. apply sample_follow_valid; [by left|lia].
    + intros k e He. cbn [live_links] in He. apply lookup_insert_Some in He as [[_ <-]|[_ He]]; [|by apply lookup_empty_Some in He].
      intros _ Ets. vm_compute in Ets. discriminate Ets.
    + rewrite Hg1. vm_compute. reflexivity.
    + destruct (merge_refines_links 0 7 (sample_compact 20 3 [9%Z]) s2 m2 _ (make_event_id 7 0) (mkGenerator 7 0 0) Hd2 Hr2)
        as (s3 & m3 & E3 & _ & Hd3 & Hr3 & _).
      * right. apply sample_compact_valid.
      * intros k e He. cbn [live_links] in He. apply lookup_insert_Some in He as [[_ <-]|[_ He]]; [intros _ Ets; vm_compute in Ets; discriminate Ets|].
        apply lookup_insert_Some in He as [[_ <-]|[_ He]]; [intros _ Ets; vm_compute in Ets; discriminate Ets|].
        by apply lookup_empty_Some in He.
      * rewrite Hg2. vm_compute. reflexivity.
      * exists s1, s2, s3, m3. split; [exact E1|]. split; [exact E2|]. split; [exact E3|]. split; [exact Hd3|].
        rewrite (links_compact _ _ _ Hr3); [vm_compute; reflexivity|split; vm_compute; done].
Defined.

(** The link to 9 comes after the compact state that lists 9, with an earlier
    time. *)
Lemma compact_states_respected_witness :
  let ops := [(5%Z, sample_follow MT_LinkAdd 10 1 8); (6%Z, sample_compact 20 3 [9%Z]); (7%Z, sample_follow MT_LinkAdd 11 2 9)] in
  let s := merge_all (StoreDef0 := link_store_def 0) ops sample_store in
  get_link_add 0 7 "follow" (Some 8%Z) s = Ok None /\
  get_link_add 0 7 "follow" (Some 9%Z) s = Ok (Some (sample_follow MT_LinkAdd 11 2 9)) /\
  target_of (sample_follow MT_LinkAdd 11 2 9) ∈ target_fids (compact_of (sample_compact 20 3 [9%Z])).
Proof.
  intros ops s. assert (Hget : get_link_add 0 7 "follow" (Some 9%Z) s = Ok (Some (sample_follow MT_LinkAdd 11 2 9))) by (vm_compute; reflexivity).
  split; [vm_compute; reflexivity|]. split; [exact Hget|].
  eapply (compact_states_respected 0 ops sample_store ∅ 7 "follow" 9 (sample_follow MT_LinkAdd 11 2 9) (sample_compact 20 3 [9%Z])).
  - apply holds_gmap.
  - intros k _. apply lookup_empty.
  - intros f type. apply lookup_empty.
  - split_and!; [vm_compute; discriminate|vm_compute; reflexivity|repeat constructor; vm_compute; done].
  - intros x. simpl. rewrite list_elem_of_In.
    intros [<-|[<-|[<-|[]]]]; [left; apply sample_follow_valid; [by left|lia]|right; apply sample_compact_valid|left; apply sample_follow_valid; [by left|lia]].
  - intros x y Hx Hy. rewrite list_elem_of_In in Hx, Hy.
    destruct Hx as [<-|[<-|[<-|[]]]], Hy as [<-|[<-|[<-|[]]]]; intros _ E; first [reflexivity | vm_compute in E; discriminate E].
  - split; [split; vm_compute; [discriminate|reflexivity]|discriminate].
  - vm_compute. lia.
  - left. exact Hget.
  - apply sample_compact_valid.
  - vm_compute. reflexivity.
  - vm_compute. reflexivity.
Defined.

(** Compact states do not converge, even when all times are apart: a removed
    link that a later compact state lists stays away when the messages come in
    the order of their times, and is back when the compact state comes first,
    because the earlier remove is then refused. *)
Theorem compaction_depends_on_order :
  let add := sample_follow MT_LinkAdd 10 1 9 in
  let remove := sample_follow MT_LinkRemove 11 2 9 in
  let compact := sample_compact 20 3 [9%Z] in
  let run ops := get_link_add 0 7 "follow" (Some 9%Z) (merge_all (StoreDef0 := link_store_def 0) ops sample_store) in
  run [(5%Z, add); (6%Z, remove); (7%Z, compact)] = Ok None /\
  run [(5%Z, compact); (6%Z, add); (7%Z, remove)] = Ok (Some add).
Proof. split; vm_compute; reflexivity. Qed.
