(* ===== verification/ContentTheorems.v ===== *)
(** * Theorems on messages, casts, links and reactions

    The stored form of messages and the order of their keys; what sets the
    single stores apart: removes of casts win, links with types of eight bytes
    and targets that extend each other are handled wrongly. *)

From S2P Require Import Prelude Util Db Proto AccountMessage Events Store StoreSpec StoreIndex ReactionStore CastStore LinkStore Convergence Samples.

(** ** Messages *)

(** A message is read back as it was stored, with the original bytes of
    its data or without: the decoded data is dropped when the bytes are stored
    and restored from them. *)
Theorem message_store_roundtrip `{CodecLaw Message, CodecLaw MessageData} (m : Message)
    (Hm : forall b, data_bytes m = Some b -> b ≠ [] -> exists d, data m = Some d /\ decode b = Ok d) :
  message_decode (message_encode m) = Ok m.
Proof.
  unfold message_encode, has_data_bytes. destruct (data_bytes m) as [[|z b]|] eqn:Eb; simpl.
  - unfold message_decode. rewrite decode_encode, Eb. simpl. by destruct (data m).
  - destruct (Hm (z :: b) eq_refl) as (d & Hd & Hdec); [done|]. unfold message_decode. rewrite decode_encode. simpl.
    rewrite Eb. simpl. rewrite Hdec. f_equal. destruct m; simpl in *. by subst.
  - unfold message_decode. rewrite decode_encode, Eb. by destruct (data m).
Qed.

Lemma message_store_roundtrip_witness :
  let d := mkMessageData 1 7 10 1 None in
  message_decode (message_encode (mkMessage (Some d) [] 1 [] 1 [] (Some (encode_to_vec d)))) =
    Ok (mkMessage (Some d) [] 1 [] 1 [] (Some (encode_to_vec d))).
Proof.
  intros d. refine (@message_store_roundtrip _ (countable_codec_law Message) _ (countable_codec_law MessageData) _ _).
  intros b Hb _. exists d. split; [reflexivity|]. injection Hb as <-. apply (countable_codec_law MessageData).
Defined.

(** The messages of a user and kind are stored in the order of time: the
    rows are ordered by timestamp and then by hash, and the timestamp and the
    hash can be read off the key. *)
Theorem message_keys_by_time (f set t1 t2 : Z) (h1 h2 k1 k2 : bytes)
    (Ht1 : (0 <= t1 < 2 ^ 32)%Z) (Ht2 : (0 <= t2 < 2 ^ 32)%Z)
    (Hh1 : make_ts_hash t1 h1 = Ok k1) (Hh2 : make_ts_hash t2 h2 = Ok k2) :
  (bytes_lt (make_message_primary_key f set (Some k1)) (make_message_primary_key f set (Some k2)) <->
    (t1 < t2)%Z \/ (t1 = t2 /\ bytes_lt h1 h2)) /\
  unpack_ts_hash k1 = (t1, h1).
Proof.
  assert (Hk : forall t h k, make_ts_hash t h = Ok k -> k = be_bytes 4 t ++ h /\ length h = 20).
  { intros t h k. unfold make_ts_hash. destruct (length h =? HASH_LENGTH) eqn:E; [|done]. apply Nat.eqb_eq in E.
    intros [= <-]. split; [|done]. f_equal. by rewrite firstn_all2 by (rewrite E; done). }
  destruct (Hk _ _ _ Hh1) as [-> Hl1], (Hk _ _ _ Hh2) as [-> Hl2]. split.
  - unfold bytes_lt, make_message_primary_key. rewrite !lex_compare_app_l.
    rewrite lex_compare_app by by rewrite !length_be_bytes.
    rewrite lex_compare_be_value by (apply be_bytes_is_bytes || by rewrite !length_be_bytes).
    rewrite !be_value_be_bytes by (change (256 ^ Z.of_nat 4)%Z with (2 ^ 32)%Z; lia).
    destruct (Z.compare_spec t1 t2) as [->|Hlt|Hgt].
    + split; [tauto|]. intros [?|[_ ?]]; [lia|done].
    + split; [tauto|done].
    + split; [done|]. intros [?|[? _]]; lia.
  - unfold unpack_ts_hash. rewrite take_app_length', drop_app_length' by by rewrite length_be_bytes.
    rewrite firstn_all2 by lia. by rewrite be_value_be_bytes by (change (256 ^ Z.of_nat 4)%Z with (2 ^ 32)%Z; lia).
Qed.

Lemma message_keys_by_time_witness :
  bytes_lt (make_message_primary_key 7 1 (Some (be_bytes 4 255 ++ repeat 9%Z 20)))
    (make_message_primary_key 7 1 (Some (be_bytes 4 256 ++ repeat 1%Z 20))).
Proof.
  apply (message_keys_by_time 7 1 255 256 (repeat 9%Z 20) (repeat 1%Z 20)).
  - lia.
  - lia.
  - reflexivity.
  - reflexivity.
  - left. lia.
Defined.

(** ** Casts *)
Section Casts.
Context {T : Type} `{TransactionDBLaws T} `{!PrefixIteration T} `{!Codec Message, !Codec MessageData, !Codec HubEvent}.
Context (limit : Z).
#[local] Instance cast_def : StoreDef T := cast_store_def limit.
#[local] Instance cast_laws : StoreDefLaws := CastStoreLaws limit.
#[local] Instance cast_default : DefaultConflicts := CastStoreDefault limit.
#[local] Instance cast_no_compaction : NoCompaction := CastStoreNoCompaction limit.

(** The message removes the cast of this hash. *)
Definition removes_cast (f : Z) (h : bytes) (r : Message) : Prop :=
  is_signed_type MT_CastRemove r = true /\ unwrap_body r = Ok (f, CastRemoveBody_ (mkCastRemoveBody h)).

(** C22. A removed cast stays removed: once a remove of a cast is merged, no
    add, whatever its time and whether merged before or after, brings the cast
    back. *)
Theorem cast_remove_wins (ops : list (Z * Message)) (s : Store T) (m : gmap bytes bytes) (f : Z) (h : bytes) (r : Message)
    (Hd : holds (store_db s) m) (He : forall k, store_row k -> m !! k = None)
    (Hg : clock_ready ops (store_event_handler s))
    (Hv : forall x, x ∈ map snd ops -> cast_valid x) (Hc : collision_free (map snd ops))
    (Hr : r ∈ map snd ops) (Hrem : removes_cast f h r) (Hf : is_fid f) (Hf0 : f ≠ 0%Z) :
  get_cast_add limit f h (merge_all ops s) = Ok None /\
  exists r', r' ∈ map snd ops /\ is_signed_type MT_CastRemove r' = true /\
    get_cast_remove limit f h (merge_all ops s) = Ok (Some r').
Proof.
  destruct (merge_all_repr ops s m ∅ [] Hd (store_repr_empty _ He) greatest_of_nil Hg Hv Hc) as (m' & Hd' & Hrepr).
  pose proof (greatest_of_merges ∅ [] (map snd ops) greatest_of_nil) as [Hin Hmax].
  set (A := foldl lww_merge ∅ (map snd ops)) in *. destruct Hrem as [Hrem Hbody].
  assert (Hw : wrap 32 f = f) by (by apply Z.mod_small).
  assert (Hkey : conflict_key r = (f, cast_suffix h)).
  { destruct (cast_unwrap r (Hv r Hr)) as (b & E & _). unfold conflict_key. simpl. unfold cast_conflict.
    rewrite Hbody in E |- *. by injection E as <- <-. }
  destruct (Hmax r Hr) as (e & Ee & Hle). rewrite Hkey in Ee. destruct (Hin _ _ Ee) as [Hie _].
  assert (Hre : is_signed_type MT_CastRemove e = true).
  { unfold bytes_le in Hle. simpl in Hle. unfold cast_rank in Hle. rewrite Hrem in Hle.
    by destruct (is_signed_type MT_CastRemove e). }
  assert (Hae : is_signed_type MT_CastAdd e = false).
  { destruct (well_formed_types _ _ _ e (Hv e Hie)) as [(_ & Hx & _)|(Hx & _)]; [done|by rewrite Hre in Hx|done]. }
  split.
  - unfold get_cast_add. erewrite (get_add_at _ _ (cast_suffix h) _ m' A Hd' Hrepr); [|reflexivity|done|reflexivity].
    simpl fid. rewrite Hw. unfold add_at. rewrite Ee. simpl. by rewrite Hae.
  - exists e. split_and!; [done..|]. unfold get_cast_remove.
    erewrite (get_remove_at (StoreDef0 := cast_def) _ _ (cast_suffix h) _ m' A (eq_refl true) Hd' Hrepr); [|reflexivity|done|reflexivity].
    simpl fid. rewrite Hw. unfold remove_at. rewrite Ee. simpl. by rewrite Hae.
Qed.
End Casts.

Definition sample_cast : Message := sample_message 1 20 1 (CastAddBody_ default_cast_add_body).
Definition sample_cast_remove : Message := sample_message 2 10 2 (CastRemoveBody_ (mkCastRemoveBody (repeat 1%Z 20))).

Lemma sample_cast_valid x : x ∈ [sample_cast; sample_cast_remove] -> cast_valid x.
Proof.
  rewrite list_elem_of_In. intros [<-|[<-|[]]].
  - apply (sample_well_formed _ _ _ MT_CastAdd); [by left|done|lia].
  - apply (sample_well_formed _ _ _ MT_CastRemove); [by right|done|lia].
Qed.

Lemma cast_remove_wins_witness :
  get_cast_add 0 7 (repeat 1%Z 20) (merge_all (StoreDef0 := cast_store_def 0)
    [(5%Z, sample_cast_remove); (6%Z, sample_cast)] sample_store) = Ok None.
Proof.
  destruct (cast_remove_wins 0 [(5%Z, sample_cast_remove); (6%Z, sample_cast)] sample_store ∅ 7 (repeat 1%Z 20)
    sample_cast_remove) as [E _].
  - apply holds_gmap.
  - intros k _. apply lookup_empty.
  - split_and!; [vm_compute; discriminate|vm_compute; reflexivity|repeat constructor; vm_compute; done].
  - intros x Hx. apply sample_cast_valid. revert Hx. simpl. rewrite !list_elem_of_In. simpl. tauto.
  - intros x y Hx Hy. rewrite list_elem_of_In in Hx, Hy.
    destruct Hx as [<-|[<-|[]]], Hy as [<-|[<-|[]]]; intros _ E; first [reflexivity | vm_compute in E; discriminate E].
  - by left.
  - split; vm_compute; reflexivity.
  - split; vm_compute; [discriminate|reflexivity].
  - discriminate.
  - exact E.
Defined.

(** ** Links *)

(** A link type of exactly eight bytes makes every conflict count twice:
    the unpadded keys that are checked for links of earlier versions are then
    the padded ones, so the message that a merge replaces is listed twice, in
    the transaction and in the event. *)
Theorem link_type_of_8_bytes_conflicts_twice {T : Type} `{TransactionDB T} `{!PrefixIteration T}
    `{!Codec Message, !Codec MessageData, !Codec HubEvent} (limit : Z) (d : RocksDB T) (a : Message) (ts_hash : bytes)
    (da : MessageData) (b : LinkBody) (Hd : data a = Some da) (Hb : body da = Some (LinkBody_ b))
    (Hl : length (string_bytes (link_type b)) = LINK_TYPE_BYTE_SIZE) :
  get_merge_conflicts (StoreDef := link_store_def limit) d a ts_hash =
  (conflicts ← get_default_merge_conflicts (StoreDefBase0 := LinkStoreDef T limit) d a ts_hash; Ok (conflicts ++ conflicts)).
Proof.
  assert (Hpad : pad_link_type (string_bytes (link_type b)) = string_bytes (link_type b)).
  { unfold pad_link_type. by rewrite <- Hl, resize_all. }
  assert (Hr : make_remove_key_padded a true = make_remove_key_padded a false).
  { unfold make_remove_key_padded, link_key, require_body. rewrite Hd, Hb. simpl. unfold link_remove_key, link_set_key. by rewrite Hpad. }
  assert (Ha : make_add_key_padded a true = make_add_key_padded a false).
  { unfold make_add_key_padded, link_key, require_body. rewrite Hd, Hb. simpl. unfold link_add_key, link_set_key. by rewrite Hpad. }
  simpl. unfold link_get_merge_conflicts, get_default_merge_conflicts. simpl. rewrite Hr, Ha.
  replace (if link_is_add a then Ok tt else Ok tt) with (Ok (E := HubError) tt) by (by destruct (link_is_add a)). simpl.
  destruct (make_remove_key_padded a false) as [rk| | |]; simpl; try done.
  destruct (existing_conflict _ _ _ _ rk _) as [rs| | |]; simpl; try done.
  destruct (make_add_key_padded a false) as [ak| | |]; simpl; try done.
  by destruct (existing_conflict _ _ _ _ ak _).
Qed.

Definition sample_link (ts b : Z) (type : string) : Message :=
  sample_message 5 ts b (LinkBody_ (mkLinkBody type None (Some 9%Z))).

(** The event of the second of two links has the first one twice. *)
Lemma link_type_of_8_bytes_conflicts_twice_witness :
  get_merge_conflicts (StoreDef := link_store_def 0)
    (store_db (merge_all (StoreDef0 := link_store_def 0) [(5%Z, sample_link 10 1 "endorsed")] sample_store))
    (sample_link 11 2 "endorsed") (ts_hash_of (sample_link 11 2 "endorsed")) =
  Ok [sample_link 10 1 "endorsed"; sample_link 10 1 "endorsed"].
Proof.
  erewrite (link_type_of_8_bytes_conflicts_twice 0 _ (sample_link 11 2 "endorsed")); [|reflexivity|reflexivity|reflexivity].
  vm_compute. reflexivity.
Defined.

(** A compact state of one link type deletes the links of other types: the
    compact state of "follow" links is stored under that type, but the links it
    replaces are selected by their target alone. *)
Theorem compact_state_deletes_other_types :
  let block := sample_message 5 10 1 (LinkBody_ (mkLinkBody "block" None (Some 9%Z))) in
  let compact := sample_message 14 20 2 (LinkCompactStateBody_ (mkLinkCompactStateBody "follow" [])) in
  let before := merge_all (StoreDef0 := link_store_def 0) [(5%Z, block)] sample_store in
  let after := merge_all (StoreDef0 := link_store_def 0) [(6%Z, compact)] before in
  get_link_add 0 7 "block" (Some 9%Z) before = Ok (Some block) /\
  get_link_add 0 7 "block" (Some 9%Z) after = Ok None /\
  (exists r, make_compact_state_add_key (StoreDefBase := LinkStoreDef (gmap bytes bytes) 0) block = Ok r /\
    RocksDB_get (store_db after) r = Ok None).
Proof. split; [vm_compute; reflexivity|]. split; [vm_compute; reflexivity|]. eexists. split; vm_compute; reflexivity. Qed.

(** Links and compact states of the same second do not converge: a compact
    state deletes the links up to its own time that are not among its targets,
    while a link is refused only if it is strictly older. Merged link first,
    the link is gone; merged compact state first, both stay. One second apart
    the orders agree. *)
Theorem compaction_diverges_on_equal_times :
  let link ts := sample_message 5 ts 1 (LinkBody_ (mkLinkBody "follow" None (Some 9%Z))) in
  let compact := sample_message 14 20 2 (LinkCompactStateBody_ (mkLinkCompactStateBody "follow" [])) in
  let run ops := get_link_add 0 7 "follow" (Some 9%Z) (merge_all (StoreDef0 := link_store_def 0) ops sample_store) in
  run [(5%Z, link 20%Z); (6%Z, compact)] = Ok None /\
  run [(5%Z, compact); (6%Z, link 20%Z)] = Ok (Some (link 20%Z)) /\
  run [(5%Z, link 19%Z); (6%Z, compact)] = run [(5%Z, compact); (6%Z, link 19%Z)] /\
  run [(5%Z, link 21%Z); (6%Z, compact)] = run [(5%Z, compact); (6%Z, link 21%Z)].
Proof. split_and!; vm_compute; reflexivity. Qed.

(** ** Reactions *)

(** A query by target url fails when the url of another reaction extends
    it: the rows of the longer target have the prefix of the shorter one, the
    key of the message is read at the wrong place, and the message is not
    found. Before that reaction the answer is an empty page, and the query for
    the longer url works. *)
Theorem reactions_by_url_prefix_fail :
  let reaction := sample_reaction MT_ReactionAdd "ab" 10 1 in
  let before : Store (gmap bytes bytes) := sample_store in
  let after := merge_all (StoreDef0 := reaction_store_def 0) [(5%Z, reaction)] before in
  get_reactions_by_target 0 (TargetUrl "a") 0 default_page_options before = Ok (mkMessagesPage [] None) /\
  get_reactions_by_target 0 (TargetUrl "ab") 0 default_page_options after = Ok (mkMessagesPage [message_encode reaction] None) /\
  get_reactions_by_target 0 (TargetUrl "a") 0 default_page_options after =
    Err (not_found "could not get message with key: {:?}").
Proof. split_and!; vm_compute; reflexivity. Qed.
