(* ===== verification/JsTheorems.v ===== *)
(** * Theorems on the bindings

    What a JavaScript client gets from the bindings of [Js.v] and
    [Bindings.v]: event ids without loss, merges in batches, pages of the
    messages of a user. *)

From S2P Require Import Prelude Text Util F64 Db Proto AccountMessage Events Store StoreSpec StoreIndex ReactionStore Convergence.
From S2P Require Import Retention Pages Samples AccountTheorems MerkleTrie Js Bindings.

#[local] Existing Instances sample_def sample_laws.

(** ** Event ids *)
Section EventIds.
Context {V Throw : Type} `{NeonLaws V Throw}.

Lemma generate_id_range now o g id g' :
  (0 <= last_seq g)%Z -> generate_id now o g = (Ok id, g') -> (0 <= id < 2 ^ 53)%Z.
Proof using Type.
  intros Hseq. unfold generate_id, st_bind, st_get, st_lift, st_put, st_ret, sub_u, add_u.
  destruct (default now o <? epoch g)%Z eqn:E1; [done|]. apply Z.ltb_ge in E1. simpl.
  assert (Hfinal : forall ts seq, (0 <= ts)%Z -> (0 <= seq)%Z ->
    (if (2 ^ TIMESTAMP_BITS <=? ts)%Z then (Err (invalid_parameter "timestamp > {} bits"), mkGenerator ts seq (epoch g))
     else if (2 ^ SEQUENCE_BITS <=? seq)%Z then (Err (invalid_parameter "sequence > {} bits"), mkGenerator ts seq (epoch g))
     else (Ok (make_event_id ts seq), mkGenerator ts seq (epoch g))) = (Ok id, g') -> (0 <= id < 2 ^ 53)%Z).
  { intros ts seq Hts Hs. destruct (Z.leb_spec (2 ^ TIMESTAMP_BITS) ts); [done|].
    destruct (Z.leb_spec (2 ^ SEQUENCE_BITS) seq); [done|]. intros [= <- _]. unfold TIMESTAMP_BITS, SEQUENCE_BITS in *.
    rewrite make_event_id_value by lia. lia. }
  destruct (Z.eqb_spec (default now o - epoch g) (last_timestamp g)) as [E2|E2].
  - destruct (last_seq g + 1 <? 2 ^ 64)%Z; [|done]. simpl. intros E. eapply (Hfinal (last_timestamp g) (last_seq g + 1)%Z); [lia|lia|].
    rewrite <- E. by repeat case_match.
  - simpl. intros E. eapply (Hfinal (default now o - epoch g)%Z 0%Z); [lia|lia|]. rewrite <- E. by repeat case_match.
Qed.

(** C18. The number that JavaScript gets for an event id is exact: ids have at
    most 53 bits, 41 of time and 12 of sequence, so the conversion to a
    floating point number loses nothing, and the number read back is the id the
    generator gave out; an error of the generator is an exception. *)
Theorem js_event_ids_exact (now : Z) (args : list V) (g : HubEventIdGenerator) (Hseq : (0 <= last_seq g)%Z) :
  let timestamp := argument_number_opt 64 args 0 in
  match generate_id now timestamp g with
  | (Ok id, g') => exists v x, js_get_next_event_id now args g = (Ok v, g') /\ as_number v = Some x /\ as_u 64 x = id
  | (Err e, g') => js_get_next_event_id now args g = (Err (throw_error (hub_error_display e)), g')
  | (Panic, g') => js_get_next_event_id now args g = (Panic, g')
  | (OutOfFuel, g') => js_get_next_event_id now args g = (OutOfFuel, g')
  end.
Proof using Type*.
  intros timestamp. unfold js_get_next_event_id, st_attempt, st_bind. fold timestamp.
  destruct (generate_id now timestamp g) as [[id|e| |] g'] eqn:E; simpl; try done.
  exists (js_number (f64_of_Z id)), (f64_of_Z id). split_and!; [done|by apply number_law|].
  pose proof (generate_id_range _ _ _ _ _ Hseq E). apply as_u_of_Z; lia.
Qed.
End EventIds.

Lemma js_event_ids_exact_witness :
  exists v x, (js_get_next_event_id 0 [JNumber (f64_of_Z 1700000000000)] (handler_new None None None)).1 = Ok v /\
    as_number v = Some x /\ as_u 64 x = make_event_id 90540800000 0.
Proof.
  pose proof (js_event_ids_exact 0 [JNumber (f64_of_Z 1700000000000)] (handler_new None None None) ltac:(vm_compute; discriminate)) as E.
  cbv zeta in E. destruct (generate_id 0 _ _) as [[id|e| |] g'] eqn:Eg; [|vm_compute in Eg; discriminate Eg..].
  destruct E as (v & x & E & Hv & Hx). exists v, x. rewrite E. vm_compute in Eg. injection Eg as <- _. split_and!; [done|done|].
  rewrite Hx. vm_compute. reflexivity.
Defined.

(** ** Batches *)
Section Batches.
Context {T : Type} `{TransactionDB T} `{!PrefixIteration T} `{!Codec Message, !Codec MessageData, !Codec HubEvent}
  `{!StoreDef T}.
Context {V Throw : Type} `{NeonLaws V Throw}.
Implicit Types (s : Store T).

(** Merging one buffer after the other, each promise awaited. *)
Fixpoint merge_singly (calls : list (Z * V)) s : list (result Throw V) * Store T :=
  match calls with
  | [] => ([], s)
  | (now, v) :: calls =>
      let (r, s') := await (js_merge now [v]) s in
      let (rs, s'') := merge_singly calls s' in (r :: rs, s'')
  end.

(** An item of the answer to a batch says what the single promise says. *)
Definition same_outcome (item : V) (r : result Throw V) : Prop :=
  (exists b, item = js_buffer b /\ r = Ok (js_buffer b)) \/
  (exists e, item = js_string (hub_error_display e) /\ r = Err (throw_error (hub_error_display e))).

Definition returns (r : result Throw V) : Prop := match r with Ok _ | Err _ => True | _ => False end.

(** A single merge that returns has decoded its message. *)
Lemma js_merge_returns now v s :
  returns (await (js_merge now [v]) s).1 ->
  exists b m result s', as_buffer v = Some b /\ decode_argument (Throw := Throw) b = Ok m /\
    on_decoded (Throw := Throw) (merge now) m s = (Ok result, s') /\
    await (js_merge now [v]) s = (js_buffer <$> or_throw (of_sum result), s').
Proof using Type.
  unfold await, js_merge, argument_unwrap, argument. simpl. destruct (as_buffer v) as [b|] eqn:Eb; [|done].
  unfold st_bind, st_lift at 1 2. simpl. destruct (decode_argument b) as [m| | |] eqn:Em; [|..]; try done.
  - destruct (on_decoded (merge now) m s) as [[result| | |] s'] eqn:Er; try done.
    + intros _. exists b, m, result, s'. done.
    + unfold on_decoded, st_attempt in Er. destruct m as [?|m']; [done|]. by destruct (merge now m' s) as [[]].
  - unfold decode_argument in Em. by destruct (decode b).
Qed.

Lemma outcome_of result : same_outcome (js_outcome result) (js_buffer <$> or_throw (of_sum result)).
Proof using Type. destruct result as [e|b]; [right|left]; eauto. Qed.

Lemma merge_messages_singly vs (clock : nat -> Z) : forall s,
  let (rs, s') := merge_singly (imap (fun i v => (clock i, v)) vs) s in
  Forall returns rs ->
  exists messages results, decode_messages (Throw := Throw) vs = Ok messages /\
    merge_messages (Throw := Throw) (imap (fun i m => (clock i, m)) messages) s = (Ok results, s') /\
    Forall2 same_outcome (map js_outcome results) rs.
Proof using Type.
  revert clock. induction vs as [|v vs IH]; intros clock s; [by exists [], []|]. rewrite imap_cons. cbn [merge_singly].
  destruct (await (js_merge (clock 0) [v]) s) as [r s1] eqn:Er.
  specialize (IH (clock ∘ S) s1).
  destruct (merge_singly (imap ((fun i v => (clock i, v)) ∘ S) vs) s1) as [rs s2] eqn:Ers.
  change ((fun i v => (clock i, v)) ∘ S) with (fun i (v : V) => ((clock ∘ S) i, v)) in Ers. rewrite Ers in IH.
  intros [Hr Hrs]%Forall_cons. destruct (IH Hrs) as (messages & results & Ed & Em & Ho).
  destruct (js_merge_returns (clock 0) v s) as (b & m & result & s' & Hb & Hm & Hon & Hr'); [by rewrite Er|].
  rewrite Er in Hr'. injection Hr' as -> ->. exists (m :: messages), (result :: results). split_and!.
  - simpl. rewrite Hb. simpl. rewrite Hm. simpl. by rewrite Ed.
  - rewrite imap_cons. simpl. erewrite st_bind_Ok by exact Hon. erewrite st_bind_Ok by exact Em. done.
  - simpl. constructor; [apply outcome_of|done].
Qed.

(** C15. Merging a batch is merging its messages one after the other: if every
    single merge returns, the batch returns one item for each message, in
    order, the event of the merge or the text of its error, a failed or
    undecodable message does not keep the others from being merged, and the
    store ends the same. *)
Theorem js_batch_is_sequence (clock : nat -> Z) (vs : list V) s
    (Hret : Forall returns (merge_singly (imap (fun i v => (clock i, v)) vs) s).1) :
  exists items, await (js_merge_many clock [js_array vs]) s =
      (Ok (js_array items), (merge_singly (imap (fun i v => (clock i, v)) vs) s).2) /\
    Forall2 same_outcome items (merge_singly (imap (fun i v => (clock i, v)) vs) s).1.
Proof using Type*.
  pose proof (merge_messages_singly vs clock s) as Hm.
  destruct (merge_singly (imap (fun i v => (clock i, v)) vs) s) as [rs s'].
  destruct (Hm Hret) as (messages & results & Ed & Em & Ho). exists (map js_outcome results). split; [|done].
  unfold await, js_merge_many, argument_unwrap, argument. simpl. rewrite array_law. unfold st_bind, st_lift. simpl.
  rewrite Ed. unfold st_ret. by rewrite Em.
Qed.
End Batches.

(** Two messages, and between them a buffer that is no message. *)
Lemma js_batch_is_sequence_witness :
  exists a b, (await (js_merge_many (T := gmap bytes bytes) (fun i => Z.of_nat (5 + i))
    [JArray [JBuffer (encode_to_vec sample_add); JBuffer []; JBuffer (encode_to_vec sample_other)]]) sample_store).1 =
  Ok (JArray [JBuffer a; JString "bad_request.validation_failure/malformed"; JBuffer b]).
Proof.
  destruct (js_batch_is_sequence (T := gmap bytes bytes) (fun i => Z.of_nat (5 + i))
    [JBuffer (encode_to_vec sample_add); JBuffer []; JBuffer (encode_to_vec sample_other)] sample_store) as (items & E & Ho).
  - vm_compute. repeat constructor.
  - vm_compute in Ho. apply (f_equal fst) in E. simpl fst in E at 2.
    inversion Ho as [|x1 r1 l1 l1' H1 Ho1]; subst. inversion Ho1 as [|x2 r2 l2 l2' H2 Ho2]; subst.
    inversion Ho2 as [|x3 r3 l3 l3' H3 Ho3]; subst. inversion Ho3; subst.
    destruct H1 as [(b1 & -> & [= <-])|(e1 & _ & [=])], H2 as [(b2 & _ & [=])|(e2 & -> & [= Ee])], H3 as [(b3 & -> & [= <-])|(e3 & _ & [=])].
    eexists _, _. rewrite Ee. exact E.
Defined.

(** ** Pages *)
Section JsPages.
Context {V Throw : Type} `{NeonLaws V Throw}.

(** The options object of a client: the size, and the token of the last page. *)
Definition page_request (n : nat) (token : option V) : V :=
  js_object
    (let size := {["pageSize" := js_number (f64_of_Z (Z.of_nat n))]} in
     match token with Some t => <["pageToken" := t]> size | None => size end).

Lemma get_page_options_request n (token : option bytes) args i :
  args !! i = Some (page_request n (js_buffer <$> token)) -> (Z.of_nat n < 2 ^ 53)%Z -> token ≠ Some [] ->
  get_page_options args i = Ok (mkPageOptions (Some n) token false).
Proof using Type*.
  intros Hi Hn Ht. unfold get_page_options, argument, page_request in *. rewrite Hi. simpl.
  match goal with |- context [as_object (js_object ?o)] => destruct (object_law o) as (get & -> & Hget) end. simpl.
  unfold get_property_opt, get_property. rewrite !Hget. set (size := js_number (f64_of_Z (Z.of_nat n))).
  destruct token as [t|]; cbn [fmap option_fmap option_map].
  - change ((<["pageToken":=js_buffer t]> {["pageSize":=size]} : gmap string V) !! "pageSize") with (Some size).
    change ((<["pageToken":=js_buffer t]> {["pageSize":=size]} : gmap string V) !! "pageToken") with (Some (js_buffer t)).
    change ((<["pageToken":=js_buffer t]> {["pageSize":=size]} : gmap string V) !! "reverse") with (@None V).
    cbn [default from_option id]. unfold size. rewrite number_not_undefined, number_law, buffer_not_undefined, buffer_law, undefined_is_undefined.
    simpl. rewrite as_u_of_Z, Nat2Z.id by lia. by destruct t.
  - change (({["pageSize":=size]} : gmap string V) !! "pageSize") with (Some size).
    change (({["pageSize":=size]} : gmap string V) !! "pageToken") with (@None V).
    change (({["pageSize":=size]} : gmap string V) !! "reverse") with (@None V).
    cbn [default from_option id]. unfold size. rewrite number_not_undefined, number_law, undefined_is_undefined.
    simpl. by rewrite as_u_of_Z, Nat2Z.id by lia.
Qed.

Lemma js_page_binding {T : Type} `{TransactionDB T} `{!PrefixIteration T} `{!Codec Message, !Codec MessageData, !Codec HubEvent}
    `{!StoreDef T} (s : Store T) f n token : is_fid f -> (Z.of_nat n < 2 ^ 53)%Z -> token ≠ Some [] ->
  await (js_get_all_messages_by_fid [js_number (f64_of_Z f); page_request n (js_buffer <$> token)]) s =
  (encode_messages_to_js_object <$> or_throw (get_all_messages_by_fid f None None (mkPageOptions (Some n) token false) s), s).
Proof using Type*.
  intros Hf Hn Ht. unfold is_fid in Hf.
  assert (E : number_argument_unwrap 32 [js_number (f64_of_Z f); page_request n (js_buffer <$> token)] 0 = Ok f).
  { unfold number_argument_unwrap, argument_unwrap, argument. simpl. rewrite number_law. simpl. by rewrite as_u_of_Z by lia. }
  unfold await, js_get_all_messages_by_fid. unfold st_bind, st_lift at 1. rewrite E. unfold st_lift at 1.
  by rewrite (get_page_options_request n token).
Qed.

(** What a client finds in the object of an answer. *)
Lemma page_object (page : MessagesPage) :
  exists obj get, encode_messages_to_js_object (V := V) page = obj /\ as_object obj = Some get /\
    get_property as_array get "messageBytes" = Ok (map js_buffer (messages_bytes page)) /\
    match next_page_token page with
    | None => is_undefined (get "nextPageToken") = true
    | Some t => is_undefined (get "nextPageToken") = false /\ as_buffer (get "nextPageToken") = Some t
    end.
Proof using Type*.
  unfold encode_messages_to_js_object.
  match goal with |- context [js_object ?o] => destruct (object_law o) as (get & Eo & Hg); exists (js_object o), get end.
  split; [done|]. split; [exact Eo|]. unfold get_property. rewrite !Hg, lookup_insert_eq, lookup_insert_ne, lookup_singleton_eq by done.
  simpl default. rewrite array_law. split; [done|].
  destruct (next_page_token page) as [t|]; [by rewrite buffer_not_undefined, buffer_law|apply undefined_is_undefined].
Qed.

(** C14. A JavaScript client that asks for the messages of a user with a page
    size [n] gets an object with the oldest [n] live messages of the user as
    buffers, from the oldest on. When the page has fewer messages it is all of
    them, and the token is undefined; the token of a full page is a buffer, and
    the messages up to it are exactly those of the page. The store is
    unchanged. *)
Theorem js_client_reads_page {T : Type} `{TransactionDBLaws T} `{!PrefixIteration T, !PrefixIterationLaws T}
    `{!Codec Message, !Codec MessageData, !Codec HubEvent} `{!StoreDef T, !StoreDefLaws}
    (s : Store T) (m : gmap bytes bytes) (A : gmap (Z * bytes) Message) (f : Z) (L : list Message) (n : nat)
    (Hd : holds (store_db s) m) (Hr : store_repr m A) (Hf : is_fid f) (HL : oldest_first A f L)
    (Hn : 0 < n) (Hsize : (Z.of_nat n < 2 ^ 53)%Z) :
  exists obj get es,
    await (js_get_all_messages_by_fid [js_number (f64_of_Z f); page_request n None]) s = (Ok obj, s) /\
    as_object obj = Some get /\
    get_property as_array get "messageBytes" = Ok (map (fun e => js_buffer (message_encode e)) es) /\
    es `prefix_of` L /\
    ((is_undefined (get "nextPageToken") = true /\ es = L /\ length L < n) \/
     exists t, is_undefined (get "nextPageToken") = false /\ as_buffer (get "nextPageToken") = Some t /\ length es = n /\
       forall e, e ∈ L -> (e ∈ es <-> bytes_le (ts_hash_of e) t)).
Proof using Type*.
  set (page := page_of n (fun e => is_message_in_time_range None None e && (is_add_type e || (remove_type_supported && is_remove_type e))) L).
  assert (Hquery : get_all_messages_by_fid f None None (mkPageOptions (Some n) None false) s = Ok page).
  { unfold get_all_messages_by_fid. rewrite (user_page_spec s m A f L _ (Some n) Hd Hr Hf HL).
    unfold effective_size, page. simpl. by rewrite Nat.max_r. }
  destruct (page_of_holds A f L (fun e => is_message_in_time_range None None e && (is_add_type e || (remove_type_supported && is_remove_type e)))
    n HL Hn) as (Hb & Hpre & Htok). fold page in Hb, Htok. rewrite kept_every in *.
  2,3,4: intros e He; destruct (oldest_first_messages m A f L Hr HL e He) as [Hv _]; rewrite all_messages_filter by done;
    by apply always_in_time_range.
  destruct (page_object page) as (obj & get & Eobj & Eget & Em & Et). exists obj, get, (take n L). split_and!; [|done| |done|].
  - pose proof (js_page_binding s f n None Hf Hsize) as E. simpl in E. rewrite E by done.
    rewrite Hquery. simpl. by rewrite Eobj.
  - rewrite Em, Hb. by rewrite map_map.
  - destruct (next_page_token page) as [t|].
    + right. exists t. destruct Et, Htok. by split_and!.
    + left. destruct Htok as [Ek Hl]. rewrite Ek in Hl. by split_and!.
Qed.
End JsPages.

(** The older of the two messages of the sample, on a page of one. *)
Lemma js_client_reads_page_witness :
  exists obj get e, await (js_get_all_messages_by_fid [JNumber (f64_of_Z 7); page_request 1 None])
      (merge_all [(5%Z, sample_add); (6%Z, sample_other)] sample_store) =
    (Ok obj, merge_all [(5%Z, sample_add); (6%Z, sample_other)] sample_store) /\
    as_object obj = Some get /\ get_property (Throw := string) as_array get "messageBytes" = Ok [JBuffer (message_encode e)].
Proof.
  destruct sample_run_repr as (m & Hd & Hr).
  destruct (js_client_reads_page (V := JsV) (Throw := string) _ m _ 7 [sample_other; sample_add] 1 Hd Hr sample_fid
    sample_oldest_first (Nat.lt_0_succ 0) ltac:(vm_compute; reflexivity)) as (obj & get & es & E & Eo & Em & _ & Ht).
  assert (Hl : length es = 1).
  { destruct Ht as [(_ & _ & Hlt)|(t & _ & _ & Hl & _)]; [|exact Hl]. apply Nat.lt_irrefl in Hlt as [] || (vm_compute in Hlt; lia). }
  destruct es as [|e [|]]; try discriminate Hl. exists obj, get, e. split_and!; [exact E|exact Eo|exact Em].
Defined.
